(* ===== verification/_CoqProject ===== *)
-Q . S2P
Prelude.v
Prog.v
Rely.v
GoStrings.v
Log.v
HelmDecode.v
K8s.v
GoHeap.v
Deep.v
CrdTypes.v
DeepCopy.v
Lib.v
Entities.v
ModelSrv.v
Registry.v
RuleRepo.v
CrdCheck.v
CrdLog.v
State.v
Convert.v
RefFindings.v
Evaluator.v
CrdControllers.v
Glob.v
GlobLanguage.v
Whitelist.v
Rbac.v
Instances.v
HelmRelease.v
HelmHistory.v
Races.v
CrdReporter.v
Namespace.v
Image.v
ImageScan.v
Sensor.v
Subscribers.v
ReplicationLog.v
Options.v
System.v
Typing.v
Footprint.v
Isolation.v
Bindings.v
Owners.v
Main.v
Wiring.v
Scheme.v
Mirror.v
NamespaceMirror.v
Requeue.v
Concrete.v
Witnesses.v
Scenarios.v
CopyScenarios.v
