(* ===== verification/Prelude.v ===== *)
(** * modelsrv-k8s-sensor: a verification library

    The program watches a Kubernetes cluster and keeps a model of it in an
    embedded modelsrv store, from where it is replicated. This library models
    the decision logic of [src/internal] and [src/cmd] as executable functions
    and proves what its components promise one another and their users.

    ** How the program works

    A controller manager calls one reconciler per kind of object. A reconciler
    gets the object (or learns that it is gone), converts it to a resource of
    the model, adds or deletes that resource, keeps a name index that maps
    names to ids (the only way to delete a resource once its object is gone),
    and raises or clears findings: about references to other resources, about
    missing annotations, and about the conditions of FindingRule objects. The
    reconcilers share the store, the name index and the registry of rules;
    roles wake waiting bindings through channels; Helm releases hand their
    SystemInstance to workloads through the index; the Namespace reconciler
    tells the CRD reporter where its findings belong.

    ** Layout

    - [Prelude], [Prog]: notations, strings and lists; handlers as trees of
      atomic operations, running alone ([run], [exec], [result]) and interleaved
      ([pstep], [sched]), loops, invariants of interleavings, termination of
      every run ([pstep_sn]) and total correctness of a thread ([thread_ends]).
    - [Rely]: the program logics of interleaved handlers: invariants that see
      the results of operations ([safe]), and rely-guarantee reasoning ([wp]
      against the steps of an environment, [guar] for what a thread does).
    - [GoStrings], [Glob], [Log]: the functions of Go's standard library the
      sensor uses; [Glob] is [filepath.Match] with its error; lines of a log.
      [GlobLanguage]: the grammar of its patterns and what they mean.
    - [K8s], [Entities]: the Kubernetes objects read ([src/api/k8s/v1alpha1])
      and the modelsrv resources built, field by field.
    - [GoHeap], [Deep], [CrdTypes], [DeepCopy]: [src/api/k8s/v1alpha1] in the
      memory of Go. [GoHeap] is memory as blocks, pointers into structs, slices
      and the monad of code that uses them; [Deep] what a value owns and the
      contract of code that copies it ([copies]); [CrdTypes] the types of the
      package; [DeepCopy] the methods of [zz_generated.deepcopy.go].
    - [Lib], [ModelSrv]: third-party code, as classes: UUIDs, CEL, conversion to
      unstructured objects ([Lib]); the store ([ModelSrv]) with the laws its
      clients rely on ([ModelSrvLaws], [FindingsReliable]; [StoreLocal] and
      [StoreExact] where a theorem needs more). [HelmCodecs] in
      [HelmDecode] holds base64, gzip, JSON and YAML.
    - [State]: the shared state [World] and its atomic operations.
    - [HelmDecode]: [internal/helm/decode.go], [encode.go].
    - [Registry]: [controller/registry.go], the name index.
    - [RuleRepo]: [rule_registry.go] and [findingrule_controller.go].
    - [CrdCheck], [CrdLog], [CrdReporter]: [internal/crdcheck/crdcheck.go]: the
      check and its result, the same with its log, and the reporter.
    - [Convert]: [controller/util.go].
    - [RefFindings]: [reference_findings.go].
    - [Evaluator]: [evaluator.go], [rule_evaluation.go].
    - [CrdControllers]: [system_], [api_], [component_] and
      [systeminstance_controller.go].
    - [Instances]: [workload_controller.go], [apiinstance_controller.go].
    - [Whitelist], [Rbac]: [rbac_whitelist.go]; [role_controller.go],
      [rolebinding_controller.go], [rbac_finding_types.go].
    - [HelmRelease], [HelmHistory], [Races]: [helmrelease_controller.go]; what
      the history of a release hides; a release and a workload interleaved.
    - [Namespace]: [namespace_controller.go].
    - [Image], [ImageScan]: [image.go], [image_scan_controller.go].
    - [Sensor]: [internal/sensor] (identity, replication guard), and the effect
      of [cmd/subscribers.go]; [Subscribers]: the same file with its probes and
      its log; [ReplicationLog]: [internal/sensor/replication_log.go].
    - [Options]: the command line of [cmd/main.go] and [flag.Parse].
    - [System]: [cmd/main.go]: startup, the controllers with the parameters
      [main] gives them, and their events ([handle]).
    - [Main]: the process: what each controller watches ([SetupWithManager]),
      and [main] from its arguments to its exit.
    - [Wiring]: the structs of the reconcilers, their constructors, and the
      objects [main] allocates and connects through pointers.
    - [Scheme]: the registration of the types, [groupversion_info.go], the
      [init] functions of the package and that of [main.go].
    - [Typing], [Footprint], [Isolation], [Mirror], [Requeue], ...: properties
      of all handlers together. [Typing] is the well-formedness of what is stored; [Footprint]
      the table of what each handler writes, the source of the environments of
      [Rely]; [Isolation] what each handler depends on, and the groups of
      controllers that share state; [Mirror] and [NamespaceMirror] the contracts
      of the CRD controllers and of the Namespace controller; [Requeue] the way of
      a waiting binding through the channels; [Bindings] what the controllers
      of roles and bindings owe every binding; [Owners] what those of instances
      and releases owe every instance.
    - [Concrete], [Witnesses], [Scenarios], [CopyScenarios]: sample instances
      of the interfaces, and the theorems with hypotheses applied to concrete inputs and runs.

    Reconcilers that share their text in the source share a definition here:
    [crd_reconcile] for the four CRD kinds, and [instance_reconcile] over a
    record [InstanceOps] of what differs between workloads and API resources.

    ** What the theorems show

    - The whole system, for every interleaving of the handlers of every list of
      events: an invariant from startup on ([controllers_invariant]), the
      well-formedness of all stored resources ([controllers_well_typed]), what
      no handler touches ([handlers_stay_within]), the equivalence of concurrent
      groups of controllers with the same groups one after the other
      ([workers_serializable]), and the life of the sensor's
      Node ([main_node_lifecycle]).
    - Abstract specifications and refinements: while all other controllers run,
      a CRD controller ends with the mirror of its events
      ([crd_controllers_refine_mirror]) and the Namespace controller with the
      cluster of its events ([namespaces_refine_cluster]); the name index refines three flat
      tables ([NameIndex_refines_tables]); whatever runs beside it, a scan of the
      Pods mirrors the images ([scan_mirrors_among_others]); the CRD reporter refines a two-field
      attachment machine ([Reporter_refines_attachment]).
    - Termination and progress, in every run: a requeue channel is emptied
      ([drain_empties_channel]) and a binding that waits for its role gets it
      ([waiting_binding_gets_role]); when they take turns, the controllers of
      roles and bindings forget no binding ([no_binding_forgotten]), and those of
      instances and releases leave no instance with a known owner unlinked
      ([owned_instances_linked]).
    - The process: [main_runs]; the command line is read as it is written
      ([parse_settings]); the objects [main] connects behave as the model of the
      sensor says ([main_builds_sensor]); no object has two reconcilers
      ([one_reconciler_per_object]); diagnostics change nothing
      ([registerSubscribers_calls], [Check_run_spec]).
    - Reconcilers: what holds after a reconcile that found its object
      ([..._found], [crd_reconcilers_mirror], [HelmReleaseReconciler_deployed],
      [ImageScanReconciler_mirrors]) and after one that did not
      ([..._deleted]); which resources it leaves alone.
    - Cooperation: a late role resolves its waiting bindings
      ([late_role_resolves]); a namespace waits for kube-system
      ([namespace_bootstrap]); a Helm release and its workloads meet in both
      orders ([helm_workload_orders]); revisions of a release arrive in any
      order ([HelmReleaseReconciler_revisions]).
    - The data: a deep copy denotes what its source denotes and shares no memory
      with it ([DeepCopyObject_independent]); the scheme knows every type that
      is watched ([scheme_knows_watched]).
    - Pure functions: formats accepted and results ([SecretNameParts_iff],
      [parseDate_iff], [ParseChecklist_spec], [CRDCheck_spec],
      [RuleRepo_Set_spec], [LoadRBACWhitelist_spec], [IsWhitelisted_language], ...), round trips, and the
      aggregation of images ([collectImageObservations_wf]).
    - Limits of the program, proved of the model: [binding_role_race],
      [helm_workload_race], [failed_delete_is_lost], [failed_upgrade_hides_release],
      [stale_listing_hides_release], [recreated_role_not_relinked], [cluster_announced_too_early],
      [APIInstance_name_clash], [SystemReconciler_id_change_leaks],
      [helm_overrides_annotation], [helm_cr_collision_leaks],
      [pull_failure_depends_on_order], [NamespaceReconciler_unindexed_fails],
      [ReplicationGuard_truncates].

    ** Modelling decisions

    - One call that takes one mutex is one atomic step; the methods of the CRD
      reporter, which hold their mutex while they use the store, are [critical]
      sections. Theorems about [exec] speak of a handler that runs alone.
    - [Model_Add] stands for all [AddX] methods, [Model_Delete] for all
      [DeleteX], on a store indexed by resource family. Setters on a resource
      that is already stored ([correlateResources] calls [SetSystemInstance]
      before it adds the resource again) take effect at the add.
    - The laws of the store leave findings out of the frame of operations on
      other resources, because modelsrv may raise findings of its own; where a
      theorem needs a delete that raises none it says so ([delete_silent]).
    - In [workers_serializable] a group of controllers that share state has one
      worker. The controllers of a group may run at the same time, and then the
      result can differ from every sequential one: [binding_role_race] and
      [helm_workload_race] are such runs.
    - The reconcilers only read the objects they get, so they are modelled on
      values ([K8s]); the deep copies are about memory, where a block holds one
      value, a pointer in a struct points to a whole block, and a slice is a
      window of a block that holds an array.
    - What the Kubernetes client returns is an argument of the handler
      ([GetResult]). Errors are values; only errors a caller can see are kept.
    - Go chooses the order of every range over a map anew. The choice is an
      argument of [range_map] and [range_set], a permutation of the entries for
      each, and of [GetArtifacts], which lists a map of the store; a handler has
      one for every range it executes, and gets them with its event ([EvRole],
      [EvPods]). So the theorems about all events are about all orders.
    - What is assumed of the store beyond its laws: [workers_serializable] and
      [scan_mirrors_among_others] assume that it treats each resource by itself
      and may refuse any ([StoreLocal]); [namespaces_refine_cluster],
      [no_binding_forgotten] and [owned_instances_linked], that it also accepts
      every resource and refuses only deletes of what it does not have
      ([StoreExact]). All other theorems hold of stores that refuse, unless
      their hypotheses say what is accepted ([accepts]; [FindingsReliable] for
      findings).
    - [int] is 64 bits wide with wrap-around ([wrap64]); strings are bytes.
    - Fuel: the loops of [Glob] and [TrimSpace] use it, bounded by the length of
      their strings; [Match_terminates] and [TrimSpace_done] prove that it is
      enough. All other recursion is structural.

    ** What is not modelled

    The lines the reconcilers log (those of the functions that exist to log are
    in [CrdLog], [Subscribers] and [ReplicationLog]); metrics, TLS, health
    checks and the HTTP server, which are options of libraries; the copies
    of object metadata, [runtime.Scheme] and [scheme.Builder], which are
    apimachinery's (parameters of [DeepCopy] and [Scheme]); the workqueues and rate limits of controller-runtime, of which the theorems
    assume nothing: every order of events is covered. The manager runs until a
    signal or an error as one step of [main], whose result is a parameter; the
    exit of the process does not stop the threads of the other handlers in
    [main_node_lifecycle], which holds whatever they do afterwards. *)

From Stdlib Require Export Ascii ZArith Lia.
From stdpp Require Export base list gmap sets strings countable.

(** ** Scope of the development's notations *)
Declare Scope sensor_scope.
Delimit Scope sensor_scope with sensor.
Open Scope sensor_scope.

(** The decision of a decidable proposition, as a boolean: Go's [==]. *)
Notation "x =?= y" := (bool_decide (x = y)) (at level 70) : sensor_scope.

(** ** Hint databases *)
Create HintDb sensor.
Create Rewrite HintDb gostr.

(** ** Strings *)

Lemma string_app_assoc (s1 s2 s3 : string) : s1 +:+ (s2 +:+ s3) = (s1 +:+ s2) +:+ s3.
Proof. induction s1 as [|c s1 IH]; [done|]. change (String c (s1 +:+ (s2 +:+ s3)) = String c ((s1 +:+ s2) +:+ s3)). by rewrite IH. Qed.

Lemma string_app_nil_r (s : string) : s +:+ "" = s.
Proof. induction s as [|c s IH]; [done|]. change (String c (s +:+ "") = String c s). by rewrite IH. Qed.

Lemma string_app_nil_l (s : string) : "" +:+ s = s.
Proof. done. Qed.

Lemma string_app_cons (c : ascii) (s t : string) : String c s +:+ t = String c (s +:+ t).
Proof. done. Qed.

Lemma string_length_app (s t : string) :
  String.length (s +:+ t) = String.length s + String.length t.
Proof. induction s as [|c s IH]; [done|]. rewrite string_app_cons. simpl. by rewrite IH. Qed.

#[export] Hint Rewrite string_app_cons string_app_nil_r string_app_nil_l string_length_app : gostr.

Lemma string_app_inv_l (s t1 t2 : string) : s +:+ t1 = s +:+ t2 → t1 = t2.
Proof. induction s as [|c s IH]; [done|]. rewrite !string_app_cons. intros ?; simplify_eq. auto. Qed.

Lemma string_app_inv_r (t1 t2 s : string) : t1 +:+ s = t2 +:+ s → t1 = t2.
Proof.
  revert t2. induction t1 as [|c t1 IH]; intros [|d t2]; try done.
  - intros H. apply (f_equal String.length) in H. autorewrite with gostr in H. simpl in H.
    autorewrite with gostr in H. lia.
  - intros H. apply (f_equal String.length) in H. autorewrite with gostr in H. simpl in H.
    autorewrite with gostr in H. lia.
  - rewrite !string_app_cons. intros H. simplify_eq. f_equal. eauto.
Qed.

(** The characters of a string, for [∀]/[∃] statements about them. *)
Fixpoint chars (s : string) : list ascii :=
  match s with EmptyString => [] | String c s => c :: chars s end.

Lemma chars_app (s t : string) : chars (s +:+ t) = chars s ++ chars t.
Proof. induction s as [|c s IH]; [done|]. rewrite string_app_cons. simpl. by rewrite IH. Qed.

#[export] Hint Rewrite chars_app : gostr.

(** ** Lists *)

Lemma list_filter_none {A} (P : A → Prop) `{!∀ x, Decision (P x)} (l : list A) :
  Forall (λ x, ¬ P x) l → filter P l = [].
Proof. induction 1 as [|x l Hx _ IH]; [done|]. rewrite filter_cons. by rewrite decide_False. Qed.

Lemma list_filter_all {A} (P : A → Prop) `{!∀ x, Decision (P x)} (l : list A) :
  Forall P l → filter P l = l.
Proof. induction 1 as [|x l Hx _ IH]; [done|]. rewrite filter_cons. by rewrite decide_True, IH. Qed.

(** ** Options *)

Lemma default_None_iff {A} (d : A) (o : option A) :
  default d o ≠ d → ∃ x, o = Some x ∧ x ≠ d.
Proof. destruct o as [x|]; simpl; [eauto|done]. Qed.

Lemma ex_Some_eq {A} (y : A) (P : A → Prop) : (∃ x, Some y = Some x ∧ P x) ↔ P y.
Proof. split; [by intros (x & [= <-] & H)|eauto]. Qed.

Lemma ex_None_eq {A} (P : A → Prop) : (∃ x, None = Some x ∧ P x) ↔ False.
Proof. by split; [intros (x & ? & _)|]. Qed.
