(* ===== verification/Prog.v ===== *)
(** * Prog: handlers as sequences of atomic operations

    A reconciler is a [prog]: a tree of atomic operations on the shared state
    [W] (each operation is one call that takes the mutex of the object it
    touches) ending in a result. [run] executes a handler alone; [pstep] and
    [sched] interleave several of them at the granularity of the atomic
    operations, which is what the goroutines of the controller manager do. *)

From S2P Require Import Prelude.

Declare Scope prog_scope.
Delimit Scope prog_scope with prog.

Inductive prog (W A : Type) : Type :=
| Ret (a : A)
| Act {B : Type} (op : W → B * W) (k : B → prog W A).
Arguments Ret {W A} a.
Arguments Act {W A B} op k.

Fixpoint bind {W A B} (p : prog W A) (f : A → prog W B) : prog W B :=
  match p with
  | Ret a => f a
  | Act op k => Act op (λ b, bind (k b) f)
  end.

Notation "x <- p ;; q" := (bind p (λ x, q))
  (at level 100, p at next level, right associativity) : prog_scope.
Notation "p ;; q" := (bind p (λ _, q)) (at level 100, right associativity) : prog_scope.
Open Scope prog_scope.

(** One atomic operation that returns a value, changes the state, or both. *)
Definition atomic {W B} (op : W → B * W) : prog W B := Act op Ret.
Definition reading {W B} (f : W → B) : prog W B := Act (λ w, (f w, w)) Ret.
Definition writing {W} (f : W → W) : prog W unit := Act (λ w, (tt, f w)) Ret.

(** [for _, x := range l { body x }] over a fixed list. *)
Fixpoint for_each {W X} (l : list X) (body : X → prog W unit) : prog W unit :=
  match l with
  | [] => Ret tt
  | x :: l => body x ;; for_each l body
  end.

(** ** Running a handler alone *)
Fixpoint run {W A} (p : prog W A) (w : W) : A * W :=
  match p with
  | Ret a => (a, w)
  | Act op k => let r := op w in run (k r.1) r.2
  end.

Definition exec {W A} (p : prog W A) (w : W) : W := (run p w).2.
Definition result {W A} (p : prog W A) (w : W) : A := (run p w).1.

(** A critical section: [p] runs while a mutex is held, and every other user of
    the mutex sees it as one step. *)
Definition critical {W B} (p : prog W B) : prog W B := Act (run p) Ret.

Section run.
Context {W : Type}.

Lemma run_bind {A B} (p : prog W A) (f : A → prog W B) w :
  run (bind p f) w = run (f (result p w)) (exec p w).
Proof.
  revert w. induction p as [a|C op k IH]; intros w; [done|].
  simpl. rewrite IH. done.
Qed.

Lemma exec_bind {A B} (p : prog W A) (f : A → prog W B) w :
  exec (bind p f) w = exec (f (result p w)) (exec p w).
Proof. unfold exec at 1. by rewrite run_bind. Qed.

Lemma result_bind {A B} (p : prog W A) (f : A → prog W B) w :
  result (bind p f) w = result (f (result p w)) (exec p w).
Proof. unfold result at 1. by rewrite run_bind. Qed.

Lemma exec_Ret {A} (a : A) (w : W) : exec (Ret a) w = w.
Proof. done. Qed.
Lemma result_Ret {A} (a : A) (w : W) : result (Ret a) w = a.
Proof. done. Qed.
Lemma exec_atomic {B} (op : W → B * W) w : exec (atomic op) w = (op w).2.
Proof. unfold exec. simpl. done. Qed.
Lemma result_atomic {B} (op : W → B * W) w : result (atomic op) w = (op w).1.
Proof. done. Qed.
Lemma exec_reading {B} (f : W → B) w : exec (reading f) w = w.
Proof. done. Qed.
Lemma result_reading {B} (f : W → B) w : result (reading f) w = f w.
Proof. done. Qed.
Lemma exec_writing (f : W → W) w : exec (writing f) w = f w.
Proof. done. Qed.
Lemma result_writing (f : W → W) w : result (writing f) w = tt.
Proof. done. Qed.

Lemma exec_critical {A} (p : prog W A) w : exec (critical p) w = exec p w.
Proof. done. Qed.
Lemma result_critical {A} (p : prog W A) w : result (critical p) w = result p w.
Proof. done. Qed.

Lemma run_pair {A} (p : prog W A) w : run p w = (result p w, exec p w).
Proof. unfold result, exec. by destruct (run p w). Qed.

Lemma exec_for_each_nil {X} (body : X → prog W unit) w : exec (for_each [] body) w = w.
Proof. done. Qed.
Lemma exec_for_each_cons {X} (body : X → prog W unit) x l w :
  exec (for_each (x :: l) body) w = exec (for_each l body) (exec (body x) w).
Proof. simpl. by rewrite exec_bind. Qed.

(** A relation that every iteration establishes between its two ends, and
    that composes, holds of the whole loop. *)
Lemma exec_for_each_ind {X} (R : W → W → Prop) (body : X → prog W unit) l :
  (∀ w, R w w) → (∀ w1 w2 w3, R w1 w2 → R w2 w3 → R w1 w3) →
  (∀ x w, x ∈ l → R w (exec (body x) w)) →
  ∀ w, R w (exec (for_each l body) w).
Proof.
  intros Hrefl Htrans. induction l as [|x l IH]; intros Hb w; [apply Hrefl|].
  rewrite exec_for_each_cons. eapply Htrans; [apply Hb; left|].
  apply IH. intros y w' Hy. apply Hb. by right.
Qed.

(** What one iteration establishes and the others keep holds at the end. *)
Lemma exec_for_each_establishes {X} (R : W → W → Prop) (P : W → Prop) (body : X → prog W unit) l x :
  (∀ y w, R w (exec (body y) w)) → (∀ w w', R w w' → P w → P w') →
  (∀ w, P (exec (body x) w)) → x ∈ l → ∀ w, P (exec (for_each l body) w).
Proof.
  intros Hb Hstable Hx Hin.
  assert (∀ l w, P w → P (exec (for_each l body) w)) as Hkeep.
  { intros l'. induction l' as [|y l' IH]; intros w HP; [done|].
    rewrite exec_for_each_cons. eauto. }
  induction Hin as [l|y l Hin IH]; intros w; rewrite exec_for_each_cons; auto.
Qed.

(** The same when the iterations start in states related to the first one. *)
Lemma exec_for_each_establishes_from {X} (R : W → W → Prop) (P : W → Prop) (body : X → prog W unit) l x w0 :
  (∀ w, R w w) → (∀ w1 w2 w3, R w1 w2 → R w2 w3 → R w1 w3) →
  (∀ y w, y ∈ l → R w (exec (body y) w)) → (∀ w w', R w w' → P w → P w') →
  (∀ w, R w0 w → P (exec (body x) w)) → x ∈ l → P (exec (for_each l body) w0).
Proof.
  intros Hrefl Htrans Hb Hstable Hx Hin.
  assert (∀ w, R w0 w → P (exec (for_each l body) w)) as H; [|by apply H].
  clear - Hb Hstable Hx Hin Htrans.
  induction l as [|y l IH]; [by apply not_elem_of_nil in Hin|].
  assert (∀ l', (∀ z w, z ∈ l' → R w (exec (body z) w)) → ∀ w, P w → P (exec (for_each l' body) w)) as Hkeep.
  { induction l' as [|z l' IHl]; intros Hb' w HP; [done|]. rewrite exec_for_each_cons.
    apply IHl; [intros; apply Hb'; by right|]. eapply Hstable; [apply Hb'; left|done]. }
  intros w Hw. rewrite exec_for_each_cons. apply elem_of_cons in Hin as [->|Hin].
  - apply Hkeep; [intros; apply Hb; by right|]. by apply Hx.
  - apply IH; [intros; apply Hb; by right|done|]. eapply Htrans; [done|]. apply Hb. left.
Qed.
End run.

Create Rewrite HintDb run.
#[export] Hint Rewrite @exec_bind @result_bind @exec_Ret @result_Ret @exec_atomic @result_atomic
  @exec_reading @result_reading @exec_writing @result_writing @exec_critical @result_critical @exec_for_each_nil
  @exec_for_each_cons : run.

(** ** Interleavings *)
Section pool.
Context {W A : Type}.

(** One thread of the pool performs its next atomic operation. *)
Inductive pstep : list (prog W A) * W → list (prog W A) * W → Prop :=
| pstep_thread ts w i B (op : W → B * W) k :
    ts !! i = Some (Act op k) →
    pstep (ts, w) (<[i := k (op w).1]> ts, (op w).2).

(** The first thread reads. *)
Lemma pstep_reading {B C} (f : W → B) (k1 : B → prog W C) (k2 : C → prog W A) ts w :
  pstep (bind (bind (reading f) k1) k2 :: ts, w) (bind (k1 (f w)) k2 :: ts, w).
Proof.
  exact (pstep_thread (bind (bind (reading f) k1) k2 :: ts) w 0 B (λ w, (f w, w))
           (λ b, bind (k1 b) k2) eq_refl).
Qed.

(** The executable scheduler: let thread [i] make one step, for each [i] of
    the schedule; an index whose thread has finished is skipped. *)
Definition sched1 (i : nat) (c : list (prog W A) * W) : list (prog W A) * W :=
  match c.1 !! i with
  | Some (Act op k) => (<[i := k (op c.2).1]> c.1, (op c.2).2)
  | _ => c
  end.
Definition sched (sch : list nat) (c : list (prog W A) * W) : list (prog W A) * W :=
  foldl (λ c i, sched1 i c) c sch.

Lemma sched1_steps i c : rtc pstep c (sched1 i c).
Proof.
  destruct c as [ts w]. unfold sched1. simpl.
  destruct (ts !! i) as [[a|B op k]|] eqn:E; [done| |done].
  apply rtc_once. by constructor.
Qed.

(** Every schedule is an interleaving. *)
Lemma sched_steps sch c : rtc pstep c (sched sch c).
Proof.
  revert c. induction sch as [|i sch IH]; intros c; [done|]. simpl.
  etrans; [apply sched1_steps|apply IH].
Qed.

(** Running a thread to completion without interference is an interleaving. *)
Lemma run_steps (ts : list (prog W A)) i p w :
  ts !! i = Some p → rtc pstep (ts, w) (<[i := Ret (result p w)]> ts, exec p w).
Proof.
  revert ts w. induction p as [a|B op k IH]; intros ts w Hi.
  - rewrite result_Ret, exec_Ret. by rewrite list_insert_id.
  - eapply rtc_l; [by constructor|].
    replace (<[i:=Ret (result (Act op k) w)]> ts) with
      (<[i:=Ret (result (k (op w).1) (op w).2)]> (<[i:=k (op w).1]> ts))
      by by rewrite list_insert_insert_eq.
    apply IH. apply list_lookup_insert_eq. by eapply lookup_lt_Some.
Qed.

(** ** Every run ends

    A program is a finite tree, so a pool of them makes finitely many steps,
    whatever the scheduler does and the operations return. *)
Definition next (p p' : prog W A) : Prop :=
  match p with Ret _ => False | Act op k => ∃ b, p' = k b end.

Inductive threads_step : list (prog W A) → list (prog W A) → Prop :=
| ts_here p p' ts : next p p' → threads_step (p :: ts) (p' :: ts)
| ts_there p ts ts' : threads_step ts ts' → threads_step (p :: ts) (p :: ts').

Lemma threads_step_sn_cons p ts : sn threads_step ts → sn threads_step (p :: ts).
Proof.
  revert ts. induction p as [a|B op k IHk]; intros ts Hts; induction Hts as [ts Hts IHts]; constructor;
    intros ts' Hstep; inversion Hstep as [? p' ? Hp|? ? ts'' Ht]; subst.
  - done.
  - by apply IHts.
  - destruct Hp as [b ->]. by apply IHk.
  - by apply IHts.
Qed.

Lemma threads_step_sn ts : sn threads_step ts.
Proof. induction ts; [|by apply threads_step_sn_cons]. constructor. intros ts' H. inversion H. Qed.

Lemma pstep_threads (c c' : list (prog W A) * W) : pstep c c' → threads_step c.1 c'.1.
Proof.
  intros [ts w i B op k Hi]. simpl. revert i Hi. induction ts as [|p ts IH]; intros [|i] Hi; [done..| |].
  - injection Hi as ->. constructor. by eexists.
  - simpl. constructor. by apply IH.
Qed.

Lemma pstep_sn (c : list (prog W A) * W) : sn pstep c.
Proof.
  remember c.1 as ts eqn:E. revert c E. induction (threads_step_sn ts) as [ts _ IH]. intros c ->.
  constructor. intros c' H. eapply IH; [by apply pstep_threads|done].
Qed.

(** When no thread can move, all have returned. *)
Lemma nf_returned (c : list (prog W A) * W) i p : nf pstep c → c.1 !! i = Some p → ∃ a, p = Ret a.
Proof.
  destruct c as [ts w], p as [a|B op k]; [by exists a|]. intros Hnf Hi. exfalso. apply Hnf.
  eexists. by apply (pstep_thread ts w i).
Qed.

(** Total correctness of a thread: no run is infinite, at its end the thread
    has returned, and once it has, [Q] holds, whatever the others do later. *)
Definition thread_ends (i : nat) (Q : A → W → Prop) (c : list (prog W A) * W) : Prop :=
  sn pstep c ∧
  ∀ c', rtc pstep c c' →
    (nf pstep c' → ∃ a, c'.1 !! i = Some (Ret a)) ∧
    (∀ a, c'.1 !! i = Some (Ret a) → Q a c'.2).

(** ** Invariants of every interleaving

    [ops_preserve I p]: each atomic operation [p] may perform, after whatever
    results the earlier ones returned, preserves [I]. *)
Fixpoint ops_preserve (I : W → Prop) (p : prog W A) : Prop :=
  match p with
  | Ret _ => True
  | Act op k => (∀ w, I w → I (op w).2) ∧ ∀ b, ops_preserve I (k b)
  end.

Lemma pstep_preserves (I : W → Prop) c c' :
  pstep c c' → Forall (ops_preserve I) c.1 → I c.2 →
  Forall (ops_preserve I) c'.1 ∧ I c'.2.
Proof.
  intros [ts w i B op k Hi] Hts HI. simpl in *.
  pose proof (Forall_lookup_1 _ _ _ _ Hts Hi) as [Hop Hk].
  split; [|auto]. apply Forall_insert; auto.
Qed.

(** An invariant of the atomic operations holds in every state an
    interleaving of the handlers can reach. *)
Lemma interleaving_preserves (I : W → Prop) c c' :
  rtc pstep c c' → Forall (ops_preserve I) c.1 → I c.2 → I c'.2.
Proof.
  intros Hsteps. induction Hsteps as [c|c1 c2 c3 H12 _ IH]; [done|].
  intros Hts HI. destruct (pstep_preserves I _ _ H12 Hts HI). auto.
Qed.
End pool.

(** In particular in the state in which a handler that runs alone ends. *)
Lemma exec_preserves {W A} (I : W → Prop) (p : prog W A) w : ops_preserve I p → I w → I (exec p w).
Proof.
  revert w. induction p as [a|B op k IH]; intros w; [done|]. intros [Hop Hk] HI. apply IH; auto.
Qed.

Lemma ops_preserve_bind {W A B} (I : W → Prop) (p : prog W A) (f : A → prog W B) :
  ops_preserve I p → (∀ a, ops_preserve I (f a)) → ops_preserve I (bind p f).
Proof. induction p as [a|C op k IH]; simpl; [auto|]. intros [Hop Hk] Hf. split; auto. Qed.

Lemma ops_preserve_Ret {W A} (I : W → Prop) (a : A) : ops_preserve I (Ret (W:=W) a).
Proof. done. Qed.

Lemma ops_preserve_reading {W B} (I : W → Prop) (f : W → B) : ops_preserve I (reading f).
Proof. by split. Qed.

Lemma ops_preserve_atomic {W B} (I : W → Prop) (op : W → B * W) :
  (∀ w, I w → I (op w).2) → ops_preserve I (atomic op).
Proof. by split. Qed.

Lemma ops_preserve_writing {W} (I : W → Prop) (f : W → W) :
  (∀ w, I w → I (f w)) → ops_preserve I (writing f).
Proof. by split. Qed.

Lemma ops_preserve_for_each {W X} (I : W → Prop) (l : list X) (body : X → prog W unit) :
  (∀ x, ops_preserve I (body x)) → ops_preserve I (for_each l body).
Proof. intros Hb. induction l as [|x l IH]; [done|]. by apply ops_preserve_bind. Qed.

Lemma ops_preserve_critical {W B} (I : W → Prop) (p : prog W B) :
  ops_preserve I p → ops_preserve I (critical p).
Proof. intros Hp. split; [|done]. intros w. by apply exec_preserves. Qed.

Create HintDb preserve.
#[export] Hint Resolve ops_preserve_bind ops_preserve_Ret ops_preserve_reading
  ops_preserve_for_each ops_preserve_critical : preserve.

(** Prove that a handler preserves an invariant, operation by operation, from
    what the hints say of its operations. *)
Ltac preserve :=
  repeat first
    [ progress intros
    | progress cbv zeta
    | solve [auto with preserve | apply ops_preserve_reading]
    | match goal with
      | |- ops_preserve _ (bind _ _) => apply ops_preserve_bind
      | |- ops_preserve _ (for_each _ _) => apply ops_preserve_for_each
      | |- ops_preserve _ (critical _) => apply ops_preserve_critical
      | |- ops_preserve _ (match ?x with _ => _ end) => destruct x eqn:?
      end ].

(** [simpl] must not evaluate programs: the equations above do. *)
#[global] Arguments bind : simpl never.
#[global] Arguments run : simpl never.
#[global] Arguments for_each : simpl never.
#[global] Arguments atomic : simpl never.
#[global] Arguments reading : simpl never.
#[global] Arguments writing : simpl never.
#[global] Arguments critical : simpl never.

