(* ===== verification/Rely.v ===== *)
(** * Rely: reasoning about one handler among others

    Two predicates on programs, for what [ops_preserve] of [Prog] cannot say.
    [safe I Q p]: every atomic operation of [p] preserves [I], results included
    in the argument, and [p] can only end in a result that satisfies [Q].
    [wp R Q p w]: whatever steps of the environment, all within [R], come
    between the operations of [p] when it starts in [w], [p] ends with a result
    and a state that satisfy [Q], and keep satisfying it. [guar R p]: every
    atomic operation of [p] is a step of [R]. *)

From S2P Require Import Prelude.
From S2P Require Import Prog.

(** ** Invariants that depend on the results of operations *)
Section safe.
Context {W : Type}.

Fixpoint safe {A} (I : W → Prop) (Q : A → Prop) (p : prog W A) : Prop :=
  match p with
  | Ret a => Q a
  | Act op k => ∀ w, I w → I (op w).2 ∧ safe I Q (k (op w).1)
  end.

Lemma safe_Ret {A} (I : W → Prop) (Q : A → Prop) a : Q a → safe I Q (Ret a).
Proof. done. Qed.

Lemma safe_mono {A} (I : W → Prop) (Q Q' : A → Prop) p :
  safe I Q p → (∀ a, Q a → Q' a) → safe I Q' p.
Proof.
  intros Hp HQ. induction p as [a|B op k IH]; simpl in *; [auto|].
  intros w HI. destruct (Hp w HI) as [HI' Hk]. split; auto.
Qed.

Lemma safe_bind {A B} (I : W → Prop) (Q : A → Prop) (R : B → Prop) (p : prog W A) f :
  safe I Q p → (∀ a, Q a → safe I R (f a)) → safe I R (bind p f).
Proof.
  intros Hp Hf. induction p as [a|C op k IH]; [by apply Hf|].
  change (bind (Act op k) f) with (Act op (λ b, bind (k b) f)). simpl in *.
  intros w HI. destruct (Hp w HI) as [HI' Hk]. split; auto.
Qed.

Lemma safe_atomic {B} (I : W → Prop) (Q : B → Prop) (op : W → B * W) :
  (∀ w, I w → I (op w).2 ∧ Q (op w).1) → safe I Q (atomic op).
Proof. done. Qed.

Lemma safe_reading {B} (I : W → Prop) (Q : B → Prop) (f : W → B) :
  (∀ w, I w → Q (f w)) → safe I Q (reading f).
Proof. intros H w HI. simpl. auto. Qed.

Lemma safe_writing (I : W → Prop) (Q : unit → Prop) (f : W → W) :
  (∀ w, I w → I (f w)) → Q tt → safe I Q (writing f).
Proof. intros H HQ w HI. simpl. auto. Qed.

Lemma safe_for_each {X} (I : W → Prop) (l : list X) (body : X → prog W unit) :
  (∀ x, x ∈ l → safe I (λ _, True) (body x)) → safe I (λ _, True) (for_each l body).
Proof.
  intros Hb. induction l as [|x l IH]; [done|].
  eapply (safe_bind I (λ _, True)); [apply Hb; left|]. intros _ _. apply IH.
  intros y Hy. apply Hb. by right.
Qed.

Lemma safe_run {A} (I : W → Prop) (Q : A → Prop) p w :
  safe I Q p → I w → I (exec p w) ∧ Q (result p w).
Proof.
  revert w. induction p as [a|B op k IH]; intros w Hp HI; [done|].
  destruct (Hp w HI) as [HI' Hk]. by apply IH.
Qed.

Lemma safe_critical {B} (I : W → Prop) (Q : B → Prop) (p : prog W B) :
  safe I Q p → safe I Q (critical p).
Proof. intros Hp w HI. by apply (safe_run I Q p w). Qed.

(** What preserves the invariant whatever it is told is safe. *)
Lemma safe_ops {A} (I : W → Prop) (p : prog W A) : ops_preserve I p → safe I (λ _, True) p.
Proof. induction p as [a|B op k IH]; [done|]. intros [Hop Hk] w HI. auto. Qed.

(** The threads of a pool keep each other safe. *)
Lemma safe_interleaving {A} (I : W → Prop) (Q : A → Prop) c c' :
  rtc pstep c c' → Forall (safe I Q) c.1 → I c.2 → I c'.2 ∧ Forall (safe I Q) c'.1.
Proof.
  intros Hsteps. induction Hsteps as [c|c1 c2 c3 H12 _ IH]; [done|]. intros Hts HI.
  destruct H12 as [ts w i B op k Hi]. simpl in *.
  destruct (Forall_lookup_1 _ _ _ _ Hts Hi w HI) as [HI' Hk].
  apply IH; [|done]. by apply Forall_insert.
Qed.
End safe.

Create HintDb safe.

(** Go through a handler operation by operation, with what the hints say of
    each; what an operation returns is introduced with what is known of it. *)
Ltac safely :=
  repeat first
    [ match goal with |- ∀ _, _ => intro end
    | progress cbv zeta
    | exact I
    | solve [eauto with safe]
    | match goal with
      | |- safe _ _ (Ret _) => apply safe_Ret
      | |- safe _ _ (bind _ _) => eapply safe_bind; [solve [eauto with safe]|]
      | |- safe _ (λ _, True) (for_each _ _) => apply safe_for_each
      | |- safe _ _ (critical _) => apply safe_critical
      | |- safe _ _ (match ?x with _ => _ end) => destruct x eqn:?
      | |- safe _ (λ _, True) (bind _ _) => eapply (safe_bind _ (λ _, True))
      end ].

(** ** A handler in an environment *)
Section wp.
Context {W : Type}.

Fixpoint wp {A} (R : relation W) (Q : A → W → Prop) (p : prog W A) (w : W) : Prop :=
  match p with
  | Ret a => ∀ w', rtc R w w' → Q a w'
  | Act op k => ∀ w', rtc R w w' → wp R Q (k (op w').1) (op w').2
  end.

Fixpoint guar {A} (R : relation W) (p : prog W A) : Prop :=
  match p with
  | Ret _ => True
  | Act op k => (∀ w, R w (op w).2) ∧ ∀ b, guar R (k b)
  end.

Lemma wp_stable {A} (R : relation W) (Q : A → W → Prop) p w w' :
  wp R Q p w → rtc R w w' → wp R Q p w'.
Proof. destruct p; simpl; intros Hp Hw w'' Hw'; apply Hp; by etrans. Qed.

Lemma wp_mono {A} (R : relation W) (Q Q' : A → W → Prop) p w :
  wp R Q p w → (∀ a w, Q a w → Q' a w) → wp R Q' p w.
Proof. intros Hp HQ. revert w Hp. induction p as [a|B op k IH]; simpl; eauto. Qed.

Lemma wp_Ret {A} (R : relation W) (Q : A → W → Prop) a w :
  (∀ w', rtc R w w' → Q a w') → wp R Q (Ret a) w.
Proof. done. Qed.

Lemma wp_bind {A B} (R : relation W) (Q : B → W → Prop) (p : prog W A) f w :
  wp R (λ a w, wp R Q (f a) w) p w → wp R Q (bind p f) w.
Proof.
  revert w. induction p as [a|C op k IH]; intros w Hp; [by apply (Hp w)|].
  change (bind (Act op k) f) with (Act op (λ b, bind (k b) f)). simpl in *. auto.
Qed.

Lemma wp_True {A} (R : relation W) (p : prog W A) w : wp R (λ _ _, True) p w.
Proof. revert w. induction p as [a|B op k IH]; intros w; simpl; auto. Qed.

Lemma stable_rtc (R : relation W) (P : W → Prop) w w' :
  (∀ w w', P w → R w w' → P w') → P w → rtc R w w' → P w'.
Proof. intros HP Hw Hs. revert Hw. induction Hs; eauto. Qed.

(** The first operation of a program, when what precedes it in the
    environment keeps [P]. *)
Lemma wp_atomic {B} (R : relation W) (P : W → Prop) (Q : B → W → Prop) (op : W → B * W) w :
  (∀ w w', P w → R w w' → P w') → P w →
  (∀ w', P w' → ∀ w'', rtc R (op w').2 w'' → Q (op w').1 w'') →
  wp R Q (atomic op) w.
Proof.
  intros HP Hw HQ w' Hw' w''. apply HQ. by eapply stable_rtc.
Qed.

Lemma wp_conj {A} (R : relation W) (Q Q' : A → W → Prop) p w :
  wp R Q p w → wp R Q' p w → wp R (λ a w, Q a w ∧ Q' a w) p w.
Proof. revert w. induction p as [a|B op k IH]; intros w H1 H2; simpl in *; auto. Qed.

(** What neither the environment nor the program's own steps, within [G], can
    change. *)
Lemma wp_keeps {A} (R G : relation W) (P : W → Prop) (p : prog W A) w :
  (∀ w w', P w → R w w' → P w') → (∀ w w', P w → G w w' → P w') → guar G p → P w → wp R (λ _, P) p w.
Proof.
  intros HR HG. revert w. induction p as [a|B op k IH]; intros w Hp Hw; simpl.
  - intros w'. by apply (stable_rtc R P).
  - destruct Hp as [Hop Hk]. intros w' Hw'. apply IH; [done|].
    eapply HG; [|apply Hop]. by eapply (stable_rtc R P).
Qed.

(** A program whose own steps the environment could make as well. *)
Lemma wp_guar {A} (R : relation W) (P : W → Prop) (p : prog W A) w :
  (∀ w w', P w → R w w' → P w') → guar R p → P w → wp R (λ _, P) p w.
Proof. intros HP. by apply wp_keeps. Qed.

(** What is safe for an invariant that the environment respects. *)
Lemma wp_safe {A} (R : relation W) (I : W → Prop) (Q : A → Prop) p w :
  (∀ w w', I w → R w w' → I w') → safe I Q p → I w → wp R (λ a w, Q a ∧ I w) p w.
Proof.
  intros HI Hp Hw. assert (∀ w w', I w → rtc R w w' → I w') as HIs by (intros; by eapply (stable_rtc R I)).
  revert w Hw. induction p as [a|B op k IH]; intros w Hw; simpl; [eauto|].
  intros w' Hw'. destruct (Hp w') as [HI' Hk]; [eauto|]. by apply IH.
Qed.

(** A run without interference is one of the runs [wp] speaks about. *)
Lemma wp_run {A} (R : relation W) (Q : A → W → Prop) p w : wp R Q p w → Q (result p w) (exec p w).
Proof. revert w. induction p as [a|B op k IH]; intros w Hp; [by apply (Hp w)|]. apply IH. by apply (Hp w). Qed.

Lemma guar_ops {A} (R : relation W) (p : prog W A) :
  (∀ w, R w w) → (∀ w0, ops_preserve (R w0) p) → guar R p.
Proof.
  intros Hrefl. induction p as [a|B op k IH]; intros Hp; [done|]. split.
  - intros w. apply (Hp w). apply Hrefl.
  - intros b. apply IH. intros w0. apply (Hp w0).
Qed.

Lemma guar_mono {A} (R R' : relation W) (p : prog W A) :
  (∀ w w', R w w' → R' w w') → guar R p → guar R' p.
Proof. intros HR. induction p as [a|B op k IH]; [done|]. intros [Hop Hk]. split; auto. Qed.

Lemma guar_bind {A B} (R : relation W) (p : prog W A) (f : A → prog W B) :
  guar R p → (∀ a, guar R (f a)) → guar R (bind p f).
Proof.
  intros Hp Hf. induction p as [a|C op k IH]; [by apply Hf|]. destruct Hp as [Hop Hk].
  change (bind (Act op k) f) with (Act op (λ b, bind (k b) f)). split; auto.
Qed.

(** A preorder is its own closure. *)
Lemma rtc_preorder (R : relation W) w w' : PreOrder R → rtc R w w' → R w w'.
Proof. intros HR Hs. induction Hs; [done|]. by etrans. Qed.

(** Threads that stay within [R] take the state along [R]. *)
Lemma guar_interleaving {A} (R : relation W) (c c' : list (prog W A) * W) :
  rtc pstep c c' → Forall (guar R) c.1 → rtc R c.2 c'.2.
Proof.
  intros Hsteps. induction Hsteps as [c|c1 c2 c3 H12 _ IH]; [done|]. intros Hts.
  destruct H12 as [ts w i B op k Hi]. simpl in *.
  destruct (Forall_lookup_1 _ _ _ _ Hts Hi) as [Hop Hk].
  eapply rtc_l; [apply Hop|]. apply IH. apply Forall_insert; [exact Hts|apply Hk].
Qed.

(** In a pool whose other threads stay within [R], thread [i] keeps its [wp]
    and they their guarantee. *)
Lemma wp_interleaving {A} (R : relation W) (Q : A → W → Prop) i p ts w c' :
  rtc pstep (ts, w) c' → ts !! i = Some p → wp R Q p w →
  (∀ j t, j ≠ i → ts !! j = Some t → guar R t) →
  ∃ p', c'.1 !! i = Some p' ∧ wp R Q p' c'.2.
Proof.
  intros Hsteps. remember (ts, w) as c eqn:Ec. revert ts w p Ec.
  induction Hsteps as [c|c1 c2 c3 H12 _ IH]; intros ts w p -> Hi Hp Ho; [by exists p|].
  inversion H12 as [ts0 w0 j B op k Hj]; subst. assert (i < length ts) as Hlt by by eapply lookup_lt_Some.
  destruct (decide (i = j)) as [<-|Hne].
  - rewrite Hi in Hj. injection Hj as ->. eapply (IH _ _ (k (op w).1)); [done| | |].
    + by apply list_lookup_insert_eq.
    + by apply (Hp w).
    + intros j t Hne. rewrite list_lookup_insert_ne by done. by apply Ho.
  - pose proof (Ho j _ ltac:(done) Hj) as [Hop Hk]. eapply (IH _ _ p); [done| | |].
    + by rewrite list_lookup_insert_ne.
    + eapply wp_stable; [done|]. apply rtc_once, Hop.
    + intros j' t Hne'. rewrite list_lookup_insert. destruct (decide _) as [[<- _]|_]; [|by apply Ho].
      intros [= <-]. apply Hk.
Qed.

(** So the thread ends with its postcondition. *)
Lemma wp_thread_ends {A} (R : relation W) (Q : A → W → Prop) i p ts w :
  ts !! i = Some p → wp R Q p w →
  (∀ j t, j ≠ i → ts !! j = Some t → guar R t) →
  thread_ends i Q (ts, w).
Proof.
  intros Hi Hp Ho. split; [apply pstep_sn|]. intros c' Hsteps.
  destruct (wp_interleaving R Q i p ts w c' Hsteps Hi Hp Ho) as (p' & Hp' & Hwp). split.
  - intros Hnf. destruct (nf_returned _ _ _ Hnf Hp') as [a ->]. by exists a.
  - intros a Ha. rewrite Ha in Hp'. injection Hp' as <-. by apply (Hwp c'.2).
Qed.

(** A loop, with what holds while the list [l] is left to do. *)
Lemma wp_for_each {X} (R : relation W) (I : list X → W → Prop) (body : X → prog W unit) l w :
  (∀ l w w', I l w → R w w' → I l w') →
  (∀ x l w, I (x :: l) w → wp R (λ _, I l) (body x) w) →
  I l w → wp R (λ _, I []) (for_each l body) w.
Proof.
  intros HR Hb. revert w. induction l as [|x l IH]; intros w Hw.
  - intros w' Hw'. by eapply (stable_rtc R (I [])); [apply HR|..].
  - change (for_each (x :: l) body) with (bind (body x) (λ _, for_each l body)). apply wp_bind.
    eapply wp_mono; [by apply Hb|]. intros a w'. apply IH.
Qed.
End wp.
