(* ===== verification/GoStrings.v ===== *)
(** * GoStrings: the part of Go's [strings], [strconv] and machine integers used

    A Go string is a sequence of bytes: [string] of the Standard Library. The
    functions follow the documentation and code of Go's standard library for
    the arguments the sensor uses (one-byte separators). *)

From S2P Require Import Prelude.


(** ** Machine integers *)

(** Go's [int] on the 64-bit platforms the sensor is built for: two's
    complement wrap-around. *)
Definition wrap64 (z : Z) : Z := ((z + 2 ^ 63) mod 2 ^ 64 - 2 ^ 63)%Z.

Lemma wrap64_range z : (- 2 ^ 63 <= wrap64 z < 2 ^ 63)%Z.
Proof. unfold wrap64. pose proof (Z.mod_pos_bound (z + 2 ^ 63) (2 ^ 64)). lia. Qed.

Lemma wrap64_small z : (- 2 ^ 63 <= z < 2 ^ 63)%Z → wrap64 z = z.
Proof. intros H. unfold wrap64. rewrite Z.mod_small; lia. Qed.

Lemma wrap64_eq_mod z : (wrap64 z mod 2 ^ 64 = z mod 2 ^ 64)%Z.
Proof.
  unfold wrap64. rewrite Zminus_mod, Z.mod_mod, <- Zminus_mod by lia. f_equal. lia.
Qed.

Lemma wrap64_congr a b : (a mod 2 ^ 64 = b mod 2 ^ 64)%Z → wrap64 a = wrap64 b.
Proof. intros H. unfold wrap64. rewrite (Zplus_mod a), (Zplus_mod b), H. done. Qed.

(** Wrapping an intermediate result does not change the final one. *)
Lemma wrap64_absorb a k c : wrap64 (wrap64 a * k + c) = wrap64 (a * k + c).
Proof.
  apply wrap64_congr.
  rewrite Zplus_mod, Zmult_mod, wrap64_eq_mod, <- Zmult_mod, <- Zplus_mod. done.
Qed.

(** ** Bytes *)

Definition code (c : ascii) : Z := Z.of_N (N_of_ascii c).

Lemma code_range c : (0 <= code c < 256)%Z.
Proof. unfold code. pose proof (N_ascii_bounded c). lia. Qed.

Lemma code_inj c d : code c = code d → c = d.
Proof.
  unfold code. intros H. rewrite <- (ascii_N_embedding c), <- (ascii_N_embedding d).
  f_equal. lia.
Qed.

Definition is_digit (c : ascii) : bool := (48 <=? code c)%Z && (code c <=? 57)%Z.

Definition is_hex_digit (c : ascii) : bool :=
  is_digit c || ((97 <=? code c)%Z && (code c <=? 102)%Z) || ((65 <=? code c)%Z && (code c <=? 70)%Z).

(** ** Slicing *)

(** [s[:n]] *)
Fixpoint str_take (n : nat) (s : string) : string :=
  match n, s with
  | S n, String c s => String c (str_take n s)
  | _, _ => ""
  end.

(** [s[n:]] *)
Fixpoint str_drop (n : nat) (s : string) : string :=
  match n, s with
  | S n, String _ s => str_drop n s
  | O, _ => s
  | _, EmptyString => ""
  end.

Lemma str_take_drop n s : str_take n s +:+ str_drop n s = s.
Proof.
  revert s. induction n as [|n IH]; intros [|c s]; try done.
  simpl. rewrite string_app_cons. by rewrite IH.
Qed.

Lemma str_drop_app (s t : string) : str_drop (String.length s) (s +:+ t) = t.
Proof. induction s as [|c s IH]; [by destruct t|]. done. Qed.

Lemma str_take_app (s t : string) : str_take (String.length s) (s +:+ t) = s.
Proof. induction s as [|c s IH]; [done|]. rewrite string_app_cons. simpl. by rewrite IH. Qed.

Lemma str_take_length n s : String.length (str_take n s) = n `min` String.length s.
Proof. revert s. induction n as [|n IH]; intros [|c s]; simpl; try done. by rewrite IH. Qed.

(** ** [strings.HasPrefix], [TrimPrefix], [HasSuffix], [Contains] *)

Definition HasPrefix (s p : string) : bool := String.prefix p s.

Definition TrimPrefix (s p : string) : string :=
  if HasPrefix s p then str_drop (String.length p) s else s.

Fixpoint HasSuffix (s suffix : string) : bool :=
  bool_decide (s = suffix) ||
  match s with EmptyString => false | String _ s => HasSuffix s suffix end.

Definition ContainsByte (s : string) (c : ascii) : bool := bool_decide (c ∈ chars s).

Lemma HasPrefix_spec s p : HasPrefix s p = true ↔ ∃ t, s = p +:+ t.
Proof.
  unfold HasPrefix. revert s. induction p as [|c p IH]; intros s.
  - split; [exists s; done|]. by destruct s.
  - destruct s as [|d s]; simpl.
    + split; [done|]. intros [t Ht]. done.
    + destruct (Ascii.ascii_dec c d) as [->|Hne].
      * rewrite IH. split; intros [t Ht]; exists t; [by rewrite string_app_cons, Ht|].
        rewrite string_app_cons in Ht. congruence.
      * split; [done|]. intros [t Ht]. rewrite string_app_cons in Ht. congruence.
Qed.

Lemma HasPrefix_app p t : HasPrefix (p +:+ t) p = true.
Proof. apply HasPrefix_spec. eauto. Qed.

Lemma TrimPrefix_app p t : TrimPrefix (p +:+ t) p = t.
Proof. unfold TrimPrefix. by rewrite HasPrefix_app, str_drop_app. Qed.

#[global] Arguments HasPrefix : simpl never.
#[global] Arguments TrimPrefix : simpl never.

Lemma HasPrefix_cons c t : HasPrefix (String c t) (String c "") = true.
Proof. exact (HasPrefix_app (String c "") t). Qed.

Lemma TrimPrefix_cons c t : TrimPrefix (String c t) (String c "") = t.
Proof. exact (TrimPrefix_app (String c "") t). Qed.

Lemma HasSuffix_spec s p : HasSuffix s p = true ↔ ∃ t, s = t +:+ p.
Proof.
  induction s as [|c s IH].
  - simpl. rewrite orb_false_r, bool_decide_eq_true.
    split; [intros <-; by exists ""|]. intros [[|d t] Ht]; done.
  - change (HasSuffix (String c s) p) with (bool_decide (String c s = p) || HasSuffix s p).
    rewrite orb_true_iff, bool_decide_eq_true, IH. split.
    + intros [<-|[t ->]]; [by exists ""|]. exists (String c t). done.
    + intros [[|d t] Ht]; [by left|]. right. exists t.
      rewrite string_app_cons in Ht. congruence.
Qed.

(** ** [strings.Split], [SplitN], [Join] with a one-byte separator *)

Fixpoint Split (sep : ascii) (s : string) : list string :=
  match s with
  | EmptyString => [""]
  | String c s =>
      if bool_decide (c = sep) then "" :: Split sep s
      else match Split sep s with
           | x :: xs => String c x :: xs
           | [] => [String c ""]
           end
  end.

(** The text before and after the first separator: [strings.Cut]. *)
Fixpoint Cut (sep : ascii) (s : string) : option (string * string) :=
  match s with
  | EmptyString => None
  | String c s =>
      if bool_decide (c = sep) then Some ("", s)
      else '(a, b) ← Cut sep s; Some (String c a, b)
  end.

(** [SplitN(s, sep, n)] for [n > 0]: at most [n] parts, the last one unsplit. *)
Fixpoint SplitN (sep : ascii) (n : nat) (s : string) : list string :=
  match n with
  | O => []
  | S n =>
      match n with
      | O => [s]
      | S _ => match Cut sep s with
               | None => [s]
               | Some (a, b) => a :: SplitN sep n b
               end
      end
  end.

Fixpoint Join (sep : string) (l : list string) : string :=
  match l with
  | [] => ""
  | x :: xs => match xs with [] => x | _ :: _ => x +:+ sep +:+ Join sep xs end
  end.

Definition free_of (sep : ascii) (s : string) : Prop := sep ∉ chars s.
#[export] Instance free_of_dec sep s : Decision (free_of sep s).
Proof. unfold free_of. apply _. Defined.

Lemma Split_not_nil sep s : Split sep s ≠ [].
Proof. destruct s as [|c s]; simpl; [done|]. case_bool_decide; [done|]. by case_match. Qed.

Lemma Split_free_of sep s : free_of sep s → Split sep s = [s].
Proof.
  unfold free_of. induction s as [|c s IH]; [done|]. simpl. intros H.
  rewrite bool_decide_eq_false_2 by set_solver. rewrite IH by set_solver. done.
Qed.

Lemma Split_sep sep s t : free_of sep s → Split sep (s +:+ String sep t) = s :: Split sep t.
Proof.
  unfold free_of. induction s as [|c s IH]; simpl; intros H.
  - by rewrite bool_decide_eq_true_2.
  - rewrite bool_decide_eq_false_2 by set_solver. by rewrite IH by set_solver.
Qed.

Lemma Join_cons sep x xs :
  xs ≠ [] → Join sep (x :: xs) = x +:+ sep +:+ Join sep xs.
Proof. by destruct xs. Qed.

Lemma Join_Split sep s : Join (String sep "") (Split sep s) = s.
Proof.
  induction s as [|c s IH]; [done|]. simpl.
  pose proof (Split_not_nil sep s) as Hn. case_bool_decide as Hc.
  - subst c. rewrite Join_cons by done. rewrite IH. done.
  - destruct (Split sep s) as [|x xs]; [done|]. rewrite <- IH.
    destruct xs as [|y ys]; [done|]. rewrite !Join_cons by done. done.
Qed.

Lemma Split_parts_free sep s : Forall (free_of sep) (Split sep s).
Proof.
  unfold free_of. induction s as [|c s IH]; simpl; [repeat constructor; set_solver|].
  case_bool_decide; [constructor; [set_solver|done]|].
  destruct (Split sep s) as [|x xs] eqn:E; [by apply Split_not_nil in E|].
  inversion IH; subst. constructor; [|done]. simpl. set_solver.
Qed.

Lemma Split_Join sep l :
  l ≠ [] → Forall (free_of sep) l → Split sep (Join (String sep "") l) = l.
Proof.
  intros Hn Hl. induction Hl as [|x l Hx Hl IH]; [done|].
  destruct l as [|y l]; [by apply Split_free_of|].
  rewrite Join_cons by done. change (String sep "" +:+ ?t) with (String sep t).
  rewrite Split_sep by done. f_equal. by apply IH.
Qed.

(** Splitting is the only decomposition into separator-free parts. *)
Lemma Split_unique sep s l :
  l ≠ [] → Forall (free_of sep) l → Join (String sep "") l = s → Split sep s = l.
Proof. intros Hn Hl <-. by apply Split_Join. Qed.

Lemma Cut_Some sep s a b :
  Cut sep s = Some (a, b) ↔ s = a +:+ String sep b ∧ free_of sep a.
Proof.
  unfold free_of. revert a. induction s as [|c s IH]; intros a; simpl.
  - split; [done|]. intros [H _]. by destruct a.
  - case_bool_decide as Hc; subst.
    + split.
      * intros [= <- <-]. split; [done|]. set_solver.
      * intros [H Ha]. destruct a as [|d a]; [rewrite string_app_nil_l in H; by simplify_eq|].
        rewrite string_app_cons in H. simplify_eq/=. set_solver.
    + destruct (Cut sep s) as [[a' b']|] eqn:E; simpl.
      * split.
        -- intros [= <- <-]. destruct (proj1 (IH a')) as [-> Ha]; [done|].
           split; [done|]. simpl. set_solver.
        -- intros [H Ha]. destruct a as [|d a]; [rewrite string_app_nil_l in H; by simplify_eq|].
           rewrite string_app_cons in H. simplify_eq/=.
           assert (Some (a', b') = Some (a, b)) as [= -> ->]; [|done].
           apply IH. split; [done|]. set_solver.
      * split; [done|]. intros [H Ha]. destruct a as [|d a]; [rewrite string_app_nil_l in H; by simplify_eq|].
        rewrite string_app_cons in H. simplify_eq/=.
        assert (@None (string * string) = Some (a, b)); [|done].
        apply IH. split; [done|]. set_solver.
Qed.

Lemma Cut_None sep s : Cut sep s = None ↔ free_of sep s.
Proof.
  unfold free_of. induction s as [|c s IH]; simpl; [split; [set_solver|done]|].
  case_bool_decide as Hc; subst; [split; [done|set_solver]|].
  destruct (Cut sep s) as [[a b]|]; simpl.
  - split; [done|]. intros H. exfalso. destruct IH as [_ IH]. specialize (IH ltac:(set_solver)). done.
  - split; [|done]. intros _. destruct IH as [IH _]. specialize (IH eq_refl). set_solver.
Qed.

(** ** [strings.LastIndex] of a one-byte string; [-1] when it is absent *)

Fixpoint LastIndex (s : string) (c : ascii) : Z :=
  match s with
  | EmptyString => -1
  | String d s =>
      let r := LastIndex s c in
      if (0 <=? r)%Z then (r + 1)%Z else if bool_decide (d = c) then 0%Z else (-1)%Z
  end.

(** ** [strings.TrimSpace]

    The UTF-8 encodings of the runes [unicode.IsSpace] accepts. *)
Definition bytes (l : list ascii) : string := foldr String "" l.

Definition space_encodings : list string :=
  let e280 := λ c, bytes ["226"%char; "128"%char; c] in
  [bytes ["009"%char]; bytes ["010"%char]; bytes ["011"%char]; bytes ["012"%char];
   bytes ["013"%char]; " "; bytes ["194"%char; "133"%char]; bytes ["194"%char; "160"%char];
   bytes ["225"%char; "154"%char; "128"%char];
   e280 "128"%char; e280 "129"%char; e280 "130"%char; e280 "131"%char; e280 "132"%char;
   e280 "133"%char; e280 "134"%char; e280 "135"%char; e280 "136"%char; e280 "137"%char;
   e280 "138"%char; e280 "168"%char; e280 "169"%char; e280 "175"%char;
   bytes ["226"%char; "129"%char; "159"%char]; bytes ["227"%char; "128"%char; "128"%char]].

Definition strip_space_left (s : string) : option string :=
  w ← List.find (HasPrefix s) space_encodings; Some (TrimPrefix s w).

Definition strip_space_right (s : string) : option string :=
  w ← List.find (HasSuffix s) space_encodings;
  Some (str_take (String.length s - String.length w) s).

Fixpoint trim_with (strip : string → option string) (fuel : nat) (s : string) : string :=
  match fuel with
  | O => s
  | S fuel => match strip s with Some s' => trim_with strip fuel s' | None => s end
  end.

(** Each round removes at least one byte: the length is enough fuel. *)
Definition TrimSpace (s : string) : string :=
  let s := trim_with strip_space_left (String.length s) s in
  trim_with strip_space_right (String.length s) s.

Example TrimSpace_ex : TrimSpace "  a b	" = "a b".
Proof. reflexivity. Qed.

(** The fuel of the two loops is enough: they end when nothing is left to strip. *)
Lemma trim_with_done strip n s :
  (∀ s s', strip s = Some s' → String.length s' < String.length s) →
  String.length s ≤ n → strip (trim_with strip n s) = None.
Proof.
  intros Hs. revert s. induction n as [|n IH]; intros s Hn; simpl.
  - destruct (strip s) as [s'|] eqn:E; [|done]. apply Hs in E. lia.
  - destruct (strip s) as [s'|] eqn:E; [|done]. apply IH. apply Hs in E. lia.
Qed.

Lemma space_nonempty w : w ∈ space_encodings → 0 < String.length w.
Proof. revert w. apply list.Forall_forall. vm_compute. repeat constructor. Qed.

Lemma strip_left_shorter s s' : strip_space_left s = Some s' → String.length s' < String.length s.
Proof.
  unfold strip_space_left. destruct (List.find _ _) as [w|] eqn:E; [|done]. simpl. intros [= <-].
  apply List.find_some in E as [Hw Hp]. apply list_elem_of_In, space_nonempty in Hw.
  apply HasPrefix_spec in Hp as [t ->]. rewrite TrimPrefix_app, string_length_app. lia.
Qed.

Lemma strip_right_shorter s s' : strip_space_right s = Some s' → String.length s' < String.length s.
Proof.
  unfold strip_space_right. destruct (List.find _ _) as [w|] eqn:E; [|done]. simpl. intros [= <-].
  apply List.find_some in E as [Hw Hp]. apply list_elem_of_In, space_nonempty in Hw.
  apply HasSuffix_spec in Hp as [t ->]. rewrite str_take_length, string_length_app. lia.
Qed.

Lemma TrimSpace_done s :
  strip_space_left (trim_with strip_space_left (String.length s) s) = None ∧
  strip_space_right (TrimSpace s) = None.
Proof.
  unfold TrimSpace. split; apply trim_with_done; auto using strip_left_shorter, strip_right_shorter.
Qed.
