(* ===== verification/Log.v ===== *)
(** * Log: what the sensor logs

    The lines that a [logr.Logger] receives, for the functions whose purpose is
    to log: the message, the error of [log.Error], the verbosity of [log.V] and
    the fields, in the order of the call. *)

From S2P Require Import Prelude.

(** An [error]: its text and its type as [%T] prints it. *)
Record GoError := mkGoError { ge_Error : string; ge_Type : string }.
Definition errString (err : option GoError) : string := from_option ge_Error "" err.
Definition errType (err : option GoError) : string := from_option ge_Type "<nil>" err.

Inductive LogValue :=
| LStr (s : string) | LInt (z : Z) | LBool (b : bool) | LStrs (l : list string) | LMaps (l : list (gmap string string)).

Definition LLen {A} (l : list A) : LogValue := LInt (Z.of_nat (length l)).

Record LogLine := mkLogLine {
  l_err : option string;
  l_V : nat;
  l_msg : string;
  l_fields : list (string * LogValue)
}.
Definition log_Info (msg : string) (fields : list (string * LogValue)) : LogLine := mkLogLine None 0 msg fields.
Definition log_V1_Info (msg : string) (fields : list (string * LogValue)) : LogLine := mkLogLine None 1 msg fields.
Definition log_Error (err : GoError) (msg : string) (fields : list (string * LogValue)) : LogLine :=
  mkLogLine (Some (ge_Error err)) 0 msg fields.
