(* ===== verification/HelmDecode.v ===== *)
(** * HelmDecode: [src/internal/helm] — release Secrets

    Names of Helm release Secrets ([SecretNameParts]), the release payload
    ([DecodeReleaseData] / [EncodeRelease]) and the resources of a rendered
    manifest. The byte codecs (base64, gzip, JSON) and the YAML decoder are
    parameters: the class [HelmCodecs]; what the code relies on is
    [HelmCodecsLaws]. *)

From S2P Require Import Prelude.
From S2P Require Import GoStrings.

(** ** Data of the package *)

Record Info := mkInfo { Info_Status : string }.
Record ChartMetadata := mkChartMetadata { ChartMetadata_Name : string; ChartMetadata_Version : string }.
Record Chart := mkChart { Chart_Metadata : ChartMetadata }.
Record Release := mkRelease {
  Release_Name : string;
  Release_Namespace : string;
  Release_Version : Z;
  Release_Info : Info;
  Release_Chart : Chart;
  Release_Manifest : string
}.

Record ManifestResource := mkManifestResource {
  mr_Kind : string;
  mr_Name : string;
  mr_Namespace : string
}.

(** The fields the YAML decoder fills in for one document. *)
Record manifestDoc := mkManifestDoc {
  doc_Kind : string;
  doc_Name : string;
  doc_Namespace : string
}.

#[export] Instance ManifestResource_eq_dec : EqDecision ManifestResource.
Proof. solve_decision. Defined.

(** ** External codecs *)

Class HelmCodecs := {
  b64_DecodeString : string → string + string;   (* error or bytes *)
  b64_EncodeToString : string → string;
  gzip_Reader : Type;                            (* an open reader *)
  gzip_NewReader : string → string + gzip_Reader;
  io_ReadAll : gzip_Reader → string + string;
  gzip_Writer : Type;                            (* a writer and its buffer *)
  gzip_Write : string → string + gzip_Writer;    (* on a new writer *)
  gzip_Close : gzip_Writer → string + string;    (* the bytes in the buffer *)
  json_Unmarshal : string → string + Release;
  json_Marshal : Release → string + string;
  (** the documents successive [Decode] calls return before the first error *)
  yaml_docs : string → list manifestDoc
}.

(** The gzip header of RFC 1952 with the deflate method. *)
Definition magicGzip : string := bytes ["031"%char; "139"%char; "008"%char].

Class HelmCodecsLaws `{HelmCodecs} := {
  b64_encode_decode x : b64_DecodeString (b64_EncodeToString x) = inr x;
  b64_encode_nonempty x : b64_EncodeToString x = "" → x = "";
  gzip_write_read x z y :
    gzip_Write x = inr z → gzip_Close z = inr y → ∃ r, gzip_NewReader y = inr r ∧ io_ReadAll r = inr x;
  gzip_write_magic x z y : gzip_Write x = inr z → gzip_Close z = inr y → HasPrefix y magicGzip = true;
  json_marshal_unmarshal r x : json_Marshal r = inr x → json_Unmarshal x = inr r
}.

(** ** Operations *)

Section helm.
Context `{HelmCodecs}.

Definition DecodeReleaseData (data : string) : string + Release :=
  if bool_decide (data = "") then inl "empty release data"
  else
    match b64_DecodeString data with
    | inl err => inl ("base64 decode: " +:+ err)
    | inr decoded =>
        let body :=
          if (3 <=? String.length decoded)%nat && bool_decide (str_take 3 decoded = magicGzip)
          then match gzip_NewReader decoded with
               | inl err => inl ("gzip open: " +:+ err)
               | inr r =>
                   match io_ReadAll r with
                   | inl err => inl ("gzip read: " +:+ err)
                   | inr decompressed => inr decompressed
                   end
               end
          else inr decoded in
        match body with
        | inl err => inl err
        | inr decoded =>
            match json_Unmarshal decoded with
            | inl err => inl ("json unmarshal: " +:+ err)
            | inr rel => inr rel
            end
        end
    end.

Definition EncodeRelease (rel : Release) : string + string :=
  match json_Marshal rel with
  | inl err => inl ("json marshal: " +:+ err)
  | inr jsonBytes =>
      match gzip_Write jsonBytes with
      | inl err => inl ("gzip write: " +:+ err)
      | inr gz =>
          match gzip_Close gz with
          | inl err => inl ("gzip close: " +:+ err)
          | inr buf => inr (b64_EncodeToString buf)
          end
      end
  end.

Definition ParseManifestResources (manifest : string) : list ManifestResource :=
  omap (λ doc,
    if negb (bool_decide (doc_Kind doc = "")) && negb (bool_decide (doc_Name doc = ""))
    then Some (mkManifestResource (doc_Kind doc) (doc_Name doc) (doc_Namespace doc))
    else None) (yaml_docs manifest).
End helm.

Definition HasSystemInstance (resources : list ManifestResource) : bool :=
  existsb (λ r, bool_decide (mr_Kind r = "SystemInstance")) resources.

(** The loop of [SecretNameParts] over the characters of the revision: [None]
    at the first character that is not a digit. The loop ranges over runes; a
    rune outside ASCII is above '9', and so is each of its bytes. *)
Fixpoint revision_digits (revStr : string) (rev : Z) : option Z :=
  match revStr with
  | EmptyString => Some rev
  | String c revStr =>
      if (code c <? 48)%Z || (57 <? code c)%Z then None
      else revision_digits revStr (wrap64 (rev * 10 + (code c - 48)))
  end.

Definition SecretNameParts (secretName : string) : string * Z * bool :=
  let parts := Split "." secretName in
  if (length parts <? 6)%nat then ("", 0%Z, false)
  else if negb (bool_decide (parts !! 0 = Some "sh")) || negb (bool_decide (parts !! 1 = Some "helm"))
       || negb (bool_decide (parts !! 2 = Some "release")) || negb (bool_decide (parts !! 3 = Some "v1"))
  then ("", 0%Z, false)
  else
    let last := default "" (parts !! (length parts - 1)) in
    if negb (HasPrefix last "v") then ("", 0%Z, false)
    else
      let revStr := TrimPrefix last "v" in
      match revision_digits revStr 0 with
      | None => ("", 0%Z, false)
      | Some rev => (Join "." (take (length parts - 1 - 4) (drop 4 parts)), rev, true)
      end.

(** ** Specification of the Secret name format *)

Definition digits (d : string) : Prop := Forall (λ c, is_digit c = true) (chars d).

Definition decimal_value (d : string) : Z :=
  foldl (λ v c, v * 10 + (code c - 48))%Z 0%Z (chars d).

(** The name Helm gives the Secret of revision [d] of release [n]. *)
Definition release_secret_name (n d : string) : string :=
  "sh.helm.release.v1." +:+ n +:+ ".v" +:+ d.

Lemma is_digit_true c : is_digit c = true ↔ (48 <= code c <= 57)%Z.
Proof. unfold is_digit. rewrite andb_true_iff. lia. Qed.

Lemma revision_digits_spec s rev r :
  revision_digits s (wrap64 rev) = Some r ↔
  digits s ∧ r = wrap64 (foldl (λ v c, v * 10 + (code c - 48))%Z rev (chars s)).
Proof.
  unfold digits. revert rev. induction s as [|c s IH]; intros rev; simpl.
  - split; [by intros [= <-]|]. by intros [_ ->].
  - destruct ((code c <? 48)%Z || (57 <? code c)%Z) eqn:E.
    + split; [done|]. intros [Hd _]. inversion Hd as [|?? Hc]; subst.
      apply is_digit_true in Hc. apply orb_true_iff in E. lia.
    + assert (is_digit c = true) as Hc.
      { apply is_digit_true. apply orb_false_iff in E. lia. }
      rewrite list.Forall_cons, wrap64_absorb, IH. naive_solver.
Qed.

Lemma revision_digits_0 s r :
  revision_digits s 0 = Some r ↔ digits s ∧ r = wrap64 (decimal_value s).
Proof. change 0%Z with (wrap64 0) at 1. apply revision_digits_spec. Qed.

Lemma digits_no_dot d : digits d → free_of "." d.
Proof.
  unfold digits, free_of. intros Hd Hin. rewrite list.Forall_forall in Hd. by apply Hd in Hin.
Qed.

Lemma Join_snoc sep l x :
  l ≠ [] → Join sep (l ++ [x]) = Join sep l +:+ sep +:+ x.
Proof.
  induction l as [|y l IH]; [done|]. intros _. destruct l as [|z l]; [done|].
  change ((y :: z :: l) ++ [x]) with (y :: ((z :: l) ++ [x])).
  rewrite Join_cons by by destruct l. rewrite IH by done.
  rewrite (Join_cons sep y (z :: l)) by done. by rewrite !string_app_assoc.
Qed.

Lemma Split_app_sep sep s t : Split sep (s +:+ String sep t) = Split sep s ++ Split sep t.
Proof.
  apply Split_unique.
  - destruct (Split sep s) eqn:E; [by apply Split_not_nil in E|done].
  - apply Forall_app. split; apply Split_parts_free.
  - pose proof (Join_Split sep t) as Ht. pose proof (Split_not_nil sep t) as Hnt.
    pose proof (Join_Split sep s) as Hs. pose proof (Split_not_nil sep s) as Hns.
    revert Hs Hns. generalize (Split sep s) as l. intros l. revert s.
    induction l as [|x l IH]; intros s Hs Hns; [done|].
    destruct l as [|y l].
    + simpl in Hs. subst x. change ([s] ++ Split sep t) with (s :: Split sep t).
      rewrite Join_cons by done. by rewrite Ht.
    +
      change ((x :: y :: l) ++ Split sep t) with (x :: ((y :: l) ++ Split sep t)).
      rewrite Join_cons by done. rewrite Join_cons in Hs by done. subst s.
      rewrite (IH (Join (String sep "") (y :: l))) by done.
      by rewrite !string_app_assoc.
Qed.

Lemma release_secret_name_parts n d :
  digits d →
  Split "." (release_secret_name n d) =
    ["sh"; "helm"; "release"; "v1"] ++ Split "." n ++ [String "v" d].
Proof.
  intros Hd. unfold release_secret_name.
  change ("sh.helm.release.v1." +:+ ?t) with
    ("sh" +:+ String "." ("helm" +:+ String "." ("release" +:+ String "." ("v1" +:+ String "." t)))).
  rewrite !Split_app_sep. change (".v" +:+ d) with (String "." (String "v" d)).
  rewrite Split_app_sep. rewrite (Split_free_of "." (String "v" d)); [done|].
  apply digits_no_dot in Hd. unfold free_of in *. simpl. set_solver.
Qed.

Lemma SecretNameParts_complete n d :
  digits d → SecretNameParts (release_secret_name n d) = (n, wrap64 (decimal_value d), true).
Proof.
  intros Hd. unfold SecretNameParts. rewrite release_secret_name_parts by done.
  pose proof (Split_not_nil "." n) as Hn.
  assert (length (Split "." n) ≠ 0) by by destruct (Split "." n).
  set (l := Split "." n) in *.
  rewrite (proj2 (Nat.ltb_ge _ _)) by (rewrite !length_app; simpl; lia).
  simpl. rewrite length_app. simpl.
  replace (length l + 1) with (S (length l)) by lia. simpl.
  rewrite lookup_app_r, Nat.sub_diag, Nat.sub_0_r by lia. simpl.
  rewrite HasPrefix_cons, TrimPrefix_cons. simpl.
  replace (revision_digits d 0) with (Some (wrap64 (decimal_value d)))
    by (symmetry; by apply revision_digits_0).
  rewrite ?drop_0, take_app_length.
  unfold l. by rewrite Join_Split.
Qed.

Lemma SecretNameParts_sound s n r :
  SecretNameParts s = (n, r, true) →
  ∃ d, digits d ∧ s = release_secret_name n d ∧ r = wrap64 (decimal_value d).
Proof.
  unfold SecretNameParts. intros H.
  destruct (length (Split "." s) <? 6)%nat eqn:Hlen; [done|].
  apply Nat.ltb_ge in Hlen. pose proof (Join_Split "." s) as Hs.
  pose proof (Split_parts_free "." s) as Hfree.
  destruct (Split "." s) as [|p0 [|p1 [|p2 [|p3 rest]]]]; simpl in Hlen; try lia.
  destruct rest as [|lst mid _] using rev_ind; simpl in Hlen; [lia|].
  rewrite length_app in Hlen. simpl in Hlen. simpl in H.
  case_bool_decide as H0; [|done]. case_bool_decide as H1; [|done].
  case_bool_decide as H2; [|done]. case_bool_decide as H3; [|done].
  simplify_eq/=. rewrite length_app in H. simpl in H.
  replace (length mid + 1) with (S (length mid)) in H by lia. simpl in H.
  rewrite lookup_app_r, Nat.sub_diag, Nat.sub_0_r in H by lia. simpl in H.
  destruct (HasPrefix lst "v") eqn:Hv; [|done]. simpl in H.
  apply HasPrefix_spec in Hv as [d ->]. rewrite TrimPrefix_app in H.
  destruct (revision_digits d 0) as [rev|] eqn:Hrev; [|done].
  apply revision_digits_0 in Hrev as [Hd ->].
  rewrite ?drop_0, take_app_length in H. simplify_eq/=.
  exists d. split_and!; [done| |done].
  unfold release_secret_name. destruct mid as [|m mid]; [simpl in Hlen; lia|].
  rewrite Join_snoc by done. generalize (Join "." (m :: mid)) as j. intros j. reflexivity.
Qed.

(** C30. [SecretNameParts] accepts exactly the names
    [sh.helm.release.v1.<n>.v<d>] with [d] a (possibly empty) string of digits,
    for release names [n] with or without dots, and returns [n] and the value
    of [d] as a 64-bit integer, wrapped around when it does not fit. *)
Theorem SecretNameParts_iff s n r :
  SecretNameParts s = (n, r, true) ↔
  ∃ d, digits d ∧ s = release_secret_name n d ∧ r = wrap64 (decimal_value d).
Proof.
  split; [apply SecretNameParts_sound|].
  intros (d & Hd & -> & ->). by apply SecretNameParts_complete.
Qed.

Section roundtrip.
Context `{HelmCodecsLaws}.

(** Decoding an encoded release gives it back, whatever it holds: the
    decoder recognises the gzip header the encoder wrote. *)
Theorem DecodeReleaseData_EncodeRelease rel data :
  EncodeRelease rel = inr data → DecodeReleaseData data = inr rel.
Proof.
  unfold EncodeRelease, DecodeReleaseData.
  destruct (json_Marshal rel) as [|js] eqn:Hjs; [done|].
  destruct (gzip_Write js) as [|gz] eqn:Hgz; [done|].
  destruct (gzip_Close gz) as [|buf] eqn:Hbuf; [done|]. intros [= <-].
  pose proof (gzip_write_magic _ _ _ Hgz Hbuf) as Hmagic.
  destruct (gzip_write_read _ _ _ Hgz Hbuf) as (r & Hr & Hread).
  apply HasPrefix_spec in Hmagic as [t ->].
  rewrite bool_decide_eq_false_2; last first.
  { intros Hempty. by apply b64_encode_nonempty in Hempty. }
  rewrite b64_encode_decode.
  assert (str_take 3 (magicGzip +:+ t) = magicGzip) as -> by exact (str_take_app magicGzip t).
  rewrite bool_decide_eq_true_2, string_length_app by done. simpl.
  by rewrite Hr, Hread, (json_marshal_unmarshal _ _ Hjs).
Qed.
End roundtrip.
