(* ===== verification/K8s.v ===== *)
(** * K8s: the Kubernetes objects the sensor reads

    [src/api/k8s/v1alpha1]: the sensor's own CRDs, field by field. Native
    objects carry their metadata, the fields the sensor reads, and [rest], the
    serialisation of everything it only hands on to CEL. *)

From S2P Require Import Prelude.

(** A reference to an object: [types.NamespacedName]. *)
Record NamespacedName := mkNN { nn_Namespace : string; nn_Name : string }.

#[export] Instance NamespacedName_eq_dec : EqDecision NamespacedName.
Proof. solve_decision. Defined.

Record ObjectMeta := mkMeta {
  om_Name : string;
  om_Namespace : string;
  om_UID : string;
  om_Annotations : gmap string string;
  om_OwnerKinds : list string   (* the kinds of the ownerReferences *)
}.

(** ** The CRDs of structure.emeland.io/v1alpha1 *)

Record Version := mkVersion {
  Version_Version : string;
  Version_AvailableFrom : string;
  Version_DeprecatedFrom : string;
  Version_TerminatedFrom : string
}.

Record VersionRef := mkVersionRef { VersionRef_Name : string; VersionRef_Version : string }.

Record APIVersionRef := mkAPIVersionRef {
  APIVersionRef_Name : string;
  APIVersionRef_Version : string
}.

Record APIRef := mkAPIRef { APIRef_VersionRef : APIVersionRef; APIRef_ApiId : string }.

Record SystemSpec := mkSystemSpec {
  SystemSpec_DisplayName : string;
  SystemSpec_Description : string;
  SystemSpec_SystemId : string;
  SystemSpec_Version : Version;
  SystemSpec_Abstract : bool;
  SystemSpec_ParentRef : option VersionRef
}.

Record APISpec := mkAPISpec {
  APISpec_DisplayName : string;
  APISpec_Description : string;
  APISpec_ApiId : string;
  APISpec_Version : Version;
  APISpec_Type : string;
  APISpec_SystemRef : VersionRef;
  APISpec_SystemId : string
}.

Record ComponentSpec := mkComponentSpec {
  ComponentSpec_DisplayName : string;
  ComponentSpec_Description : string;
  ComponentSpec_ComponentId : string;
  ComponentSpec_Version : Version;
  ComponentSpec_SystemRef : VersionRef;
  ComponentSpec_SystemId : string;
  ComponentSpec_Consumes : list APIRef;
  ComponentSpec_Provides : list APIRef
}.

Record SystemInstanceSpec := mkSystemInstanceSpec {
  SystemInstanceSpec_InstanceId : string;
  SystemInstanceSpec_SystemId : string;
  SystemInstanceSpec_DisplayName : string
}.

Record SystemCR := mkSystemCR { SystemCR_Meta : ObjectMeta; SystemCR_Spec : SystemSpec }.
Record APICR := mkAPICR { APICR_Meta : ObjectMeta; APICR_Spec : APISpec }.
Record ComponentCR := mkComponentCR { ComponentCR_Meta : ObjectMeta; ComponentCR_Spec : ComponentSpec }.
Record SystemInstanceCR := mkSystemInstanceCR {
  SystemInstanceCR_Meta : ObjectMeta;
  SystemInstanceCR_Spec : SystemInstanceSpec
}.

Record FindingTypeSpec := mkFindingTypeSpec {
  fts_UUID : string;
  fts_DisplayName : string;
  fts_Description : string
}.

Record FindingSpec := mkFindingSpec {
  fs_Severity : string;
  fs_DisplayName : string;
  fs_Description : string;
  fs_Type : FindingTypeSpec
}.

Record Target := mkTarget { Target_APIGroups : list string; Target_Resources : list string }.

Record FindingRuleSpec := mkFindingRuleSpec {
  frs_Target : Target;
  frs_Condition : string;
  frs_Finding : FindingSpec
}.

Record FindingRule := mkFindingRule { FindingRule_Name : string; FindingRule_Spec : FindingRuleSpec }.

(** ** Native objects *)

(** A workload, Service, Ingress, Namespace, Role or ClusterRole. *)
Record Object := mkObject { ob_Meta : ObjectMeta; ob_rest : string }.

(** A RoleBinding or ClusterRoleBinding: the roleRef and the kinds of the subjects. *)
Record BindingObject := mkBindingObject {
  bo_Meta : ObjectMeta;
  bo_RoleRefKind : string;
  bo_RoleRefName : string;
  bo_SubjectKinds : list string
}.

Record Secret := mkSecret {
  sec_Meta : ObjectMeta;
  sec_Type : string;
  sec_Data : gmap string string
}.

(** The objects handed to [RuleEvaluation.run] ([runtime.Object]). *)
Inductive RObj :=
| RSystem (s : SystemCR)
| RAPI (a : APICR)
| RComponent (c : ComponentCR)
| RSystemInstance (s : SystemInstanceCR)
| RObject (o : Object).

(** The result of [client.Get]. *)
Inductive GetResult (A : Type) :=
| GetOk (a : A)
| GetNotFound
| GetErr (err : string).
Arguments GetOk {A} a.
Arguments GetNotFound {A}.
Arguments GetErr {A} err.
