(* ===== verification/GoHeap.v ===== *)
(** * GoHeap: Go's memory, as far as pointers and slices need it

    A heap maps addresses to blocks, each of one Go type. A pointer may point
    into a block: to a field of a struct or an element of an array, which is
    what [&out.Spec] and [&( *out)[i]] are. A slice is a window of an array. A
    computation may allocate, read and write, or panic. *)

From S2P Require Import Prelude.

Declare Scope go_scope.
Delimit Scope go_scope with go.
Open Scope go_scope.

Abbreviation loc := positive (only parsing).
Abbreviation heap Cell := (gmap loc Cell) (only parsing).

(** ** Fields *)
Record Lens (S A : Type) := mkLens { lget : S → A; lset : A → S → S }.
Arguments mkLens {S A} _ _.
Arguments lget {S A} _ _.
Arguments lset {S A} _ _ _.

Class LensOk {S A} (f : Lens S A) : Prop := {
  lget_lset a s : lget f (lset f a s) = a;
  lset_lset a b s : lset f a (lset f b s) = lset f a s;
  lset_lget s : lset f (lget f s) s = s
}.

Section heap.
Context {Cell : Type}.

(** ** Pointers

    [p_get] and [p_set] are [None] on a block of another type or an array that
    is too short. A nil pointer is the [None] of [option (Ptr T)]. *)
Record Ptr (T : Type) := mkPtr {
  p_loc : loc;
  p_get : Cell → option T;
  p_set : T → Cell → option Cell
}.
Arguments mkPtr {T} _ _ _.
Arguments p_loc {T} _.
Arguments p_get {T} _ _.
Arguments p_set {T} _ _ _.

Class PtrOk {T} (p : Ptr T) : Prop := {
  p_set_get c v c' : p_set p v c = Some c' → p_get p c' = Some v;
  p_set_ok c u v : p_get p c = Some u → is_Some (p_set p v c);
  p_set_set c u v c' : p_set p u c = Some c' → p_set p v c' = p_set p v c;
  p_set_from c v c' : p_set p v c = Some c' → is_Some (p_get p c);
  p_set_id c v : p_get p c = Some v → p_set p v c = Some c
}.

(** [&p.f] *)
Definition p_field {S A} (p : Ptr S) (f : Lens S A) : Ptr A :=
  mkPtr (p_loc p) (λ c, lget f <$> p_get p c) (λ a c, s ← p_get p c; p_set p (lset f a s) c).

(** The element [i] of the array [p]. *)
Definition p_elem {T} (p : Ptr (list T)) (i : nat) : Ptr T :=
  mkPtr (p_loc p) (λ c, l ← p_get p c; l !! i)
    (λ x c, l ← p_get p c; _ ← l !! i; p_set p (<[i:=x]> l) c).

(** ** Computations: [None] is a panic *)
Definition Mem (A : Type) := heap Cell → option (A * heap Cell).
#[global] Instance Mem_ret : MRet Mem := λ A a h, Some (a, h).
#[global] Instance Mem_bind : MBind Mem := λ A B f m h,
  match m h with Some (a, h') => f a h' | None => None end.

Definition panic {A} : Mem A := λ _, None.
Definition load {T} (p : Ptr T) : Mem T := λ h,
  c ← h !! p_loc p; v ← p_get p c; Some (v, h).
Definition store {T} (p : Ptr T) (v : T) : Mem unit := λ h,
  c ← h !! p_loc p; c' ← p_set p v c; Some (tt, <[p_loc p := c']> h).
Definition alloc (c : Cell) : Mem loc := λ h,
  let l := fresh (dom h) in Some (l, <[l:=c]> h).

(** [*q = *p] *)
Definition assign {T} (p q : Ptr T) : Mem unit := v ← load p; store q v.

(** [for i := range n { body }] *)
Fixpoint range_loop (i n : nat) (body : nat → Mem unit) : Mem unit :=
  match n with
  | O => mret tt
  | S n => body i ;; range_loop (S i) n body
  end.
Definition for_range (n : nat) (body : nat → Mem unit) : Mem unit := range_loop 0 n body.

(** ** Blocks of a Go type *)
Class GoType (T : Type) := {
  box : T → Cell;
  unbox : Cell → option T;
  zero : T
}.
Class GoTypeOk T {G : GoType T} : Prop := {
  unbox_box v : unbox (box v) = Some v;
  box_unbox c v : unbox c = Some v → c = box v
}.

(** The pointer to a whole block. *)
Definition block {T} `{GoType T} (l : loc) : Ptr T :=
  mkPtr l unbox (λ v c, _ ← (unbox c : option T); Some (box v)).

(** [new(T)] *)
Definition new (T : Type) `{GoType T} : Mem (Ptr T) := l ← alloc (box zero); mret (block l).

(** ** Slices; the nil slice is [None] *)
Record Window (T : Type) := mkWindow { s_arr : loc; s_off : nat; s_len : nat; s_cap : nat }.
Definition Slice (T : Type) := option (Window T).
Arguments mkWindow {T} _ _ _ _.
Arguments s_arr {T} _.
Arguments s_off {T} _.
Arguments s_len {T} _.
Arguments s_cap {T} _.

Definition len {T} (s : Slice T) : nat := match s with Some w => s_len w | None => 0 end.

(** The elements of the window. *)
Definition window {T} (w : Window T) (l : list T) : list T := take (s_len w) (drop (s_off w) l).

Section slices.
Context {T : Type} `{GoType T, GoType (list T)}.

(** [make([]T, n)] *)
Definition make (n : nat) : Mem (Slice T) :=
  l ← alloc (box (replicate n (zero : T))); mret (Some (mkWindow l 0 n n)).

(** [&s[i]] *)
Definition index (s : Slice T) (i : nat) : Mem (Ptr T) :=
  match s with
  | Some w => if bool_decide (i < s_len w) then mret (p_elem (block (s_arr w)) (s_off w + i)) else panic
  | None => panic
  end.

(** [copy(dst, src)]: as many elements as the shorter one has. *)
Definition copy (dst src : Slice T) : Mem unit :=
  match dst, src with
  | Some d, Some s =>
      from ← load (block (s_arr s));
      to ← load (block (s_arr d));
      let moved := take (s_len d) (window s from) in
      store (block (s_arr d))
        (take (s_off d) to ++ moved ++ drop (s_off d + length moved) to)
  | _, _ => mret tt
  end.
End slices.
End heap.

Arguments Ptr : clear implicits.
Arguments Mem : clear implicits.
Arguments mkPtr {Cell T} _ _ _.
Arguments p_loc {Cell T} _.
Arguments p_get {Cell T} _ _.
Arguments p_set {Cell T} _ _ _.
Arguments GoType : clear implicits.
Arguments GoTypeOk : clear implicits.
Arguments GoTypeOk Cell T {G}.
Arguments new {Cell} T {_}.
Arguments mkWindow {T} _ _ _ _.
Arguments s_arr {T} _.
Arguments s_off {T} _.
Arguments s_len {T} _.
Arguments s_cap {T} _.

Notation "p ⇢ f" := (p_field p f) (at level 40, left associativity) : go_scope.

(** ** Laws of pointers *)
Section pointers.
Context {Cell : Type}.
Implicit Types h : heap Cell.

Lemma Mem_bind_run {A B} (m : Mem Cell A) (f : A → Mem Cell B) h a h' :
  m h = Some (a, h') → (m ≫= f) h = f a h'.
Proof. intros E. unfold mbind, Mem_bind. by rewrite E. Qed.

#[export] Instance p_field_ok {S A} (p : Ptr Cell S) (f : Lens S A) :
  PtrOk p → LensOk f → PtrOk (p ⇢ f).
Proof.
  intros Hp Hf. split; simpl.
  - intros c a c' (s & Hs & Hc)%bind_Some. rewrite (p_set_get _ _ _ Hc). simpl. by rewrite lget_lset.
  - intros c u a (s & Hs & _)%fmap_Some. rewrite Hs. simpl. by eapply p_set_ok.
  - intros c u a c' (s & Hs & Hc)%bind_Some. rewrite (p_set_get _ _ _ Hc), Hs. simpl.
    by rewrite (p_set_set _ _ _ _ Hc), lset_lset.
  - intros c a c' (s & Hs & _)%bind_Some. rewrite Hs. simpl. eauto.
  - intros c a (s & Hs & ->)%fmap_Some. rewrite Hs. simpl. rewrite lset_lget. by apply p_set_id.
Qed.

#[export] Instance p_elem_ok {T} (p : Ptr Cell (list T)) i : PtrOk p → PtrOk (p_elem p i).
Proof.
  intros Hp. split; simpl.
  - intros c x c' (l & Hl & (y & Hy & Hc)%bind_Some)%bind_Some. rewrite (p_set_get _ _ _ Hc). simpl.
    apply list_lookup_insert_eq. by eapply lookup_lt_Some.
  - intros c u x (l & Hl & Hu)%bind_Some. rewrite Hl. simpl. rewrite Hu. simpl. by eapply p_set_ok.
  - intros c u x c' (l & Hl & (y & Hy & Hc)%bind_Some)%bind_Some. rewrite (p_set_get _ _ _ Hc), Hl. simpl.
    rewrite list_lookup_insert_eq by (by eapply lookup_lt_Some). rewrite Hy. simpl.
    by rewrite (p_set_set _ _ _ _ Hc), list_insert_insert_eq.
  - intros c x c' (l & Hl & (y & Hy & _)%bind_Some)%bind_Some. rewrite Hl. simpl. rewrite Hy. eauto.
  - intros c x (l & Hl & Hx)%bind_Some. rewrite Hl. simpl. rewrite Hx. simpl.
    rewrite list_insert_id by done. by apply p_set_id.
Qed.

#[export] Instance block_ok {T} {G : GoType Cell T} {GO : GoTypeOk Cell T} l : PtrOk (block (T := T) l).
Proof.
  split; simpl.
  - intros c v c' (u & _ & [= <-])%bind_Some. apply unbox_box.
  - intros c u v ->. simpl. eauto.
  - intros c u v c' (w & -> & [= <-])%bind_Some. by rewrite unbox_box.
  - intros c v c' (u & -> & _)%bind_Some. eauto.
  - intros c v Hc. rewrite Hc. simpl. f_equal. symmetry. by apply box_unbox.
Qed.

(** [*p] is [v]. *)
Definition holds {T} (p : Ptr Cell T) h (v : T) : Prop := h !! p_loc p ≫= p_get p = Some v.

(** [h'] is [h] with [v] written through [p], and blocks allocated since. *)
Definition upd {T} (p : Ptr Cell T) h (v : T) h' : Prop :=
  ∃ c c', h !! p_loc p = Some c ∧ p_set p v c = Some c' ∧ <[p_loc p := c']> h ⊆ h'.

Lemma holds_load {T} (p : Ptr Cell T) h v : holds p h v → load p h = Some (v, h).
Proof. unfold holds, load. intros (c & Hc & Hv)%bind_Some. rewrite Hc. simpl. by rewrite Hv. Qed.

Lemma holds_dom {T} (p : Ptr Cell T) h v : holds p h v → p_loc p ∈ dom h.
Proof. unfold holds. intros (c & Hc & _)%bind_Some. apply elem_of_dom. eauto. Qed.

Lemma holds_mono {T} (p : Ptr Cell T) h h' v : holds p h v → h ⊆ h' → holds p h' v.
Proof. unfold holds. intros (c & Hc & Hv)%bind_Some Hh. erewrite lookup_weaken by done. done. Qed.

Lemma holds_field {S A} (p : Ptr Cell S) (f : Lens S A) h s : holds p h s → holds (p ⇢ f) h (lget f s).
Proof. unfold holds. simpl. intros (c & -> & Hc)%bind_Some. simpl. by rewrite Hc. Qed.

Lemma holds_elem {T} (p : Ptr Cell (list T)) i h l x :
  holds p h l → l !! i = Some x → holds (p_elem p i) h x.
Proof. unfold holds. simpl. intros (c & -> & Hc)%bind_Some Hx. simpl. by rewrite Hc. Qed.

Lemma holds_block {T} {G : GoType Cell T} {GO : GoTypeOk Cell T} l h v :
  holds (block l) h v ↔ h !! l = Some (box v).
Proof.
  unfold holds. simpl. split.
  - intros (c & -> & Hc)%bind_Some. f_equal. by apply box_unbox.
  - intros ->. simpl. apply unbox_box.
Qed.

Lemma upd_store {T} (p : Ptr Cell T) h u v :
  PtrOk p → holds p h u → ∃ h', store p v h = Some (tt, h') ∧ upd p h v h'.
Proof.
  intros Hp (c & Hc & Hu)%bind_Some. destruct (p_set_ok _ _ v Hu) as [c' Hc'].
  exists (<[p_loc p := c']> h). unfold store. rewrite Hc. simpl. rewrite Hc'. split; [done|].
  by exists c, c'.
Qed.

Lemma upd_refl {T} (p : Ptr Cell T) h v : PtrOk p → holds p h v → upd p h v h.
Proof.
  intros Hp (c & Hc & Hg)%bind_Some. exists c, c. split_and!; [done|by apply p_set_id|].
  by rewrite insert_id.
Qed.

Lemma upd_holds {T} (p : Ptr Cell T) h v h' : PtrOk p → upd p h v h' → holds p h' v.
Proof.
  intros Hp (c & c' & Hc & Hs & Hh). unfold holds.
  rewrite (lookup_weaken _ _ _ _ (lookup_insert_eq h (p_loc p) c') Hh). simpl. by eapply p_set_get.
Qed.

Lemma upd_alloc {T} (p : Ptr Cell T) h v h1 h2 : upd p h v h1 → h1 ⊆ h2 → upd p h v h2.
Proof. intros (c & c' & Hc & Hs & Hh) H12. exists c, c'. split_and!; [done..|by etrans]. Qed.

Lemma upd_weaken {T} (p : Ptr Cell T) h h1 v h2 :
  h ⊆ h1 → p_loc p ∈ dom h → upd p h1 v h2 → upd p h v h2.
Proof.
  intros Hh [c0 Hc0]%elem_of_dom (c & c' & Hc & Hs & H12). exists c, c'.
  assert (c = c0) as -> by (eapply (lookup_weaken _ h1) in Hc0; [|exact Hh]; congruence).
  split_and!; [done..|]. etrans; [|done]. by apply insert_mono.
Qed.

Lemma upd_trans {T} (p : Ptr Cell T) h u h1 v h2 : PtrOk p → upd p h u h1 → upd p h1 v h2 → upd p h v h2.
Proof.
  intros Hp (c & c1 & Hc & Hs & Hh) (c1' & c2 & Hc1 & Hs2 & H12).
  assert (c1' = c1) as ->.
  { pose proof (lookup_weaken _ _ _ _ (lookup_insert_eq h (p_loc p) c1) Hh). congruence. }
  rewrite (p_set_set _ _ _ _ Hs) in Hs2. exists c, c2. split_and!; [done..|].
  rewrite <- (insert_insert_eq h (p_loc p) c2 c1). etrans; [|done]. by apply insert_mono.
Qed.

Lemma upd_field {S A} (p : Ptr Cell S) (f : Lens S A) h s a h' :
  holds p h s → upd (p ⇢ f) h a h' → upd p h (lset f a s) h'.
Proof.
  intros Hs (c & c' & Hc & (s' & Hs' & Hset)%bind_Some & Hh). simpl in *.
  unfold holds in Hs. rewrite Hc in Hs. simpl in Hs. simplify_eq. by exists c, c'.
Qed.

Lemma upd_elem {T} (p : Ptr Cell (list T)) i h l x h' :
  holds p h l → upd (p_elem p i) h x h' → upd p h (<[i:=x]> l) h'.
Proof.
  intros Hl (c & c' & Hc & (l' & Hl' & (y & Hy & Hset)%bind_Some)%bind_Some & Hh). simpl in *.
  unfold holds in Hl. rewrite Hc in Hl. simpl in Hl. simplify_eq. by exists c, c'.
Qed.

(** What is kept when a block is written and others are allocated. *)
Definition keeps (l : loc) h h' : Prop := ∀ k c, k ≠ l → h !! k = Some c → h' !! k = Some c.

Lemma upd_keeps {T} (p : Ptr Cell T) h v h' : upd p h v h' → keeps (p_loc p) h h'.
Proof.
  intros (c & c' & _ & _ & Hh) k b Hk Hb. eapply lookup_weaken; [|done]. by rewrite lookup_insert_ne.
Qed.

Lemma keeps_holds {T} (p : Ptr Cell T) l h h' v : keeps l h h' → p_loc p ≠ l → holds p h v → holds p h' v.
Proof. unfold holds. intros Hk Hl (c & Hc & Hv)%bind_Some. by rewrite (Hk _ _ Hl Hc). Qed.

Lemma upd_dom {T} (p : Ptr Cell T) h v h' : upd p h v h' → dom h ⊆ dom h'.
Proof.
  intros (c & c' & _ & _ & Hh). apply subseteq_dom in Hh. rewrite dom_insert_L in Hh. set_solver.
Qed.

(** Writing a block allocated after [h] does not change [h]. *)
Lemma upd_new {T} (p : Ptr Cell T) h0 h v h' : h0 ⊆ h → p_loc p ∉ dom h0 → upd p h v h' → h0 ⊆ h'.
Proof.
  intros Hh Hn Hu. apply map_subseteq_spec. intros k c Hk. eapply upd_keeps; [done| |by eapply lookup_weaken].
  intros ->. apply Hn. by eapply elem_of_dom_2.
Qed.

Lemma upd_other {T U} (p : Ptr Cell T) (q : Ptr Cell U) h v h1 u h2 :
  upd p h v h1 → p_loc q ∉ dom h → upd q h1 u h2 → upd p h v h2.
Proof.
  intros Hp Hq Hu. destruct Hp as (c & c' & Hc & Hs & Hh). exists c, c'. split_and!; [done..|].
  eapply upd_new; [exact Hh| |exact Hu]. apply elem_of_dom_2 in Hc.
  rewrite dom_insert_L, not_elem_of_union, not_elem_of_singleton. split; [|done]. intros Heq. by rewrite Heq in Hq.
Qed.

Lemma alloc_run (c : Cell) h : ∃ l : positive, (l ∉ dom h) ∧ alloc c h = Some (l, <[l:=c]> h) ∧ h ⊆ (<[l:=c]> h).
Proof.
  exists (fresh (dom h)). pose proof (is_fresh (dom h)) as Hf. split_and!; [done..|].
  apply insert_subseteq. by apply not_elem_of_dom.
Qed.
End pointers.
