(* ===== verification/Deep.v ===== *)
(** * Deep: the contract of a deep copy

    What a value of Go denotes once its pointers are followed ([reach]), what a
    [DeepCopyInto] promises ([copies]), and the lemmas by which the copies of
    structs, pointers and slices, in the form in which controller-gen writes
    them, get this contract from the copies of their parts. *)

From S2P Require Import Prelude.
From S2P Require Import GoHeap.

(** ** Deep values

    What a Go value denotes, and the blocks it reaches: [reach h v] is the value
    with pointers followed and slices read, or [None] when a pointer dangles. *)
Class Deep (Cell T V : Type) := reach : heap Cell → T → option (V * gset loc).

Class DeepOk {Cell T V} (D : Deep Cell T V) : Prop := {
  reach_frame h h' v x d :
    reach h v = Some (x, d) → (∀ l, l ∈ d → h' !! l = h !! l) → reach h' v = Some (x, d);
  reach_dom h v x d : reach h v = Some (x, d) → d ⊆ dom h
}.

Section deep.
Context {Cell : Type}.
Implicit Types h : heap Cell.

Lemma reach_keeps {T V} {D : Deep Cell T V} {DO : DeepOk D} l h h' v x d :
  keeps l h h' → l ∉ d → reach h v = Some (x, d) → reach h' v = Some (x, d).
Proof.
  intros Hk Hl Hr. eapply reach_frame; [done|]. intros k Hkd.
  pose proof (reach_dom _ _ _ _ Hr) as Hd.
  assert (k ∈ dom h) as [c Hc]%elem_of_dom by set_solver.
  rewrite Hc. apply Hk; [|done]. by intros ->.
Qed.

Lemma reach_mono {T V} {D : Deep Cell T V} {DO : DeepOk D} h h' v x d :
  h ⊆ h' → reach h v = Some (x, d) → reach h' v = Some (x, d).
Proof.
  intros Hh Hr. eapply reach_frame; [done|]. intros k Hk.
  pose proof (reach_dom _ _ _ _ Hr) as Hd.
  assert (k ∈ dom h) as [c Hc]%elem_of_dom by set_solver.
  rewrite Hc. by eapply lookup_weaken.
Qed.

(** *** The contract of [DeepCopyInto]

    Applied to distinct blocks, of which the destination is not part of the
    source, it ends, changes nothing but [*out] and allocates: [*out] denotes
    what [*in] denotes, and everything it reaches is new. *)
Definition copies {T V} {D : Deep Cell T V} (into : Ptr Cell T → Ptr Cell T → Mem Cell unit) : Prop :=
  ∀ (src dst : Ptr Cell T) h v u x d,
    PtrOk src → PtrOk dst → p_loc src ≠ p_loc dst →
    holds src h v → holds dst h u → reach h v = Some (x, d) → p_loc dst ∉ d →
    ∃ h' v' d', into src dst h = Some (tt, h') ∧ upd dst h v' h' ∧
      reach h' v' = Some (x, d') ∧ d' ## dom h.

(** The same for a part of a struct: [*out] is [*in] already. *)
Definition recopies {T V} {D : Deep Cell T V} (step : Ptr Cell T → Ptr Cell T → Mem Cell unit) : Prop :=
  ∀ (src dst : Ptr Cell T) h v x d,
    PtrOk src → PtrOk dst → p_loc src ≠ p_loc dst →
    holds src h v → holds dst h v → reach h v = Some (x, d) → p_loc dst ∉ d →
    ∃ h' v' d', step src dst h = Some (tt, h') ∧ upd dst h v' h' ∧
      reach h' v' = Some (x, d') ∧ d' ## dom h.

Lemma copies_recopies {T V} {D : Deep Cell T V} into : copies into → recopies into.
Proof. intros H src dst h v x d. intros. by eapply H. Qed.

Lemma assign_run {T} (src dst : Ptr Cell T) h v u :
  PtrOk dst → holds src h v → holds dst h u →
  ∃ h', assign src dst h = Some (tt, h') ∧ upd dst h v h'.
Proof.
  intros Hd Hs Hu. destruct (upd_store _ _ _ v Hd Hu) as (h' & Hst & Hup). exists h'. split; [|done].
  unfold assign. by rewrite (Mem_bind_run _ _ _ _ _ (holds_load _ _ _ Hs)).
Qed.

(** *** Structs

    A copy starts with [*out = *in], so that the parts are shared, and goes on
    part by part. The state in between: [*in] is [v], [*out] is [w]. *)
Definition copying {T} (src dst : Ptr Cell T) (h0 : heap Cell) (v w : T) h : Prop :=
  upd dst h0 w h ∧ holds src h v.

Lemma copying_start {T} (src dst : Ptr Cell T) h v u :
  PtrOk dst → p_loc src ≠ p_loc dst → holds src h v → holds dst h u →
  ∃ h', assign src dst h = Some (tt, h') ∧ copying src dst h v v h'.
Proof.
  intros Hd Hne Hs Hu. destruct (assign_run src dst h v u Hd Hs Hu) as (h' & E & Hup).
  exists h'. split; [done|]. split; [done|]. by eapply keeps_holds; [eapply upd_keeps|..].
Qed.

Lemma copying_upd {T} (src dst : Ptr Cell T) h0 v w h w' h' :
  PtrOk dst → p_loc src ≠ p_loc dst → copying src dst h0 v w h → upd dst h w' h' →
  copying src dst h0 v w' h' ∧ keeps (p_loc dst) h h'.
Proof.
  intros Hd Hne [Hup Hs] Hup'. split; [|by eapply upd_keeps].
  split; [by eapply upd_trans|]. by eapply keeps_holds; [eapply upd_keeps|..].
Qed.

(** A field that is assigned. *)
Lemma copying_assign {T A} (src dst : Ptr Cell T) (f : Lens T A) {Hf : LensOk f} h0 v w h :
  PtrOk dst → p_loc src ≠ p_loc dst → copying src dst h0 v w h →
  ∃ h', assign (src ⇢ f) (dst ⇢ f) h = Some (tt, h') ∧
    copying src dst h0 v (lset f (lget f v) w) h' ∧ keeps (p_loc dst) h h'.
Proof.
  intros Hd Hne Hc. pose proof Hc as [Hup Hs].
  pose proof (upd_holds _ _ _ _ Hd Hup) as Hw.
  destruct (assign_run (src ⇢ f) (dst ⇢ f) h _ _ _ (holds_field _ _ _ _ Hs) (holds_field _ _ _ _ Hw))
    as (h' & E & Hup'). exists h'. split; [done|].
  eapply copying_upd; [done..|]. by eapply upd_field.
Qed.

(** A field with a deep copy of its own. *)
Lemma copying_field {T A V} {D : Deep Cell A V} {DO : DeepOk D} (src dst : Ptr Cell T) (f : Lens T A)
    {Hf : LensOk f} step h0 v w h x d :
  recopies step → PtrOk src → PtrOk dst → p_loc src ≠ p_loc dst → copying src dst h0 v w h →
  lget f w = lget f v → reach h0 (lget f v) = Some (x, d) → p_loc dst ∉ d →
  ∃ h' a d', step (src ⇢ f) (dst ⇢ f) h = Some (tt, h') ∧
    copying src dst h0 v (lset f a w) h' ∧ keeps (p_loc dst) h h' ∧
    reach h' a = Some (x, d') ∧ d' ## dom h0.
Proof.
  intros Hstep Hps Hpd Hne Hc Hw0 Hr Hnd. pose proof Hc as [Hup Hs].
  pose proof (upd_holds _ _ _ _ Hpd Hup) as Hw.
  destruct (Hstep (src ⇢ f) (dst ⇢ f) h (lget f v) x d) as (h' & a & d' & E & Hup' & Hr' & Hd');
    [apply _|apply _|done|by apply holds_field|rewrite <- Hw0; by apply holds_field
    |by eapply reach_keeps; [eapply upd_keeps|..]|done|].
  exists h', a, d'. split; [done|].
  destruct (copying_upd src dst h0 v w h (lset f a w) h' Hpd Hne Hc) as [Hc' Hk];
    [by eapply upd_field|]. split_and!; [done..|]. apply upd_dom in Hup. set_solver.
Qed.

(** What a struct reaches after its parts have been copied. *)
Lemma copying_end {T} (src dst : Ptr Cell T) h0 v w h :
  copying src dst h0 v w h → upd dst h0 w h.
Proof. by intros []. Qed.

(** *** Arrays and slices *)
Section array.
Context {T V : Type} {D : Deep Cell T V} {DO : DeepOk D}.

Fixpoint reach_list (h : heap Cell) (l : list T) : option (list V * gset loc) :=
  match l with
  | [] => Some ([], ∅)
  | v :: l =>
      r ← reach h v;
      rs ← reach_list h l;
      Some (r.1 :: rs.1, r.2 ∪ rs.2)
  end.

#[export] Instance Deep_list : Deep Cell (list T) (list V) := reach_list.

#[export] Instance Deep_list_ok : DeepOk Deep_list.
Proof.
  split.
  - intros h h' l. induction l as [|v l IH]; intros x d; [done|].
    intros ([y e] & Hy & ([ys es] & Hys & [= <- <-])%bind_Some)%bind_Some Hl. simpl in *.
    unfold reach, Deep_list. simpl. rewrite (reach_frame _ h' _ _ _ Hy) by set_solver. simpl.
    change (reach_list h' l) with (reach h' l). rewrite (IH ys es) by (done || set_solver). done.
  - intros h l. induction l as [|v l IH]; intros x d; [intros [= <- <-]; set_solver|].
    intros ([y e] & Hy & ([ys es] & Hys & [= <- <-])%bind_Some)%bind_Some. simpl.
    apply reach_dom in Hy. apply IH in Hys. set_solver.
Qed.

Lemma reach_list_app h l1 l2 xs1 d1 xs2 d2 :
  reach h l1 = Some (xs1, d1) → reach h l2 = Some (xs2, d2) → reach h (l1 ++ l2) = Some (xs1 ++ xs2, d1 ∪ d2).
Proof.
  revert xs1 d1. induction l1 as [|v l IH]; intros xs1 d1; [intros [= <- <-]; by rewrite (left_id_L ∅ (∪))|].
  intros ([y e] & Hy & ([ys es] & Hys & [= <- <-])%bind_Some)%bind_Some H2. simpl in *.
  unfold reach, Deep_list. simpl. rewrite Hy. simpl.
  change (reach_list h (l ++ l2)) with (reach h (l ++ l2)). rewrite (IH _ _ Hys H2). simpl.
  by rewrite (assoc_L (∪)).
Qed.

Lemma reach_list_lookup h l xs d i v :
  reach h l = Some (xs, d) → l !! i = Some v →
  ∃ x e, xs !! i = Some x ∧ reach h v = Some (x, e) ∧ e ⊆ d.
Proof.
  revert xs d i. induction l as [|u l IH]; intros xs d i; [done|].
  intros ([y e] & Hy & ([ys es] & Hys & [= <- <-])%bind_Some)%bind_Some Hi. simpl in *.
  destruct i as [|i]; simpl in *; [simplify_eq; exists y, e; split_and!; [done..|set_solver]|].
  destruct (IH _ _ _ Hys Hi) as (x & e' & ? & ? & ?). exists x, e'. split_and!; [done..|set_solver].
Qed.

Lemma reach_list_length h l xs d : reach h l = Some (xs, d) → length xs = length l.
Proof.
  revert xs d. induction l as [|v l IH]; intros xs d; [by intros [= <- <-]|].
  intros ([y e] & Hy & ([ys es] & Hys & [= <- <-])%bind_Some)%bind_Some. simpl. f_equal. eauto.
Qed.

Context `{GL : GoType Cell (list T)} {GLO : GoTypeOk Cell (list T)}.

(** The window of an array that is long enough. *)
Definition read_window (h : heap Cell) (w : Window T) : option (list T) :=
  c ← h !! s_arr w;
  l ← unbox c;
  if bool_decide (s_off w + s_len w ≤ length l) then Some (window w l) else None.

#[export] Instance Deep_Slice : Deep Cell (Slice T) (option (list V)) := λ h s,
  match s with
  | None => Some (None, ∅)
  | Some w =>
      l ← read_window h w;
      r ← reach h l;
      Some (Some r.1, {[s_arr w]} ∪ r.2)
  end.

#[export] Instance Deep_Slice_ok : DeepOk Deep_Slice.
Proof.
  split.
  - intros h h' [w|] x d; [|by intros [= <- <-]].
    intros (l & Hl & ([xs e] & Hr & [= <- <-])%bind_Some)%bind_Some Hd.
    unfold reach, Deep_Slice. unfold read_window in *. rewrite Hd by set_solver. rewrite Hl. simpl.
    by rewrite (reach_frame _ h' _ _ _ Hr) by set_solver.
  - intros h [w|] x d; [|intros [= <- <-]; set_solver].
    intros (l & (c & Hc & _)%bind_Some & ([xs e] & Hr & [= <- <-])%bind_Some)%bind_Some. simpl.
    apply elem_of_dom_2 in Hc. apply reach_dom in Hr. set_solver.
Qed.
End array.
End deep.

(** *** Structs: what they denote and reach through one part or two *)
Section parts.
Context {Cell T A B V W U : Type} {DA : Deep Cell A V} {DB : Deep Cell B W} {OA : DeepOk DA} {OB : DeepOk DB}.

Definition Deep_part (f : T → A) (build : T → V → U) : Deep Cell T U := λ h s,
  r ← reach h (f s); Some (build s r.1, r.2).
Definition Deep_parts (f : T → A) (g : T → B) (build : T → V → W → U) : Deep Cell T U := λ h s,
  r ← reach h (f s); q ← reach h (g s); Some (build s r.1 q.1, r.2 ∪ q.2).

Lemma Deep_part_iff f build h s x d :
  Deep_part f build h s = Some (x, d) ↔ ∃ y, reach h (f s) = Some (y, d) ∧ x = build s y.
Proof.
  unfold Deep_part. split.
  - intros ([y e] & Hy & [= <- <-])%bind_Some. eauto.
  - intros (y & Hy & ->). by rewrite Hy.
Qed.

Lemma Deep_parts_iff f g build h s x d :
  Deep_parts f g build h s = Some (x, d) ↔
    ∃ y e z e', reach h (f s) = Some (y, e) ∧ reach h (g s) = Some (z, e') ∧ x = build s y z ∧ d = e ∪ e'.
Proof.
  unfold Deep_parts. split.
  - intros ([y e] & Hy & ([z e'] & Hz & [= <- <-])%bind_Some)%bind_Some. eauto 10.
  - intros (y & e & z & e' & Hy & Hz & -> & ->). rewrite Hy. simpl. by rewrite Hz.
Qed.

Lemma Deep_part_ok f build : DeepOk (Deep_part f build).
Proof.
  split.
  - intros h h' s x d (y & Hy & ->)%Deep_part_iff Hd. apply Deep_part_iff. exists y. split; [|done].
    by eapply reach_frame.
  - intros h s x d (y & Hy & ->)%Deep_part_iff. exact (reach_dom _ _ _ _ Hy).
Qed.

Lemma Deep_parts_ok f g build : DeepOk (Deep_parts f g build).
Proof.
  split.
  - intros h h' s x d (y & e & z & e' & Hy & Hz & -> & ->)%Deep_parts_iff Hd. apply Deep_parts_iff.
    exists y, e, z, e'. split_and!; [eapply reach_frame; [done|set_solver]..|done|done].
  - intros h s x d (y & e & z & e' & Hy & Hz & -> & ->)%Deep_parts_iff.
    apply reach_dom in Hy, Hz. set_solver.
Qed.
End parts.

(** ** Deep copies of slices and pointers, as the generator writes them *)

(** Values without pointers. *)
Class Plain {Cell T} (D : Deep Cell T T) : Prop := reach_plain h v : reach h v = Some (v, ∅).

Section plain.
Context {Cell T : Type} {D : Deep Cell T T} {P : Plain D}.

#[export] Instance Plain_ok : DeepOk D.
Proof.
  split; intros *; rewrite !reach_plain; [done|]. intros [= <- <-]. set_solver.
Qed.

Lemma reach_plain_move (h h' : heap Cell) (v x : T) d : reach h v = Some (x, d) → reach h' v = Some (x, ∅).
Proof. rewrite !reach_plain. congruence. Qed.

Lemma reach_list_plain (h : heap Cell) (l : list T) : reach h l = Some (l, ∅).
Proof.
  induction l as [|v l IH]; [done|]. unfold reach, Deep_list in *. simpl. rewrite reach_plain. simpl.
  rewrite IH. simpl. by rewrite (left_id_L ∅ (∪)).
Qed.

Lemma assign_copies : copies (Cell := Cell) assign.
Proof.
  intros src dst h v u x d _ Hd _ Hs Hu Hr _. destruct (assign_run src dst h v u Hd Hs Hu) as (h' & E & Hup).
  exists h', v, ∅. rewrite reach_plain in *. simplify_eq. split_and!; [done..|set_solver].
Qed.
End plain.

(** [*T] in a struct: the block pointed to. *)
Definition Pointer (T : Type) := option loc.

Section steps.
Context {Cell T : Type} {GT : GoType Cell T}.

(** [*p] for a pointer [p] read from memory. *)
Definition deref (p : Pointer T) : Mem Cell (Ptr Cell T) :=
  match p with Some l => mret (block l) | None => panic end.

(** [if in.F != nil { in, out := &in.F, &out.F; *out = new(T); **out = **in }] *)
Definition copy_pointer (src dst : Ptr Cell (Pointer T)) : Mem Cell unit :=
  p ← load src;
  match p with
  | None => mret tt
  | Some _ =>
      q ← new T;
      store dst (Some (p_loc q)) ;;
      from ← load src; from ← deref from;
      to ← load dst; to ← deref to;
      assign from to
  end.

Context {GL : GoType Cell (list T)}.

(** [if in.F != nil { in, out := &in.F, &out.F; *out = make([]T, len( *in)); copy( *out, *in) }] *)
Definition copy_slice (src dst : Ptr Cell (Slice T)) : Mem Cell unit :=
  s ← load src;
  match s with
  | None => mret tt
  | Some _ =>
      s ← load src; t ← make (len s);
      store dst t ;;
      t ← load dst; s ← load src; copy t s
  end.

(** The same with [for i := range *in { ( *in)[i].DeepCopyInto(&( *out)[i]) }]
    at the end. *)
Definition copy_items (into : Ptr Cell T → Ptr Cell T → Mem Cell unit) (src dst : Ptr Cell (Slice T)) : Mem Cell unit :=
  s ← load src;
  match s with
  | None => mret tt
  | Some _ =>
      s ← load src; t ← make (len s);
      store dst t ;;
      s ← load src;
      for_range (len s) (λ i,
        s ← load src; from ← index s i;
        t ← load dst; to ← index t i;
        into from to)
  end.

(** [DeepCopy]: [if in == nil { return nil }; out := new(T); in.DeepCopyInto(out); return out] *)
Definition DeepCopy (into : Ptr Cell T → Ptr Cell T → Mem Cell unit) (src : option (Ptr Cell T))
    : Mem Cell (option (Ptr Cell T)) :=
  match src with
  | None => mret None
  | Some src => dst ← new T; into src dst ;; mret (Some dst)
  end.

Context {GTO : GoTypeOk Cell T} {GLO : GoTypeOk Cell (list T)}.


(** The new array is behind the destination. *)
Lemma make_run (src dst : Ptr Cell (Slice T)) h w v :
  PtrOk dst → p_loc src ≠ p_loc dst → holds src h (Some w) → holds dst h v →
  ∃ l h', (l ∉ dom h) ∧
    (∀ A (k : Mem Cell A), (s ← load src; t ← make (len s); store dst t ;; k) h = k h') ∧
    upd dst h (Some (mkWindow l 0 (s_len w) (s_len w))) h' ∧
    holds src h' (Some w) ∧ holds (block l) h' (replicate (s_len w) zero).
Proof.
  intros Hd Hne Hs Hv.
  destruct (alloc_run (box (replicate (s_len w) (zero : T))) h) as (l & Hl & E & Hh).
  set (h1 := <[l:=_]> h) in *. set (t := Some (mkWindow l 0 (s_len w) (s_len w)) : Slice T).
  pose proof (holds_dom _ _ _ Hv) as Hdom.
  destruct (upd_store dst h1 v t Hd) as (h2 & E2 & Hup); [by eapply holds_mono|].
  assert (p_loc dst ≠ l) as Hdl by (intros Heq; by rewrite Heq in Hdom).
  exists l, h2. split_and!; [done|..].
  - intros A k. rewrite (Mem_bind_run _ _ _ _ _ (holds_load _ _ _ Hs)). simpl.
    unfold make. erewrite Mem_bind_run; [|by erewrite Mem_bind_run]. by rewrite (Mem_bind_run _ _ _ _ _ E2).
  - by eapply upd_weaken.
  - eapply keeps_holds; [by eapply upd_keeps|done|]. by eapply holds_mono.
  - eapply keeps_holds; [by eapply upd_keeps|by simpl|]. apply holds_block. subst h1. apply lookup_insert_eq.
Qed.
End steps.

#[export] Instance Deep_Pointer {Cell T} {GT : GoType Cell T} : Deep Cell (Pointer T) (option T) := λ h p,
  match p with
  | None => Some (None, ∅)
  | Some l => c ← h !! l; v ← unbox c; Some (Some v, {[l]})
  end.

(** ** Their contracts *)
Section contracts.
Context {Cell T : Type} {GT : GoType Cell T} {GTO : GoTypeOk Cell T}.
Implicit Types h : heap Cell.

#[export] Instance Deep_Pointer_ok : DeepOk (Deep_Pointer (T := T)).
Proof.
  split.
  - intros h h' [l|] x d; [|by intros [= <- <-]]. intros (c & Hc & (v & Hv & [= <- <-])%bind_Some)%bind_Some Hd.
    unfold reach, Deep_Pointer. rewrite Hd by set_solver. rewrite Hc. simpl. by rewrite Hv.
  - intros h [l|] x d; [|intros [= <- <-]; set_solver].
    intros (c & Hc & (v & Hv & [= <- <-])%bind_Some)%bind_Some. apply elem_of_dom_2 in Hc. set_solver.
Qed.

Lemma copy_pointer_recopies : recopies (copy_pointer (Cell := Cell) (T := T)).
Proof.
  intros src dst h [l|] x d Hs Hd Hne Hv Hu Hr Hnd; unfold copy_pointer;
    rewrite (Mem_bind_run _ _ _ _ _ (holds_load _ _ _ Hv)); simpl.
  2: { injection Hr as <- <-. exists h, None, ∅. split_and!; [done|by apply upd_refl|done|set_solver]. }
  apply bind_Some in Hr as (c & Hc & (y & Hy & [= <- <-])%bind_Some).
  destruct (alloc_run (box (zero : T)) h) as (l' & Hl' & E & Hh).
  set (h1 := <[l':=_]> h) in *.
  pose proof (holds_dom _ _ _ Hu) as Hdom.
  assert (p_loc dst ≠ l') as Hdl by (intros Heq; by rewrite Heq in Hdom).
  destruct (upd_store dst h1 (Some l) (Some l') Hd) as (h2 & E2 & Hup); [by eapply holds_mono|].
  assert (holds src h2 (Some l)) as Hv2.
  { eapply keeps_holds; [by eapply upd_keeps|done|]. by eapply holds_mono. }
  assert (holds (block l) h2 y) as Hy2.
  { apply holds_block. eapply upd_keeps; [done|set_solver|]. eapply lookup_weaken; [|done].
    rewrite Hc. f_equal. by apply box_unbox. }
  assert (holds (block l') h2 (zero : T)) as Hz.
  { eapply keeps_holds; [by eapply upd_keeps|by simpl|]. apply holds_block. subst h1. apply lookup_insert_eq. }
  destruct (assign_run (block l) (block l') h2 y zero _ Hy2 Hz) as (h3 & E3 & Hup3).
  assert (upd dst h (Some l') h3) as Hd3.
  { eapply upd_other; [eapply upd_weaken; [exact Hh|done..]| |exact Hup3]. done. }
  exists h3, (Some l'), {[l']}. split_and!; [|done| |set_solver].
  - unfold new. erewrite Mem_bind_run; [|by rewrite (Mem_bind_run _ _ _ _ _ E)].
    rewrite (Mem_bind_run _ _ _ _ _ E2), (Mem_bind_run _ _ _ _ _ (holds_load _ _ _ Hv2)). simpl.
    erewrite Mem_bind_run by done. rewrite (Mem_bind_run _ _ _ _ _ (holds_load _ _ _ (upd_holds _ _ _ _ Hd Hup))).
    by erewrite Mem_bind_run by done.
  - unfold reach, Deep_Pointer. apply upd_holds, holds_block in Hup3; [|apply _]. rewrite Hup3. simpl.
    by rewrite unbox_box.
Qed.

Context {GL : GoType Cell (list T)} {GLO : GoTypeOk Cell (list T)}.

(** The elements of a slice, and that they are elsewhere. *)
Lemma read_window_holds h (w : Window T) l :
  read_window h w = Some l →
  ∃ a, holds (block (s_arr w)) h a ∧ l = window w a ∧ s_off w + s_len w ≤ length a ∧ length l = s_len w.
Proof.
  intros (c & Hc & (a & Ha & Hw)%bind_Some)%bind_Some. case_bool_decide as Hlen; [|done]. simplify_eq.
  exists a. split_and!; [apply holds_block; rewrite Hc; f_equal; by apply box_unbox|done..|].
  unfold window. rewrite length_take, length_drop. lia.
Qed.

Lemma read_window_new h l n (a : list T) :
  holds (block l) h a → length a = n → read_window h (mkWindow l 0 n n) = Some a.
Proof.
  intros Ha%holds_block Hn. unfold read_window, window. simpl. rewrite Ha. simpl. rewrite unbox_box. simpl.
  rewrite bool_decide_eq_true_2 by lia. by rewrite drop_0, take_ge by lia.
Qed.

Lemma copy_slice_recopies {D : Deep Cell T T} {P : Plain D} : recopies (copy_slice (Cell := Cell) (T := T)).
Proof.
  intros src dst h [w|] x d Hs Hd Hne Hv Hu Hr Hnd; unfold copy_slice;
    rewrite (Mem_bind_run _ _ _ _ _ (holds_load _ _ _ Hv)); simpl.
  2: { injection Hr as <- <-. exists h, None, ∅. split_and!; [done|by apply upd_refl|done|set_solver]. }
  apply bind_Some in Hr as (l & Hl & (r & Hr & [= <- <-])%bind_Some).
  rewrite reach_list_plain in Hr. simplify_eq. simpl in *.
  apply read_window_holds in Hl as (a & Ha & -> & Hlen & Hn).
  destruct (make_run src dst h w _ Hd Hne Hv Hu) as (l' & h2 & Hl' & E & Hup & Hv2 & Hz). rewrite E.
  rewrite (Mem_bind_run _ _ _ _ _ (holds_load _ _ _ (upd_holds _ _ _ _ Hd Hup))).
  rewrite (Mem_bind_run _ _ _ _ _ (holds_load _ _ _ Hv2)). unfold copy. simpl.
  assert (holds (block (s_arr w)) h2 a) as Ha2.
  { eapply keeps_holds; [by eapply upd_keeps|set_solver|done]. }
  rewrite (Mem_bind_run _ _ _ _ _ (holds_load _ _ _ Ha2)), (Mem_bind_run _ _ _ _ _ (holds_load _ _ _ Hz)).
  rewrite (take_ge (window w a)) by lia.
  rewrite Hn, drop_replicate, Nat.sub_diag, app_nil_r.
  destruct (upd_store (block l') h2 _ (window w a) _ Hz) as (h3 & E3 & Hup3). rewrite E3.
  exists h3, (Some (mkWindow l' 0 (s_len w) (s_len w))), ({[l']} ∪ ∅). split_and!; [done| | |set_solver].
  - by eapply upd_other; [exact Hup| |exact Hup3].
  - unfold reach, Deep_Slice. rewrite (read_window_new _ _ _ (window w a)); [|by apply upd_holds in Hup3; [|apply _]|done].
    simpl. by rewrite reach_list_plain.
Qed.

Context {V : Type} {D : Deep Cell T V} {DO : DeepOk D}.

Lemma copy_items_loop into (src dst : Ptr Cell (Slice T)) h w a xs d l :
  copies into → PtrOk dst → p_loc src ≠ p_loc dst →
  holds src h (Some w) → holds (block (s_arr w)) h a → s_off w + s_len w ≤ length a →
  reach h (window w a) = Some (xs, d) → p_loc dst ∉ ({[s_arr w]} ∪ d : gset loc) → (l ∉ dom h) → p_loc dst ∈ dom h →
  ∀ k h1 ys e,
    length ys + k = s_len w →
    upd dst h (Some (mkWindow l 0 (s_len w) (s_len w))) h1 →
    holds (block l) h1 (ys ++ replicate k zero) →
    reach h1 ys = Some (take (length ys) xs, e) → l ∉ e → e ## dom h →
    ∃ h' zs e', range_loop (length ys) k (λ i,
        s ← load src; from ← index s i; t ← load dst; to ← index t i; into from to) h1 = Some (tt, h') ∧
      upd dst h (Some (mkWindow l 0 (s_len w) (s_len w))) h' ∧
      holds (block l) h' zs ∧ length zs = s_len w ∧
      reach h' zs = Some (xs, e') ∧ e' ## dom h.
Proof.
  intros Hinto Hd Hne Hv Ha Hlen Hr Hnd Hl Hdom k.
  induction k as [|k IH]; intros h1 ys e Hk Hup Hys Hre Hle He; simpl.
  { exists h1, ys, e. rewrite app_nil_r in Hys. rewrite take_ge in Hre.
    - split_and!; [done..|lia|done|done].
    - rewrite (reach_list_length _ _ _ _ Hr). unfold window. rewrite length_take. lia. }
  set (t := Some (mkWindow l 0 (s_len w) (s_len w)) : Slice T) in *.
  pose proof (upd_keeps _ _ _ _ Hup) as Hkeep.
  assert (holds src h1 (Some w)) as Hv1 by (by eapply keeps_holds).
  assert (holds (block (s_arr w)) h1 a) as Ha1 by (eapply keeps_holds; [done|set_solver|done]).
  pose proof (upd_holds _ _ _ _ Hd Hup) as Ht.
  destruct (lookup_lt_is_Some_2 (window w a) (length ys)) as [v Hvi].
  { unfold window. rewrite length_take, length_drop. lia. }
  destruct (reach_list_lookup _ _ _ _ _ _ Hr Hvi) as (x & ex & Hx & Hrx & Hex).
  pose proof (reach_dom _ _ _ _ Hr) as Hdd.
  assert (s_arr w ∈ dom h) as Haw by (by eapply holds_dom in Ha).
  destruct (Hinto (p_elem (block (s_arr w)) (s_off w + length ys)) (p_elem (block l) (length ys)) h1 v zero x ex)
    as (h2 & v' & d' & E2 & Hup2 & Hr2 & Hd2); [apply _|apply _|simpl; set_solver| | | |simpl; set_solver|].
  { eapply holds_elem; [done|]. unfold window in Hvi. rewrite lookup_take_lt in Hvi by lia. by rewrite lookup_drop in Hvi. }
  { eapply holds_elem; [done|]. by rewrite lookup_app_r, Nat.sub_diag by lia. }
  { eapply reach_keeps; [done|set_solver|done]. }
  apply (upd_elem _ _ _ _ _ _ Hys) in Hup2 as Hup3.
  rewrite insert_app_r_alt, Nat.sub_diag in Hup3 by lia. simpl in Hup3.
  pose proof (upd_holds _ _ _ _ _ Hup3) as Hys2.
  apply upd_dom in Hup as Hdoms.
  pose proof (holds_dom _ _ _ Hys) as Hl1. simpl in Hl1.
  destruct (IH h2 (ys ++ [v']) (e ∪ (d' ∪ ∅))) as (h' & zs & e' & E & H').
  { rewrite length_app. simpl. lia. }
  { eapply upd_other; [exact Hup| |exact Hup2]. done. }
  { by rewrite <- (assoc_L (++)). }
  { rewrite length_app, Nat.add_1_r. erewrite take_S_r by done.
    apply reach_list_app; [eapply reach_keeps; [by eapply upd_keeps|done|done]|].
    unfold reach, Deep_list. simpl. by rewrite Hr2. }
  { set_solver. }
  { set_solver. }
  exists h', zs, e'. split; [|done].
  erewrite Mem_bind_run; [by rewrite length_app, Nat.add_1_r in E|].
  rewrite (Mem_bind_run _ _ _ _ _ (holds_load _ _ _ Hv1)). simpl. rewrite bool_decide_eq_true_2 by lia.
  erewrite Mem_bind_run by done. rewrite (Mem_bind_run _ _ _ _ _ (holds_load _ _ _ Ht)). simpl.
  rewrite bool_decide_eq_true_2 by lia. by erewrite Mem_bind_run by done.
Qed.

Lemma copy_items_recopies into : copies into → recopies (copy_items (Cell := Cell) (T := T) into).
Proof.
  intros Hinto src dst h [w|] x d Hs Hd Hne Hv Hu Hr Hnd; unfold copy_items;
    rewrite (Mem_bind_run _ _ _ _ _ (holds_load _ _ _ Hv)); simpl.
  2: { injection Hr as <- <-. exists h, None, ∅. split_and!; [done|by apply upd_refl|done|set_solver]. }
  apply bind_Some in Hr as (b & Hl & ([xs e] & Hr & [= <- <-])%bind_Some). simpl in *.
  apply read_window_holds in Hl as (a & Ha & -> & Hlen & Hn).
  destruct (make_run src dst h w _ Hd Hne Hv Hu) as (l & h2 & Hl & E & Hup & Hv2 & Hz). rewrite E.
  rewrite (Mem_bind_run _ _ _ _ _ (holds_load _ _ _ Hv2)).
  destruct (copy_items_loop into src dst h w a xs e l Hinto Hd Hne Hv Ha Hlen Hr Hnd Hl (holds_dom _ _ _ Hu)
    (s_len w) h2 [] ∅) as (h' & zs & e' & E' & Hup' & Hzs & Hlz & Hrz & He'); [done..|set_solver|set_solver|].
  exists h', (Some (mkWindow l 0 (s_len w) (s_len w))), ({[l]} ∪ e'). split_and!; [done|done| |set_solver].
  unfold reach, Deep_Slice. rewrite (read_window_new _ _ _ zs) by done. simpl. by rewrite Hrz.
Qed.

End contracts.

Section deepcopy.
Context {Cell T V : Type} {GT : GoType Cell T} {GTO : GoTypeOk Cell T} {D : Deep Cell T V} {DO : DeepOk D}.

(** [DeepCopy] of a pointer that is not nil: a new block, and nothing that was
    there before has changed. *)
Lemma DeepCopy_run into (src : Ptr Cell T) (h : heap Cell) v x d :
  copies into → PtrOk src → holds src h v → reach h v = Some (x, d) →
  ∃ l h' v' d', DeepCopy into (Some src) h = Some (Some (block l), h') ∧ h ⊆ h' ∧ (l ∉ dom h) ∧
    holds (block l) h' v' ∧ reach h' v' = Some (x, d') ∧ d' ## dom h.
Proof.
  intros Hinto Hs Hv Hr.
  destruct (alloc_run (box (zero : T)) h) as (l & Hl & E & Hh). set (h1 := <[l:=_]> h) in *.
  pose proof (reach_dom _ _ _ _ Hr) as Hd. pose proof (holds_dom _ _ _ Hv) as Hdom.
  destruct (Hinto src (block l) h1 v zero x d) as (h2 & v' & d' & E2 & Hup & Hr2 & Hd2);
    [done|apply _|simpl; by intros Heq; rewrite Heq in Hdom|by eapply holds_mono| |by eapply reach_mono|simpl; set_solver|].
  { apply holds_block. subst h1. apply lookup_insert_eq. }
  exists l, h2, v', d'. split_and!; [|eapply upd_new; [exact Hh| |exact Hup]; done|done|by apply upd_holds in Hup; [|apply _]|done|].
  - simpl. erewrite Mem_bind_run; [|by unfold new; rewrite (Mem_bind_run _ _ _ _ _ E)].
    by rewrite (Mem_bind_run _ _ _ _ _ E2).
  - subst h1. rewrite dom_insert_L in Hd2. set_solver.
Qed.
End deepcopy.
