(* ===== verification/CrdTypes.v ===== *)
(** * CrdTypes: the types of [structure.emeland.io/v1alpha1] in Go's memory

    [src/api/k8s/v1alpha1/*_types.go] with their pointers and slices, their zero
    values, their fields, and the blocks of memory that hold them. Structs
    without pointers are those of [K8s]. The metadata of objects and lists is
    third-party: [MetaV1]. *)

From S2P Require Import Prelude.
From S2P Require Import GoHeap.
From S2P Require Import Deep.
From S2P Require Import K8s.

(** ** The types *)

(** [metav1.ObjectMeta], [metav1.ListMeta], and the blocks they point to. *)
Class MetaV1 := {
  GoObjectMeta : Type;
  GoListMeta : Type;
  GoOther : Type;
  zero_ObjectMeta : GoObjectMeta;
  zero_ListMeta : GoListMeta;
  zero_Other : GoOther
}.

Record TypeMeta := mkTypeMeta { TypeMeta_Kind : string; TypeMeta_APIVersion : string }.

Record APIStatus := mkAPIStatus {}.
Record ComponentStatus := mkComponentStatus {}.
Record FindingRuleStatus := mkFindingRuleStatus {}.
Record SystemStatus := mkSystemStatus {}.
Record SystemInstanceStatus := mkSystemInstanceStatus {}.

(** Structs with pointers: [P] and [L] are the pointers and slices in memory,
    and what they denote in a value. *)
Record SystemSpecOf (P : Type) := mkSystemSpecOf {
  SystemSpecOf_DisplayName : string;
  SystemSpecOf_Description : string;
  SystemSpecOf_SystemId : string;
  SystemSpecOf_Version : Version;
  SystemSpecOf_Abstract : bool;
  SystemSpecOf_ParentRef : P
}.
Record ComponentSpecOf (L : Type) := mkComponentSpecOf {
  ComponentSpecOf_DisplayName : string;
  ComponentSpecOf_Description : string;
  ComponentSpecOf_ComponentId : string;
  ComponentSpecOf_Version : Version;
  ComponentSpecOf_SystemRef : VersionRef;
  ComponentSpecOf_SystemId : string;
  ComponentSpecOf_Consumes : L;
  ComponentSpecOf_Provides : L
}.
Record TargetOf (L : Type) := mkTargetOf { TargetOf_APIGroups : L; TargetOf_Resources : L }.
Record FindingRuleSpecOf (T : Type) := mkFindingRuleSpecOf {
  FindingRuleSpecOf_Target : T;
  FindingRuleSpecOf_Condition : string;
  FindingRuleSpecOf_Finding : FindingSpec
}.

(** The shape of every object and of every list of objects. *)
Record ObjectOf (M Sp St : Type) := mkObjectOf {
  Object_TypeMeta : TypeMeta;
  Object_ObjectMeta : M;
  Object_Spec : Sp;
  Object_Status : St
}.
Record ListOf (M L : Type) := mkListOf {
  List_TypeMeta : TypeMeta;
  List_ListMeta : M;
  List_Items : L
}.

Arguments mkSystemSpecOf {P}. Arguments SystemSpecOf_DisplayName {P}. Arguments SystemSpecOf_Description {P}.
Arguments SystemSpecOf_SystemId {P}. Arguments SystemSpecOf_Version {P}. Arguments SystemSpecOf_Abstract {P}.
Arguments SystemSpecOf_ParentRef {P}.
Arguments mkComponentSpecOf {L}. Arguments ComponentSpecOf_DisplayName {L}. Arguments ComponentSpecOf_Description {L}.
Arguments ComponentSpecOf_ComponentId {L}. Arguments ComponentSpecOf_Version {L}. Arguments ComponentSpecOf_SystemRef {L}.
Arguments ComponentSpecOf_SystemId {L}. Arguments ComponentSpecOf_Consumes {L}. Arguments ComponentSpecOf_Provides {L}.
Arguments mkTargetOf {L}. Arguments TargetOf_APIGroups {L}. Arguments TargetOf_Resources {L}.
Arguments mkFindingRuleSpecOf {T}. Arguments FindingRuleSpecOf_Target {T}. Arguments FindingRuleSpecOf_Condition {T}.
Arguments FindingRuleSpecOf_Finding {T}.
Arguments mkObjectOf {M Sp St}. Arguments Object_TypeMeta {M Sp St}. Arguments Object_ObjectMeta {M Sp St}.
Arguments Object_Spec {M Sp St}. Arguments Object_Status {M Sp St}.
Arguments mkListOf {M L}. Arguments List_TypeMeta {M L}. Arguments List_ListMeta {M L}. Arguments List_Items {M L}.

Definition GoSystemSpec : Type := SystemSpecOf (Pointer VersionRef).
Definition GoComponentSpec : Type := ComponentSpecOf (Slice APIRef).
Definition GoTarget : Type := TargetOf (Slice string).
Definition GoFindingRuleSpec : Type := FindingRuleSpecOf GoTarget.

(** ** Zero values *)
Definition zero_Version : Version := mkVersion "" "" "" "".
Definition zero_VersionRef : VersionRef := mkVersionRef "" "".
Definition zero_APIVersionRef : APIVersionRef := mkAPIVersionRef "" "".
Definition zero_APIRef : APIRef := mkAPIRef zero_APIVersionRef "".
Definition zero_APISpec : APISpec := mkAPISpec "" "" "" zero_Version "" zero_VersionRef "".
Definition zero_SystemInstanceSpec : SystemInstanceSpec := mkSystemInstanceSpec "" "" "".
Definition zero_FindingType : FindingTypeSpec := mkFindingTypeSpec "" "" "".
Definition zero_Finding : FindingSpec := mkFindingSpec "" "" "" zero_FindingType.
Definition zero_Target : GoTarget := mkTargetOf None None.
Definition zero_FindingRuleSpec : GoFindingRuleSpec := mkFindingRuleSpecOf zero_Target "" zero_Finding.
Definition zero_SystemSpec : GoSystemSpec := mkSystemSpecOf "" "" "" zero_Version false None.
Definition zero_ComponentSpec : GoComponentSpec :=
  mkComponentSpecOf "" "" "" zero_Version zero_VersionRef "" None None.
Definition zero_TypeMeta : TypeMeta := mkTypeMeta "" "".

Section types.
Context {MV : MetaV1}.

Definition GoAPI : Type := ObjectOf GoObjectMeta APISpec APIStatus.
Definition GoComponent : Type := ObjectOf GoObjectMeta GoComponentSpec ComponentStatus.
Definition GoFindingRule : Type := ObjectOf GoObjectMeta GoFindingRuleSpec FindingRuleStatus.
Definition GoSystem : Type := ObjectOf GoObjectMeta GoSystemSpec SystemStatus.
Definition GoSystemInstance : Type := ObjectOf GoObjectMeta SystemInstanceSpec SystemInstanceStatus.
Definition GoAPIList : Type := ListOf GoListMeta (Slice GoAPI).
Definition GoComponentList : Type := ListOf GoListMeta (Slice GoComponent).
Definition GoFindingRuleList : Type := ListOf GoListMeta (Slice GoFindingRule).
Definition GoSystemList : Type := ListOf GoListMeta (Slice GoSystem).
Definition GoSystemInstanceList : Type := ListOf GoListMeta (Slice GoSystemInstance).

Definition zero_Object {Sp St} (sp : Sp) (st : St) : ObjectOf GoObjectMeta Sp St :=
  mkObjectOf zero_TypeMeta zero_ObjectMeta sp st.
Definition zero_List {T} : ListOf GoListMeta (Slice T) := mkListOf zero_TypeMeta zero_ListMeta None.

(** *** Blocks: every block has a Go type *)
Inductive Tag :=
| TString | TAPI | TAPIList | TAPIRef | TAPISpec | TAPIStatus | TAPIVersionRef
| TComponent | TComponentList | TComponentSpec | TComponentStatus
| TFinding | TFindingRule | TFindingRuleList | TFindingRuleSpec | TFindingRuleStatus | TFindingType
| TSystem | TSystemInstance | TSystemInstanceList | TSystemInstanceSpec | TSystemInstanceStatus
| TSystemList | TSystemSpec | TSystemStatus | TTarget | TVersion | TVersionRef
| TArray (t : Tag)
| TOther.

#[export] Instance Tag_eq_dec : EqDecision Tag.
Proof. solve_decision. Defined.

Fixpoint denote (t : Tag) : Type :=
  match t with
  | TString => string
  | TAPI => GoAPI | TAPIList => GoAPIList | TAPIRef => APIRef | TAPISpec => APISpec
  | TAPIStatus => APIStatus | TAPIVersionRef => APIVersionRef
  | TComponent => GoComponent | TComponentList => GoComponentList
  | TComponentSpec => GoComponentSpec | TComponentStatus => ComponentStatus
  | TFinding => FindingSpec | TFindingRule => GoFindingRule | TFindingRuleList => GoFindingRuleList
  | TFindingRuleSpec => GoFindingRuleSpec | TFindingRuleStatus => FindingRuleStatus
  | TFindingType => FindingTypeSpec
  | TSystem => GoSystem | TSystemInstance => GoSystemInstance | TSystemInstanceList => GoSystemInstanceList
  | TSystemInstanceSpec => SystemInstanceSpec | TSystemInstanceStatus => SystemInstanceStatus
  | TSystemList => GoSystemList | TSystemSpec => GoSystemSpec | TSystemStatus => SystemStatus
  | TTarget => GoTarget | TVersion => Version | TVersionRef => VersionRef
  | TArray t => list (denote t)
  | TOther => GoOther
  end.

Definition zero_of (t : Tag) : denote t :=
  match t with
  | TString => ""
  | TAPI => zero_Object zero_APISpec mkAPIStatus | TAPIList => zero_List
  | TAPIRef => zero_APIRef | TAPISpec => zero_APISpec
  | TAPIStatus => mkAPIStatus | TAPIVersionRef => zero_APIVersionRef
  | TComponent => zero_Object zero_ComponentSpec mkComponentStatus | TComponentList => zero_List
  | TComponentSpec => zero_ComponentSpec | TComponentStatus => mkComponentStatus
  | TFinding => zero_Finding
  | TFindingRule => zero_Object zero_FindingRuleSpec mkFindingRuleStatus | TFindingRuleList => zero_List
  | TFindingRuleSpec => zero_FindingRuleSpec | TFindingRuleStatus => mkFindingRuleStatus
  | TFindingType => zero_FindingType
  | TSystem => zero_Object zero_SystemSpec mkSystemStatus
  | TSystemInstance => zero_Object zero_SystemInstanceSpec mkSystemInstanceStatus
  | TSystemInstanceList => zero_List
  | TSystemInstanceSpec => zero_SystemInstanceSpec | TSystemInstanceStatus => mkSystemInstanceStatus
  | TSystemList => zero_List | TSystemSpec => zero_SystemSpec | TSystemStatus => mkSystemStatus
  | TTarget => zero_Target | TVersion => zero_Version | TVersionRef => zero_VersionRef
  | TArray t => []
  | TOther => zero_Other
  end.

Definition Cell : Type := {t : Tag & denote t}.

Definition tag_type (t : Tag) : GoType Cell (denote t) := {|
  box := λ v, existT t v;
  unbox := λ c, match decide (projT1 c = t) with left e => Some (eq_rect _ denote (projT2 c) _ e) | right _ => None end;
  zero := zero_of t
|}.

#[export] Instance tag_type_ok t : GoTypeOk Cell (denote t) (G := tag_type t).
Proof.
  split; simpl.
  - intros v. destruct (decide (t = t)) as [e|]; [|done]. by rewrite (proof_irrel e eq_refl).
  - intros [t' u] v. simpl. destruct (decide (t' = t)) as [<-|]; [|done]. by intros [= <-].
Qed.
(** One instance per type, so that [new(T)] and [make([]T, n)] find the zero value. *)
#[export] Instance type_string : GoType Cell string := tag_type TString.
#[export] Instance type_GoAPI : GoType Cell GoAPI := tag_type TAPI.
#[export] Instance type_GoAPIList : GoType Cell GoAPIList := tag_type TAPIList.
#[export] Instance type_APIRef : GoType Cell APIRef := tag_type TAPIRef.
#[export] Instance type_APISpec : GoType Cell APISpec := tag_type TAPISpec.
#[export] Instance type_APIStatus : GoType Cell APIStatus := tag_type TAPIStatus.
#[export] Instance type_APIVersionRef : GoType Cell APIVersionRef := tag_type TAPIVersionRef.
#[export] Instance type_GoComponent : GoType Cell GoComponent := tag_type TComponent.
#[export] Instance type_GoComponentList : GoType Cell GoComponentList := tag_type TComponentList.
#[export] Instance type_GoComponentSpec : GoType Cell GoComponentSpec := tag_type TComponentSpec.
#[export] Instance type_ComponentStatus : GoType Cell ComponentStatus := tag_type TComponentStatus.
#[export] Instance type_FindingSpec : GoType Cell FindingSpec := tag_type TFinding.
#[export] Instance type_GoFindingRule : GoType Cell GoFindingRule := tag_type TFindingRule.
#[export] Instance type_GoFindingRuleList : GoType Cell GoFindingRuleList := tag_type TFindingRuleList.
#[export] Instance type_GoFindingRuleSpec : GoType Cell GoFindingRuleSpec := tag_type TFindingRuleSpec.
#[export] Instance type_FindingRuleStatus : GoType Cell FindingRuleStatus := tag_type TFindingRuleStatus.
#[export] Instance type_FindingTypeSpec : GoType Cell FindingTypeSpec := tag_type TFindingType.
#[export] Instance type_GoSystem : GoType Cell GoSystem := tag_type TSystem.
#[export] Instance type_GoSystemInstance : GoType Cell GoSystemInstance := tag_type TSystemInstance.
#[export] Instance type_GoSystemInstanceList : GoType Cell GoSystemInstanceList := tag_type TSystemInstanceList.
#[export] Instance type_SystemInstanceSpec : GoType Cell SystemInstanceSpec := tag_type TSystemInstanceSpec.
#[export] Instance type_SystemInstanceStatus : GoType Cell SystemInstanceStatus := tag_type TSystemInstanceStatus.
#[export] Instance type_GoSystemList : GoType Cell GoSystemList := tag_type TSystemList.
#[export] Instance type_GoSystemSpec : GoType Cell GoSystemSpec := tag_type TSystemSpec.
#[export] Instance type_SystemStatus : GoType Cell SystemStatus := tag_type TSystemStatus.
#[export] Instance type_GoTarget : GoType Cell GoTarget := tag_type TTarget.
#[export] Instance type_Version : GoType Cell Version := tag_type TVersion.
#[export] Instance type_VersionRef : GoType Cell VersionRef := tag_type TVersionRef.
#[export] Instance type_GoOther : GoType Cell GoOther := tag_type TOther.
#[export] Instance type_strings : GoType Cell (list string) := tag_type (TArray TString).
#[export] Instance type_APIRefs : GoType Cell (list APIRef) := tag_type (TArray TAPIRef).
#[export] Instance type_GoAPIs : GoType Cell (list GoAPI) := tag_type (TArray TAPI).
#[export] Instance type_GoComponents : GoType Cell (list GoComponent) := tag_type (TArray TComponent).
#[export] Instance type_GoFindingRules : GoType Cell (list GoFindingRule) := tag_type (TArray TFindingRule).
#[export] Instance type_GoSystems : GoType Cell (list GoSystem) := tag_type (TArray TSystem).
#[export] Instance type_GoSystemInstances : GoType Cell (list GoSystemInstance) := tag_type (TArray TSystemInstance).
#[export] Instance type_string_ok : GoTypeOk Cell string := tag_type_ok TString.
#[export] Instance type_GoAPI_ok : GoTypeOk Cell GoAPI := tag_type_ok TAPI.
#[export] Instance type_GoAPIList_ok : GoTypeOk Cell GoAPIList := tag_type_ok TAPIList.
#[export] Instance type_APIRef_ok : GoTypeOk Cell APIRef := tag_type_ok TAPIRef.
#[export] Instance type_APISpec_ok : GoTypeOk Cell APISpec := tag_type_ok TAPISpec.
#[export] Instance type_APIStatus_ok : GoTypeOk Cell APIStatus := tag_type_ok TAPIStatus.
#[export] Instance type_APIVersionRef_ok : GoTypeOk Cell APIVersionRef := tag_type_ok TAPIVersionRef.
#[export] Instance type_GoComponent_ok : GoTypeOk Cell GoComponent := tag_type_ok TComponent.
#[export] Instance type_GoComponentList_ok : GoTypeOk Cell GoComponentList := tag_type_ok TComponentList.
#[export] Instance type_GoComponentSpec_ok : GoTypeOk Cell GoComponentSpec := tag_type_ok TComponentSpec.
#[export] Instance type_ComponentStatus_ok : GoTypeOk Cell ComponentStatus := tag_type_ok TComponentStatus.
#[export] Instance type_FindingSpec_ok : GoTypeOk Cell FindingSpec := tag_type_ok TFinding.
#[export] Instance type_GoFindingRule_ok : GoTypeOk Cell GoFindingRule := tag_type_ok TFindingRule.
#[export] Instance type_GoFindingRuleList_ok : GoTypeOk Cell GoFindingRuleList := tag_type_ok TFindingRuleList.
#[export] Instance type_GoFindingRuleSpec_ok : GoTypeOk Cell GoFindingRuleSpec := tag_type_ok TFindingRuleSpec.
#[export] Instance type_FindingRuleStatus_ok : GoTypeOk Cell FindingRuleStatus := tag_type_ok TFindingRuleStatus.
#[export] Instance type_FindingTypeSpec_ok : GoTypeOk Cell FindingTypeSpec := tag_type_ok TFindingType.
#[export] Instance type_GoSystem_ok : GoTypeOk Cell GoSystem := tag_type_ok TSystem.
#[export] Instance type_GoSystemInstance_ok : GoTypeOk Cell GoSystemInstance := tag_type_ok TSystemInstance.
#[export] Instance type_GoSystemInstanceList_ok : GoTypeOk Cell GoSystemInstanceList := tag_type_ok TSystemInstanceList.
#[export] Instance type_SystemInstanceSpec_ok : GoTypeOk Cell SystemInstanceSpec := tag_type_ok TSystemInstanceSpec.
#[export] Instance type_SystemInstanceStatus_ok : GoTypeOk Cell SystemInstanceStatus := tag_type_ok TSystemInstanceStatus.
#[export] Instance type_GoSystemList_ok : GoTypeOk Cell GoSystemList := tag_type_ok TSystemList.
#[export] Instance type_GoSystemSpec_ok : GoTypeOk Cell GoSystemSpec := tag_type_ok TSystemSpec.
#[export] Instance type_SystemStatus_ok : GoTypeOk Cell SystemStatus := tag_type_ok TSystemStatus.
#[export] Instance type_GoTarget_ok : GoTypeOk Cell GoTarget := tag_type_ok TTarget.
#[export] Instance type_Version_ok : GoTypeOk Cell Version := tag_type_ok TVersion.
#[export] Instance type_VersionRef_ok : GoTypeOk Cell VersionRef := tag_type_ok TVersionRef.
#[export] Instance type_GoOther_ok : GoTypeOk Cell GoOther := tag_type_ok TOther.
#[export] Instance type_strings_ok : GoTypeOk Cell (list string) := tag_type_ok (TArray TString).
#[export] Instance type_APIRefs_ok : GoTypeOk Cell (list APIRef) := tag_type_ok (TArray TAPIRef).
#[export] Instance type_GoAPIs_ok : GoTypeOk Cell (list GoAPI) := tag_type_ok (TArray TAPI).
#[export] Instance type_GoComponents_ok : GoTypeOk Cell (list GoComponent) := tag_type_ok (TArray TComponent).
#[export] Instance type_GoFindingRules_ok : GoTypeOk Cell (list GoFindingRule) := tag_type_ok (TArray TFindingRule).
#[export] Instance type_GoSystems_ok : GoTypeOk Cell (list GoSystem) := tag_type_ok (TArray TSystem).
#[export] Instance type_GoSystemInstances_ok : GoTypeOk Cell (list GoSystemInstance) := tag_type_ok (TArray TSystemInstance).
End types.

(** ** Fields *)
Definition f_APIRef_VersionRef : Lens (APIRef) APIVersionRef := mkLens APIRef_VersionRef
  (λ a s, mkAPIRef a (APIRef_ApiId s)).
Definition f_APISpec_Version : Lens (APISpec) Version := mkLens APISpec_Version
  (λ a s, mkAPISpec (APISpec_DisplayName s) (APISpec_Description s) (APISpec_ApiId s) a (APISpec_Type s) (APISpec_SystemRef s) (APISpec_SystemId s)).
Definition f_APISpec_SystemRef : Lens (APISpec) VersionRef := mkLens APISpec_SystemRef
  (λ a s, mkAPISpec (APISpec_DisplayName s) (APISpec_Description s) (APISpec_ApiId s) (APISpec_Version s) (APISpec_Type s) a (APISpec_SystemId s)).
Definition f_Finding_Type : Lens (FindingSpec) FindingTypeSpec := mkLens fs_Type
  (λ a s, mkFindingSpec (fs_Severity s) (fs_DisplayName s) (fs_Description s) a).
Definition f_ComponentSpec_Version {L} : Lens (ComponentSpecOf L) Version := mkLens ComponentSpecOf_Version
  (λ a s, mkComponentSpecOf (ComponentSpecOf_DisplayName s) (ComponentSpecOf_Description s) (ComponentSpecOf_ComponentId s) a (ComponentSpecOf_SystemRef s) (ComponentSpecOf_SystemId s) (ComponentSpecOf_Consumes s) (ComponentSpecOf_Provides s)).
Definition f_ComponentSpec_SystemRef {L} : Lens (ComponentSpecOf L) VersionRef := mkLens ComponentSpecOf_SystemRef
  (λ a s, mkComponentSpecOf (ComponentSpecOf_DisplayName s) (ComponentSpecOf_Description s) (ComponentSpecOf_ComponentId s) (ComponentSpecOf_Version s) a (ComponentSpecOf_SystemId s) (ComponentSpecOf_Consumes s) (ComponentSpecOf_Provides s)).
Definition f_ComponentSpec_Consumes {L} : Lens (ComponentSpecOf L) L := mkLens ComponentSpecOf_Consumes
  (λ a s, mkComponentSpecOf (ComponentSpecOf_DisplayName s) (ComponentSpecOf_Description s) (ComponentSpecOf_ComponentId s) (ComponentSpecOf_Version s) (ComponentSpecOf_SystemRef s) (ComponentSpecOf_SystemId s) a (ComponentSpecOf_Provides s)).
Definition f_ComponentSpec_Provides {L} : Lens (ComponentSpecOf L) L := mkLens ComponentSpecOf_Provides
  (λ a s, mkComponentSpecOf (ComponentSpecOf_DisplayName s) (ComponentSpecOf_Description s) (ComponentSpecOf_ComponentId s) (ComponentSpecOf_Version s) (ComponentSpecOf_SystemRef s) (ComponentSpecOf_SystemId s) (ComponentSpecOf_Consumes s) a).
Definition f_SystemSpec_Version {P} : Lens (SystemSpecOf P) Version := mkLens SystemSpecOf_Version
  (λ a s, mkSystemSpecOf (SystemSpecOf_DisplayName s) (SystemSpecOf_Description s) (SystemSpecOf_SystemId s) a (SystemSpecOf_Abstract s) (SystemSpecOf_ParentRef s)).
Definition f_SystemSpec_ParentRef {P} : Lens (SystemSpecOf P) P := mkLens SystemSpecOf_ParentRef
  (λ a s, mkSystemSpecOf (SystemSpecOf_DisplayName s) (SystemSpecOf_Description s) (SystemSpecOf_SystemId s) (SystemSpecOf_Version s) (SystemSpecOf_Abstract s) a).
Definition f_Target_APIGroups {L} : Lens (TargetOf L) L := mkLens TargetOf_APIGroups
  (λ a s, mkTargetOf a (TargetOf_Resources s)).
Definition f_Target_Resources {L} : Lens (TargetOf L) L := mkLens TargetOf_Resources
  (λ a s, mkTargetOf (TargetOf_APIGroups s) a).
Definition f_FindingRuleSpec_Target {T} : Lens (FindingRuleSpecOf T) T := mkLens FindingRuleSpecOf_Target
  (λ a s, mkFindingRuleSpecOf a (FindingRuleSpecOf_Condition s) (FindingRuleSpecOf_Finding s)).
Definition f_FindingRuleSpec_Finding {T} : Lens (FindingRuleSpecOf T) FindingSpec := mkLens FindingRuleSpecOf_Finding
  (λ a s, mkFindingRuleSpecOf (FindingRuleSpecOf_Target s) (FindingRuleSpecOf_Condition s) a).
Definition f_TypeMeta {M Sp St} : Lens (ObjectOf M Sp St) TypeMeta := mkLens Object_TypeMeta
  (λ a s, mkObjectOf a (Object_ObjectMeta s) (Object_Spec s) (Object_Status s)).
Definition f_ObjectMeta {M Sp St} : Lens (ObjectOf M Sp St) M := mkLens Object_ObjectMeta
  (λ a s, mkObjectOf (Object_TypeMeta s) a (Object_Spec s) (Object_Status s)).
Definition f_Spec {M Sp St} : Lens (ObjectOf M Sp St) Sp := mkLens Object_Spec
  (λ a s, mkObjectOf (Object_TypeMeta s) (Object_ObjectMeta s) a (Object_Status s)).
Definition f_Status {M Sp St} : Lens (ObjectOf M Sp St) St := mkLens Object_Status
  (λ a s, mkObjectOf (Object_TypeMeta s) (Object_ObjectMeta s) (Object_Spec s) a).
Definition f_List_TypeMeta {M L} : Lens (ListOf M L) TypeMeta := mkLens List_TypeMeta
  (λ a s, mkListOf a (List_ListMeta s) (List_Items s)).
Definition f_List_ListMeta {M L} : Lens (ListOf M L) M := mkLens List_ListMeta
  (λ a s, mkListOf (List_TypeMeta s) a (List_Items s)).
Definition f_List_Items {M L} : Lens (ListOf M L) L := mkLens List_Items
  (λ a s, mkListOf (List_TypeMeta s) (List_ListMeta s) a).

Ltac solve_lens := split; [done|done|by intros []].
#[export] Instance f_APIRef_VersionRef_ok : LensOk f_APIRef_VersionRef.
Proof. solve_lens. Qed.
#[export] Instance f_APISpec_Version_ok : LensOk f_APISpec_Version.
Proof. solve_lens. Qed.
#[export] Instance f_APISpec_SystemRef_ok : LensOk f_APISpec_SystemRef.
Proof. solve_lens. Qed.
#[export] Instance f_Finding_Type_ok : LensOk f_Finding_Type.
Proof. solve_lens. Qed.
#[export] Instance f_ComponentSpec_Version_ok {L} : LensOk (f_ComponentSpec_Version (L := L)).
Proof. solve_lens. Qed.
#[export] Instance f_ComponentSpec_SystemRef_ok {L} : LensOk (f_ComponentSpec_SystemRef (L := L)).
Proof. solve_lens. Qed.
#[export] Instance f_ComponentSpec_Consumes_ok {L} : LensOk (f_ComponentSpec_Consumes (L := L)).
Proof. solve_lens. Qed.
#[export] Instance f_ComponentSpec_Provides_ok {L} : LensOk (f_ComponentSpec_Provides (L := L)).
Proof. solve_lens. Qed.
#[export] Instance f_SystemSpec_Version_ok {P} : LensOk (f_SystemSpec_Version (P := P)).
Proof. solve_lens. Qed.
#[export] Instance f_SystemSpec_ParentRef_ok {P} : LensOk (f_SystemSpec_ParentRef (P := P)).
Proof. solve_lens. Qed.
#[export] Instance f_Target_APIGroups_ok {L} : LensOk (f_Target_APIGroups (L := L)).
Proof. solve_lens. Qed.
#[export] Instance f_Target_Resources_ok {L} : LensOk (f_Target_Resources (L := L)).
Proof. solve_lens. Qed.
#[export] Instance f_FindingRuleSpec_Target_ok {T} : LensOk (f_FindingRuleSpec_Target (T := T)).
Proof. solve_lens. Qed.
#[export] Instance f_FindingRuleSpec_Finding_ok {T} : LensOk (f_FindingRuleSpec_Finding (T := T)).
Proof. solve_lens. Qed.
#[export] Instance f_TypeMeta_ok {M Sp St} : LensOk (f_TypeMeta (M := M) (Sp := Sp) (St := St)).
Proof. solve_lens. Qed.
#[export] Instance f_ObjectMeta_ok {M Sp St} : LensOk (f_ObjectMeta (M := M) (Sp := Sp) (St := St)).
Proof. solve_lens. Qed.
#[export] Instance f_Spec_ok {M Sp St} : LensOk (f_Spec (M := M) (Sp := Sp) (St := St)).
Proof. solve_lens. Qed.
#[export] Instance f_Status_ok {M Sp St} : LensOk (f_Status (M := M) (Sp := Sp) (St := St)).
Proof. solve_lens. Qed.
#[export] Instance f_List_TypeMeta_ok {M L} : LensOk (f_List_TypeMeta (M := M) (L := L)).
Proof. solve_lens. Qed.
#[export] Instance f_List_ListMeta_ok {M L} : LensOk (f_List_ListMeta (M := M) (L := L)).
Proof. solve_lens. Qed.
#[export] Instance f_List_Items_ok {M L} : LensOk (f_List_Items (M := M) (L := L)).
Proof. solve_lens. Qed.
