(* ===== verification/DeepCopy.v ===== *)
(** * DeepCopy: [src/api/k8s/v1alpha1/zz_generated.deepcopy.go]

    [DeepCopyInto], [DeepCopy] and [DeepCopyObject] of every type, statement by
    statement, and that the copy of an object denotes what the object denotes
    and shares no memory with anything that was there before. *)

From S2P Require Import Prelude.
From S2P Require Import GoHeap.
From S2P Require Import Deep.
From S2P Require Import K8s.
From S2P Require Import CrdTypes.

(** The copies of the metadata: third-party code, which keeps the contract of
    every [DeepCopyInto] ([MetaCopiesLaws]). *)
Class MetaCopies {MV : MetaV1} := {
  ObjectMeta_DeepCopyInto : Ptr Cell GoObjectMeta → Ptr Cell GoObjectMeta → Mem Cell unit;
  ListMeta_DeepCopyInto : Ptr Cell GoListMeta → Ptr Cell GoListMeta → Mem Cell unit;
  ObjectMetaValue : Type;
  ListMetaValue : Type;
  Deep_ObjectMeta :: Deep Cell GoObjectMeta ObjectMetaValue;
  Deep_ListMeta :: Deep Cell GoListMeta ListMetaValue
}.

Class MetaCopiesLaws {MV : MetaV1} {MC : MetaCopies} : Prop := {
  Deep_ObjectMeta_ok :: DeepOk Deep_ObjectMeta;
  Deep_ListMeta_ok :: DeepOk Deep_ListMeta;
  ObjectMeta_copies : copies ObjectMeta_DeepCopyInto;
  ListMeta_copies : copies ListMeta_DeepCopyInto
}.

Section functions.
Context {MV : MetaV1} {MC : MetaCopies}.

(** ** [DeepCopyInto] *)
Definition Version_DeepCopyInto (src dst : Ptr Cell Version) : Mem Cell unit := assign src dst.
Definition VersionRef_DeepCopyInto (src dst : Ptr Cell VersionRef) : Mem Cell unit := assign src dst.
Definition APIVersionRef_DeepCopyInto (src dst : Ptr Cell APIVersionRef) : Mem Cell unit := assign src dst.
Definition APIRef_DeepCopyInto (src dst : Ptr Cell APIRef) : Mem Cell unit :=
  assign src dst ;;
  assign (src ⇢ f_APIRef_VersionRef) (dst ⇢ f_APIRef_VersionRef).
Definition APISpec_DeepCopyInto (src dst : Ptr Cell APISpec) : Mem Cell unit :=
  assign src dst ;;
  assign (src ⇢ f_APISpec_Version) (dst ⇢ f_APISpec_Version) ;;
  assign (src ⇢ f_APISpec_SystemRef) (dst ⇢ f_APISpec_SystemRef).
Definition FindingType_DeepCopyInto (src dst : Ptr Cell FindingTypeSpec) : Mem Cell unit := assign src dst.
Definition Finding_DeepCopyInto (src dst : Ptr Cell FindingSpec) : Mem Cell unit :=
  assign src dst ;;
  assign (src ⇢ f_Finding_Type) (dst ⇢ f_Finding_Type).
Definition SystemInstanceSpec_DeepCopyInto (src dst : Ptr Cell SystemInstanceSpec) : Mem Cell unit := assign src dst.
Definition APIStatus_DeepCopyInto (src dst : Ptr Cell APIStatus) : Mem Cell unit := assign src dst.
Definition ComponentStatus_DeepCopyInto (src dst : Ptr Cell ComponentStatus) : Mem Cell unit := assign src dst.
Definition FindingRuleStatus_DeepCopyInto (src dst : Ptr Cell FindingRuleStatus) : Mem Cell unit := assign src dst.
Definition SystemStatus_DeepCopyInto (src dst : Ptr Cell SystemStatus) : Mem Cell unit := assign src dst.
Definition SystemInstanceStatus_DeepCopyInto (src dst : Ptr Cell SystemInstanceStatus) : Mem Cell unit := assign src dst.

Definition SystemSpec_DeepCopyInto (src dst : Ptr Cell GoSystemSpec) : Mem Cell unit :=
  assign src dst ;;
  assign (src ⇢ f_SystemSpec_Version) (dst ⇢ f_SystemSpec_Version) ;;
  copy_pointer (src ⇢ f_SystemSpec_ParentRef) (dst ⇢ f_SystemSpec_ParentRef).
Definition ComponentSpec_DeepCopyInto (src dst : Ptr Cell GoComponentSpec) : Mem Cell unit :=
  assign src dst ;;
  assign (src ⇢ f_ComponentSpec_Version) (dst ⇢ f_ComponentSpec_Version) ;;
  assign (src ⇢ f_ComponentSpec_SystemRef) (dst ⇢ f_ComponentSpec_SystemRef) ;;
  copy_slice (src ⇢ f_ComponentSpec_Consumes) (dst ⇢ f_ComponentSpec_Consumes) ;;
  copy_slice (src ⇢ f_ComponentSpec_Provides) (dst ⇢ f_ComponentSpec_Provides).
Definition Target_DeepCopyInto (src dst : Ptr Cell GoTarget) : Mem Cell unit :=
  assign src dst ;;
  copy_slice (src ⇢ f_Target_APIGroups) (dst ⇢ f_Target_APIGroups) ;;
  copy_slice (src ⇢ f_Target_Resources) (dst ⇢ f_Target_Resources).
Definition FindingRuleSpec_DeepCopyInto (src dst : Ptr Cell GoFindingRuleSpec) : Mem Cell unit :=
  assign src dst ;;
  Target_DeepCopyInto (src ⇢ f_FindingRuleSpec_Target) (dst ⇢ f_FindingRuleSpec_Target) ;;
  assign (src ⇢ f_FindingRuleSpec_Finding) (dst ⇢ f_FindingRuleSpec_Finding).

(** The objects differ in how they copy their [Spec]: those without pointers in
    it assign it. *)
Definition Object_DeepCopyInto {Sp St} (spec : Ptr Cell Sp → Ptr Cell Sp → Mem Cell unit)
    (src dst : Ptr Cell (ObjectOf GoObjectMeta Sp St)) : Mem Cell unit :=
  assign src dst ;;
  assign (src ⇢ f_TypeMeta) (dst ⇢ f_TypeMeta) ;;
  ObjectMeta_DeepCopyInto (src ⇢ f_ObjectMeta) (dst ⇢ f_ObjectMeta) ;;
  spec (src ⇢ f_Spec) (dst ⇢ f_Spec) ;;
  assign (src ⇢ f_Status) (dst ⇢ f_Status).
Definition API_DeepCopyInto : Ptr Cell GoAPI → Ptr Cell GoAPI → Mem Cell unit := Object_DeepCopyInto assign.
Definition Component_DeepCopyInto : Ptr Cell GoComponent → Ptr Cell GoComponent → Mem Cell unit :=
  Object_DeepCopyInto ComponentSpec_DeepCopyInto.
Definition FindingRule_DeepCopyInto : Ptr Cell GoFindingRule → Ptr Cell GoFindingRule → Mem Cell unit :=
  Object_DeepCopyInto FindingRuleSpec_DeepCopyInto.
Definition System_DeepCopyInto : Ptr Cell GoSystem → Ptr Cell GoSystem → Mem Cell unit :=
  Object_DeepCopyInto SystemSpec_DeepCopyInto.
Definition SystemInstance_DeepCopyInto : Ptr Cell GoSystemInstance → Ptr Cell GoSystemInstance → Mem Cell unit :=
  Object_DeepCopyInto assign.

(** The lists have one text. *)
Definition List_DeepCopyInto {T} `{GoType Cell T, GoType Cell (list T)} (item : Ptr Cell T → Ptr Cell T → Mem Cell unit)
    (src dst : Ptr Cell (ListOf GoListMeta (Slice T))) : Mem Cell unit :=
  assign src dst ;;
  assign (src ⇢ f_List_TypeMeta) (dst ⇢ f_List_TypeMeta) ;;
  ListMeta_DeepCopyInto (src ⇢ f_List_ListMeta) (dst ⇢ f_List_ListMeta) ;;
  copy_items item (src ⇢ f_List_Items) (dst ⇢ f_List_Items).
Definition APIList_DeepCopyInto : Ptr Cell GoAPIList → Ptr Cell GoAPIList → Mem Cell unit :=
  List_DeepCopyInto API_DeepCopyInto.
Definition ComponentList_DeepCopyInto : Ptr Cell GoComponentList → Ptr Cell GoComponentList → Mem Cell unit :=
  List_DeepCopyInto Component_DeepCopyInto.
Definition FindingRuleList_DeepCopyInto : Ptr Cell GoFindingRuleList → Ptr Cell GoFindingRuleList → Mem Cell unit :=
  List_DeepCopyInto FindingRule_DeepCopyInto.
Definition SystemList_DeepCopyInto : Ptr Cell GoSystemList → Ptr Cell GoSystemList → Mem Cell unit :=
  List_DeepCopyInto System_DeepCopyInto.
Definition SystemInstanceList_DeepCopyInto :
    Ptr Cell GoSystemInstanceList → Ptr Cell GoSystemInstanceList → Mem Cell unit :=
  List_DeepCopyInto SystemInstance_DeepCopyInto.

(** ** [DeepCopy] *)
Definition API_DeepCopy := DeepCopy API_DeepCopyInto.
Definition APIList_DeepCopy := DeepCopy APIList_DeepCopyInto.
Definition APIRef_DeepCopy := DeepCopy APIRef_DeepCopyInto.
Definition APISpec_DeepCopy := DeepCopy APISpec_DeepCopyInto.
Definition APIStatus_DeepCopy := DeepCopy APIStatus_DeepCopyInto.
Definition APIVersionRef_DeepCopy := DeepCopy APIVersionRef_DeepCopyInto.
Definition Component_DeepCopy := DeepCopy Component_DeepCopyInto.
Definition ComponentList_DeepCopy := DeepCopy ComponentList_DeepCopyInto.
Definition ComponentSpec_DeepCopy := DeepCopy ComponentSpec_DeepCopyInto.
Definition ComponentStatus_DeepCopy := DeepCopy ComponentStatus_DeepCopyInto.
Definition Finding_DeepCopy := DeepCopy Finding_DeepCopyInto.
Definition FindingRule_DeepCopy := DeepCopy FindingRule_DeepCopyInto.
Definition FindingRuleList_DeepCopy := DeepCopy FindingRuleList_DeepCopyInto.
Definition FindingRuleSpec_DeepCopy := DeepCopy FindingRuleSpec_DeepCopyInto.
Definition FindingRuleStatus_DeepCopy := DeepCopy FindingRuleStatus_DeepCopyInto.
Definition FindingType_DeepCopy := DeepCopy FindingType_DeepCopyInto.
Definition System_DeepCopy := DeepCopy System_DeepCopyInto.
Definition SystemInstance_DeepCopy := DeepCopy SystemInstance_DeepCopyInto.
Definition SystemInstanceList_DeepCopy := DeepCopy SystemInstanceList_DeepCopyInto.
Definition SystemInstanceSpec_DeepCopy := DeepCopy SystemInstanceSpec_DeepCopyInto.
Definition SystemInstanceStatus_DeepCopy := DeepCopy SystemInstanceStatus_DeepCopyInto.
Definition SystemList_DeepCopy := DeepCopy SystemList_DeepCopyInto.
Definition SystemSpec_DeepCopy := DeepCopy SystemSpec_DeepCopyInto.
Definition SystemStatus_DeepCopy := DeepCopy SystemStatus_DeepCopyInto.
Definition Target_DeepCopy := DeepCopy Target_DeepCopyInto.
Definition Version_DeepCopy := DeepCopy Version_DeepCopyInto.
Definition VersionRef_DeepCopy := DeepCopy VersionRef_DeepCopyInto.

(** ** [DeepCopyObject]

    An interface value of [runtime.Object] has a dynamic type and a pointer of
    it, which may be nil; the nil interface is [None]. *)
Inductive RuntimeObject :=
| OAPI (p : option (Ptr Cell GoAPI))
| OAPIList (p : option (Ptr Cell GoAPIList))
| OComponent (p : option (Ptr Cell GoComponent))
| OComponentList (p : option (Ptr Cell GoComponentList))
| OFindingRule (p : option (Ptr Cell GoFindingRule))
| OFindingRuleList (p : option (Ptr Cell GoFindingRuleList))
| OSystem (p : option (Ptr Cell GoSystem))
| OSystemInstance (p : option (Ptr Cell GoSystemInstance))
| OSystemInstanceList (p : option (Ptr Cell GoSystemInstanceList))
| OSystemList (p : option (Ptr Cell GoSystemList)).

(** [if c := in.DeepCopy(); c != nil { return c }; return nil] *)
Definition as_object {T} (wrap : option (Ptr Cell T) → RuntimeObject) (c : option (Ptr Cell T)) : option RuntimeObject :=
  match c with Some _ => Some (wrap c) | None => None end.

Definition API_DeepCopyObject (src : option (Ptr Cell GoAPI)) : Mem Cell (option RuntimeObject) :=
  c ← API_DeepCopy src; mret (as_object OAPI c).
Definition APIList_DeepCopyObject (src : option (Ptr Cell GoAPIList)) : Mem Cell (option RuntimeObject) :=
  c ← APIList_DeepCopy src; mret (as_object OAPIList c).
Definition Component_DeepCopyObject (src : option (Ptr Cell GoComponent)) : Mem Cell (option RuntimeObject) :=
  c ← Component_DeepCopy src; mret (as_object OComponent c).
Definition ComponentList_DeepCopyObject (src : option (Ptr Cell GoComponentList)) : Mem Cell (option RuntimeObject) :=
  c ← ComponentList_DeepCopy src; mret (as_object OComponentList c).
Definition FindingRule_DeepCopyObject (src : option (Ptr Cell GoFindingRule)) : Mem Cell (option RuntimeObject) :=
  c ← FindingRule_DeepCopy src; mret (as_object OFindingRule c).
Definition FindingRuleList_DeepCopyObject (src : option (Ptr Cell GoFindingRuleList)) : Mem Cell (option RuntimeObject) :=
  c ← FindingRuleList_DeepCopy src; mret (as_object OFindingRuleList c).
Definition System_DeepCopyObject (src : option (Ptr Cell GoSystem)) : Mem Cell (option RuntimeObject) :=
  c ← System_DeepCopy src; mret (as_object OSystem c).
Definition SystemInstance_DeepCopyObject (src : option (Ptr Cell GoSystemInstance)) : Mem Cell (option RuntimeObject) :=
  c ← SystemInstance_DeepCopy src; mret (as_object OSystemInstance c).
Definition SystemInstanceList_DeepCopyObject (src : option (Ptr Cell GoSystemInstanceList)) : Mem Cell (option RuntimeObject) :=
  c ← SystemInstanceList_DeepCopy src; mret (as_object OSystemInstanceList c).
Definition SystemList_DeepCopyObject (src : option (Ptr Cell GoSystemList)) : Mem Cell (option RuntimeObject) :=
  c ← SystemList_DeepCopy src; mret (as_object OSystemList c).

(** The dynamic dispatch of [o.DeepCopyObject()]. *)
Definition DeepCopyObject (o : RuntimeObject) : Mem Cell (option RuntimeObject) :=
  match o with
  | OAPI p => API_DeepCopyObject p
  | OAPIList p => APIList_DeepCopyObject p
  | OComponent p => Component_DeepCopyObject p
  | OComponentList p => ComponentList_DeepCopyObject p
  | OFindingRule p => FindingRule_DeepCopyObject p
  | OFindingRuleList p => FindingRuleList_DeepCopyObject p
  | OSystem p => System_DeepCopyObject p
  | OSystemInstance p => SystemInstance_DeepCopyObject p
  | OSystemInstanceList p => SystemInstanceList_DeepCopyObject p
  | OSystemList p => SystemList_DeepCopyObject p
  end.
End functions.

(** ** What the values denote *)
Section values.
Context {MV : MetaV1} {MC : MetaCopies}.

(** Structs without pointers denote themselves. *)
#[export] Instance Deep_Version : Deep Cell Version Version := λ _ v, Some (v, ∅).
#[export] Instance Deep_VersionRef : Deep Cell VersionRef VersionRef := λ _ v, Some (v, ∅).
#[export] Instance Deep_APIVersionRef : Deep Cell APIVersionRef APIVersionRef := λ _ v, Some (v, ∅).
#[export] Instance Deep_APIRef : Deep Cell APIRef APIRef := λ _ v, Some (v, ∅).
#[export] Instance Deep_APISpec : Deep Cell APISpec APISpec := λ _ v, Some (v, ∅).
#[export] Instance Deep_FindingType : Deep Cell FindingTypeSpec FindingTypeSpec := λ _ v, Some (v, ∅).
#[export] Instance Deep_Finding : Deep Cell FindingSpec FindingSpec := λ _ v, Some (v, ∅).
#[export] Instance Deep_SystemInstanceSpec : Deep Cell SystemInstanceSpec SystemInstanceSpec := λ _ v, Some (v, ∅).
#[export] Instance Deep_APIStatus : Deep Cell APIStatus APIStatus := λ _ v, Some (v, ∅).
#[export] Instance Deep_ComponentStatus : Deep Cell ComponentStatus ComponentStatus := λ _ v, Some (v, ∅).
#[export] Instance Deep_FindingRuleStatus : Deep Cell FindingRuleStatus FindingRuleStatus := λ _ v, Some (v, ∅).
#[export] Instance Deep_SystemStatus : Deep Cell SystemStatus SystemStatus := λ _ v, Some (v, ∅).
#[export] Instance Deep_SystemInstanceStatus : Deep Cell SystemInstanceStatus SystemInstanceStatus := λ _ v, Some (v, ∅).
#[export] Instance Deep_TypeMeta : Deep Cell TypeMeta TypeMeta := λ _ v, Some (v, ∅).
#[export] Instance Deep_string : Deep Cell string string := λ _ v, Some (v, ∅).
#[export] Instance Plain_Version : Plain Deep_Version.
Proof. done. Qed.
#[export] Instance Plain_VersionRef : Plain Deep_VersionRef.
Proof. done. Qed.
#[export] Instance Plain_APIVersionRef : Plain Deep_APIVersionRef.
Proof. done. Qed.
#[export] Instance Plain_APIRef : Plain Deep_APIRef.
Proof. done. Qed.
#[export] Instance Plain_APISpec : Plain Deep_APISpec.
Proof. done. Qed.
#[export] Instance Plain_FindingType : Plain Deep_FindingType.
Proof. done. Qed.
#[export] Instance Plain_Finding : Plain Deep_Finding.
Proof. done. Qed.
#[export] Instance Plain_SystemInstanceSpec : Plain Deep_SystemInstanceSpec.
Proof. done. Qed.
#[export] Instance Plain_APIStatus : Plain Deep_APIStatus.
Proof. done. Qed.
#[export] Instance Plain_ComponentStatus : Plain Deep_ComponentStatus.
Proof. done. Qed.
#[export] Instance Plain_FindingRuleStatus : Plain Deep_FindingRuleStatus.
Proof. done. Qed.
#[export] Instance Plain_SystemStatus : Plain Deep_SystemStatus.
Proof. done. Qed.
#[export] Instance Plain_SystemInstanceStatus : Plain Deep_SystemInstanceStatus.
Proof. done. Qed.
#[export] Instance Plain_TypeMeta : Plain Deep_TypeMeta.
Proof. done. Qed.
#[export] Instance Plain_string : Plain Deep_string.
Proof. done. Qed.

(** What the other structs reach through their parts. *)
#[export] Instance Deep_SystemSpec : Deep Cell GoSystemSpec SystemSpec :=
  Deep_part SystemSpecOf_ParentRef (λ s, mkSystemSpec (SystemSpecOf_DisplayName s) (SystemSpecOf_Description s)
    (SystemSpecOf_SystemId s) (SystemSpecOf_Version s) (SystemSpecOf_Abstract s)).
#[export] Instance Deep_ComponentSpec : Deep Cell GoComponentSpec (ComponentSpecOf (option (list APIRef))) :=
  Deep_parts ComponentSpecOf_Consumes ComponentSpecOf_Provides
    (λ s, mkComponentSpecOf (ComponentSpecOf_DisplayName s) (ComponentSpecOf_Description s)
      (ComponentSpecOf_ComponentId s) (ComponentSpecOf_Version s) (ComponentSpecOf_SystemRef s)
      (ComponentSpecOf_SystemId s)).
#[export] Instance Deep_Target : Deep Cell GoTarget (TargetOf (option (list string))) :=
  Deep_parts TargetOf_APIGroups TargetOf_Resources (λ _, mkTargetOf).
#[export] Instance Deep_FindingRuleSpec :
    Deep Cell GoFindingRuleSpec (FindingRuleSpecOf (TargetOf (option (list string)))) :=
  Deep_part FindingRuleSpecOf_Target
    (λ s t, mkFindingRuleSpecOf t (FindingRuleSpecOf_Condition s) (FindingRuleSpecOf_Finding s)).
#[export] Instance Deep_Object {Sp St V} {D : Deep Cell Sp V} :
    Deep Cell (ObjectOf GoObjectMeta Sp St) (ObjectOf ObjectMetaValue V St) :=
  Deep_parts Object_ObjectMeta Object_Spec (λ o m s, mkObjectOf (Object_TypeMeta o) m s (Object_Status o)).
#[export] Instance Deep_ObjectList {T V} {G : GoType Cell (list T)} {D : Deep Cell T V} :
    Deep Cell (ListOf GoListMeta (Slice T)) (ListOf ListMetaValue (option (list V))) :=
  Deep_parts List_ListMeta List_Items (λ l m i, mkListOf (List_TypeMeta l) m i).

Context {ML : MetaCopiesLaws}.
#[export] Instance Deep_SystemSpec_ok : DeepOk Deep_SystemSpec := Deep_part_ok _ _.
#[export] Instance Deep_ComponentSpec_ok : DeepOk Deep_ComponentSpec := Deep_parts_ok _ _ _.
#[export] Instance Deep_Target_ok : DeepOk Deep_Target := Deep_parts_ok _ _ _.
#[export] Instance Deep_FindingRuleSpec_ok : DeepOk Deep_FindingRuleSpec := Deep_part_ok _ _.
#[export] Instance Deep_Object_ok {Sp St V} {D : Deep Cell Sp V} {DO : DeepOk D} :
  DeepOk (Deep_Object (Sp := Sp) (St := St)) := Deep_parts_ok _ _ _.
#[export] Instance Deep_ObjectList_ok {T V} {G : GoType Cell (list T)} {GO : GoTypeOk Cell (list T)}
    {D : Deep Cell T V} {DO : DeepOk D} : DeepOk (Deep_ObjectList (T := T)) := Deep_parts_ok _ _ _.
End values.

(** ** The contract, for every type *)

(** The next statement of a struct's copy: a field assigned, or copied. *)
Tactic Notation "assign_field" uconstr(f) :=
  match goal with
  | C : copying ?src ?dst ?h0 ?v ?w ?h |- _ =>
      let h' := fresh "h" in let E := fresh "E" in let K := fresh "K" in let C' := fresh "C" in
      destruct (copying_assign src dst f h0 v w h) as (h' & E & C' & K); [assumption..|]; clear C;
      rewrite (Mem_bind_run _ _ _ _ _ E) || rewrite E
  end.
Tactic Notation "copy_field" uconstr(f) uconstr(copied) constr(R) "as" ident(d) :=
  match goal with
  | C : copying ?src ?dst ?h0 ?v ?w ?h |- _ =>
      let h' := fresh "h" in let E := fresh "E" in let K := fresh "K" in let C' := fresh "C" in
      let a := fresh "a" in let R' := fresh "R" in let F := fresh "F" in
      destruct (copying_field src dst f _ h0 v w h _ _ copied
        ltac:(assumption) ltac:(assumption) ltac:(assumption) C eq_refl R) as (h' & a & d & E & C' & K & R' & F);
        [(assumption || set_solver)|]; clear C;
      rewrite (Mem_bind_run _ _ _ _ _ E) || rewrite E
  end.
Ltac start_copy :=
  match goal with
  | Hd : PtrOk ?dst, Hne : p_loc ?src ≠ p_loc ?dst, Hv : holds ?src ?h ?v, Hu : holds ?dst ?h ?u |- _ =>
      let h' := fresh "h" in let E := fresh "E" in let C := fresh "C" in
      destruct (copying_start src dst h v u Hd Hne Hv Hu) as (h' & E & C);
      pose proof (holds_dom _ _ _ Hu);
      rewrite (Mem_bind_run _ _ _ _ _ E)
  end.
Ltac end_copy d :=
  eexists _, _, d; split_and!; [reflexivity|eapply copying_end; eassumption| |set_solver].

(** What a part reached when it was copied, it reaches still: the later
    statements write the destination alone. *)
Ltac keep_reach := repeat first [eassumption | eapply reach_keeps; [eassumption|set_solver|]].

Section contracts.
Context {MV : MetaV1} {MC : MetaCopies} {ML : MetaCopiesLaws}.

Lemma APIRef_copies : copies APIRef_DeepCopyInto.
Proof.
  intros src dst h v u x d Hs Hd Hne Hv Hu Hr Hnd. unfold APIRef_DeepCopyInto. start_copy.
  assign_field f_APIRef_VersionRef. end_copy (∅ : gset loc).
  rewrite lset_lget. by eapply reach_plain_move.
Qed.

Lemma APISpec_copies : copies APISpec_DeepCopyInto.
Proof.
  intros src dst h v u x d Hs Hd Hne Hv Hu Hr Hnd. unfold APISpec_DeepCopyInto. start_copy.
  assign_field f_APISpec_Version. assign_field f_APISpec_SystemRef. end_copy (∅ : gset loc).
  rewrite !lset_lget. by eapply reach_plain_move.
Qed.

Lemma Finding_copies : copies Finding_DeepCopyInto.
Proof.
  intros src dst h v u x d Hs Hd Hne Hv Hu Hr Hnd. unfold Finding_DeepCopyInto. start_copy.
  assign_field f_Finding_Type. end_copy (∅ : gset loc).
  rewrite lset_lget. by eapply reach_plain_move.
Qed.

Lemma SystemSpec_copies : copies SystemSpec_DeepCopyInto.
Proof.
  intros src dst h v u x d Hs Hd Hne Hv Hu (y & Hy & ->)%Deep_part_iff Hnd. unfold SystemSpec_DeepCopyInto. start_copy.
  assign_field f_SystemSpec_Version. copy_field f_SystemSpec_ParentRef copy_pointer_recopies Hy as d1.
  end_copy d1. apply Deep_part_iff. by eexists.
Qed.

Lemma ComponentSpec_copies : copies ComponentSpec_DeepCopyInto.
Proof.
  intros src dst h v u x d Hs Hd Hne Hv Hu (y & e & z & e' & Hy & Hz & -> & ->)%Deep_parts_iff Hnd.
  unfold ComponentSpec_DeepCopyInto. start_copy.
  assign_field f_ComponentSpec_Version. assign_field f_ComponentSpec_SystemRef.
  copy_field f_ComponentSpec_Consumes copy_slice_recopies Hy as d1.
  copy_field f_ComponentSpec_Provides copy_slice_recopies Hz as d2.
  end_copy (d1 ∪ d2). apply Deep_parts_iff. exists y, d1, z, d2. split_and!; [keep_reach|keep_reach|done|done].
Qed.

Lemma Target_copies : copies Target_DeepCopyInto.
Proof.
  intros src dst h v u x d Hs Hd Hne Hv Hu (y & e & z & e' & Hy & Hz & -> & ->)%Deep_parts_iff Hnd.
  unfold Target_DeepCopyInto. start_copy.
  copy_field f_Target_APIGroups copy_slice_recopies Hy as d1.
  copy_field f_Target_Resources copy_slice_recopies Hz as d2.
  end_copy (d1 ∪ d2). apply Deep_parts_iff. exists y, d1, z, d2. split_and!; [keep_reach|keep_reach|done|done].
Qed.

Lemma FindingRuleSpec_copies : copies FindingRuleSpec_DeepCopyInto.
Proof.
  intros src dst h v u x d Hs Hd Hne Hv Hu (y & Hy & ->)%Deep_part_iff Hnd.
  unfold FindingRuleSpec_DeepCopyInto. start_copy.
  copy_field f_FindingRuleSpec_Target (copies_recopies _ Target_copies) Hy as d1.
  assign_field f_FindingRuleSpec_Finding.
  end_copy d1. apply Deep_part_iff. eexists. split; [keep_reach|done].
Qed.

Lemma Object_copies {Sp St V} {D : Deep Cell Sp V} {DO : DeepOk D} spec :
  copies spec → copies (Object_DeepCopyInto (Sp := Sp) (St := St) spec).
Proof.
  intros Hspec src dst h v u x d Hs Hd Hne Hv Hu (y & e & z & e' & Hy & Hz & -> & ->)%Deep_parts_iff Hnd.
  unfold Object_DeepCopyInto. start_copy. assign_field f_TypeMeta.
  copy_field f_ObjectMeta (copies_recopies _ ObjectMeta_copies) Hy as d1.
  copy_field f_Spec (copies_recopies _ Hspec) Hz as d2. assign_field f_Status.
  end_copy (d1 ∪ d2). apply Deep_parts_iff. exists y, d1, z, d2. split_and!; [keep_reach|keep_reach|done|done].
Qed.

Lemma List_copies {T V} {G : GoType Cell T} {GO : GoTypeOk Cell T} {GL : GoType Cell (list T)}
    {GLO : GoTypeOk Cell (list T)} {D : Deep Cell T V} {DO : DeepOk D} item :
  copies item → copies (List_DeepCopyInto item).
Proof.
  intros Hitem src dst h v u x d Hs Hd Hne Hv Hu (y & e & z & e' & Hy & Hz & -> & ->)%Deep_parts_iff Hnd.
  unfold List_DeepCopyInto. start_copy. assign_field f_List_TypeMeta.
  copy_field f_List_ListMeta (copies_recopies _ ListMeta_copies) Hy as d1.
  copy_field f_List_Items (copy_items_recopies _ Hitem) Hz as d2.
  end_copy (d1 ∪ d2). apply Deep_parts_iff. exists y, d1, z, d2. split_and!; [keep_reach|keep_reach|done|done].
Qed.

Lemma API_copies : copies API_DeepCopyInto.
Proof. apply Object_copies, assign_copies. Qed.
Lemma Component_copies : copies Component_DeepCopyInto.
Proof. apply Object_copies, ComponentSpec_copies. Qed.
Lemma FindingRule_copies : copies FindingRule_DeepCopyInto.
Proof. apply Object_copies, FindingRuleSpec_copies. Qed.
Lemma System_copies : copies System_DeepCopyInto.
Proof. apply Object_copies, SystemSpec_copies. Qed.
Lemma SystemInstance_copies : copies SystemInstance_DeepCopyInto.
Proof. apply Object_copies, assign_copies. Qed.
Lemma APIList_copies : copies APIList_DeepCopyInto.
Proof. apply List_copies, API_copies. Qed.
Lemma ComponentList_copies : copies ComponentList_DeepCopyInto.
Proof. apply List_copies, Component_copies. Qed.
Lemma FindingRuleList_copies : copies FindingRuleList_DeepCopyInto.
Proof. apply List_copies, FindingRule_copies. Qed.
Lemma SystemList_copies : copies SystemList_DeepCopyInto.
Proof. apply List_copies, System_copies. Qed.
Lemma SystemInstanceList_copies : copies SystemInstanceList_DeepCopyInto.
Proof. apply List_copies, SystemInstance_copies. Qed.
End contracts.

(** ** Objects behind the interface *)
Section objects.
Context {MV : MetaV1} {MC : MetaCopies}.

Definition APIValue : Type := ObjectOf ObjectMetaValue APISpec APIStatus.
Definition ComponentValue : Type := ObjectOf ObjectMetaValue (ComponentSpecOf (option (list APIRef))) ComponentStatus.
Definition FindingRuleValue : Type := ObjectOf ObjectMetaValue (FindingRuleSpecOf (TargetOf (option (list string)))) FindingRuleStatus.
Definition SystemValue : Type := ObjectOf ObjectMetaValue SystemSpec SystemStatus.
Definition SystemInstanceValue : Type := ObjectOf ObjectMetaValue SystemInstanceSpec SystemInstanceStatus.
Definition ListValue (V : Type) : Type := ListOf ListMetaValue (option (list V)).

(** What an object denotes. *)
Inductive ObjectValue :=
| VAPI (v : APIValue)
| VAPIList (v : ListValue APIValue)
| VComponent (v : ComponentValue)
| VComponentList (v : ListValue ComponentValue)
| VFindingRule (v : FindingRuleValue)
| VFindingRuleList (v : ListValue FindingRuleValue)
| VSystem (v : SystemValue)
| VSystemInstance (v : SystemInstanceValue)
| VSystemInstanceList (v : ListValue SystemInstanceValue)
| VSystemList (v : ListValue SystemValue).

(** The block of the object itself is part of what it reaches. *)
Definition pointee {T V} {D : Deep Cell T V} (wrap : V → ObjectValue) (p : option (Ptr Cell T)) (h : heap Cell)
    : option (ObjectValue * gset loc) :=
  p ← p; c ← h !! p_loc p; v ← p_get p c; r ← reach h v; Some (wrap r.1, {[p_loc p]} ∪ r.2).

Definition object_reach (h : heap Cell) (o : RuntimeObject) : option (ObjectValue * gset loc) :=
  match o with
  | OAPI p => pointee VAPI p h
  | OAPIList p => pointee VAPIList p h
  | OComponent p => pointee VComponent p h
  | OComponentList p => pointee VComponentList p h
  | OFindingRule p => pointee VFindingRule p h
  | OFindingRuleList p => pointee VFindingRuleList p h
  | OSystem p => pointee VSystem p h
  | OSystemInstance p => pointee VSystemInstance p h
  | OSystemInstanceList p => pointee VSystemInstanceList p h
  | OSystemList p => pointee VSystemList p h
  end.

(** The pointer of an object obeys the laws of pointers (it may be one into an
    array, as in [&list.Items[i]]). *)
Definition object_ok (o : RuntimeObject) : Prop :=
  match o with
  | OAPI p => from_option PtrOk True p
  | OAPIList p => from_option PtrOk True p
  | OComponent p => from_option PtrOk True p
  | OComponentList p => from_option PtrOk True p
  | OFindingRule p => from_option PtrOk True p
  | OFindingRuleList p => from_option PtrOk True p
  | OSystem p => from_option PtrOk True p
  | OSystemInstance p => from_option PtrOk True p
  | OSystemInstanceList p => from_option PtrOk True p
  | OSystemList p => from_option PtrOk True p
  end.

Context {ML : MetaCopiesLaws}.

Lemma pointee_iff {T V} {D : Deep Cell T V} (wrap : V → ObjectValue) p h x d :
  pointee wrap p h = Some (x, d) ↔
    ∃ q v y e, p = Some q ∧ holds q h v ∧ reach h v = Some (y, e) ∧ x = wrap y ∧ d = {[p_loc q]} ∪ e.
Proof.
  unfold pointee, holds. split.
  - intros (q & Hq & (c & Hc & (v & Hv & ([y e] & Hr & [= <- <-])%bind_Some)%bind_Some)%bind_Some)%bind_Some.
    exists q, v, y, e. rewrite Hc. done.
  - intros (q & v & y & e & -> & (c & Hc & Hv)%bind_Some & Hr & -> & ->). simpl. rewrite Hc. simpl. rewrite Hv. simpl.
    by rewrite Hr.
Qed.

Lemma pointee_frame {T V} {D : Deep Cell T V} {DO : DeepOk D} (wrap : V → ObjectValue) p h h' x d :
  pointee wrap p h = Some (x, d) → (∀ l, l ∈ d → h' !! l = h !! l) → pointee wrap p h' = Some (x, d).
Proof.
  intros (q & v & y & e & -> & Hv & Hr & -> & ->)%pointee_iff Hd. apply pointee_iff. exists q, v, y, e.
  split_and!; [done| |eapply reach_frame; [exact Hr|set_solver]|done..].
  unfold holds. by rewrite Hd by set_solver.
Qed.

Lemma object_frame o h h' x d :
  object_reach h o = Some (x, d) → (∀ l, l ∈ d → h' !! l = h !! l) → object_reach h' o = Some (x, d).
Proof. destruct o; apply pointee_frame; apply _. Qed.

Lemma object_dom o h x d : object_reach h o = Some (x, d) → d ⊆ dom h.
Proof.
  destruct o; intros (q & v & y & e & -> & Hv%holds_dom & Hr%reach_dom & -> & ->)%pointee_iff; set_solver.
Qed.

(** The copy of an object through its type's [DeepCopy]. *)
Lemma object_copied {T V} {G : GoType Cell T} {GO : GoTypeOk Cell T} {D : Deep Cell T V} {DO : DeepOk D} into
    (wrap : option (Ptr Cell T) → RuntimeObject) (value : V → ObjectValue) (p : option (Ptr Cell T)) h x d :
  copies into → (∀ q h, object_reach h (wrap q) = pointee value q h) →
  from_option PtrOk True p → pointee value p h = Some (x, d) →
  ∃ o' h' d', (c ← DeepCopy into p; mret (as_object wrap c)) h = Some (Some o', h') ∧
    object_reach h' o' = Some (x, d') ∧ h ⊆ h' ∧ d' ## dom h.
Proof.
  intros Hinto Hwrap Hp (q & v & y & e & -> & Hv & Hr & -> & ->)%pointee_iff.
  destruct (DeepCopy_run into q h v y e Hinto Hp Hv Hr) as (l & h' & v' & d' & E & Hh & Hl & Hv' & Hr' & Hd').
  exists (wrap (Some (block l))), h', ({[l]} ∪ d'). rewrite (Mem_bind_run _ _ _ _ _ E). split_and!; [done| |done|].
  - rewrite Hwrap. apply pointee_iff. by exists (block l), v', y, d'.
  - set_solver.
Qed.

#[local] Hint Resolve API_copies APIList_copies Component_copies ComponentList_copies FindingRule_copies
  FindingRuleList_copies System_copies SystemInstance_copies SystemInstanceList_copies SystemList_copies : core.

Lemma DeepCopyObject_run o h x d :
  object_ok o → object_reach h o = Some (x, d) →
  ∃ o' h' d', DeepCopyObject o h = Some (Some o', h') ∧ object_reach h' o' = Some (x, d') ∧ h ⊆ h' ∧ d' ## dom h.
Proof. destruct o; simpl; intros Hok Hr; by eapply object_copied; eauto. Qed.

(** C27. The deep copy of an object is independent of it: it ends without a
    panic, denotes what the object denotes (nil and empty slices kept apart),
    and lies in new memory, so that whatever is later written to memory that
    was there before leaves the copy as it is, and whatever is written to the
    copy leaves the object as it is. *)
Theorem DeepCopyObject_independent o h x d :
  object_ok o → object_reach h o = Some (x, d) →
  ∃ o' h' d', DeepCopyObject o h = Some (Some o', h') ∧ object_reach h' o' = Some (x, d') ∧
    (∀ l, l ∈ dom h → h' !! l = h !! l) ∧ d' ## dom h ∧
    (∀ h2, (∀ l, l ∉ dom h → h2 !! l = h' !! l) → object_reach h2 o' = Some (x, d')) ∧
    (∀ h2, (∀ l, l ∈ dom h → h2 !! l = h' !! l) → object_reach h2 o = Some (x, d)).
Proof.
  intros Hok Hr. destruct (DeepCopyObject_run o h x d Hok Hr) as (o' & h' & d' & E & Hr' & Hh & Hd').
  assert (∀ l, l ∈ dom h → h' !! l = h !! l) as Hsame.
  { intros l [c Hc]%elem_of_dom. rewrite Hc. by eapply lookup_weaken. }
  exists o', h', d'. split_and!; [done|done|done|done| |].
  - intros h2 H2. eapply object_frame; [exact Hr'|]. intros l Hl. apply H2. set_solver.
  - intros h2 H2. eapply object_frame; [exact Hr|]. intros l Hl.
    assert (l ∈ dom h) by (apply object_dom in Hr; set_solver). rewrite H2, Hsame by done. done.
Qed.

(** A nil pointer gives the nil interface, not an interface that holds nil. *)
Lemma DeepCopyObject_nil h :
  Forall (λ o, DeepCopyObject o h = Some (None, h)) [OAPI None; OAPIList None; OComponent None; OComponentList None; OFindingRule None; OFindingRuleList None; OSystem None; OSystemInstance None; OSystemInstanceList None; OSystemList None].
Proof. repeat constructor. Qed.
End objects.
