(* ===== verification/Lib.v ===== *)
(** * Lib: the pure third-party functions the sensor calls

    [google/uuid], the pure parts of [modelsrv], [apimachinery] and [cel-go].
    They are parameters of the whole development, collected in the class
    [Lib]; [LibLaws] states the documented behaviour some theorems rely on. *)

From S2P Require Import Prelude.
From S2P Require Import K8s.

(** What evaluating a CEL program gives: an error, a bool, or another type. *)
Inductive CelResult := CelErr (err : string) | CelBool (b : bool) | CelOther (type_name : string).

Class Lib := {
  (** github.com/google/uuid *)
  uuid : Type;
  #[global] uuid_eq_dec :: EqDecision uuid;
  #[global] uuid_countable :: Countable uuid;
  Nil : uuid;
  uuid_Parse : string → option uuid;
  uuid_MustParse : string → uuid;
  uuid_String : uuid → string;
  uuid_bytes : uuid → string;
  uuid_NewSHA1 : uuid → string → uuid;
  (** go.emeland.io/modelsrv: API types and finding type ids *)
  ApiType : Type;
  ParseApiType : string → option ApiType;
  TypeIDForKind : string → uuid;
  (** k8s.io/apimachinery *)
  nn_String : NamespacedName → string;
  Unstructured : Type;
  ToUnstructured : RObj → string + Unstructured;
  u_GetUID : Unstructured → string;
  u_GetName : Unstructured → string;
  u_GetNamespace : Unstructured → string;
  u_GetKind : Unstructured → string;
  (** cel-go: compile against the environment with the variable [object] *)
  Program : Type;
  cel_compile : string → string + Program;
  cel_Eval : Program → Unstructured → CelResult;
  (** [fmt.Sprintf("%q", s)], which depends on Unicode tables *)
  fmt_q : string → string;
  (** [encoding/json] on a list of strings: an error or the text *)
  json_Marshal_strings : list string → string + string;
  (** what the Go runtime chooses when a [range] statement over a map runs, or
      when a library function ranges over one: each execution has a choice of
      its own *)
  Choice : Type;
  range_set : Choice → gset string → list string;
  range_map : ∀ {A}, Choice → gmap string A → list (string * A)
}.

Class LibLaws `{Lib} := {
  nn_String_spec nn : nn_String nn = nn_Namespace nn +:+ "/" +:+ nn_Name nn;
  range_set_perm c s : range_set c s ≡ₚ elements s;
  range_map_perm {A} c (m : gmap string A) : range_map c m ≡ₚ map_to_list m
}.

(** The version bits of a SHA-1 UUID are set, so it never is the nil UUID. *)
Class UuidLaws `{Lib} := {
  uuid_NewSHA1_not_nil ns key : uuid_NewSHA1 ns key ≠ Nil
}.

Section lib.
Context `{LibLaws}.

Lemma elem_of_range_set c s x : x ∈ range_set c s ↔ x ∈ s.
Proof. rewrite range_set_perm. apply elem_of_elements. Qed.

Lemma elem_of_range_map {A} c (m : gmap string A) k v : (k, v) ∈ range_map c m ↔ m !! k = Some v.
Proof. rewrite range_map_perm. apply elem_of_map_to_list. Qed.
End lib.
