(* ===== verification/Entities.v ===== *)
(** * Entities: the modelsrv resources the sensor builds

    Each record holds what the sensor passes to the constructor ([NewX(id)])
    and setters of the modelsrv type. [Entity] is their union: the argument of
    the [AddX] methods of [model.Model]. *)

From S2P Require Import Prelude.
From S2P Require Import K8s.
From S2P Require Import Lib.

(** The resource types of [events.ResourceType] the sensor names. *)
Inductive ResourceType :=
| UnknownResourceType | ContextResource | SystemResource | APIResource | ComponentResource
| SystemInstanceResource | APIInstanceResource | ComponentInstanceResource | NodeResource
| RoleResource | BindingResource | ArtifactResource.

#[export] Instance ResourceType_eq_dec : EqDecision ResourceType.
Proof. solve_decision. Defined.

(** A calendar date: the [time.Time] values [time.Parse("2006-01-02", _)] gives. *)
Record Date := mkDate { year : Z; month : Z; day : Z }.

#[export] Instance Date_eq_dec : EqDecision Date.
Proof. solve_decision. Defined.

Record common_Version := mkCommonVersion {
  cv_Version : string;
  cv_AvailableFrom : option Date;
  cv_DeprecatedFrom : option Date;
  cv_TerminatedFrom : option Date
}.

Section entities.
Context {L : Lib}.

Record EntityVersion := mkEntityVersion { ev_Name : string; ev_Version : string }.

(** [mdlapi.ApiRef]: [ApiID] is [Nil] when only the name/version is known. *)
Record ApiRef := mkApiRef { ApiRef_ApiID : uuid; ApiRef_ApiRef : option EntityVersion }.

Record SubjectRef := mkSubjectRef { sr_Identity : option uuid; sr_Group : option uuid }.

Record ResourceRef := mkResourceRef { rr_ResourceId : uuid; rr_ResourceType : ResourceType }.

Record System := mkSystem {
  sys_Id : uuid;
  sys_DisplayName : string;
  sys_Description : string;
  sys_Version : common_Version;
  sys_Abstract : bool;
  sys_Annotations : gmap string string
}.

Record API := mkAPI {
  api_Id : uuid;
  api_DisplayName : string;
  api_Description : string;
  api_Version : common_Version;
  api_Type : option ApiType;
  api_System : option uuid;
  api_Annotations : gmap string string
}.

Record Component := mkComponent {
  comp_Id : uuid;
  comp_DisplayName : string;
  comp_Description : string;
  comp_Version : common_Version;
  comp_System : option uuid;
  comp_Consumes : list ApiRef;
  comp_Provides : list ApiRef;
  comp_Annotations : gmap string string
}.

Record SystemInstance := mkSystemInstance {
  si_Id : uuid;
  si_DisplayName : string;
  si_SystemRef : option uuid;
  si_Annotations : gmap string string
}.

Record Context_ := mkContext {
  ctx_Id : uuid;
  ctx_DisplayName : string;
  ctx_Description : string;
  ctx_Type : uuid;
  ctx_Parent : option uuid;
  ctx_Annotations : gmap string string
}.

Record ComponentInstance := mkComponentInstance {
  ci_Id : uuid;
  ci_DisplayName : string;
  ci_ComponentRef : option uuid;
  ci_SystemInstance : option uuid;
  ci_Annotations : gmap string string
}.

Record ApiInstance := mkApiInstance {
  ai_Id : uuid;
  ai_DisplayName : string;
  ai_ApiRef : option ApiRef;
  ai_SystemInstance : option uuid;
  ai_Annotations : gmap string string
}.

Record Role := mkRole {
  role_Id : uuid;
  role_DisplayName : string;
  role_RoleSpec : option uuid;
  role_Annotations : gmap string string
}.

Record Binding := mkBinding {
  bind_Id : uuid;
  bind_DisplayName : string;
  bind_Role : option uuid;
  bind_Subject : option SubjectRef;
  bind_Annotations : gmap string string
}.

Record Finding := mkFinding {
  f_Id : uuid;
  f_DisplayName : string;
  f_Description : string;
  f_Type : option uuid;
  f_Resources : list ResourceRef;
  f_Annotations : gmap string string
}.

Record FindingType := mkFindingType {
  ft_Id : uuid;
  ft_DisplayName : string;
  ft_Description : string
}.

Record Artifact := mkArtifact {
  art_Id : uuid;
  art_DisplayName : string;
  art_Description : string;
  art_Hash : string
}.

Record ArtifactInstance := mkArtifactInstance {
  arti_Id : uuid;
  arti_DisplayName : string;
  arti_Description : string;
  arti_ArtifactRef : uuid;
  arti_Annotations : gmap string string
}.

Record NodeType := mkNodeType { nt_Id : uuid; nt_DisplayName : string; nt_Description : string }.
Record Node := mkNode { node_Id : uuid; node_DisplayName : string; node_Type : uuid }.
Record ContextType := mkContextType { ct_Id : uuid; ct_DisplayName : string; ct_Description : string }.

Inductive Entity :=
| ESystem (x : System) | EApi (x : API) | EComponent (x : Component)
| ESystemInstance (x : SystemInstance) | EContext (x : Context_)
| EComponentInstance (x : ComponentInstance) | EApiInstance (x : ApiInstance)
| ERole (x : Role) | EBinding (x : Binding) | EFinding (x : Finding)
| EFindingType (x : FindingType) | EArtifact (x : Artifact)
| EArtifactInstance (x : ArtifactInstance) | ENodeType (x : NodeType) | ENode (x : Node)
| EContextType (x : ContextType).
End entities.

(** The families of resources of the model, one per [AddX] method. *)
Inductive Family :=
| FSystem | FApi | FComponent | FSystemInstance | FContext | FComponentInstance | FApiInstance
| FRole | FBinding | FFinding | FFindingType | FArtifact | FArtifactInstance | FNodeType | FNode
| FContextType.

#[export] Instance Family_eq_dec : EqDecision Family.
Proof. solve_decision. Defined.

Definition Family_list : list Family :=
  [FSystem; FApi; FComponent; FSystemInstance; FContext; FComponentInstance; FApiInstance;
   FRole; FBinding; FFinding; FFindingType; FArtifact; FArtifactInstance; FNodeType; FNode;
   FContextType].

#[export] Program Instance Family_finite : finite.Finite Family := {| finite.enum := Family_list |}.
Next Obligation. by vm_compute; repeat constructor; set_solver. Qed.
Next Obligation. intros []; set_solver. Qed.

Section family.
Context {L : Lib}.

Definition family_of (e : Entity) : Family :=
  match e with
  | ESystem _ => FSystem | EApi _ => FApi | EComponent _ => FComponent
  | ESystemInstance _ => FSystemInstance | EContext _ => FContext
  | EComponentInstance _ => FComponentInstance | EApiInstance _ => FApiInstance
  | ERole _ => FRole | EBinding _ => FBinding | EFinding _ => FFinding
  | EFindingType _ => FFindingType | EArtifact _ => FArtifact
  | EArtifactInstance _ => FArtifactInstance | ENodeType _ => FNodeType | ENode _ => FNode
  | EContextType _ => FContextType
  end.

Definition id_of (e : Entity) : uuid :=
  match e with
  | ESystem x => sys_Id x | EApi x => api_Id x | EComponent x => comp_Id x
  | ESystemInstance x => si_Id x | EContext x => ctx_Id x
  | EComponentInstance x => ci_Id x | EApiInstance x => ai_Id x
  | ERole x => role_Id x | EBinding x => bind_Id x | EFinding x => f_Id x
  | EFindingType x => ft_Id x | EArtifact x => art_Id x
  | EArtifactInstance x => arti_Id x | ENodeType x => nt_Id x | ENode x => node_Id x
  | EContextType x => ct_Id x
  end.
End family.
