(* ===== verification/ModelSrv.v ===== *)
(** * ModelSrv: the interface of the modelsrv store

    [model.Model] of go.emeland.io/modelsrv is third-party code: the class
    [ModelSrv] has its operations, indexed by resource family ([AddSystem s] is
    [add (ESystem s)], [GetSystemById id] is [get FSystem id], ...). The client
    theorems assume only [ModelSrvLaws]: what an add or a delete guarantees
    about the resource it names, and which other resources it leaves alone.
    The library's event pipeline may add or remove findings while another
    resource is stored, so no law says findings survive such a call. *)

From S2P Require Import Prelude.
From S2P Require Import K8s.
From S2P Require Import Lib.
From S2P Require Import Entities.

(** The errors of the store: [common.ErrXNotFound], or anything else. *)
Inductive ModelErr := ErrNotFound (f : Family) | ErrOther (msg : string).

#[export] Instance ModelErr_eq_dec : EqDecision ModelErr.
Proof. solve_decision. Defined.

(** [SubjectRef.EffectiveKind()] of modelsrv's iam package. *)
Inductive SubjectKind := SubjectNone | SubjectIdentity | SubjectGroup.

#[export] Instance SubjectKind_eq_dec : EqDecision SubjectKind.
Proof. solve_decision. Defined.

Class ModelSrv {L : Lib} := {
  Store : Type;
  add : Entity → Store → Store * option ModelErr;
  del : Family → uuid → Store → Store * option ModelErr;
  get : Family → uuid → Store → option Entity;
  (** in an order the library chooses in each call *)
  GetArtifacts : Choice → Store → option (list Artifact);
  EffectiveKind : option SubjectRef → SubjectKind
}.

(** An operation on family [f] says nothing about the findings, unless it is an
    operation on findings or on finding types. *)
Definition framed (f f' : Family) : Prop := f' ≠ FFinding ∨ f = FFinding ∨ f = FFindingType.

Class ModelSrvLaws {L : Lib} (S : ModelSrv) := {
  get_family f id m e : get f id m = Some e → family_of e = f ∧ id_of e = id;
  add_ok e m m' : add e m = (m', None) → get (family_of e) (id_of e) m' = Some e;
  add_frame e m m' r f id :
    add e m = (m', r) → framed (family_of e) f → (f, id) ≠ (family_of e, id_of e) →
    get f id m' = get f id m;
  del_gone f id m m' r :
    del f id m = (m', r) → r = None ∨ r = Some (ErrNotFound f) → get f id m' = None;
  del_frame f id m m' r f' id' :
    del f id m = (m', r) → framed f f' → (f', id') ≠ (f, id) →
    get f' id' m' = get f' id' m;
  EffectiveKind_none : EffectiveKind None = SubjectNone;
  EffectiveKind_identity i : EffectiveKind (Some (mkSubjectRef (Some i) None)) = SubjectIdentity;
  EffectiveKind_group g : EffectiveKind (Some (mkSubjectRef None (Some g))) = SubjectGroup
}.

(** Deleting resource [id] of family [f] raises no finding. *)
Definition delete_silent {L : Lib} {S : ModelSrv} (f : Family) (id : uuid) : Prop :=
  ∀ m i, get FFinding i m = None → get FFinding i (del f id m).1 = None.

(** The store accepts every resource of family [f]. *)
Definition accepts {L : Lib} {S : ModelSrv} (f : Family) : Prop :=
  ∀ e m, family_of e = f → (add e m).2 = None.

(** Deletes of resources of family [f] fail only when there is none. *)
Definition deletes {L : Lib} {S : ModelSrv} (f : Family) : Prop :=
  ∀ id m, (del f id m).2 = None ∨ (del f id m).2 = Some (ErrNotFound f).

(** The store accepts every finding and a delete of a finding fails only when
    there is nothing to delete: the sensor ignores the errors of these calls. *)
Class FindingsReliable {L : Lib} (S : ModelSrv) := {
  add_finding_ok f m : (add (EFinding f) m).2 = None;
  del_finding_ok id m :
    (del FFinding id m).2 = None ∨ (del FFinding id m).2 = Some (ErrNotFound FFinding)
}.

(** An add or a delete that fails has left the resource as it was, or done its
    work all the same; [GetArtifacts] lists what [GetArtifactById] finds. *)
Class ModelSrvAtomic {L : Lib} (S : ModelSrv) := {
  add_atomic e m :
    family_of e ≠ FFinding →
    get (family_of e) (id_of e) (add e m).1 = get (family_of e) (id_of e) m ∨
    get (family_of e) (id_of e) (add e m).1 = Some e;
  del_atomic f i m :
    f ≠ FFinding → get f i (del f i m).1 = get f i m ∨ get f i (del f i m).1 = None;
  GetArtifacts_sound c l a m :
    GetArtifacts c m = Some l → a ∈ l → get FArtifact (art_Id a) m = Some (EArtifact a)
}.

(** A store that treats a resource by itself: it may refuse to add or to delete
    it, and what it does then depends on the resource and on what it has under
    the same id, not on other resources. The artifacts a call lists depend on
    the artifacts there are, and on the order chosen in that call. *)
Class StoreLocal {L : Lib} (S : ModelSrv) : Prop := {
  add_local e m m' :
    family_of e ≠ FFinding → get (family_of e) (id_of e) m' = get (family_of e) (id_of e) m →
    (add e m').2 = (add e m).2 ∧
    get (family_of e) (id_of e) (add e m').1 = get (family_of e) (id_of e) (add e m).1;
  del_local f id m m' :
    f ≠ FFinding → get f id m' = get f id m →
    (del f id m').2 = (del f id m).2 ∧ get f id (del f id m').1 = get f id (del f id m).1;
  GetArtifacts_local c m m' :
    (∀ i, get FArtifact i m' = get FArtifact i m) → GetArtifacts c m' = GetArtifacts c m
}.

(** A local store that accepts what it is given and refuses to delete exactly
    what it does not have. *)
Class StoreExact {L : Lib} (S : ModelSrv) : Prop := {
  exact_local :: StoreLocal S;
  add_accepted e m : family_of e ≠ FFinding → (add e m).2 = None;
  del_refused f id m :
    f ≠ FFinding → (del f id m).2 = match get f id m with Some _ => None | None => Some (ErrNotFound f) end
}.

Section exact.
Context {L : Lib} {S : ModelSrv} {SE : StoreExact S}.

Lemma accepted f : f ≠ FFinding → accepts f.
Proof. intros Hf e m He. apply add_accepted. by rewrite He. Qed.

Lemma deleted f : f ≠ FFinding → deletes f.
Proof. intros Hf id m. rewrite del_refused by done. destruct (get f id m); auto. Qed.

End exact.

Section laws.
Context {L : Lib} {S : ModelSrv} {HL : ModelSrvLaws S}.

Lemma add_finding_frame f m f' id :
  (f', id) ≠ (FFinding, f_Id f) → get f' id (add (EFinding f) m).1 = get f' id m.
Proof.
  intros Hne. destruct (add (EFinding f) m) as [m' r] eqn:E. simpl.
  eapply add_frame; [done|by right; left|done].
Qed.

Lemma del_finding_frame i m f' id :
  (f', id) ≠ (FFinding, i) → get f' id (del FFinding i m).1 = get f' id m.
Proof.
  intros Hne. destruct (del FFinding i m) as [m' r] eqn:E. simpl.
  eapply del_frame; [done|by right; left|done].
Qed.

(** What is accepted is stored. *)
Lemma get_accepted e m : accepts (family_of e) → get (family_of e) (id_of e) (add e m).1 = Some e.
Proof.
  intros Hacc. specialize (Hacc e m eq_refl). destruct (add e m) as [m' r] eqn:E. simpl in *. subst r.
  by apply add_ok in E.
Qed.

(** What is deleted is gone. *)
Lemma get_deleted f id m : deletes f → get f id (del f id m).1 = None.
Proof.
  intros Hd. specialize (Hd id m). destruct (del f id m) as [m' r] eqn:E. simpl in *. by eapply del_gone.
Qed.

Context {HR : FindingsReliable S}.

Lemma get_add_finding f m : get FFinding (f_Id f) (add (EFinding f) m).1 = Some (EFinding f).
Proof.
  destruct (add (EFinding f) m) as [m' r] eqn:E. simpl.
  pose proof (add_finding_ok f m) as Hr. rewrite E in Hr. simpl in Hr. subst r.
  by apply add_ok in E.
Qed.

Lemma get_del_finding i m : get FFinding i (del FFinding i m).1 = None.
Proof.
  destruct (del FFinding i m) as [m' r] eqn:E. simpl.
  pose proof (del_finding_ok i m) as Hr. rewrite E in Hr. simpl in Hr.
  by eapply del_gone.
Qed.
End laws.
