(* ===== verification/Registry.v ===== *)
(** * Registry: [src/internal/controller/registry.go] — the name index

    One function per method of [NameIndex]; each runs under the mutex of the
    index, so each is one atomic operation. The abstract view of the index is
    a partial map from (kind, name) to UUID, and a relation between role keys
    and the bindings waiting for them. *)

From S2P Require Import Prelude.
From S2P Require Import K8s.
From S2P Require Import Lib.

Inductive ResourceKind :=
| KindContext | KindSystem | KindAPI | KindComponent | KindSystemInstance | KindAPIInstance
| KindComponentInstance | KindRole | KindBinding | KindArtifact | KindArtifactInstance.

#[export] Instance ResourceKind_eq_dec : EqDecision ResourceKind.
Proof. solve_decision. Defined.

Definition ResourceKind_string (k : ResourceKind) : string :=
  match k with
  | KindContext => "Context" | KindSystem => "System" | KindAPI => "API"
  | KindComponent => "Component" | KindSystemInstance => "SystemInstance"
  | KindAPIInstance => "APIInstance" | KindComponentInstance => "ComponentInstance"
  | KindRole => "Role" | KindBinding => "Binding" | KindArtifact => "Artifact"
  | KindArtifactInstance => "ArtifactInstance"
  end.

Definition ResourceKind_list : list ResourceKind :=
  [KindContext; KindSystem; KindAPI; KindComponent; KindSystemInstance; KindAPIInstance;
   KindComponentInstance; KindRole; KindBinding; KindArtifact; KindArtifactInstance].

#[export] Program Instance ResourceKind_finite : finite.Finite ResourceKind :=
  {| finite.enum := ResourceKind_list |}.
Next Obligation. by vm_compute; repeat constructor; set_solver. Qed.
Next Obligation. intros []; set_solver. Qed.

Section registry.
Context {L : Lib}.

Record NameIndex := mkNameIndex {
  names : gmap ResourceKind (gmap string uuid);
  helmOwner : gmap ResourceKind (gmap string uuid);
  pendingBindings : gmap string (gset string)
}.

Definition NewNameIndex : NameIndex := mkNameIndex ∅ ∅ ∅.

(** Replace one of the three maps. *)
Definition set_names f idx := mkNameIndex (f (names idx)) (helmOwner idx) (pendingBindings idx).
Definition set_helmOwner f idx := mkNameIndex (names idx) (f (helmOwner idx)) (pendingBindings idx).
Definition set_pending f idx := mkNameIndex (names idx) (helmOwner idx) (f (pendingBindings idx)).

(** [m, ok := idx.names[kind]; if !ok { m = make(...) }; m[name] = id] *)
Definition put2 (kind : ResourceKind) (name : string) (id : uuid)
    (mm : gmap ResourceKind (gmap string uuid)) : gmap ResourceKind (gmap string uuid) :=
  <[kind := <[name := id]> (default ∅ (mm !! kind))]> mm.

(** [m, ok := idx.names[kind]; if !ok { return uuid.Nil }; return m[name]] *)
Definition get2 (kind : ResourceKind) (name : string)
    (mm : gmap ResourceKind (gmap string uuid)) : uuid :=
  match mm !! kind with
  | None => Nil
  | Some m => default Nil (m !! name)
  end.

Definition NameIndex_Put (kind : ResourceKind) (name : string) (id : uuid) (idx : NameIndex) : NameIndex :=
  set_names (put2 kind name id) idx.

Definition NameIndex_Get (kind : ResourceKind) (name : string) (idx : NameIndex) : uuid :=
  get2 kind name (names idx).

Definition NameIndex_Delete (kind : ResourceKind) (name : string) (idx : NameIndex) : uuid * NameIndex :=
  match names idx !! kind with
  | None => (Nil, idx)
  | Some m =>
      match m !! name with
      | None => (Nil, idx)
      | Some id => (id, set_names <[kind := delete name m]> idx)
      end
  end.

(** A snapshot of the keys; the order is the one [range] chooses in this call. *)
Definition NameIndex_Keys (c : Choice) (kind : ResourceKind) (idx : NameIndex) : list string :=
  match names idx !! kind with
  | None => []
  | Some m => fst <$> range_map c m
  end.

Definition NameIndex_SetHelmOwner (kind : ResourceKind) (name : string) (siID : uuid)
    (idx : NameIndex) : NameIndex :=
  set_helmOwner (put2 kind name siID) idx.

Definition NameIndex_GetHelmOwner (kind : ResourceKind) (name : string) (idx : NameIndex) : uuid :=
  get2 kind name (helmOwner idx).

Definition NameIndex_DeleteHelmOwner (kind : ResourceKind) (name : string) (idx : NameIndex) : NameIndex :=
  match helmOwner idx !! kind with
  | Some m => set_helmOwner <[kind := delete name m]> idx
  | None => idx
  end.

Definition NameIndex_DeleteHelmOwnersBySystemInstance (siID : uuid) (idx : NameIndex) : NameIndex :=
  set_helmOwner (fmap (filter (λ kv, kv.2 ≠ siID))) idx.

Definition NameIndex_AddPendingBinding (roleKey bindingName : string) (idx : NameIndex) : NameIndex :=
  set_pending (λ p, <[roleKey := {[bindingName]} ∪ default ∅ (p !! roleKey)]> p) idx.

(** [delete(m, bindingName); if len(m) == 0 { delete(pending, roleKey) }] *)
Definition drop_pending (bindingName : string) (s : gset string) : option (gset string) :=
  let s' := s ∖ {[bindingName]} in
  if bool_decide (s' = ∅) then None else Some s'.

Definition NameIndex_RemovePendingBinding (roleKey bindingName : string) (idx : NameIndex) : NameIndex :=
  set_pending (λ p,
    match p !! roleKey with
    | Some s => partial_alter (λ _, drop_pending bindingName s) roleKey p
    | None => p
    end) idx.

Definition NameIndex_RemovePendingBindingByName (bindingName : string) (idx : NameIndex) : NameIndex :=
  set_pending (omap (drop_pending bindingName)) idx.

Definition NameIndex_ResolvePendingBindings (c : Choice) (roleKey : string) (idx : NameIndex)
    : list string * NameIndex :=
  match pendingBindings idx !! roleKey with
  | None => ([], idx)
  | Some pending => (range_set c pending, set_pending (delete roleKey) idx)
  end.
End registry.

(** ** Lookups of the two-level tables *)

Section two_level.
Context {L : Lib}.
Implicit Types (mm : gmap ResourceKind (gmap string uuid)) (idx : NameIndex).

(** The entry of a two-level table. *)
Definition at2 mm (kind : ResourceKind) (name : string) : option uuid :=
  mm !! kind ≫= λ m, m !! name.

Lemma get2_at2 mm k n : get2 k n mm = default Nil (at2 mm k n).
Proof. unfold get2, at2. by destruct (mm !! k). Qed.

Lemma at2_put2 mm k n id k' n' :
  at2 (put2 k n id mm) k' n' = if decide ((k, n) = (k', n')) then Some id else at2 mm k' n'.
Proof.
  unfold at2, put2. destruct (decide (k = k')) as [<-|Hk].
  - rewrite lookup_insert_eq. simpl. rewrite lookup_insert.
    destruct (decide (n = n')) as [<-|Hn].
    + by rewrite decide_True.
    + rewrite decide_False by congruence. by destruct (mm !! k).
  - rewrite lookup_insert_ne by done. by rewrite decide_False by congruence.
Qed.

Lemma at2_delete2 mm k n m k' n' :
  mm !! k = Some m →
  at2 (<[k := delete n m]> mm) k' n' = if decide ((k, n) = (k', n')) then None else at2 mm k' n'.
Proof.
  intros Hm. unfold at2. destruct (decide (k = k')) as [<-|Hk].
  - rewrite lookup_insert_eq, Hm. simpl. rewrite lookup_delete.
    destruct (decide (n = n')) as [<-|Hn]; [by rewrite decide_True|].
    by rewrite decide_False by congruence.
  - rewrite lookup_insert_ne by done. by rewrite decide_False by congruence.
Qed.

Lemma at2_Delete idx k n k' n' :
  at2 (names (NameIndex_Delete k n idx).2) k' n' =
    if decide ((k, n) = (k', n')) then None else at2 (names idx) k' n'.
Proof.
  unfold NameIndex_Delete. destruct (names idx !! k) as [m|] eqn:Em.
  - destruct (m !! n) as [v|] eqn:En; simpl; [by apply at2_delete2|].
    case_decide as H; [|done]. simplify_eq. unfold at2. by rewrite Em.
  - simpl. case_decide as H; [|done]. simplify_eq. unfold at2. by rewrite Em.
Qed.

(** The names of one kind. *)
Definition names_at (kind : ResourceKind) idx : gmap string uuid := default ∅ (names idx !! kind).

Lemma Get_names_at k n idx : NameIndex_Get k n idx = default Nil (names_at k idx !! n).
Proof. unfold NameIndex_Get, get2, names_at. by destruct (names idx !! k). Qed.

Lemma names_at_Put k n id k' idx :
  names_at k' (NameIndex_Put k n id idx) =
    if decide (k = k') then <[n := id]> (names_at k idx) else names_at k' idx.
Proof.
  unfold names_at, NameIndex_Put, put2. simpl. rewrite lookup_insert. case_decide as Hk; [|done]. by subst.
Qed.

Lemma names_at_Delete k n k' idx :
  names_at k' (NameIndex_Delete k n idx).2 =
    if decide (k = k') then delete n (names_at k idx) else names_at k' idx.
Proof.
  unfold names_at, NameIndex_Delete. destruct (names idx !! k) as [m|] eqn:Em; simpl.
  - destruct (m !! n) as [v|] eqn:En; simpl.
    + rewrite lookup_insert. case_decide as Hk; [|done]. by subst.
    + case_decide as Hk; [|done]. subst. rewrite Em. simpl. by rewrite delete_id.
  - case_decide as Hk; [|done]. subst. rewrite Em. simpl. by rewrite delete_empty.
Qed.

Lemma at2_filter mm si k n :
  at2 (filter (λ kv, kv.2 ≠ si) <$> mm) k n =
    o ← at2 mm k n; if decide (o = si) then None else Some o.
Proof.
  unfold at2. rewrite lookup_fmap. destruct (mm !! k) as [m|]; [|done]. simpl.
  rewrite map_lookup_filter. destruct (m !! n) as [v|]; [|done]. simpl.
  case_guard; case_decide; naive_solver.
Qed.

(** [bindingName] is waiting for the role [roleKey]. *)
Definition waits idx (roleKey bindingName : string) : Prop :=
  ∃ s, pendingBindings idx !! roleKey = Some s ∧ bindingName ∈ s.

(** No role key is kept with an empty set of bindings. *)
Definition no_empty_pending idx : Prop :=
  ∀ rk s, pendingBindings idx !! rk = Some s → s ≠ ∅.

Lemma drop_pending_Some b s s' : drop_pending b s = Some s' ↔ s' = s ∖ {[b]} ∧ s' ≠ ∅.
Proof. unfold drop_pending. case_bool_decide; naive_solver. Qed.
Lemma drop_pending_elem b s x : (∃ s', drop_pending b s = Some s' ∧ x ∈ s') ↔ x ∈ s ∧ x ≠ b.
Proof.
  setoid_rewrite drop_pending_Some. split.
  - intros (s' & [-> _] & Hx). set_solver.
  - intros Hx. exists (s ∖ {[b]}). set_solver.
Qed.
Lemma drop_pending_None b s : drop_pending b s = None ↔ s ∖ {[b]} = ∅.
Proof. unfold drop_pending. case_bool_decide; naive_solver. Qed.
End two_level.

(** ** The abstract index and the refinement

    The specification of the index is three flat tables. *)

Section spec.
Context {L : Lib}.

Record IndexSpec := mkIndexSpec {
  spec_names : gmap (ResourceKind * string) uuid;
  spec_owner : gmap (ResourceKind * string) uuid;
  spec_waits : gset (string * string)   (* (role key, binding name) *)
}.

Inductive IndexOp :=
| OpPut (k : ResourceKind) (n : string) (id : uuid)
| OpGet (k : ResourceKind) (n : string)
| OpDelete (k : ResourceKind) (n : string)
| OpKeys (c : Choice) (k : ResourceKind)
| OpSetHelmOwner (k : ResourceKind) (n : string) (si : uuid)
| OpGetHelmOwner (k : ResourceKind) (n : string)
| OpDeleteHelmOwner (k : ResourceKind) (n : string)
| OpDeleteHelmOwnersBySystemInstance (si : uuid)
| OpAddPendingBinding (rk b : string)
| OpRemovePendingBinding (rk b : string)
| OpRemovePendingBindingByName (b : string)
| OpResolvePendingBindings (c : Choice) (rk : string).

Inductive IndexRes := ResUnit | ResId (id : uuid) | ResNames (ns : gset string).

Definition index_step (op : IndexOp) (idx : NameIndex) : IndexRes * NameIndex :=
  match op with
  | OpPut k n id => (ResUnit, NameIndex_Put k n id idx)
  | OpGet k n => (ResId (NameIndex_Get k n idx), idx)
  | OpDelete k n => let r := NameIndex_Delete k n idx in (ResId r.1, r.2)
  | OpKeys c k => (ResNames (list_to_set (NameIndex_Keys c k idx)), idx)
  | OpSetHelmOwner k n si => (ResUnit, NameIndex_SetHelmOwner k n si idx)
  | OpGetHelmOwner k n => (ResId (NameIndex_GetHelmOwner k n idx), idx)
  | OpDeleteHelmOwner k n => (ResUnit, NameIndex_DeleteHelmOwner k n idx)
  | OpDeleteHelmOwnersBySystemInstance si =>
      (ResUnit, NameIndex_DeleteHelmOwnersBySystemInstance si idx)
  | OpAddPendingBinding rk b => (ResUnit, NameIndex_AddPendingBinding rk b idx)
  | OpRemovePendingBinding rk b => (ResUnit, NameIndex_RemovePendingBinding rk b idx)
  | OpRemovePendingBindingByName b => (ResUnit, NameIndex_RemovePendingBindingByName b idx)
  | OpResolvePendingBindings c rk =>
      let r := NameIndex_ResolvePendingBindings c rk idx in (ResNames (list_to_set r.1), r.2)
  end.

Definition spec_step (op : IndexOp) (a : IndexSpec) : IndexRes * IndexSpec :=
  let '(mkIndexSpec ns os ws) := a in
  match op with
  | OpPut k n id => (ResUnit, mkIndexSpec (<[(k, n) := id]> ns) os ws)
  | OpGet k n => (ResId (default Nil (ns !! (k, n))), a)
  | OpDelete k n => (ResId (default Nil (ns !! (k, n))), mkIndexSpec (delete (k, n) ns) os ws)
  | OpKeys _ k => (ResNames (set_map snd (filter (λ kn, kn.1 = k) (dom ns))), a)
  | OpSetHelmOwner k n si => (ResUnit, mkIndexSpec ns (<[(k, n) := si]> os) ws)
  | OpGetHelmOwner k n => (ResId (default Nil (os !! (k, n))), a)
  | OpDeleteHelmOwner k n => (ResUnit, mkIndexSpec ns (delete (k, n) os) ws)
  | OpDeleteHelmOwnersBySystemInstance si =>
      (ResUnit, mkIndexSpec ns (filter (λ e, e.2 ≠ si) os) ws)
  | OpAddPendingBinding rk b => (ResUnit, mkIndexSpec ns os ({[(rk, b)]} ∪ ws))
  | OpRemovePendingBinding rk b => (ResUnit, mkIndexSpec ns os (ws ∖ {[(rk, b)]}))
  | OpRemovePendingBindingByName b => (ResUnit, mkIndexSpec ns os (filter (λ e, e.2 ≠ b) ws))
  | OpResolvePendingBindings _ rk =>
      (ResNames (set_map snd (filter (λ e, e.1 = rk) ws)),
       mkIndexSpec ns os (filter (λ e, e.1 ≠ rk) ws))
  end.

(** The index [idx] represents the flat tables [a]. *)
Record index_rep (idx : NameIndex) (a : IndexSpec) : Prop := {
  rep_names k n : at2 (names idx) k n = spec_names a !! (k, n);
  rep_owner k n : at2 (helmOwner idx) k n = spec_owner a !! (k, n);
  rep_waits rk b : waits idx rk b ↔ (rk, b) ∈ spec_waits a
}.

(** A run of operations, with the results it returned. *)
Fixpoint index_run (ops : list IndexOp) (idx : NameIndex) : list IndexRes * NameIndex :=
  match ops with
  | [] => ([], idx)
  | op :: ops =>
      let r := index_step op idx in let rs := index_run ops r.2 in (r.1 :: rs.1, rs.2)
  end.
Fixpoint spec_run (ops : list IndexOp) (a : IndexSpec) : list IndexRes * IndexSpec :=
  match ops with
  | [] => ([], a)
  | op :: ops =>
      let r := spec_step op a in let rs := spec_run ops r.2 in (r.1 :: rs.1, rs.2)
  end.

Lemma waits_set_names f idx rk b : waits (set_names f idx) rk b ↔ waits idx rk b.
Proof. done. Qed.
Lemma waits_set_helmOwner f idx rk b : waits (set_helmOwner f idx) rk b ↔ waits idx rk b.
Proof. done. Qed.

Lemma waits_add idx rk b rk' b' :
  waits (NameIndex_AddPendingBinding rk b idx) rk' b' ↔ (rk', b') = (rk, b) ∨ waits idx rk' b'.
Proof.
  unfold waits, NameIndex_AddPendingBinding. simpl.
  destruct (decide (rk = rk')) as [<-|Hrk].
  - rewrite lookup_insert_eq, ex_Some_eq.
    destruct (pendingBindings idx !! rk) as [s|]; simpl;
      rewrite ?ex_Some_eq, ?ex_None_eq; set_solver.
  - rewrite lookup_insert_ne by done. naive_solver.
Qed.

Lemma waits_remove idx rk b rk' b' :
  waits (NameIndex_RemovePendingBinding rk b idx) rk' b' ↔
  waits idx rk' b' ∧ (rk', b') ≠ (rk, b).
Proof.
  unfold waits, NameIndex_RemovePendingBinding. simpl.
  destruct (pendingBindings idx !! rk) as [s|] eqn:E; [|naive_solver].
  destruct (decide (rk = rk')) as [<-|Hrk].
  - rewrite lookup_partial_alter_eq, E, ex_Some_eq, drop_pending_elem. naive_solver.
  - rewrite lookup_partial_alter_ne by done. naive_solver.
Qed.

Lemma waits_remove_by_name idx b rk' b' :
  waits (NameIndex_RemovePendingBindingByName b idx) rk' b' ↔ waits idx rk' b' ∧ b' ≠ b.
Proof.
  unfold waits, NameIndex_RemovePendingBindingByName. simpl. rewrite lookup_omap.
  destruct (pendingBindings idx !! rk') as [s|]; simpl; rewrite ?ex_Some_eq, ?ex_None_eq;
    [|naive_solver].
  rewrite drop_pending_elem. naive_solver.
Qed.

Lemma waits_resolve c idx rk rk' b' :
  waits (NameIndex_ResolvePendingBindings c rk idx).2 rk' b' ↔ waits idx rk' b' ∧ rk' ≠ rk.
Proof.
  unfold waits, NameIndex_ResolvePendingBindings.
  destruct (pendingBindings idx !! rk) as [s|] eqn:E; simpl.
  - rewrite lookup_delete. case_decide; naive_solver.
  - naive_solver.
Qed.
End spec.

Section refinement.
Context {L : Lib} {HL : LibLaws}.

Lemma index_rep_new : index_rep NewNameIndex (mkIndexSpec ∅ ∅ ∅).
Proof.
  split; intros; simpl; rewrite ?lookup_empty; try done.
  split; [|set_solver]. intros (s & Hs & _). done.
Qed.

Lemma Keys_spec c idx k n :
  n ∈ NameIndex_Keys c k idx ↔ is_Some (at2 (names idx) k n).
Proof.
  unfold NameIndex_Keys, at2. destruct (names idx !! k) as [m|]; simpl.
  - rewrite list_elem_of_fmap. split.
    + intros ([n' v] & -> & Hin%elem_of_range_map). simpl. rewrite Hin. eauto.
    + intros [v Hv]. exists (n, v). by rewrite elem_of_range_map.
  - split; [set_solver|]. by intros [? ?].
Qed.

Lemma Resolve_spec c idx rk b :
  b ∈ (NameIndex_ResolvePendingBindings c rk idx).1 ↔ waits idx rk b.
Proof.
  unfold NameIndex_ResolvePendingBindings, waits.
  destruct (pendingBindings idx !! rk) as [s|]; simpl.
  - rewrite elem_of_range_set. by rewrite ex_Some_eq.
  - rewrite ex_None_eq. set_solver.
Qed.

Lemma index_step_result op idx a :
  index_rep idx a → (index_step op idx).1 = (spec_step op a).1.
Proof.
  intros [Hn Ho Hw]. destruct a as [ns os ws]. simpl in *.
  destruct op as [| k n | k n | c k | | k n | | | | | | c rk ]; simpl; try done.
  - unfold NameIndex_Get. by rewrite get2_at2, Hn.
  - rewrite <- Hn. unfold NameIndex_Delete, at2. destruct (names idx !! k) as [m|]; [|done].
    simpl. by destruct (m !! n).
  - f_equal. apply set_eq. intros n. rewrite elem_of_list_to_set, Keys_spec, Hn, <- elem_of_dom.
    rewrite elem_of_map. setoid_rewrite elem_of_filter. split.
    + intros Hin. exists (k, n). done.
    + intros ([k' n'] & -> & [[= ->] Hin]). done.
  - unfold NameIndex_GetHelmOwner. by rewrite get2_at2, Ho.
  - f_equal. apply set_eq. intros b. rewrite elem_of_list_to_set, Resolve_spec, Hw.
    rewrite elem_of_map. setoid_rewrite elem_of_filter. split.
    + intros Hin. exists (rk, b). done.
    + intros ([rk' b'] & -> & [[= ->] Hin]). done.
Qed.

Lemma index_step_names op idx a :
  index_rep idx a →
  ∀ k n, at2 (names (index_step op idx).2) k n = spec_names (spec_step op a).2 !! (k, n).
Proof.
  intros [Hn _ _] k' n'. destruct a as [ns os ws]. simpl in *.
  destruct op as [k n id | | k n | | | | k n | | | | | rk ]; simpl; try done.
  - rewrite at2_put2, Hn, lookup_insert. by repeat case_decide.
  - rewrite lookup_delete. unfold NameIndex_Delete.
    destruct (names idx !! k) as [m|] eqn:Em; simpl; [destruct (m !! n) eqn:En; simpl|].
    + rewrite (at2_delete2 _ _ _ _ _ _ Em), Hn. by repeat case_decide.
    + rewrite Hn. case_decide as Heq; [|done]. simplify_eq.
      by rewrite <- Hn; unfold at2; rewrite Em.
    + rewrite Hn. case_decide as Heq; [|done]. simplify_eq.
      by rewrite <- Hn; unfold at2; rewrite Em.
  - unfold NameIndex_DeleteHelmOwner. by case_match.
  - unfold NameIndex_ResolvePendingBindings. by case_match.
Qed.

Lemma index_step_owner op idx a :
  index_rep idx a →
  ∀ k n, at2 (helmOwner (index_step op idx).2) k n = spec_owner (spec_step op a).2 !! (k, n).
Proof.
  intros [_ Ho _] k' n'. destruct a as [ns os ws]. simpl in *.
  destruct op as [| | k n | | k n si | | k n | si | | | | rk ]; simpl; try done.
  - unfold NameIndex_Delete. by repeat case_match.
  - rewrite at2_put2, Ho, lookup_insert. by repeat case_decide.
  - rewrite lookup_delete. unfold NameIndex_DeleteHelmOwner.
    destruct (helmOwner idx !! k) as [m|] eqn:Em; simpl.
    + rewrite (at2_delete2 _ _ _ _ _ _ Em), Ho. by repeat case_decide.
    + rewrite Ho. case_decide as Heq; [|done]. simplify_eq.
      by rewrite <- Ho; unfold at2; rewrite Em.
  - rewrite at2_filter, Ho, map_lookup_filter. destruct (os !! (k', n')) as [v|]; [|done].
    simpl. case_decide; case_guard; naive_solver.
  - unfold NameIndex_ResolvePendingBindings. by case_match.
Qed.

Lemma index_step_waits op idx a :
  index_rep idx a →
  ∀ rk b, waits (index_step op idx).2 rk b ↔ (rk, b) ∈ spec_waits (spec_step op a).2.
Proof.
  intros [_ _ Hw] rk' b'. destruct a as [ns os ws]. simpl in *.
  destruct op as [| | k n | | k n si | | k n | si | rk b | rk b | b | rk ]; simpl; try apply Hw.
  - unfold NameIndex_Delete. repeat case_match; apply Hw.
  - unfold NameIndex_DeleteHelmOwner. case_match; apply Hw.
  - rewrite waits_add, Hw. set_solver.
  - rewrite waits_remove, Hw. set_solver.
  - rewrite waits_remove_by_name, Hw, elem_of_filter. naive_solver.
  - rewrite waits_resolve, Hw, elem_of_filter. naive_solver.
Qed.

Lemma index_step_rep op idx a :
  index_rep idx a → index_rep (index_step op idx).2 (spec_step op a).2.
Proof.
  intros H. split; [by apply index_step_names|by apply index_step_owner|by apply index_step_waits].
Qed.

Lemma index_run_rep ops idx a :
  index_rep idx a →
  (index_run ops idx).1 = (spec_run ops a).1 ∧
  index_rep (index_run ops idx).2 (spec_run ops a).2.
Proof.
  revert idx a. induction ops as [|op ops IH]; intros idx a H; simpl; [done|].
  rewrite (index_step_result op idx a H).
  destruct (IH _ _ (index_step_rep op idx a H)) as [-> Hr]. done.
Qed.

(** C13. Refinement: any sequence of operations on a new name index, with its
    lazily created inner maps and emptied entries, returns what three flat
    tables (names, Helm owners, waiting bindings) return, and ends in an
    index that represents those tables. *)
Theorem NameIndex_refines_tables ops :
  (index_run ops NewNameIndex).1 = (spec_run ops (mkIndexSpec ∅ ∅ ∅)).1 ∧
  index_rep (index_run ops NewNameIndex).2 (spec_run ops (mkIndexSpec ∅ ∅ ∅)).2.
Proof. apply index_run_rep, index_rep_new. Qed.

(** No operation leaves an empty set of waiting bindings behind. *)
Lemma index_step_no_empty op idx :
  no_empty_pending idx → no_empty_pending (index_step op idx).2.
Proof.
  unfold no_empty_pending. intros Hne.
  destruct op as [| | k n | | | | k n | | rk b | rk b | b | rk ]; simpl; try done.
  - unfold NameIndex_Delete. by repeat case_match.
  - unfold NameIndex_DeleteHelmOwner. by case_match.
  - intros rk' s. rewrite lookup_insert. case_decide; [|eauto].
    intros [= <-]. set_solver.
  - intros rk' s. destruct (pendingBindings idx !! rk) as [s0|] eqn:E; [|eauto].
    destruct (decide (rk = rk')) as [<-|Hrk].
    + rewrite lookup_partial_alter_eq. intros [-> Hs]%drop_pending_Some. done.
    + rewrite lookup_partial_alter_ne by done. eauto.
  - intros rk' s. rewrite lookup_omap. destruct (pendingBindings idx !! rk'); [|done].
    simpl. intros [-> Hs]%drop_pending_Some. done.
  - unfold NameIndex_ResolvePendingBindings. case_match; simpl; [|eauto].
    intros rk' s. rewrite lookup_delete. case_decide; [done|eauto].
Qed.
End refinement.
