(* ===== verification/RuleRepo.v ===== *)
(** * RuleRepo: [src/internal/controller/rule_registry.go]

    The registry of compiled FindingRules, keyed by "group/resource". The CEL
    compiler is the parameter [cel_compile] of [Lib]. [GetRulesForResource]
    copies its slice and every slice belongs to one key, so the in-place
    filtering of [removeLocked] is visible to nobody else and the registry is
    a map of immutable lists. *)

From S2P Require Import Prelude.
From S2P Require Import K8s.
From S2P Require Import Lib.

Section repo.
Context {L : Lib}.

Record CompiledRule := mkCompiledRule {
  cr_Name : string;
  cr_Program : option Program;    (* nil when absent *)
  cr_Finding : FindingSpec
}.

End repo.

(** The registry: rules by "group/resource" key. *)
Abbreviation RuleRepo := (gmap string (list CompiledRule)).

Section operations.
Context {L : Lib}.

Definition NewRuleRepo : RuleRepo := ∅.

Definition compileCondition (condition : string) : string + Program := cel_compile condition.

Definition resourceKey (group resource : string) : string := group +:+ "/" +:+ resource.

Definition targetKeys (target : Target) : list string :=
  group ← Target_APIGroups target; resourceKey group <$> Target_Resources target.

Definition removeLocked (name : string) (r : RuleRepo) : RuleRepo :=
  omap (λ rules,
    let filtered := filter (λ rule, cr_Name rule ≠ name) rules in
    match filtered with [] => None | _ :: _ => Some filtered end) r.

Definition append_rule (compiled : CompiledRule) (key : string) (r : RuleRepo) : RuleRepo :=
  <[key := default [] (r !! key) ++ [compiled]]> r.

(** The error of the compiler, or [None]. *)
Definition RuleRepo_Set (rule : FindingRule) (r : RuleRepo) : option string * RuleRepo :=
  match compileCondition (frs_Condition (FindingRule_Spec rule)) with
  | inl err => (Some err, r)
  | inr program =>
      let compiled := mkCompiledRule (FindingRule_Name rule) (Some program)
                        (frs_Finding (FindingRule_Spec rule)) in
      let keys := targetKeys (frs_Target (FindingRule_Spec rule)) in
      (None, foldl (λ r key, append_rule compiled key r)
               (removeLocked (FindingRule_Name rule) r) keys)
  end.

Definition RuleRepo_Remove (name : string) (r : RuleRepo) : RuleRepo := removeLocked name r.

Definition GetRulesForResource (resourceType : string) (r : RuleRepo) : list CompiledRule :=
  match r !! resourceType with None => [] | Some rules => rules end.
End operations.

(** ** FindingRule watcher: [src/internal/controller/findingrule_controller.go]

    An informer event carries an object of the watched type, a tombstone
    around one, or something else. *)

Inductive InformerObj :=
| ObjRule (fr : FindingRule)
| ObjTombstone (o : InformerObj)
| ObjOther.

Inductive InformerEvent := EvAdd (o : InformerObj) | EvUpdate (old new : InformerObj) | EvDelete (o : InformerObj).

Section watcher.
Context {L : Lib}.

(** One tombstone is unwrapped, not two. *)
Definition asFindingRule (obj : InformerObj) : option FindingRule :=
  match (match obj with ObjTombstone o => o | o => o end) with
  | ObjRule fr => Some fr
  | _ => None
  end.

Definition loadRule (obj : InformerObj) (r : RuleRepo) : RuleRepo :=
  match asFindingRule obj with
  | None => r
  | Some fr => (RuleRepo_Set fr r).2
  end.

Definition onDelete (obj : InformerObj) (r : RuleRepo) : RuleRepo :=
  match asFindingRule obj with
  | None => r
  | Some fr => RuleRepo_Remove (FindingRule_Name fr) r
  end.

Definition FindingRuleWatcher_step (ev : InformerEvent) (r : RuleRepo) : RuleRepo :=
  match ev with
  | EvAdd o => loadRule o r
  | EvUpdate _ new => loadRule new r
  | EvDelete o => onDelete o r
  end.
End watcher.

(** ** Functional behaviour *)

Section facts.
Context {L : Lib}.
Implicit Types r : RuleRepo.

(** No key is kept with an empty list. *)
Definition no_empty_rules r : Prop := ∀ k rules, r !! k = Some rules → rules ≠ [].

Lemma Get_removeLocked name k r :
  GetRulesForResource k (removeLocked name r) =
    filter (λ rule, cr_Name rule ≠ name) (GetRulesForResource k r).
Proof.
  unfold GetRulesForResource, removeLocked. rewrite lookup_omap.
  destruct (r !! k) as [rules|]; [|done]. simpl.
  by destruct (filter (λ rule, cr_Name rule ≠ name) rules) eqn:E.
Qed.

Lemma Get_append c key k r :
  GetRulesForResource k (append_rule c key r) =
    GetRulesForResource k r ++ (if decide (key = k) then [c] else []).
Proof.
  unfold GetRulesForResource, append_rule. rewrite lookup_insert.
  case_decide as H; [subst; by destruct (r !! k)|]. by rewrite app_nil_r.
Qed.

Lemma Get_append_all c keys k r :
  GetRulesForResource k (foldl (λ r key, append_rule c key r) r keys) =
    GetRulesForResource k r ++ replicate (length (filter (λ key, key = k) keys)) c.
Proof.
  revert r. induction keys as [|key keys IH]; intros r; simpl; [by rewrite app_nil_r|].
  rewrite IH, Get_append, filter_cons, <- app_assoc. f_equal.
  by case_decide.
Qed.

(** How often a target names the key. *)
Definition target_count (rule : FindingRule) (k : string) : nat :=
  length (filter (λ key, key = k) (targetKeys (frs_Target (FindingRule_Spec rule)))).

Definition compiled_as (rule : FindingRule) (p : Program) : CompiledRule :=
  mkCompiledRule (FindingRule_Name rule) (Some p) (frs_Finding (FindingRule_Spec rule)).

(** C28. Setting a rule replaces every older entry of the same name and adds
    the compiled rule once per (group, resource) pair of its target, behind
    the rules of other names, whose order is kept; a rule whose condition does
    not compile changes nothing, so an older version of it stays active. *)
Theorem RuleRepo_Set_spec rule r k :
  GetRulesForResource k (RuleRepo_Set rule r).2 =
    match compileCondition (frs_Condition (FindingRule_Spec rule)) with
    | inl _ => GetRulesForResource k r
    | inr p =>
        filter (λ c, cr_Name c ≠ FindingRule_Name rule) (GetRulesForResource k r) ++
        replicate (target_count rule k) (compiled_as rule p)
    end.
Proof.
  unfold RuleRepo_Set. destruct (compileCondition _) as [err|p]; simpl; [done|].
  by rewrite Get_append_all, Get_removeLocked.
Qed.

Lemma filter_name_replicate name n (c : CompiledRule) :
  cr_Name c = name → filter (λ c, cr_Name c ≠ name) (replicate n c) = [].
Proof.
  intros Hc. apply list_filter_none. apply Forall_replicate. naive_solver.
Qed.

Lemma filter_filter_name name (l : list CompiledRule) :
  filter (λ c, cr_Name c ≠ name) (filter (λ c, cr_Name c ≠ name) l) =
  filter (λ c, cr_Name c ≠ name) l.
Proof. rewrite list_filter_filter. apply list_filter_iff. naive_solver. Qed.

(** Delivering a rule again (informer resync) changes no lookup. *)
Lemma RuleRepo_Set_idempotent rule r k :
  GetRulesForResource k (RuleRepo_Set rule (RuleRepo_Set rule r).2).2 =
  GetRulesForResource k (RuleRepo_Set rule r).2.
Proof.
  rewrite !RuleRepo_Set_spec. destruct (compileCondition _); [done|].
  rewrite list.filter_app, filter_filter_name, filter_name_replicate by done.
  by rewrite app_nil_r.
Qed.

Lemma no_empty_removeLocked name r : no_empty_rules (removeLocked name r).
Proof.
  intros k rules. unfold removeLocked. rewrite lookup_omap.
  destruct (r !! k); simpl; [|done]. case_match; [done|]. by intros [= <-].
Qed.

Lemma no_empty_append c key r : no_empty_rules r → no_empty_rules (append_rule c key r).
Proof.
  intros H k rules. unfold append_rule. rewrite lookup_insert. case_decide; [|apply H].
  intros [= <-]. by destruct (default [] (r !! key)).
Qed.

Lemma no_empty_step ev r : no_empty_rules r → no_empty_rules (FindingRuleWatcher_step ev r).
Proof.
  intros H. unfold FindingRuleWatcher_step, loadRule, onDelete, RuleRepo_Set.
  destruct ev as [o|o1 o2|o]; repeat case_match; simpl; try done;
    try apply no_empty_removeLocked.
  all: match goal with |- no_empty_rules (foldl _ _ ?ks) => generalize ks end.
  all: intros ks; generalize (no_empty_removeLocked (FindingRule_Name f) r).
  all: generalize (removeLocked (FindingRule_Name f) r).
  all: induction ks as [|k ks IH]; simpl; auto using no_empty_append.
Qed.

(** The rule names the registry holds for a resource type. *)
Definition active_rule (name : string) r : Prop :=
  ∃ k c, c ∈ GetRulesForResource k r ∧ cr_Name c = name.

(** After a delete event, wrapped in a tombstone or not, no rule of that name
    is evaluated any more. *)
Lemma onDelete_inactive fr o r :
  asFindingRule o = Some fr → ¬ active_rule (FindingRule_Name fr) (onDelete o r).
Proof.
  intros Ho (k & c & Hin & Hc). unfold onDelete in Hin. rewrite Ho in Hin.
  unfold RuleRepo_Remove in Hin. rewrite Get_removeLocked in Hin.
  apply list_elem_of_filter in Hin as [? _]. done.
Qed.
End facts.
