(* ===== verification/CrdCheck.v ===== *)
(** * CrdCheck: [src/internal/crdcheck] — the checklist and the probe

    The pure part of the package: parsing [--crd-checklist], and comparing the
    checklist with what the discovery API returned. Its log is in [CrdLog].
    The finding [Reporter] is in [CrdReporter]. *)

From S2P Require Import Prelude.
From S2P Require Import GoStrings.
From S2P Require Import K8s.
From S2P Require Import Lib.
From S2P Require Import Entities.

Record CRDEntry := mkCRDEntry {
  crd_Group : string;
  crd_Version : string;
  crd_Resource : string;
  crd_DisplayName : string;
  crd_Category : string
}.

#[export] Instance CRDEntry_eq_dec : EqDecision CRDEntry.
Proof. solve_decision. Defined.

(** [CRDEntry.String] *)
Definition CRDEntry_String (e : CRDEntry) : string :=
  crd_Group e +:+ "/" +:+ crd_Version e +:+ "/" +:+ crd_Resource e.

Definition DefaultChecklist : list CRDEntry :=
  [ mkCRDEntry "structure.emeland.io" "v1alpha1" "systems" "EmELand System" "EmELand";
    mkCRDEntry "structure.emeland.io" "v1alpha1" "apis" "EmELand API" "EmELand";
    mkCRDEntry "structure.emeland.io" "v1alpha1" "components" "EmELand Component" "EmELand";
    mkCRDEntry "structure.emeland.io" "v1alpha1" "systeminstances" "EmELand SystemInstance" "EmELand";
    mkCRDEntry "structure.emeland.io" "v1alpha1" "findingrules" "EmELand FindingRule" "EmELand";
    mkCRDEntry "cert-manager.io" "v1" "certificates" "Certificate" "CertManager";
    mkCRDEntry "cert-manager.io" "v1" "issuers" "Issuer" "CertManager";
    mkCRDEntry "cert-manager.io" "v1" "clusterissuers" "ClusterIssuer" "CertManager";
    mkCRDEntry "monitoring.coreos.com" "v1" "servicemonitors" "ServiceMonitor" "Prometheus Operator";
    mkCRDEntry "monitoring.coreos.com" "v1" "prometheusrules" "PrometheusRule" "Prometheus Operator";
    mkCRDEntry "grafana.integreatly.org" "v1beta1" "grafanadashboards" "GrafanaDashboard" "Grafana Operator" ].

Definition parseCRDToken (token : string) : string + CRDEntry :=
  match SplitN "/" 4 token with
  | [g; v; r] =>
      if bool_decide (g = "") || bool_decide (v = "") || bool_decide (r = "")
      then inl "expected format group/version/resource"
      else inr (mkCRDEntry g v r r g)
  | _ => inl "expected format group/version/resource"
  end.

(** [lookup[e.String()] = e] for each default entry, in order. *)
Definition checklist_lookup : gmap string CRDEntry :=
  foldl (λ m e, <[CRDEntry_String e := e]> m) ∅ DefaultChecklist.

(** The entry of one token that is not empty. *)
Definition parse_entry (token : string) : string + CRDEntry :=
  match checklist_lookup !! token with
  | Some known => inr known
  | None =>
      match parseCRDToken token with
      | inl err => inl ("invalid CRD entry: " +:+ err)
      | inr entry => inr entry
      end
  end.

(** The loop of [ParseChecklist]; [result] accumulates in front of the rest. *)
Fixpoint parse_tokens (tokens : list string) (result : list CRDEntry) : string + list CRDEntry :=
  match tokens with
  | [] => inr result
  | token :: tokens =>
      let token := TrimSpace token in
      if bool_decide (token = "") then parse_tokens tokens result
      else match parse_entry token with
           | inl err => inl err
           | inr entry => parse_tokens tokens (result ++ [entry])
           end
  end.

Definition ParseChecklist (raw : string) : string + list CRDEntry :=
  if bool_decide (raw = "") then inr [] else parse_tokens (Split "," raw) [].

(** ** The probe *)

(** [metav1.APIResourceList]: a group version and its resource names. *)
Record APIResourceList := mkAPIResourceList {
  rl_GroupVersion : string;
  rl_APIResources : list string
}.

(** What [ServerGroupsAndResources] returned: the resource lists ([None] for a
    nil slice; a nil element is [None] in the list) and the error. *)
Record Discovery := mkDiscovery {
  disc_lists : option (list (option APIResourceList));
  disc_err : option string
}.

Record CheckResult := mkCheckResult {
  cres_Available : list CRDEntry;
  cres_Missing : list CRDEntry;
  cres_DiscoveryErr : option string
}.

Definition resource_keys (rl : APIResourceList) : list string :=
  (λ r, rl_GroupVersion rl +:+ "/" +:+ r) <$> rl_APIResources rl.

Definition available_keys (lists : list (option APIResourceList)) : gset string :=
  list_to_set (rl ← lists; match rl with None => [] | Some rl => resource_keys rl end).

(** The loop over the checklist, accumulating both lists. *)
Fixpoint check_entries (available : gset string) (checklist : list CRDEntry)
    (result : CheckResult) : CheckResult :=
  match checklist with
  | [] => result
  | entry :: checklist =>
      let key := crd_Group entry +:+ "/" +:+ crd_Version entry +:+ "/" +:+ crd_Resource entry in
      check_entries available checklist
        (if bool_decide (key ∈ available)
         then mkCheckResult (cres_Available result ++ [entry]) (cres_Missing result) (cres_DiscoveryErr result)
         else mkCheckResult (cres_Available result) (cres_Missing result ++ [entry]) (cres_DiscoveryErr result))
  end.

Definition CRDCheck (d : Discovery) (checklist : list CRDEntry) : CheckResult :=
  match disc_err d, disc_lists d with
  | Some err, None => mkCheckResult [] checklist (Some err)
  | err, lists => check_entries (available_keys (default [] lists)) checklist (mkCheckResult [] [] err)
  end.

(** ** Correctness of the parser *)

(** The trimmed, non-empty tokens of a comma-separated list. *)
Definition checklist_tokens (raw : string) : list string :=
  filter (λ t, t ≠ "") (TrimSpace <$> Split "," raw).

Lemma checklist_lookup_String t e : checklist_lookup !! t = Some e → CRDEntry_String e = t.
Proof.
  assert (map_Forall (λ t e, CRDEntry_String e = t) checklist_lookup) as H; [|apply H].
  unfold checklist_lookup.
  assert (∀ l (m : gmap string CRDEntry), map_Forall (λ t e, CRDEntry_String e = t) m →
    map_Forall (λ t e, CRDEntry_String e = t)
      (foldl (λ (m : gmap string CRDEntry) e, <[CRDEntry_String e := e]> m) m l)) as Hl.
  { induction l as [|x l IH]; intros m Hm; [done|]. simpl. apply IH. by apply map_Forall_insert_2. }
  apply Hl, map_Forall_empty.
Qed.

(** A token is accepted iff it is three non-empty slash-free parts. *)
Lemma parseCRDToken_iff t e :
  parseCRDToken t = inr e ↔
  ∃ g v r, t = g +:+ "/" +:+ v +:+ "/" +:+ r ∧ g ≠ "" ∧ v ≠ "" ∧ r ≠ "" ∧
    free_of "/" g ∧ free_of "/" v ∧ free_of "/" r ∧ e = mkCRDEntry g v r r g.
Proof.
  unfold parseCRDToken. split.
  - simpl. destruct (Cut "/" t) as [[g t1]|] eqn:E1; [|done].
    destruct (Cut "/" t1) as [[v t2]|] eqn:E2; [|done].
    destruct (Cut "/" t2) as [[r t3]|] eqn:E3; [done|].
    apply Cut_Some in E1 as [-> Hg]. apply Cut_Some in E2 as [-> Hv]. apply Cut_None in E3 as Hr.
    repeat case_bool_decide; try done. intros [= <-]. exists g, v, t2. done.
  - intros (g & v & r & -> & Hg0 & Hv0 & Hr0 & Hg & Hv & Hr & ->). simpl.
    rewrite (proj2 (Cut_Some "/" _ g (v +:+ String "/" r))) by done.
    rewrite (proj2 (Cut_Some "/" _ v r)) by done.
    rewrite (proj2 (Cut_None "/" r)) by done.
    by rewrite !bool_decide_eq_false_2.
Qed.

Lemma parse_entry_String t e : parse_entry t = inr e → CRDEntry_String e = t.
Proof.
  unfold parse_entry. destruct (checklist_lookup !! t) as [k|] eqn:E.
  - intros [= <-]. by apply checklist_lookup_String.
  - destruct (parseCRDToken t) as [|e'] eqn:Hp; [done|]. intros [= <-].
    apply parseCRDToken_iff in Hp as (g & v & r & -> & _ & _ & _ & _ & _ & _ & ->). done.
Qed.

Lemma parse_tokens_spec toks acc :
  match parse_tokens toks acc with
  | inr es => ∃ es', es = acc ++ es' ∧
      Forall2 (λ t e, parse_entry t = inr e) (filter (λ t, t ≠ "") (TrimSpace <$> toks)) es'
  | inl _ => ∃ t, t ∈ filter (λ t, t ≠ "") (TrimSpace <$> toks) ∧ ∃ err, parse_entry t = inl err
  end.
Proof.
  revert acc. induction toks as [|t toks IH]; intros acc.
  { simpl. exists []. rewrite app_nil_r. by split. }
  change (TrimSpace <$> t :: toks) with (TrimSpace t :: (TrimSpace <$> toks)).
  simpl. rewrite filter_cons. case_bool_decide as Ht.
  - rewrite decide_False by naive_solver. apply IH.
  - rewrite decide_True by done.
    destruct (parse_entry (TrimSpace t)) as [err|e] eqn:He.
    + exists (TrimSpace t). split; [left|eauto].
    + specialize (IH (acc ++ [e])). destruct (parse_tokens toks (acc ++ [e])).
      * destruct IH as (t' & Hin & Herr). exists t'. split; [by right|done].
      * destruct IH as (es' & -> & Hf). exists (e :: es'). rewrite <- app_assoc.
        split; [done|]. by constructor.
Qed.

(** C33. A checklist that parses yields one entry per non-empty token, in the
    order given, each the entry that prints as that token (so a token of the
    default list gets its default metadata); one that does not parse has a token
    that is neither a default entry nor three non-empty slash-free parts. *)
Theorem ParseChecklist_spec raw :
  match ParseChecklist raw with
  | inr es => CRDEntry_String <$> es = checklist_tokens raw ∧
              Forall (λ e, parse_entry (CRDEntry_String e) = inr e) es
  | inl _ => ∃ t, t ∈ checklist_tokens raw ∧ checklist_lookup !! t = None ∧
      ¬ ∃ g v r, t = g +:+ "/" +:+ v +:+ "/" +:+ r ∧ g ≠ "" ∧ v ≠ "" ∧ r ≠ "" ∧
        free_of "/" g ∧ free_of "/" v ∧ free_of "/" r
  end.
Proof.
  unfold ParseChecklist. case_bool_decide as Hraw; [by subst raw|].
  pose proof (parse_tokens_spec (Split "," raw) []) as H.
  destruct (parse_tokens _ _) as [err|es].
  - destruct H as (t & Hin & err' & Ht). exists t. split; [done|].
    unfold parse_entry in Ht. destruct (checklist_lookup !! t); [done|]. split; [done|].
    intros (g & v & r & H). destruct (parseCRDToken t) as [|e] eqn:Hp; [|done].
    assert (parseCRDToken t = inr (mkCRDEntry g v r r g)) as Hp'; [|congruence].
    apply parseCRDToken_iff. naive_solver.
  - destruct H as (es' & -> & Hf). unfold checklist_tokens. simpl. clear Hraw.
    induction Hf as [|t e l l' He Hf [IH1 IH2]]; [done|].
    pose proof (parse_entry_String _ _ He) as Hs. split.
    + rewrite fmap_cons, Hs. by f_equal.
    + constructor; [by rewrite Hs|done].
Qed.

(** The default checklist survives printing and parsing. *)
Lemma ParseChecklist_default :
  ParseChecklist (Join "," (CRDEntry_String <$> DefaultChecklist)) = inr DefaultChecklist.
Proof. vm_compute. reflexivity. Qed.

(** ** Correctness of the probe *)

Definition crd_installed (d : Discovery) (e : CRDEntry) : Prop :=
  CRDEntry_String e ∈ available_keys (default [] (disc_lists d)).
#[export] Instance crd_installed_dec d e : Decision (crd_installed d e).
Proof. unfold crd_installed. apply _. Defined.

Lemma check_entries_spec av l res :
  check_entries av l res =
    mkCheckResult (cres_Available res ++ filter (λ e, CRDEntry_String e ∈ av) l)
                  (cres_Missing res ++ filter (λ e, CRDEntry_String e ∉ av) l)
                  (cres_DiscoveryErr res).
Proof.
  revert res. induction l as [|e l IH]; intros res; simpl.
  { rewrite !app_nil_r. by destruct res. }
  rewrite IH, !filter_cons. change (crd_Group e +:+ _) with (CRDEntry_String e).
  case_bool_decide as H; simpl.
  - rewrite (decide_True _ _ H), decide_False by naive_solver. by rewrite <- app_assoc.
  - rewrite (decide_False _ _ H), decide_True by done. by rewrite <- app_assoc.
Qed.

(** The probe splits the checklist, in order, into the entries whose
    "group/version/resource" the discovery API listed and the others; the error
    of a failed or partial discovery is kept. A discovery without any resource
    list counts the entire checklist as missing. *)
Theorem CRDCheck_spec d checklist :
  CRDCheck d checklist =
    mkCheckResult (filter (crd_installed d) checklist)
                  (filter (λ e, ¬ crd_installed d e) checklist) (disc_err d).
Proof.
  unfold CRDCheck, crd_installed.
  destruct d as [[lists|] [err|]]; simpl; try by rewrite check_entries_spec.
  f_equal; [symmetry; apply list_filter_none|symmetry; apply list_filter_all].
  - apply Forall_true. intros e. unfold available_keys. simpl. set_solver.
  - apply Forall_true. intros e. unfold available_keys. simpl. set_solver.
Qed.
