(* ===== verification/CrdLog.v ===== *)
(** * CrdLog: the log of the CRD check

    [Check] and [Log] of [src/internal/crdcheck/crdcheck.go] as they run, with
    every line they log: the operator learns from it whether the group or the
    version of a missing CRD is there. [CrdCheck] has the result alone. *)

From stdpp Require Import sorting.
From S2P Require Import Prelude.
From S2P Require Import GoStrings.
From S2P Require Import Log.
From S2P Require Import CrdCheck.

(** ** What the discovery client returns *)

Record APIResource := mkAPIResource {
  ar_Name : string; ar_Kind : string; ar_Namespaced : bool; ar_Verbs : list string
}.
Record ResourceList := mkResourceList { rs_GroupVersion : string; rs_APIResources : list APIResource }.
Record APIGroup := mkAPIGroup { ag_Name : string; ag_PreferredVersion : string; ag_Versions : list string }.
Record GroupVersion := mkGroupVersion { gv_Group : string; gv_Version : string }.

(** The error of a discovery; the groups of [ErrGroupDiscoveryFailed] in the
    order in which the map is ranged over. *)
Record DiscoveryError := mkDiscoveryError {
  de_error : GoError;
  de_Groups : option (list (GroupVersion * GoError))
}.

Record ServerResources := mkServerResources {
  sr_groups : list (option APIGroup);
  sr_resourceLists : option (list (option ResourceList));
  sr_err : option DiscoveryError
}.

(** What [CrdCheck] sees of it. *)
Definition resource_list (rl : ResourceList) : APIResourceList :=
  mkAPIResourceList (rs_GroupVersion rl) (ar_Name <$> rs_APIResources rl).
Definition discovered (d : ServerResources) : Discovery :=
  mkDiscovery (fmap (M := list) (fmap (M := option) resource_list) <$> sr_resourceLists d)
    ((λ e, ge_Error (de_error e)) <$> sr_err d).

(** ** The helpers *)

(** [%t] and [%v] of a slice of strings. *)
Definition fmt_bool (b : bool) : string := if b then "true" else "false".
Definition fmt_strings (l : list string) : string := "[" +:+ Join " " l +:+ "]".

Definition formatAPIResources (resources : list APIResource) : list string :=
  (λ r, "name=" +:+ ar_Name r +:+ " kind=" +:+ ar_Kind r +:+ " namespaced=" +:+ fmt_bool (ar_Namespaced r) +:+
        " verbs=" +:+ fmt_strings (ar_Verbs r)) <$> resources.

Definition crdEntryStrings (entries : list CRDEntry) : list string := CRDEntry_String <$> entries.

Definition keysWithPrefix (keys : list string) (prefix : string) : list string :=
  filter (λ k, HasPrefix k prefix = true) keys.

(** [GroupVersion.String()] *)
Definition GroupVersion_String (gv : GroupVersion) : string :=
  if bool_decide (gv_Group gv = "") then gv_Version gv else gv_Group gv +:+ "/" +:+ gv_Version gv.

Definition lists_fields (err : option GoError) (lists : option (list (option ResourceList)))
    : list (string * LogValue) :=
  [("errType", LStr (errType err)); ("resourceListCount", LLen (default [] lists));
   ("resourceListsNil", LBool (bool_decide (lists = None)))].

Definition logDiscoveryError (err : option DiscoveryError) (lists : option (list (option ResourceList)))
    : list LogLine :=
  match err with
  | None => []
  | Some err =>
      log_Error (de_error err) "discovery error details" (lists_fields (Some (de_error err)) lists) ::
      match de_Groups err with
      | Some groups =>
          log_Info "ErrGroupDiscoveryFailed: some API groups were unreachable (sidecar/proxy/mesh is a common cause)"
            [("failedGroupCount", LLen groups)] ::
          ((λ g : GroupVersion * GoError, log_Error g.2 "API group discovery failed"
              [("group", LStr (gv_Group g.1)); ("version", LStr (gv_Version g.1));
               ("groupVersion", LStr (GroupVersion_String g.1))]) <$> groups)
      | None =>
          [log_V1_Info "discovery error is not ErrGroupDiscoveryFailed"
             [("errType", LStr (ge_Type (de_error err))); ("err", LStr (ge_Error (de_error err)))]]
      end
  end.

Definition logDiscoveryGroups (groups : list (option APIGroup)) : list LogLine :=
  if bool_decide (groups = []) then [log_Info "discovery returned no API groups" []]
  else
    let present := omap id groups in
    ((λ g, log_V1_Info "discovery API group"
        [("name", LStr (ag_Name g)); ("preferredVersion", LStr (ag_PreferredVersion g));
         ("versions", LStrs (ag_Versions g))]) <$> present) ++
    [log_Info "discovery API groups" [("count", LLen present); ("groups", LStrs (ag_Name <$> present))]].

(** ** [Check] *)

(** One resource list of the discovery. *)
Definition log_resource_list (rl : option ResourceList) : list LogLine :=
  match rl with
  | None => [log_Info "skipping nil APIResourceList from discovery" []]
  | Some rl =>
      [log_Info "discovery APIResourceList"
         [("groupVersion", LStr (rs_GroupVersion rl)); ("resourceCount", LLen (rs_APIResources rl));
          ("resources", LStrs (ar_Name <$> rs_APIResources rl))];
       log_V1_Info "discovery APIResourceList details"
         [("groupVersion", LStr (rs_GroupVersion rl));
          ("resources", LStrs (formatAPIResources (rs_APIResources rl)))]]
  end.

(** [discoveredKeys], after [sort.Strings]. *)
Definition discoveredKeys (lists : list (option ResourceList)) : list string :=
  merge_sort String.le
    (rl ← lists; match rl with None => [] | Some rl => resource_keys (resource_list rl) end).

Definition available_line (entry : CRDEntry) : LogLine :=
  log_Info "expected CRD is available"
    [("crd", LStr (CRDEntry_String entry)); ("displayName", LStr (crd_DisplayName entry));
     ("category", LStr (crd_Category entry))].

Definition missing_line (keys : list string) (entry : CRDEntry) : LogLine :=
  let sameGroup := keysWithPrefix keys (crd_Group entry +:+ "/") in
  let sameGV := keysWithPrefix keys (crd_Group entry +:+ "/" +:+ crd_Version entry +:+ "/") in
  log_Info "expected CRD not in discovery result"
    [("crd", LStr (CRDEntry_String entry)); ("displayName", LStr (crd_DisplayName entry));
     ("category", LStr (crd_Category entry)); ("groupPresent", LBool (0 <? length sameGroup));
     ("groupVersionPresent", LBool (0 <? length sameGV)); ("sameGroupKeys", LStrs sameGroup);
     ("sameGroupVersionKeys", LStrs sameGV)].

(** The loop over the checklist: the result so far and the log so far. *)
Fixpoint check_loop (available : gset string) (keys : list string) (checklist : list CRDEntry)
    (r : CheckResult * list LogLine) : CheckResult * list LogLine :=
  match checklist with
  | [] => r
  | entry :: checklist =>
      let '(result, log) := r in
      check_loop available keys checklist
        (if bool_decide (CRDEntry_String entry ∈ available)
         then (mkCheckResult (cres_Available result ++ [entry]) (cres_Missing result) (cres_DiscoveryErr result),
               log ++ [available_line entry])
         else (mkCheckResult (cres_Available result) (cres_Missing result ++ [entry]) (cres_DiscoveryErr result),
               log ++ [missing_line keys entry]))
  end.

(** Up to the decision whether there is anything to work with. *)
Definition check_prologue (d : ServerResources) (checklist : list CRDEntry) : list LogLine :=
  let err := de_error <$> sr_err d in
  [log_Info "probing discovery API for expected CRDs"
     [("checklistSize", LLen checklist); ("checklist", LStrs (crdEntryStrings checklist))];
   log_Info "ServerGroupsAndResources returned"
     [("err", LStr (errString err)); ("errType", LStr (errType err)); ("apiGroupCount", LLen (sr_groups d));
      ("resourceListCount", LLen (default [] (sr_resourceLists d)));
      ("resourceListsNil", LBool (bool_decide (sr_resourceLists d = None)))]] ++
  logDiscoveryGroups (sr_groups d) ++ logDiscoveryError (sr_err d) (sr_resourceLists d).

Definition Check_run (d : ServerResources) (checklist : list CRDEntry) : CheckResult * list LogLine :=
  let log := check_prologue d checklist in
  match sr_err d, sr_resourceLists d with
  | Some err, None =>
      (mkCheckResult [] checklist (Some (ge_Error (de_error err))),
       log ++ [log_Error (de_error err) "total discovery failure; treating entire checklist as missing"
                 [("missing", LStrs (crdEntryStrings checklist))]])
  | err, lists =>
      let lists := default [] lists in
      let keys := discoveredKeys lists in
      let log := log ++
        match err with
        | Some _ => [log_Info "partial discovery failure; continuing with returned resource lists" []]
        | None => []
        end ++ mjoin (log_resource_list <$> lists) ++
        [log_V1_Info "flattened discovery keys" [("count", LLen keys); ("keys", LStrs keys)]] in
      check_loop (available_keys (fmap (M := option) resource_list <$> lists)) keys checklist
        (mkCheckResult [] [] ((λ e, ge_Error (de_error e)) <$> err), log)
  end.

(** ** [Log] *)
Definition LogResult (err : option DiscoveryError) (result : CheckResult) : list LogLine :=
  match err with
  | Some err =>
      log_Error (de_error err) "CRD discovery returned an error (partial results may still have been used)"
        [("errType", LStr (ge_Type (de_error err)))] :: logDiscoveryError (Some err) None
  | None => []
  end ++
  [log_Info "CRD availability summary"
     [("availableCount", LLen (cres_Available result)); ("missingCount", LLen (cres_Missing result));
      ("available", LStrs (crdEntryStrings (cres_Available result)));
      ("missing", LStrs (crdEntryStrings (cres_Missing result)));
      ("discoveryErr", LStr (errString (de_error <$> err)))]] ++
  if bool_decide (cres_Missing result = [])
  then [log_Info "all expected CRDs available" [("count", LLen (cres_Available result))]]
  else
    ((λ entry, log_Info "expected CRD not available in cluster"
        [("crd", LStr (CRDEntry_String entry)); ("displayName", LStr (crd_DisplayName entry));
         ("category", LStr (crd_Category entry))]) <$> cres_Missing result) ++
    [log_Info "CRD availability check complete"
       [("available", LLen (cres_Available result)); ("missing", LLen (cres_Missing result))]].

(** ** What the log says *)

Lemma available_keys_discovered lists :
  available_keys (fmap (M := option) resource_list <$> lists) = list_to_set (discoveredKeys lists).
Proof.
  apply set_eq. intros key. unfold available_keys, discoveredKeys. rewrite !elem_of_list_to_set.
  rewrite (merge_sort_Permutation String.le). rewrite !list_elem_of_bind.
  split; intros (rl & Hkey & Hrl).
  - apply list_elem_of_fmap in Hrl as (rl' & -> & Hrl). exists rl'. split; [|done]. by destruct rl'.
  - exists (resource_list <$> rl). split; [by destruct rl|by apply list_elem_of_fmap_2].
Qed.

Lemma check_loop_spec available keys checklist result log :
  check_loop available keys checklist (result, log) =
    (check_entries available checklist result,
     log ++ ((λ e, if bool_decide (CRDEntry_String e ∈ available) then available_line e else missing_line keys e)
               <$> checklist)).
Proof.
  revert result log. induction checklist as [|e l IH]; intros result log; [by rewrite app_nil_r|].
  cbn [check_loop check_entries]. rewrite fmap_cons. change (crd_Group e +:+ _) with (CRDEntry_String e).
  case_bool_decide; rewrite IH; by rewrite <- (assoc_L (++)).
Qed.

(** Some resource whose "group/version/resource" starts with [prefix] has been
    discovered. *)
Definition some_discovered (d : ServerResources) (prefix : string) : Prop :=
  ∃ rl r, Some rl ∈ default [] (sr_resourceLists d) ∧ r ∈ rs_APIResources rl ∧
    HasPrefix (rs_GroupVersion rl +:+ "/" +:+ ar_Name r) prefix = true.

Lemma elem_of_discoveredKeys key lists :
  key ∈ discoveredKeys lists ↔
  ∃ rl r, Some rl ∈ lists ∧ r ∈ rs_APIResources rl ∧ key = rs_GroupVersion rl +:+ "/" +:+ ar_Name r.
Proof.
  unfold discoveredKeys. rewrite (merge_sort_Permutation String.le), list_elem_of_bind. split.
  - intros ([rl|] & Hkey & Hrl); [|by apply not_elem_of_nil in Hkey].
    unfold resource_keys, resource_list in Hkey. simpl in Hkey.
    apply list_elem_of_fmap in Hkey as (n & -> & Hn). apply list_elem_of_fmap in Hn as (r & -> & Hr). eauto.
  - intros (rl & r & Hrl & Hr & ->). exists (Some rl). split; [|done].
    unfold resource_keys, resource_list. simpl.
    apply (list_elem_of_fmap_2 (λ r, rs_GroupVersion rl +:+ "/" +:+ r)). by apply list_elem_of_fmap_2.
Qed.

Lemma keysWithPrefix_present d prefix :
  (0 <? length (keysWithPrefix (discoveredKeys (default [] (sr_resourceLists d))) prefix)) = true ↔
  some_discovered d prefix.
Proof.
  rewrite Nat.ltb_lt. unfold keysWithPrefix, some_discovered.
  set (l := filter _ _). transitivity (∃ key, key ∈ l).
  - split; [|intros (key & Hkey); destruct l; [by apply not_elem_of_nil in Hkey|simpl; lia]].
    destruct l as [|key l']; simpl; [lia|]. intros _. exists key. left.
  - subst l. split.
    + intros (key & Hkey). apply list_elem_of_filter in Hkey as [Hp Hkey].
      apply elem_of_discoveredKeys in Hkey as (rl & r & H1 & H2 & ->). eauto.
    + intros (rl & r & H1 & H2 & H3). eexists. apply list_elem_of_filter. split; [exact H3|].
      apply elem_of_discoveredKeys. eauto.
Qed.

Lemma keysWithPrefix_sorted lists prefix : StronglySorted String.le (keysWithPrefix (discoveredKeys lists) prefix).
Proof.
  unfold keysWithPrefix. pose proof (StronglySorted_merge_sort String.le
    (rl ← lists; match rl with None => [] | Some rl => resource_keys (resource_list rl) end)) as H.
  fold (discoveredKeys lists) in H.
  induction H as [|key l _ IH Hall]; [constructor|]. rewrite filter_cons. case_decide; [|done].
  constructor; [done|]. rewrite list.Forall_forall in *. intros x [_ Hx]%list_elem_of_filter. by apply Hall.
Qed.

(** The line about an entry of the checklist. *)
Definition verdict_line (d : ServerResources) (e : CRDEntry) : LogLine :=
  if bool_decide (crd_installed (discovered d) e) then available_line e
  else missing_line (discoveredKeys (default [] (sr_resourceLists d))) e.

(** C34. The log of the probe is true: the result is that of [CRDCheck];
    unless discovery failed altogether, the log ends with one line for each
    entry of the checklist, in order, that says whether the CRD is installed;
    and the line of a missing one says whether anything of its group, and of
    its group and version, is there, and lists it, sorted. *)
Theorem Check_run_spec d checklist :
  (Check_run d checklist).1 = CRDCheck (discovered d) checklist ∧
  (sr_err d = None ∨ sr_resourceLists d ≠ None →
   ∃ before, (Check_run d checklist).2 = before ++ (verdict_line d <$> checklist)) ∧
  ∀ e, ∃ sameGroup sameGV inGroup inGV,
    l_fields (missing_line (discoveredKeys (default [] (sr_resourceLists d))) e) =
      [("crd", LStr (CRDEntry_String e)); ("displayName", LStr (crd_DisplayName e));
       ("category", LStr (crd_Category e)); ("groupPresent", LBool inGroup); ("groupVersionPresent", LBool inGV);
       ("sameGroupKeys", LStrs sameGroup); ("sameGroupVersionKeys", LStrs sameGV)] ∧
    (inGroup = true ↔ some_discovered d (crd_Group e +:+ "/")) ∧
    (inGV = true ↔ some_discovered d (crd_Group e +:+ "/" +:+ crd_Version e +:+ "/")) ∧
    StronglySorted String.le sameGroup ∧ StronglySorted String.le sameGV.
Proof.
  assert (∀ lists err log, sr_resourceLists d = lists → (sr_err d = None ∨ lists ≠ None) →
    err = (λ e, ge_Error (de_error e)) <$> sr_err d →
    let r := check_loop (available_keys (fmap (M := option) resource_list <$> default [] lists))
      (discoveredKeys (default [] lists)) checklist (mkCheckResult [] [] err, log) in
    r.1 = CRDCheck (discovered d) checklist ∧ r.2 = log ++ (verdict_line d <$> checklist)) as Hloop.
  { intros lists err log Hl Hd -> r. subst r. rewrite check_loop_spec. cbn [fst snd]. unfold verdict_line, crd_installed.
    unfold CRDCheck, discovered. simpl. rewrite Hl. destruct lists, (sr_err d); simpl; naive_solver. }
  split_and!.
  - unfold Check_run. destruct (sr_err d) as [err|] eqn:Ee, (sr_resourceLists d) as [lists|] eqn:El.
    2: { unfold CRDCheck, discovered. by rewrite Ee, El. }
    all: refine (proj1 (Hloop _ _ _ eq_refl _ _)); auto.
  - intros Hd. unfold Check_run. destruct (sr_err d) as [err|] eqn:Ee, (sr_resourceLists d) as [lists|] eqn:El.
    2: naive_solver.
    all: eexists; refine (proj2 (Hloop _ _ _ eq_refl _ _)); auto.
  - intros e. do 4 eexists. split; [reflexivity|]. split; [apply keysWithPrefix_present|].
    split; [apply keysWithPrefix_present|]. split; apply keysWithPrefix_sorted.
Qed.
