(* ===== verification/State.v ===== *)
(** * State: the shared state of the controllers and its atomic operations

    [World] gathers what the goroutines of the manager share: the modelsrv
    store, the name index, the rule registry, the requeue channels of the
    binding reconcilers, and the private fields of the reconcilers that keep
    state. Every operation below takes one lock (of the store, of the index,
    of the registry, ...) in the code, and is one atomic step here. *)

From S2P Require Import Prelude.
From S2P Require Import Prog.
From S2P Require Import K8s.
From S2P Require Import Lib.
From S2P Require Import Entities.
From S2P Require Import ModelSrv.
From S2P Require Import Registry.
From S2P Require Import RuleRepo.
From S2P Require Import CrdCheck.

Section world.
Context {L : Lib} {S : ModelSrv}.

(** [crdcheck.Reporter] *)
Record Reporter := mkReporter {
  rep_result : CheckResult;
  rep_fallback : option ResourceRef;
  rep_reportedWithContext : bool
}.

Record World := mkWorld {
  w_model : Store;
  w_index : NameIndex;
  w_rules : RuleRepo;
  (** kind of the binding reconciler -> its buffered channel *)
  w_requeue : gmap string (list NamespacedName);
  (** [HelmReleaseReconciler.latestRevision] *)
  w_latestRevision : gmap string Z;
  (** [NamespaceReconciler.clusterContextID] *)
  w_clusterContextID : uuid;
  (** [NamespaceReconciler.CRDReporter]: the pointer may be nil *)
  w_reporter : option Reporter
}.

Definition set_model (m : Store) (w : World) : World :=
  mkWorld m (w_index w) (w_rules w) (w_requeue w) (w_latestRevision w) (w_clusterContextID w) (w_reporter w).
Definition set_index (i : NameIndex) (w : World) : World :=
  mkWorld (w_model w) i (w_rules w) (w_requeue w) (w_latestRevision w) (w_clusterContextID w) (w_reporter w).
Definition set_rules (r : RuleRepo) (w : World) : World :=
  mkWorld (w_model w) (w_index w) r (w_requeue w) (w_latestRevision w) (w_clusterContextID w) (w_reporter w).
Definition set_requeue q (w : World) : World :=
  mkWorld (w_model w) (w_index w) (w_rules w) q (w_latestRevision w) (w_clusterContextID w) (w_reporter w).
Definition set_latestRevision l (w : World) : World :=
  mkWorld (w_model w) (w_index w) (w_rules w) (w_requeue w) l (w_clusterContextID w) (w_reporter w).
Definition set_clusterContextID c (w : World) : World :=
  mkWorld (w_model w) (w_index w) (w_rules w) (w_requeue w) (w_latestRevision w) c (w_reporter w).
Definition set_reporter r (w : World) : World :=
  mkWorld (w_model w) (w_index w) (w_rules w) (w_requeue w) (w_latestRevision w) (w_clusterContextID w) r.

Definition action := prog World.

(** ** The store *)
Definition Model_Add (e : Entity) : action (option ModelErr) :=
  atomic (λ w, let r := add e (w_model w) in (r.2, set_model r.1 w)).
Definition Model_Delete (f : Family) (id : uuid) : action (option ModelErr) :=
  atomic (λ w, let r := del f id (w_model w) in (r.2, set_model r.1 w)).
Definition Model_Get (f : Family) (id : uuid) : action (option Entity) :=
  reading (λ w, get f id (w_model w)).

(** ** The name index *)
Definition Index_Put k n id : action unit := writing (λ w, set_index (NameIndex_Put k n id (w_index w)) w).
Definition Index_Get k n : action uuid := reading (λ w, NameIndex_Get k n (w_index w)).
Definition Index_Delete k n : action uuid :=
  atomic (λ w, let r := NameIndex_Delete k n (w_index w) in (r.1, set_index r.2 w)).
Definition Index_Keys c k : action (list string) := reading (λ w, NameIndex_Keys c k (w_index w)).
Definition Index_SetHelmOwner k n si : action unit :=
  writing (λ w, set_index (NameIndex_SetHelmOwner k n si (w_index w)) w).
Definition Index_GetHelmOwner k n : action uuid := reading (λ w, NameIndex_GetHelmOwner k n (w_index w)).
Definition Index_DeleteHelmOwnersBySystemInstance si : action unit :=
  writing (λ w, set_index (NameIndex_DeleteHelmOwnersBySystemInstance si (w_index w)) w).
Definition Index_AddPendingBinding rk b : action unit :=
  writing (λ w, set_index (NameIndex_AddPendingBinding rk b (w_index w)) w).
Definition Index_RemovePendingBinding rk b : action unit :=
  writing (λ w, set_index (NameIndex_RemovePendingBinding rk b (w_index w)) w).
Definition Index_RemovePendingBindingByName b : action unit :=
  writing (λ w, set_index (NameIndex_RemovePendingBindingByName b (w_index w)) w).
Definition Index_ResolvePendingBindings c rk : action (list string) :=
  atomic (λ w, let r := NameIndex_ResolvePendingBindings c rk (w_index w) in (r.1, set_index r.2 w)).

(** ** The rule registry *)
Definition Rules_Get key : action (list CompiledRule) := reading (λ w, GetRulesForResource key (w_rules w)).

(** The model after the run of a handler. *)
Definition finding_at (w : World) (id : uuid) : option Entity := get FFinding id (w_model w).
End world.

(** ** What a reconcile returns: [(ctrl.Result, error)] *)

Inductive Err :=
| EModel (e : ModelErr)
| EGet (msg : string)
| EMsg (msg : string).

Record Outcome := mkOutcome { out_RequeueAfter : Z; out_Err : option Err }.

Definition done_ok : Outcome := mkOutcome 0 None.
Definition failed (e : Err) : Outcome := mkOutcome 0 (Some e).
(** [err = m.DeleteX(id); if errors.Is(err, ErrXNotFound) { err = nil }] *)
Definition ignore_not_found (f : Family) (e : option ModelErr) : Outcome :=
  match e with
  | None => done_ok
  | Some e => if bool_decide (e = ErrNotFound f) then done_ok else failed (EModel e)
  end.

#[export] Hint Unfold Model_Add Model_Delete Model_Get Index_Put Index_Get Index_Delete Index_Keys
  Index_SetHelmOwner Index_GetHelmOwner Index_DeleteHelmOwnersBySystemInstance
  Index_AddPendingBinding Index_RemovePendingBinding Index_RemovePendingBindingByName
  Index_ResolvePendingBindings Rules_Get : sensor.

(** Execute the next operations of a handler. *)
Ltac run_ops := repeat progress (autounfold with sensor; autorewrite with run; simpl).
