(* ===== verification/Convert.v ===== *)
(** * Convert: [src/internal/controller/util.go] — Kubernetes to modelsrv

    The pure conversions from CRDs and native objects to modelsrv resources.
    A converter returns [None] where the code returns [nil, uuid.Nil]. *)

From S2P Require Import Prelude.
From S2P Require Import GoStrings.
From S2P Require Import K8s.
From S2P Require Import Lib.
From S2P Require Import Entities.
From S2P Require Import ModelSrv.
From S2P Require Import Registry.

Definition AnnotationComponentID := "componentId.emeland.io".
Definition AnnotationSystemInstanceID := "systemInstanceId.emeland.io".
Definition AnnotationAPIID := "apiId.emeland.io".
Definition AnnotationSystemID := "systemId.emeland.io".
Definition AnnotationRoleSpecID := "emeland.io/k8s-sensor-role-spec-id".
Definition AnnotationSubjectID := "emeland.io/k8s-sensor-subject-id".
Definition AnnotationAPIReference := "emeland.io/k8s-sensor/api-reference".
Definition AnnotationComponentReference := "emeland.io/k8s-sensor/component-reference".
Definition AnnotationContextParent := "emeland.io/k8s-sensor/context-parent".
Definition AnnotationSystemReference := "emeland.io/k8s-sensor/system-reference".

(** ** Dates: [time.Parse("2006-01-02", _)]

    Four, two and two digits; the month must be 1 to 12 and the day exist. *)

Definition digit_value (c : ascii) : option Z :=
  if is_digit c then Some (code c - 48)%Z else None.

(** [n] digits and the rest of the text *)
Fixpoint take_digits (n : nat) (v : Z) (s : string) : option (Z * string) :=
  match n, s with
  | O, _ => Some (v, s)
  | S n, String c s => d ← digit_value c; take_digits n (v * 10 + d)%Z s
  | S _, EmptyString => None
  end.

Definition take_dash (s : string) : option string :=
  match s with String c s => if bool_decide (c = "-"%char) then Some s else None | "" => None end.

Definition isLeap (y : Z) : bool :=
  bool_decide (y mod 4 = 0)%Z && (negb (bool_decide (y mod 100 = 0)%Z) || bool_decide (y mod 400 = 0)%Z).

Definition daysIn (m y : Z) : Z :=
  if bool_decide (m = 2%Z) then (if isLeap y then 29 else 28)%Z
  else if bool_decide (m ∈ [4; 6; 9; 11]%Z) then 30%Z else 31%Z.

Definition valid_date (d : Date) : Prop :=
  (0 <= year d <= 9999 ∧ 1 <= month d <= 12 ∧ 1 <= day d <= daysIn (month d) (year d))%Z.
#[export] Instance valid_date_dec d : Decision (valid_date d).
Proof. unfold valid_date. apply _. Defined.

Definition time_Parse_date (s : string) : option Date :=
  '(y, s) ← take_digits 4 0 s; s ← take_dash s;
  '(m, s) ← take_digits 2 0 s; s ← take_dash s;
  '(d, s) ← take_digits 2 0 s;
  let date := mkDate y m d in
  if bool_decide (s = "") && (1 <=? m)%Z && (m <=? 12)%Z && (1 <=? d)%Z && (d <=? daysIn m y)%Z
  then Some date else None.

Definition parseDate (dateStr : string) : option Date :=
  if bool_decide (dateStr = "") then None else time_Parse_date dateStr.

Definition parseVersion (v : Version) : common_Version :=
  mkCommonVersion (Version_Version v) (parseDate (Version_AvailableFrom v))
    (parseDate (Version_DeprecatedFrom v)) (parseDate (Version_TerminatedFrom v)).

Section convert.
Context {L : Lib}.

Definition parseOptionalUUID (s : string) : uuid :=
  if bool_decide (s = "") then Nil
  else match uuid_Parse s with None => Nil | Some uid => uid end.

(** [annotations[key]] of a missing key is the empty string. *)
Definition annotationUUID (annotations : gmap string string) (key : string) : uuid :=
  parseOptionalUUID (default "" (annotations !! key)).

Definition uuidFromMeta (obj : ObjectMeta) : uuid := parseOptionalUUID (om_UID obj).

Definition resourceID (specID : string) (meta : ObjectMeta) : uuid :=
  let id := parseOptionalUUID specID in
  if bool_decide (id ≠ Nil) then id else uuidFromMeta meta.

(** The second argument, a name/version reference, is ignored. *)
Definition parseSystemRef (sysId : string) (sysRef : option VersionRef) : option uuid :=
  if bool_decide (sysId ≠ "")
  then match uuid_Parse sysId with
       | Some uid => if bool_decide (uid ≠ Nil) then Some uid else None
       | None => None
       end
  else None.

Definition parseAPIRefs (refs : list APIRef) : list ApiRef :=
  omap (λ ref,
    let id := parseOptionalUUID (APIRef_ApiId ref) in
    let vr := APIRef_VersionRef ref in
    if bool_decide (id ≠ Nil) then Some (mkApiRef id None)
    else if bool_decide (APIVersionRef_Name vr ≠ "") && bool_decide (APIVersionRef_Version vr ≠ "")
    then Some (mkApiRef Nil (Some (mkEntityVersion (APIVersionRef_Name vr) (APIVersionRef_Version vr))))
    else None) refs.

(** [for k, v := range src { ann.Add(k, v) }] *)
Definition applyAnnotations (ann src : gmap string string) : gmap string string :=
  map_fold (λ k v ann, <[k := v]> ann) ann src.

Definition IsOwnedByCronJob (obj : ObjectMeta) : bool :=
  existsb (λ kind, bool_decide (kind = "CronJob")) (om_OwnerKinds obj).

Definition convertSystem (sys : SystemCR) : option (System * uuid) :=
  let spec := SystemCR_Spec sys in
  let id := resourceID (SystemSpec_SystemId spec) (SystemCR_Meta sys) in
  if bool_decide (id = Nil) then None
  else Some (mkSystem id (SystemSpec_DisplayName spec) (SystemSpec_Description spec)
               (parseVersion (SystemSpec_Version spec)) (SystemSpec_Abstract spec)
               (applyAnnotations ∅ (om_Annotations (SystemCR_Meta sys))), id).

Definition convertAPI (api : APICR) : option (API * uuid) :=
  let spec := APICR_Spec api in
  let id := resourceID (APISpec_ApiId spec) (APICR_Meta api) in
  if bool_decide (id = Nil) then None
  else Some (mkAPI id (APISpec_DisplayName spec) (APISpec_Description spec)
               (parseVersion (APISpec_Version spec)) (ParseApiType (APISpec_Type spec))
               (parseSystemRef (APISpec_SystemId spec) (Some (APISpec_SystemRef spec)))
               (applyAnnotations ∅ (om_Annotations (APICR_Meta api))), id).

(** [SetConsumes]/[SetProvides] are called for non-empty lists only: an
    absent list is the empty one. *)
Definition convertComponent (comp : ComponentCR) : option (Component * uuid) :=
  let spec := ComponentCR_Spec comp in
  let id := resourceID (ComponentSpec_ComponentId spec) (ComponentCR_Meta comp) in
  if bool_decide (id = Nil) then None
  else Some (mkComponent id (ComponentSpec_DisplayName spec) (ComponentSpec_Description spec)
               (parseVersion (ComponentSpec_Version spec))
               (parseSystemRef (ComponentSpec_SystemId spec) (Some (ComponentSpec_SystemRef spec)))
               (parseAPIRefs (ComponentSpec_Consumes spec)) (parseAPIRefs (ComponentSpec_Provides spec))
               (applyAnnotations ∅ (om_Annotations (ComponentCR_Meta comp))), id).

Definition convertSystemInstance (sysInst : SystemInstanceCR) : option (SystemInstance * uuid) :=
  let spec := SystemInstanceCR_Spec sysInst in
  let id := resourceID (SystemInstanceSpec_InstanceId spec) (SystemInstanceCR_Meta sysInst) in
  if bool_decide (id = Nil) then None
  else Some (mkSystemInstance id (SystemInstanceSpec_DisplayName spec)
               (parseSystemRef (SystemInstanceSpec_SystemId spec) None)
               (applyAnnotations ∅ (om_Annotations (SystemInstanceCR_Meta sysInst))), id).

(** [sensor.K8sNamespaceContextTypeID] *)
Definition K8sNamespaceContextTypeID : uuid := uuid_MustParse "c7e8f9a0-b1c2-4d3e-a4f5-6a7b8c9d0e1f".

Definition convertNamespaceToContext (ns : Object) (clusterContextID : uuid) : option (Context_ * uuid) :=
  let meta := ob_Meta ns in
  let id := uuidFromMeta meta in
  if bool_decide (id = Nil) then None
  else
    let parentID := annotationUUID (om_Annotations meta) AnnotationContextParent in
    let parent :=
      if bool_decide (parentID ≠ Nil) then Some parentID
      else if bool_decide (om_Name meta ≠ "kube-system") && bool_decide (clusterContextID ≠ Nil)
      then Some clusterContextID else None in
    Some (mkContext id (om_Name meta) ("Kubernetes namespace " +:+ om_Name meta)
            K8sNamespaceContextTypeID parent (applyAnnotations ∅ (om_Annotations meta)), id).

(** The first annotation that holds a UUID: new key, then legacy key. *)
Definition annotated_ref (annotations : gmap string string) (key legacy : string) : option uuid :=
  let id := annotationUUID annotations key in
  if bool_decide (id ≠ Nil) then Some id
  else let id := annotationUUID annotations legacy in
       if bool_decide (id ≠ Nil) then Some id else None.

Definition annotated_system_instance (annotations : gmap string string) : option uuid :=
  let siID := annotationUUID annotations AnnotationSystemInstanceID in
  if bool_decide (siID ≠ Nil) then Some siID else None.

Definition componentInstanceFromMeta (obj : ObjectMeta) : option (ComponentInstance * uuid) :=
  let uid := parseOptionalUUID (om_UID obj) in
  if bool_decide (uid = Nil) then None
  else Some (mkComponentInstance uid (om_Name obj)
               (annotated_ref (om_Annotations obj) AnnotationComponentReference AnnotationComponentID)
               (annotated_system_instance (om_Annotations obj))
               (applyAnnotations ∅ (om_Annotations obj)), uid).

Definition apiInstanceFromMeta (obj : ObjectMeta) : option (ApiInstance * uuid) :=
  let uid := parseOptionalUUID (om_UID obj) in
  if bool_decide (uid = Nil) then None
  else Some (mkApiInstance uid (om_Name obj)
               ((λ apiID, mkApiRef apiID None) <$>
                  annotated_ref (om_Annotations obj) AnnotationAPIReference AnnotationAPIID)
               (annotated_system_instance (om_Annotations obj))
               (applyAnnotations ∅ (om_Annotations obj)), uid).

Definition roleFromRBAC (obj : ObjectMeta) : option (Role * uuid) :=
  let uid := parseOptionalUUID (om_UID obj) in
  if bool_decide (uid = Nil) then None
  else
    let specID := annotationUUID (om_Annotations obj) AnnotationRoleSpecID in
    Some (mkRole uid (om_Name obj) (if bool_decide (specID ≠ Nil) then Some specID else None)
            (applyAnnotations ∅ (om_Annotations obj)), uid).

(** The subject a binding gets from its annotation and the K8s subject kind. *)
Definition annotated_subject (annotations : gmap string string) (subjectKind : string) : option SubjectRef :=
  let subjectID := annotationUUID annotations AnnotationSubjectID in
  if bool_decide (subjectID ≠ Nil)
  then if bool_decide (subjectKind = "User") || bool_decide (subjectKind = "ServiceAccount")
       then Some (mkSubjectRef (Some subjectID) None)
       else Some (mkSubjectRef None (Some subjectID))
  else None.

(** The binding [bindingFromRBAC] builds once the name index has answered
    [roleID] for the role key. *)
Definition binding_with_role (obj : ObjectMeta) (subjectKind : string) (uid roleID : uuid) : Binding :=
  mkBinding uid (om_Name obj) (if bool_decide (roleID ≠ Nil) then Some roleID else None)
    (annotated_subject (om_Annotations obj) subjectKind)
    (applyAnnotations ∅ (om_Annotations obj)).

Definition firstSubjectKind (subjects : list string) : string := default "" (head subjects).

Definition roleIndexKey (nn : NamespacedName) : string :=
  if bool_decide (nn_Namespace nn = "") then nn_Name nn
  else nn_Namespace nn +:+ "/" +:+ nn_Name nn.

Definition bindingHasValidSubject {S : ModelSrv} (b : option Binding) : bool :=
  match b with
  | None => false
  | Some b => bool_decide (EffectiveKind (bind_Subject b) ≠ SubjectNone)
  end.
End convert.

(** [parseNamespacedName] of rolebinding_controller.go: split at the first slash. *)
Definition parseNamespacedName (s : string) : NamespacedName :=
  match Cut "/" s with
  | Some (ns, name) => mkNN ns name
  | None => mkNN "" s
  end.

(** ** Dates round-trip *)

Definition digit_char (v : Z) : ascii := ascii_of_N (Z.to_N (48 + v)).

(** The last [n] decimal digits of [v], most significant first. *)
Fixpoint print_digits (n : nat) (v : Z) : string :=
  match n with
  | O => ""
  | S n => String (digit_char ((v / 10 ^ Z.of_nat n) mod 10)) (print_digits n v)
  end.

Definition print_date (d : Date) : string :=
  print_digits 4 (year d) +:+ "-" +:+ print_digits 2 (month d) +:+ "-" +:+ print_digits 2 (day d).

Lemma digit_value_char v : (0 <= v < 10)%Z → digit_value (digit_char v) = Some v.
Proof.
  intros Hv. unfold digit_value, is_digit, digit_char, code.
  rewrite N_ascii_embedding by lia. rewrite Z2N.id by lia.
  rewrite (proj2 (Z.leb_le 48 _)), (proj2 (Z.leb_le _ 57)) by lia. simpl. f_equal. lia.
Qed.

Lemma digit_value_Some c v : digit_value c = Some v ↔ (0 <= v < 10)%Z ∧ c = digit_char v.
Proof.
  split; [|by intros [Hv ->]; apply digit_value_char].
  unfold digit_value. destruct (is_digit c) eqn:E; [|done]. intros [= <-].
  unfold is_digit in E. apply andb_true_iff in E as [E1%Z.leb_le E2%Z.leb_le].
  split; [lia|]. apply code_inj. unfold code, digit_char in *.
  rewrite N_ascii_embedding by lia. lia.
Qed.

Lemma print_digits_shift n m d v :
  (n <= m)%nat → print_digits n (d * 10 ^ Z.of_nat m + v) = print_digits n v.
Proof.
  induction n as [|n IH]; intros Hm; [done|]. simpl. rewrite IH by lia. f_equal. f_equal.
  replace (10 ^ Z.of_nat m)%Z with (10 ^ Z.of_nat (m - S n) * 10 * 10 ^ Z.of_nat n)%Z; last first.
  { replace (Z.of_nat m) with (Z.of_nat (m - S n) + 1 + Z.of_nat n)%Z by lia.
    rewrite !Z.pow_add_r by lia. lia. }
  rewrite !Z.mul_assoc, Z.div_add_l by lia.
  by rewrite Z.add_comm, Z.mod_add by lia.
Qed.

Lemma take_digits_print n a v s :
  (0 <= v < 10 ^ Z.of_nat n)%Z →
  take_digits n a (print_digits n v +:+ s) = Some (a * 10 ^ Z.of_nat n + v, s)%Z.
Proof.
  revert a v. induction n as [|n IH]; intros a v Hv.
  { simpl in *. assert (v = 0)%Z as -> by lia. rewrite string_app_nil_l. do 2 f_equal. lia. }
  simpl. rewrite Nat2Z.inj_succ, Z.pow_succ_r in * by lia.
  assert (0 < 10 ^ Z.of_nat n)%Z as Hpos by (apply Z.pow_pos_nonneg; lia).
  rewrite digit_value_char by (apply Z.mod_pos_bound; lia). simpl.
  set (q := (v / 10 ^ Z.of_nat n)%Z). set (r := (v mod 10 ^ Z.of_nat n)%Z).
  assert (v = q * 10 ^ Z.of_nat n + r)%Z as Hqr by (unfold q, r; rewrite Z.mul_comm; apply Z.div_mod; lia).
  assert (0 <= r < 10 ^ Z.of_nat n)%Z by (apply Z.mod_pos_bound; lia).
  assert (0 <= q < 10)%Z by (unfold q; split; [apply Z.div_pos; lia|apply Z.div_lt_upper_bound; lia]).
  clearbody q r. subst v. rewrite print_digits_shift by lia. rewrite Z.mod_small by lia.
  rewrite IH by lia. f_equal. f_equal. lia.
Qed.

Lemma take_digits_inv n a s r rest :
  take_digits n a s = Some (r, rest) →
  ∃ v, (0 <= v < 10 ^ Z.of_nat n)%Z ∧ r = (a * 10 ^ Z.of_nat n + v)%Z ∧ s = print_digits n v +:+ rest.
Proof.
  revert a s. induction n as [|n IH]; intros a s; cbn [take_digits print_digits].
  - intros [= <- <-]. exists 0%Z. split_and!; [done|done|lia|done].
  - destruct s as [|c s]; [done|]. destruct (digit_value c) as [d|] eqn:Hd; [|done].
    cbn [mbind option_bind].
    intros (v & Hv & -> & ->)%IH. apply digit_value_Some in Hd as [Hd ->].
    assert (0 < 10 ^ Z.of_nat n)%Z as Hpos by (apply Z.pow_pos_nonneg; lia).
    exists (d * 10 ^ Z.of_nat n + v)%Z. rewrite Nat2Z.inj_succ, Z.pow_succ_r by lia.
    split_and!; [nia|nia|lia|]. rewrite print_digits_shift by lia.
    rewrite Z.div_add_l, (Z.div_small v), Z.add_0_r, Z.mod_small by lia. done.
Qed.

Lemma take_dash_Some s r : take_dash s = Some r ↔ s = "-" +:+ r.
Proof.
  destruct s as [|c s]; simpl; [done|]. case_bool_decide as H; subst.
  - rewrite string_app_cons, string_app_nil_l. split; [by intros [= ->]|by intros [= ->]].
  - split; [done|]. rewrite string_app_cons, string_app_nil_l. by intros [= -> _].
Qed.

Lemma take_dash_app r : take_dash ("-" +:+ r) = Some r.
Proof. by apply take_dash_Some. Qed.

Lemma daysIn_range m y : (28 <= daysIn m y <= 31)%Z.
Proof. unfold daysIn. repeat case_match; lia. Qed.

Lemma parseDate_sound s d : parseDate s = Some d → valid_date d ∧ s = print_date d.
Proof.
  unfold parseDate, time_Parse_date, valid_date, print_date.
  case_bool_decide; [done|].
  destruct (take_digits 4 0 s) as [[y s1]|] eqn:E1; cbn [mbind option_bind]; [|done].
  destruct (take_dash s1) as [s2|] eqn:E2; cbn [mbind option_bind]; [|done].
  destruct (take_digits 2 0 s2) as [[m s3]|] eqn:E3; cbn [mbind option_bind]; [|done].
  destruct (take_dash s3) as [s4|] eqn:E4; cbn [mbind option_bind]; [|done].
  destruct (take_digits 2 0 s4) as [[dd s5]|] eqn:E5; cbn [mbind option_bind]; [|done].
  apply take_digits_inv in E1 as (y' & Hy & -> & ->). apply take_dash_Some in E2 as ->.
  apply take_digits_inv in E3 as (m' & Hm & -> & ->). apply take_dash_Some in E4 as ->.
  apply take_digits_inv in E5 as (d' & Hd & -> & ->).
  case_bool_decide as Hs; [|done]. subst s5. rewrite string_app_nil_r. cbn [andb].
  destruct (1 <=? _)%Z eqn:H1; [|done]. destruct (_ <=? 12)%Z eqn:H2; [|done].
  destruct (1 <=? _)%Z eqn:H3 in |- *; [|done]. destruct (_ <=? daysIn _ _)%Z eqn:H4; [|done].
  intros [= <-]. simpl in *. change (10 ^ Z.of_nat 4)%Z with 10000%Z in *.
  change (10 ^ Z.of_nat 2)%Z with 100%Z in *. split; [lia|done].
Qed.

Lemma parseDate_print d : valid_date d → parseDate (print_date d) = Some d.
Proof.
  unfold parseDate, time_Parse_date, valid_date, print_date.
  intros (Hy & Hm & Hd). pose proof (daysIn_range (month d) (year d)).
  rewrite bool_decide_eq_false_2 by done.
  rewrite take_digits_print by (change (10 ^ Z.of_nat 4)%Z with 10000%Z; lia).
  cbn [mbind option_bind]. rewrite take_dash_app. cbn [mbind option_bind].
  rewrite take_digits_print by (change (10 ^ Z.of_nat 2)%Z with 100%Z; lia).
  cbn [mbind option_bind]. rewrite take_dash_app. cbn [mbind option_bind].
  rewrite <- (string_app_nil_r (print_digits 2 (day d))).
  rewrite take_digits_print by (change (10 ^ Z.of_nat 2)%Z with 100%Z; lia).
  cbn [mbind option_bind]. rewrite bool_decide_eq_true_2 by done.
  replace (0 * 10 ^ Z.of_nat 4 + year d)%Z with (year d) by lia.
  replace (0 * 10 ^ Z.of_nat 2 + month d)%Z with (month d) by lia.
  replace (0 * 10 ^ Z.of_nat 2 + day d)%Z with (day d) by lia.
  rewrite !(proj2 (Z.leb_le _ _)) by lia. by destruct d.
Qed.

(** C35. [parseDate] accepts exactly the dates of the calendar written
    YYYY-MM-DD, and reads back the date that is written: it is the inverse of
    the printer. Everything else (the empty string, 30 February, a missing
    leading zero, text behind the day) gives no date. *)
Theorem parseDate_iff s d : parseDate s = Some d ↔ valid_date d ∧ s = print_date d.
Proof. split; [apply parseDate_sound|]. intros [Hd ->]. by apply parseDate_print. Qed.
