(* ===== verification/RefFindings.v ===== *)
(** * RefFindings: [src/internal/controller/reference_findings.go]

    Deterministic findings about references of native resources, and the
    table every reconciler of a referencing resource follows: a missing
    reference, a reference to an unknown resource, a good reference. *)

From S2P Require Import Prelude.
From S2P Require Import Prog.
From S2P Require Import GoStrings.
From S2P Require Import K8s.
From S2P Require Import Lib.
From S2P Require Import Entities.
From S2P Require Import ModelSrv.
From S2P Require Import Registry.
From S2P Require Import RuleRepo.
From S2P Require Import State.
From S2P Require Import Convert.

Definition ReferencedResourceNotFound : string := "ReferencedResourceNotFound".
Definition MissingResourceReference : string := "MissingResourceReference".

Section ref_findings.
Context {L : Lib} {S : ModelSrv}.

Definition findingNamespace : uuid := uuid_MustParse "a1b2c3d4-e5f6-7890-abcd-ef0123456789".

Definition referenceFindingID (subjectID : uuid) (kind : string) : uuid :=
  uuid_NewSHA1 findingNamespace (kind +:+ uuid_bytes subjectID).

Definition notFoundFinding (subjectID : uuid) (subjectType : ResourceType) (targetID : uuid)
    (targetType : ResourceType) (subjectName : string) : Finding :=
  mkFinding (referenceFindingID subjectID ReferencedResourceNotFound)
    ("Referenced resource not found for " +:+ subjectName)
    ("The resource " +:+ subjectName +:+ " references " +:+ uuid_String targetID +:+
     " which is not registered in the local model.")
    (Some (TypeIDForKind ReferencedResourceNotFound))
    [mkResourceRef subjectID subjectType; mkResourceRef targetID targetType] ∅.

Definition missingFinding (subjectID : uuid) (subjectType : ResourceType)
    (subjectName annotationKey : string) : Finding :=
  mkFinding (referenceFindingID subjectID MissingResourceReference)
    ("Missing resource reference on " +:+ subjectName)
    ("The resource " +:+ subjectName +:+ " does not have the " +:+ annotationKey +:+ " annotation set.")
    (Some (TypeIDForKind MissingResourceReference))
    [mkResourceRef subjectID subjectType] ∅.

Definition upsertReferencedResourceNotFound subjectID subjectType targetID targetType subjectName : action unit :=
  _ <- Model_Add (EFinding (notFoundFinding subjectID subjectType targetID targetType subjectName)) ;;
  Ret tt.

Definition upsertMissingResourceReference subjectID subjectType subjectName annotationKey : action unit :=
  _ <- Model_Add (EFinding (missingFinding subjectID subjectType subjectName annotationKey)) ;;
  Ret tt.

Definition deleteReferenceFinding (subjectID : uuid) (kind : string) : action unit :=
  _ <- Model_Delete FFinding (referenceFindingID subjectID kind) ;;
  Ret tt.

(** [RegisterReferenceFindingTypes] stops at the first error. *)
Definition referenceFindingTypes : list FindingType :=
  [ mkFindingType (TypeIDForKind ReferencedResourceNotFound) "ReferencedResourceNotFound"
      "A resource references another resource by UUID that is not registered in the local model.";
    mkFindingType (TypeIDForKind MissingResourceReference) "MissingResourceReference"
      "A resource lacks a required EmELand reference to another resource." ].

(** [for _, t := range types { if err := m.AddFindingType(t.ft); err != nil { return err } }] *)
Fixpoint registerFindingTypes (types : list FindingType) : action (option ModelErr) :=
  match types with
  | [] => Ret None
  | ft :: types =>
      err <- Model_Add (EFindingType ft) ;;
      match err with
      | Some err => Ret (Some err)
      | None => registerFindingTypes types
      end
  end.

Definition RegisterReferenceFindingTypes : action (option ModelErr) :=
  registerFindingTypes referenceFindingTypes.

(** ** The shape shared by the reconcilers of referencing resources

    [refID] is the annotated UUID ([Nil] when there is none) of a resource of
    family [targetFamily]. Each reconciler's own function is an instance. *)
Definition reconcileReference (id : uuid) (subjectType : ResourceType) (subjectName annotationKey : string)
    (refID : uuid) (targetFamily : Family) (targetType : ResourceType) : action unit :=
  if bool_decide (refID = Nil)
  then deleteReferenceFinding id ReferencedResourceNotFound ;;
       upsertMissingResourceReference id subjectType subjectName annotationKey
  else deleteReferenceFinding id MissingResourceReference ;;
       target <- Model_Get targetFamily refID ;;
       match target with
       | None => upsertReferencedResourceNotFound id subjectType refID targetType subjectName
       | Some _ => deleteReferenceFinding id ReferencedResourceNotFound
       end.

(** ** The table of docs/resource-reference-annotations.md *)
Inductive RefStatus := RefAbsent | RefUnknown | RefKnown.

Definition ref_status (refID : uuid) (targetFamily : Family) (w : World) : RefStatus :=
  if bool_decide (refID = Nil) then RefAbsent
  else match get targetFamily refID (w_model w) with None => RefUnknown | Some _ => RefKnown end.

(** The two findings of a subject a status calls for. *)
Definition expected_missing (st : RefStatus) (f : Finding) : option Entity :=
  match st with RefAbsent => Some (EFinding f) | _ => None end.
Definition expected_not_found (st : RefStatus) (f : Finding) : option Entity :=
  match st with RefUnknown => Some (EFinding f) | _ => None end.
End ref_findings.

#[export] Hint Unfold upsertReferencedResourceNotFound upsertMissingResourceReference
  deleteReferenceFinding : sensor.

Section facts.
Context {L : Lib} {S : ModelSrv} {HL : ModelSrvLaws S} {HR : FindingsReliable S}.

(** The finding ids of the two kinds do not collide for this subject (UUID v5
    is a SHA-1 hash; the two inputs differ). *)
Definition kinds_distinct (id : uuid) : Prop :=
  referenceFindingID id ReferencedResourceNotFound ≠ referenceFindingID id MissingResourceReference.

Lemma exec_delete_finding_other id kind w f i :
  (f, i) ≠ (FFinding, referenceFindingID id kind) →
  get f i (w_model (exec (deleteReferenceFinding id kind) w)) = get f i (w_model w).
Proof. intros H. run_ops. by apply del_finding_frame. Qed.

Lemma exec_delete_finding_same id kind w :
  get FFinding (referenceFindingID id kind) (w_model (exec (deleteReferenceFinding id kind) w)) = None.
Proof. run_ops. apply get_del_finding. Qed.

(** Only the model changes, and in it only the two findings of the subject. *)
Lemma reconcileReference_frame id st name key refID tf tt' w f i :
  (f, i) ≠ (FFinding, referenceFindingID id ReferencedResourceNotFound) →
  (f, i) ≠ (FFinding, referenceFindingID id MissingResourceReference) →
  get f i (w_model (exec (reconcileReference id st name key refID tf tt') w)) = get f i (w_model w).
Proof.
  intros H1 H2. unfold reconcileReference. case_bool_decide.
  - run_ops. rewrite add_finding_frame, del_finding_frame; done.
  - run_ops. case_match; run_ops.
    + by rewrite !del_finding_frame.
    + rewrite add_finding_frame, del_finding_frame; done.
Qed.

Lemma reconcileReference_index id st name key refID tf tt' w :
  w_index (exec (reconcileReference id st name key refID tf tt') w) = w_index w.
Proof. unfold reconcileReference. case_bool_decide; run_ops; [done|]. by case_match; run_ops. Qed.

Lemma reconcileReference_only_model id st name key refID tf tt' w :
  ∃ m, exec (reconcileReference id st name key refID tf tt') w = set_model m w.
Proof. unfold reconcileReference. case_bool_decide; run_ops; [by eexists|]. case_match; run_ops; by eexists. Qed.

Lemma reconcileReference_revision id st name key refID tf tt' w :
  w_latestRevision (exec (reconcileReference id st name key refID tf tt') w) = w_latestRevision w.
Proof. by destruct (reconcileReference_only_model id st name key refID tf tt' w) as [m ->]. Qed.

(** The findings of the subject after the reconcile are those of the table,
    whatever they were before. *)
Lemma reconcileReference_table id st name key refID tf tt' w :
  kinds_distinct id → tf ≠ FFinding →
  let w' := exec (reconcileReference id st name key refID tf tt') w in
  let status := ref_status refID tf w in
  finding_at w' (referenceFindingID id MissingResourceReference) =
    expected_missing status (missingFinding id st name key) ∧
  finding_at w' (referenceFindingID id ReferencedResourceNotFound) =
    expected_not_found status (notFoundFinding id st refID tt' name).
Proof.
  intros Hk Htf w' status. subst w' status. unfold finding_at, ref_status, reconcileReference.
  unfold kinds_distinct in Hk. case_bool_decide as Hnil.
  - run_ops. split.
    + apply (get_add_finding (missingFinding id st name key)).
    + rewrite add_finding_frame by (intros [=]; done). apply get_del_finding.
  - run_ops. rewrite del_finding_frame by congruence.
    destruct (get tf refID (w_model w)); run_ops; split.
    + rewrite del_finding_frame by congruence. apply get_del_finding.
    + apply get_del_finding.
    + rewrite add_finding_frame by (intros [=]; congruence). apply get_del_finding.
    + apply (get_add_finding (notFoundFinding id st refID tt' name)).
Qed.

(** A subject never has both findings. *)
Lemma reconcileReference_exclusive id st name key refID tf tt' w :
  kinds_distinct id → tf ≠ FFinding →
  let w' := exec (reconcileReference id st name key refID tf tt') w in
  finding_at w' (referenceFindingID id MissingResourceReference) = None ∨
  finding_at w' (referenceFindingID id ReferencedResourceNotFound) = None.
Proof.
  intros Hk Htf w'. subst w'.
  destruct (reconcileReference_table id st name key refID tf tt' w Hk Htf) as [-> ->].
  destruct (ref_status refID tf w); auto.
Qed.
End facts.
