(* ===== verification/Evaluator.v ===== *)
(** * Evaluator: [src/internal/controller/evaluator.go], [rule_evaluation.go]

    Evaluation of the compiled FindingRules against a reconciled object. CEL
    evaluation and the conversion to an unstructured object are parameters. *)

From S2P Require Import Prelude.
From S2P Require Import Prog.
From S2P Require Import GoStrings.
From S2P Require Import K8s.
From S2P Require Import Lib.
From S2P Require Import Entities.
From S2P Require Import ModelSrv.
From S2P Require Import Registry.
From S2P Require Import RuleRepo.
From S2P Require Import State.
From S2P Require Import Convert.

Section evaluator.
Context {L : Lib} {S : ModelSrv}.

Definition annotationSeverity := "severity".
Definition annotationResourceName := "resourceName".
Definition annotationResourceNamespace := "resourceNamespace".
Definition annotationResourceKind := "resourceKind".

Definition evaluatorFindingNamespace : uuid := uuid_MustParse "bdd8f2ac-5b06-47d4-981b-19850ec2c344".

Definition evaluatorFindingID (ruleName subjectUID : string) : uuid :=
  uuid_NewSHA1 evaluatorFindingNamespace (ruleName +:+ "/" +:+ subjectUID).

Definition modelsrvResourceType (registryKey : string) : ResourceType :=
  if bool_decide (registryKey = "/namespaces") then ContextResource
  else if bool_decide (registryKey ∈ ["/services"; "networking.k8s.io/ingresses"]) then APIInstanceResource
  else if bool_decide (registryKey ∈ ["apps/deployments"; "apps/statefulsets"; "apps/daemonsets";
                                      "batch/cronjobs"; "batch/jobs"]) then ComponentInstanceResource
  else if bool_decide (registryKey = "structure.emeland.io/systems") then SystemResource
  else if bool_decide (registryKey = "structure.emeland.io/apis") then APIResource
  else if bool_decide (registryKey = "structure.emeland.io/components") then ComponentResource
  else if bool_decide (registryKey = "structure.emeland.io/systeminstances") then SystemInstanceResource
  else UnknownResourceType.

(** The id of the type to refer to: [None] when the rule names no valid type.
    An error is returned when the type cannot be stored and is not there. *)
Definition ensureFindingType (meta : FindingTypeSpec) : action (ModelErr + option uuid) :=
  let typeID := parseOptionalUUID (fts_UUID meta) in
  if bool_decide (typeID = Nil) then Ret (inr None)
  else
    existing <- Model_Get FFindingType typeID ;;
    match existing with
    | Some ft => Ret (inr (Some (id_of ft)))
    | None =>
        err <- Model_Add (EFindingType (mkFindingType typeID (fts_DisplayName meta) (fts_Description meta))) ;;
        match err with
        | None => Ret (inr (Some typeID))
        | Some err =>
            existing <- Model_Get FFindingType typeID ;;
            match existing with
            | Some ft => Ret (inr (Some (id_of ft)))
            | None => Ret (inl err)
            end
        end
    end.

(** The subject of the finding, when its UID is a UUID and its type known. *)
Definition finding_subject (uid : string) (subjectResourceType : ResourceType) : list ResourceRef :=
  let subjectID := parseOptionalUUID uid in
  if bool_decide (subjectID ≠ Nil) && bool_decide (subjectResourceType ≠ UnknownResourceType)
  then [mkResourceRef subjectID subjectResourceType] else [].

Definition finding_annotations (rule : CompiledRule) (obj : Unstructured) : gmap string string :=
  applyAnnotations ∅
    (<[annotationSeverity := fs_Severity (cr_Finding rule)]>
     (<[annotationResourceName := u_GetName obj]>
      (<[annotationResourceNamespace := u_GetNamespace obj]>
       {[annotationResourceKind := u_GetKind obj]}))).

Definition buildFinding (rule : CompiledRule) (obj : Unstructured) (subjectResourceType : ResourceType)
    : action (string + Finding) :=
  let uid := u_GetUID obj in
  if bool_decide (uid = "") then Ret (inl "object has no UID")
  else
    ft <- ensureFindingType (fs_Type (cr_Finding rule)) ;;
    match ft with
    | inl _ => Ret (inl "ensure finding type")
    | inr ft =>
        Ret (inr (mkFinding (evaluatorFindingID (cr_Name rule) uid) (fs_DisplayName (cr_Finding rule))
                    (fs_Description (cr_Finding rule)) ft
                    (finding_subject uid subjectResourceType) (finding_annotations rule obj)))
    end.

(** [obj] is nil in no call of the sensor, but the guard is there. *)
Definition EvaluateRule (rule : CompiledRule) (obj : option Unstructured)
    (subjectResourceType : ResourceType) : action (option Err) :=
  match cr_Program rule with
  | None => Ret (Some (EMsg "CEL program is nil"))
  | Some program =>
      match obj with
      | None => Ret (Some (EMsg "object is nil"))
      | Some obj =>
          match cel_Eval program obj with
          | CelErr err => Ret (Some (EMsg ("CEL evaluation failed: " +:+ err)))
          | CelOther ty => Ret (Some (EMsg ("CEL expression must return bool, got " +:+ ty)))
          | CelBool false => Ret None
          | CelBool true =>
              f <- buildFinding rule obj subjectResourceType ;;
              match f with
              | inl err => Ret (Some (EMsg ("build finding: " +:+ err)))
              | inr f =>
                  err <- Model_Add (EFinding f) ;;
                  Ret (option_map EModel err)
              end
          end
      end
  end.

(** [RuleEvaluation.run]: [e] is the resource type key of the evaluation; the
    evaluation, the registry and the evaluator are never nil, as [Wiring] builds
    them. A rule that fails is logged; the others are still evaluated. *)
Definition RuleEvaluation_run (resourceType : string) (obj : RObj) : action unit :=
  rules <- Rules_Get resourceType ;;
  match rules with
  | [] => Ret tt
  | _ :: _ =>
      match ToUnstructured obj with
      | inl _ => Ret tt
      | inr u =>
          for_each rules (λ rule,
            _ <- EvaluateRule rule (Some u) (modelsrvResourceType resourceType) ;; Ret tt)
      end
  end.
End evaluator.

#[global] Arguments RuleEvaluation_run : simpl never.
#[global] Arguments EvaluateRule : simpl never.

(** ** What an evaluation may touch *)

Section facts.
Context {L : Lib} {S : ModelSrv} {HL : ModelSrvLaws S}.

(** Two worlds that agree on everything but the stored findings and finding
    types: what rule evaluation may change. *)
Record same_but_findings (w w' : World) : Prop := {
  sbf_get f i : f ≠ FFinding → f ≠ FFindingType → get f i (w_model w') = get f i (w_model w);
  sbf_index : w_index w' = w_index w;
  sbf_rules : w_rules w' = w_rules w;
  sbf_requeue : w_requeue w' = w_requeue w;
  sbf_revision : w_latestRevision w' = w_latestRevision w;
  sbf_cluster : w_clusterContextID w' = w_clusterContextID w;
  sbf_reporter : w_reporter w' = w_reporter w
}.

Lemma sbf_refl w : same_but_findings w w.
Proof. by split. Qed.
Lemma sbf_trans w1 w2 w3 :
  same_but_findings w1 w2 → same_but_findings w2 w3 → same_but_findings w1 w3.
Proof.
  intros H12 H23. destruct H12, H23. split; [intros f i H1 H2|..].
  1: rewrite sbf_get1 by done; by apply sbf_get0.
  all: by etrans.
Qed.

Lemma sbf_add e w :
  family_of e = FFinding ∨ family_of e = FFindingType →
  same_but_findings w (exec (Model_Add e) w).
Proof.
  intros He. run_ops. split; simpl; try done. intros f i Hf Hft.
  destruct (add e (w_model w)) as [m r] eqn:E. simpl.
  eapply add_frame; [done|by left|]. intros [=]; subst. by destruct He.
Qed.

Lemma sbf_bind {A B} (p : action A) (k : A → action B) w :
  (∀ w, same_but_findings w (exec p w)) → (∀ a w, same_but_findings w (exec (k a) w)) →
  same_but_findings w (exec (bind p k) w).
Proof. intros Hp Hk. rewrite exec_bind. eapply sbf_trans; eauto. Qed.

Lemma sbf_ensureFindingType meta w : same_but_findings w (exec (ensureFindingType meta) w).
Proof.
  unfold ensureFindingType. case_bool_decide; [apply sbf_refl|].
  apply sbf_bind; [intros; apply sbf_refl|]. intros [ft|] w1; [apply sbf_refl|].
  apply sbf_bind; [intros; apply sbf_add; by right|]. intros [err|] w2; [|apply sbf_refl].
  apply sbf_bind; [intros; apply sbf_refl|]. by intros [ft|] w3; apply sbf_refl.
Qed.

Lemma sbf_EvaluateRule rule obj ty w : same_but_findings w (exec (EvaluateRule rule obj ty) w).
Proof.
  unfold EvaluateRule. destruct (cr_Program rule) as [p|], obj as [u|]; try apply sbf_refl.
  destruct (cel_Eval p u) as [|[]|]; try apply sbf_refl.
  apply sbf_bind.
  - intros w1. unfold buildFinding. case_bool_decide; [apply sbf_refl|].
    apply sbf_bind; [apply sbf_ensureFindingType|]. by intros [|] w2; apply sbf_refl.
  - intros [err|f] w1; [apply sbf_refl|].
    apply sbf_bind; [intros; apply sbf_add; by left|]. intros; apply sbf_refl.
Qed.

Lemma sbf_run key obj w : same_but_findings w (exec (RuleEvaluation_run key obj) w).
Proof.
  unfold RuleEvaluation_run. apply sbf_bind; [intros; apply sbf_refl|]. intros rules w1.
  destruct rules as [|r rules]; [apply sbf_refl|].
  destruct (ToUnstructured obj) as [|u]; [apply sbf_refl|].
  apply (exec_for_each_ind same_but_findings).
  - apply sbf_refl.
  - apply sbf_trans.
  - intros x w2 _. apply sbf_bind; [intros; apply sbf_EvaluateRule|intros; apply sbf_refl].
Qed.

(** Evaluating rules stores findings under their own ids only. *)
Definition keeps_finding (i : uuid) (w w' : World) : Prop :=
  w_rules w' = w_rules w ∧ finding_at w' i = finding_at w i.

Lemma keeps_finding_trans i w1 w2 w3 :
  keeps_finding i w1 w2 → keeps_finding i w2 w3 → keeps_finding i w1 w3.
Proof. intros [H1 H2] [H3 H4]. split; by etrans. Qed.

Lemma keeps_finding_bind {A B} i (p : action A) (k : A → action B) w :
  (∀ w, keeps_finding i w (exec p w)) → (∀ a w, keeps_finding i w (exec (k a) w)) →
  keeps_finding i w (exec (bind p k) w).
Proof. intros Hp Hk. rewrite exec_bind. eapply keeps_finding_trans; eauto. Qed.

Lemma keeps_finding_add i e w :
  family_of e = FFinding ∧ id_of e ≠ i ∨ family_of e = FFindingType →
  keeps_finding i w (exec (Model_Add e) w).
Proof.
  intros He. run_ops. split; [done|]. unfold finding_at. simpl.
  destruct (add e (w_model w)) as [m r] eqn:E. simpl.
  eapply add_frame; [done|right; destruct He as [[]|]; auto|].
  intros [=]. destruct He as [[]|]; congruence.
Qed.

Lemma keeps_finding_ensure i meta w : keeps_finding i w (exec (ensureFindingType meta) w).
Proof.
  unfold ensureFindingType. case_bool_decide; [done|].
  apply keeps_finding_bind; [done|]. intros [ft|] w1; [done|].
  apply keeps_finding_bind; [intros; apply keeps_finding_add; by right|].
  intros [err|] w2; [|done].
  apply keeps_finding_bind; [done|]. by intros [ft|] w3.
Qed.

Lemma buildFinding_id rule u ty w f :
  result (buildFinding rule u ty) w = inr f → f_Id f = evaluatorFindingID (cr_Name rule) (u_GetUID u).
Proof.
  unfold buildFinding. case_bool_decide; [done|]. rewrite result_bind.
  case_match; [done|]. by intros [= <-].
Qed.

(** The condition of the rule evaluates to true. *)
Definition fires (rule : CompiledRule) (u : Unstructured) : Prop :=
  ∃ p, cr_Program rule = Some p ∧ cel_Eval p u = CelBool true.

Lemma keeps_finding_EvaluateRule i rule u ty w :
  (fires rule u → evaluatorFindingID (cr_Name rule) (u_GetUID u) ≠ i) →
  keeps_finding i w (exec (EvaluateRule rule (Some u) ty) w).
Proof.
  unfold fires, EvaluateRule. intros Hi. destruct (cr_Program rule) as [p|]; [|done].
  destruct (cel_Eval p u) as [|[]|] eqn:Ep; try done. rewrite exec_bind.
  specialize (Hi (ex_intro _ p (conj eq_refl Ep))).
  assert (keeps_finding i w (exec (buildFinding rule u ty) w)) as Hb.
  { unfold buildFinding. case_bool_decide; [done|].
    apply keeps_finding_bind; [apply keeps_finding_ensure|]. by intros [err|ft] w'. }
  eapply keeps_finding_trans; [done|].
  destruct (result (buildFinding rule u ty) w) as [err|f] eqn:Hf; [done|].
  rewrite exec_bind. apply buildFinding_id in Hf.
  apply keeps_finding_add. left. split; [done|]. simpl. congruence.
Qed.

(** The rules the evaluation would run do not write the finding [i]. *)
Definition rules_avoid (i : uuid) (key : string) (obj : RObj) (w : World) : Prop :=
  ∀ rule u, rule ∈ GetRulesForResource key (w_rules w) → ToUnstructured obj = inr u →
    evaluatorFindingID (cr_Name rule) (u_GetUID u) ≠ i.

(** The loop of an evaluation, when the object converts. *)
Lemma exec_RuleEvaluation key obj u w :
  ToUnstructured obj = inr u →
  exec (RuleEvaluation_run key obj) w =
    exec (for_each (GetRulesForResource key (w_rules w)) (λ rule,
            _ <- EvaluateRule rule (Some u) (modelsrvResourceType key) ;; Ret tt)) w.
Proof.
  intros Hu. unfold RuleEvaluation_run. rewrite exec_bind. run_ops. rewrite Hu. by case_match.
Qed.

(** A finding no firing rule writes stays as it is. *)
Lemma run_keeps_unfired i key obj u w :
  ToUnstructured obj = inr u →
  (∀ rule, rule ∈ GetRulesForResource key (w_rules w) → fires rule u →
     evaluatorFindingID (cr_Name rule) (u_GetUID u) ≠ i) →
  finding_at (exec (RuleEvaluation_run key obj) w) i = finding_at w i.
Proof.
  intros Hu Hav. rewrite (exec_RuleEvaluation key obj u w) by done.
  apply (exec_for_each_ind (keeps_finding i)).
  - done.
  - apply keeps_finding_trans.
  - intros x w' Hx. apply keeps_finding_bind; [|done].
    intros w1. apply keeps_finding_EvaluateRule. by apply Hav.
Qed.

Lemma run_keeps_finding i key obj w :
  rules_avoid i key obj w → finding_at (exec (RuleEvaluation_run key obj) w) i = finding_at w i.
Proof.
  intros Hav. destruct (ToUnstructured obj) as [err|u] eqn:Hu.
  - unfold RuleEvaluation_run. rewrite exec_bind. run_ops. rewrite Hu. by case_match.
  - apply (run_keeps_unfired i key obj u w); [done|]. intros. by apply Hav.
Qed.

(** *** What a firing rule stores *)

(** The finding type a rule refers to. *)
Definition rule_type (rule : CompiledRule) : option uuid :=
  let typeID := parseOptionalUUID (fts_UUID (fs_Type (cr_Finding rule))) in
  if bool_decide (typeID = Nil) then None else Some typeID.

Definition rule_finding (rule : CompiledRule) (u : Unstructured) (ty : ResourceType) : Finding :=
  mkFinding (evaluatorFindingID (cr_Name rule) (u_GetUID u)) (fs_DisplayName (cr_Finding rule))
    (fs_Description (cr_Finding rule)) (rule_type rule) (finding_subject (u_GetUID u) ty)
    (finding_annotations rule u).

(** The finding of the rule is stored, with its type. *)
Definition raised (rule : CompiledRule) (u : Unstructured) (ty : ResourceType) (w : World) : Prop :=
  finding_at w (evaluatorFindingID (cr_Name rule) (u_GetUID u)) = Some (EFinding (rule_finding rule u ty)) ∧
  ∀ t, rule_type rule = Some t → is_Some (get FFindingType t (w_model w)).

Lemma get_add_keeps e m f i :
  accepts (family_of e) → f ≠ FFinding → is_Some (get f i m) → is_Some (get f i (add e m).1).
Proof.
  intros Hacc Hf Hi. destruct (decide ((f, i) = (family_of e, id_of e))) as [[= -> ->]|Hne].
  - rewrite get_accepted by done. by eexists.
  - destruct (add e m) as [m' r] eqn:E. simpl. erewrite add_frame; [done|exact E|by left|done].
Qed.

Lemma ensureFindingType_spec meta w :
  accepts FFindingType →
  let typeID := parseOptionalUUID (fts_UUID meta) in
  let w' := exec (ensureFindingType meta) w in
  result (ensureFindingType meta) w = inr (if bool_decide (typeID = Nil) then None else Some typeID) ∧
  (typeID ≠ Nil → is_Some (get FFindingType typeID (w_model w'))) ∧
  ∀ t, is_Some (get FFindingType t (w_model w)) → is_Some (get FFindingType t (w_model w')).
Proof.
  intros Hacc typeID w'. subst w'. unfold ensureFindingType. fold typeID.
  case_bool_decide as Hn; [done|]. run_ops.
  destruct (get FFindingType typeID (w_model w)) as [ft|] eqn:E; run_ops.
  - destruct (get_family _ _ _ _ E) as [_ ->]. by rewrite E.
  - set (e := EFindingType (mkFindingType typeID (fts_DisplayName meta) (fts_Description meta))).
    rewrite (Hacc e) by done. run_ops. split_and!; [done| |].
    + intros _. change (is_Some (get FFindingType (id_of e) (add e (w_model w)).1)).
      rewrite (get_accepted e) by done. by eexists.
    + intros t Ht. by apply get_add_keeps.
Qed.

Lemma exec_EvaluateRule_fires rule u ty w :
  fires rule u → u_GetUID u ≠ "" → accepts FFindingType →
  exec (EvaluateRule rule (Some u) ty) w =
    exec (Model_Add (EFinding (rule_finding rule u ty)))
      (exec (ensureFindingType (fs_Type (cr_Finding rule))) w).
Proof.
  intros (p & Hp & Hev) Huid Hacc. unfold EvaluateRule. rewrite Hp, Hev. unfold buildFinding.
  rewrite bool_decide_eq_false_2 by done. rewrite exec_bind, result_bind, !exec_bind.
  destruct (ensureFindingType_spec (fs_Type (cr_Finding rule)) w Hacc) as (-> & _). by run_ops.
Qed.

Lemma EvaluateRule_raises rule u ty w :
  fires rule u → u_GetUID u ≠ "" → accepts FFinding → accepts FFindingType →
  raised rule u ty (exec (EvaluateRule rule (Some u) ty) w).
Proof.
  intros Hf Huid Hacc Hacct. rewrite exec_EvaluateRule_fires by done.
  destruct (ensureFindingType_spec (fs_Type (cr_Finding rule)) w Hacct) as (_ & Ht & _).
  set (w1 := exec (ensureFindingType _) w) in *. run_ops. split.
  - apply (get_accepted (EFinding (rule_finding rule u ty))). done.
  - intros t. unfold rule_type. case_bool_decide as Hn; [done|]. intros [= <-].
    apply get_add_keeps; [done|done|]. by apply Ht.
Qed.

(** What one rule raises, the evaluation of the others keeps. *)
Lemma EvaluateRule_keeps_raised rule rule' u ty w :
  accepts FFinding → accepts FFindingType → u_GetUID u ≠ "" →
  (evaluatorFindingID (cr_Name rule') (u_GetUID u) = evaluatorFindingID (cr_Name rule) (u_GetUID u) → rule' = rule) →
  raised rule u ty w → raised rule u ty (exec (EvaluateRule rule' (Some u) ty) w).
Proof.
  intros Hacc Hacct Huid Hinj [Hf Ht].
  destruct (decide (evaluatorFindingID (cr_Name rule') (u_GetUID u) = evaluatorFindingID (cr_Name rule) (u_GetUID u)))
    as [He|Hne].
  - specialize (Hinj He) as ->. unfold EvaluateRule. destruct (cr_Program rule) as [p|] eqn:Hp; [|done].
    destruct (cel_Eval p u) as [|[]|] eqn:Hev; try done.
    pose proof (EvaluateRule_raises rule u ty w) as H. unfold EvaluateRule in H. rewrite Hp, Hev in H.
    apply H; try done. by exists p.
  - split.
    + destruct (keeps_finding_EvaluateRule _ rule' u ty w (λ _, Hne)) as [_ ->]. done.
    + intros t Htt. specialize (Ht t Htt). unfold EvaluateRule.
      destruct (cr_Program rule') as [p|] eqn:Hp; [|done]. destruct (cel_Eval p u) as [|[]|] eqn:Hev; try done.
      pose proof (exec_EvaluateRule_fires rule' u ty w (ex_intro _ p (conj Hp Hev)) Huid Hacct) as H.
      unfold EvaluateRule in H. rewrite Hp, Hev in H. rewrite H. run_ops.
      apply get_add_keeps; [done|done|]. by apply ensureFindingType_spec.
Qed.

(** C16. Evaluating the rules of a resource type on an object stores, for every
    rule whose condition is true, exactly its finding, under an id made of the
    names of the rule and of the object, together with the finding type it
    names; rules that are false or fail change no finding, not even one they
    raised before; and nothing but findings and finding types changes. *)
Theorem RuleEvaluation_run_spec key obj u w :
  ToUnstructured obj = inr u → u_GetUID u ≠ "" → accepts FFinding → accepts FFindingType →
  let rules := GetRulesForResource key (w_rules w) in
  (∀ r1 r2, r1 ∈ rules → r2 ∈ rules →
     evaluatorFindingID (cr_Name r1) (u_GetUID u) = evaluatorFindingID (cr_Name r2) (u_GetUID u) → r1 = r2) →
  let w' := exec (RuleEvaluation_run key obj) w in
  (∀ rule, rule ∈ rules → fires rule u → raised rule u (modelsrvResourceType key) w') ∧
  (∀ i, (∀ rule, rule ∈ rules → fires rule u → evaluatorFindingID (cr_Name rule) (u_GetUID u) ≠ i) →
     finding_at w' i = finding_at w i) ∧
  same_but_findings w w'.
Proof.
  intros Hu Huid Hacc Hacct rules Hinj w'. split_and!.
  - intros rule Hin Hfires. subst w'. rewrite (exec_RuleEvaluation key obj u w) by done. fold rules.
    set (P := raised rule u (modelsrvResourceType key)).
    apply (exec_for_each_establishes_from (λ w1 w2, P w1 → P w2) P _ _ rule); auto.
    + intros y w1 Hy HP. run_ops. apply EvaluateRule_keeps_raised; auto.
    + intros w1 _. run_ops. by apply EvaluateRule_raises.
  - intros i Hi. by apply (run_keeps_unfired i key obj u w).
  - apply sbf_run.
Qed.
End facts.
