(* ===== verification/CrdControllers.v ===== *)
(** * CrdControllers: the reconcilers of the sensor's own CRDs

    [system_controller.go], [api_controller.go], [component_controller.go] and
    [systeminstance_controller.go] of [src/internal/controller]. The four
    [Reconcile] methods are the same code over different types: they are
    instances of [crd_reconcile]. The argument [got] is what the cached client
    returned for the request. *)

From S2P Require Import Prelude.
From S2P Require Import Prog.
From S2P Require Import GoStrings.
From S2P Require Import K8s.
From S2P Require Import Lib.
From S2P Require Import Entities.
From S2P Require Import ModelSrv.
From S2P Require Import Registry.
From S2P Require Import RuleRepo.
From S2P Require Import State.
From S2P Require Import Convert.
From S2P Require Import Evaluator.

Section crd.
Context {L : Lib} {S : ModelSrv}.

Definition crd_reconcile {CR} (convert : CR → option (Entity * uuid)) (family : Family)
    (kind : ResourceKind) (ruleKey : string) (robj : CR → RObj)
    (req : NamespacedName) (got : GetResult CR) : action Outcome :=
  match got with
  | GetOk cr =>
      match convert cr with
      | None => Ret done_ok
      | Some (obj, id) =>
          err <- Model_Add obj ;;
          match err with
          | Some err => Ret (failed (EModel err))
          | None =>
              Index_Put kind (nn_String req) id ;;
              RuleEvaluation_run ruleKey (robj cr) ;;
              Ret done_ok
          end
      end
  | GetNotFound =>
      id <- Index_Delete kind (nn_String req) ;;
      if bool_decide (id = Nil) then Ret done_ok
      else err <- Model_Delete family id ;; Ret (ignore_not_found family err)
  | GetErr err => Ret (failed (EGet err))
  end.

Definition as_entity {X} (inj : X → Entity) (r : option (X * uuid)) : option (Entity * uuid) :=
  '(x, id) ← r; Some (inj x, id).

Definition SystemReconciler_Reconcile : NamespacedName → GetResult SystemCR → action Outcome :=
  crd_reconcile (λ s, as_entity ESystem (convertSystem s)) FSystem KindSystem
    "structure.emeland.io/systems" RSystem.

Definition APIReconciler_Reconcile : NamespacedName → GetResult APICR → action Outcome :=
  crd_reconcile (λ a, as_entity EApi (convertAPI a)) FApi KindAPI
    "structure.emeland.io/apis" RAPI.

Definition ComponentReconciler_Reconcile : NamespacedName → GetResult ComponentCR → action Outcome :=
  crd_reconcile (λ c, as_entity EComponent (convertComponent c)) FComponent KindComponent
    "structure.emeland.io/components" RComponent.

Definition SystemInstanceReconciler_Reconcile : NamespacedName → GetResult SystemInstanceCR → action Outcome :=
  crd_reconcile (λ s, as_entity ESystemInstance (convertSystemInstance s)) FSystemInstance KindSystemInstance
    "structure.emeland.io/systeminstances" RSystemInstance.
Lemma as_entity_inv {X} (inj : X → Entity) r e id :
  as_entity inj r = Some (e, id) → ∃ x, e = inj x.
Proof. destruct r as [[x i]|]; [|done]. intros [= <- <-]. eauto. Qed.
End crd.

(** ** The index through the operations of [State] *)

Section index_facts.
Context {L : Lib} {S : ModelSrv}.

Lemma Get_Put k n id k' n' idx :
  NameIndex_Get k' n' (NameIndex_Put k n id idx) =
    if decide ((k, n) = (k', n')) then id else NameIndex_Get k' n' idx.
Proof.
  unfold NameIndex_Get, NameIndex_Put. simpl. rewrite !get2_at2, at2_put2. by case_decide.
Qed.

Lemma Delete_Put k n id idx :
  NameIndex_Delete k n (NameIndex_Put k n id idx) =
    (id, set_names <[k := delete n (default ∅ (names idx !! k))]> idx).
Proof.
  unfold NameIndex_Delete, NameIndex_Put, put2. simpl.
  rewrite lookup_insert_eq. simpl. rewrite lookup_insert_eq.
  unfold set_names. simpl. by rewrite delete_insert_eq, insert_insert_eq.
Qed.

Lemma Delete_fst k n idx : (NameIndex_Delete k n idx).1 = NameIndex_Get k n idx.
Proof.
  unfold NameIndex_Delete, NameIndex_Get, get2.
  destruct (names idx !! k) as [m|]; [|done]. by destruct (m !! n).
Qed.

Lemma Get_Delete k n k' n' idx :
  NameIndex_Get k' n' (NameIndex_Delete k n idx).2 =
    if decide ((k, n) = (k', n')) then Nil else NameIndex_Get k' n' idx.
Proof.
  unfold NameIndex_Delete, NameIndex_Get. destruct (names idx !! k) as [m|] eqn:Em.
  - destruct (m !! n) as [v|] eqn:En; simpl.
    + rewrite !get2_at2, (at2_delete2 _ _ _ _ _ _ Em). by case_decide.
    + case_decide as H; [|done]. simplify_eq. by rewrite get2_at2; unfold at2; rewrite Em; simpl; rewrite En.
  - simpl. case_decide as H; [|done]. simplify_eq. by rewrite get2_at2; unfold at2; rewrite Em.
Qed.
End index_facts.

(** ** Correctness *)

Section facts.
Context {L : Lib} {S : ModelSrv} {HL : ModelSrvLaws S}.
Context {CR : Type} (convert : CR → option (Entity * uuid)) (family : Family)
  (kind : ResourceKind) (ruleKey : string) (robj : CR → RObj).
Hypothesis convert_ok : ∀ cr e id, convert cr = Some (e, id) →
  family_of e = family ∧ id_of e = id ∧ id ≠ Nil.
Hypothesis family_not_finding : family ≠ FFinding ∧ family ≠ FFindingType.

Abbreviation reconcile := (crd_reconcile convert family kind ruleKey robj).

(** A reconcile that reports success has stored the converted object and
    indexed its id under the name of the request. *)
Lemma crd_found_spec req cr e id w :
  convert cr = Some (e, id) →
  (result (reconcile req (GetOk cr)) w).(out_Err) = None →
  let w' := exec (reconcile req (GetOk cr)) w in
  get family id (w_model w') = Some e ∧
  NameIndex_Get kind (nn_String req) (w_index w') = id.
Proof.
  intros Hc Hok w'. subst w'. destruct (convert_ok _ _ _ Hc) as (Hf & Hid & _).
  unfold crd_reconcile in *. rewrite Hc in *. revert Hok. run_ops.
  destruct (add e (w_model w)) as [m r] eqn:Hadd. destruct r as [err|]; run_ops; [done|].
  intros _. destruct family_not_finding as [Hnf Hnft].
  destruct (sbf_run ruleKey (robj cr)
    (set_index (NameIndex_Put kind (nn_String req) id (w_index w)) (set_model m w)))
    as [Hget Hidx _ _ _ _ _].
  rewrite Hget, Hidx by done. simpl. split.
  - apply add_ok in Hadd. by rewrite Hf, Hid in Hadd.
  - rewrite Get_Put. by rewrite decide_True.
Qed.

(** A deleted object whose delete reports success is gone from the model and
    from the index. *)
Lemma crd_gone_spec req id w :
  NameIndex_Get kind (nn_String req) (w_index w) = id → id ≠ Nil →
  (result (reconcile req GetNotFound) w).(out_Err) = None →
  let w' := exec (reconcile req GetNotFound) w in
  get family id (w_model w') = None ∧
  NameIndex_Get kind (nn_String req) (w_index w') = Nil.
Proof.
  intros Hid Hnil Hok w'. subst w'. unfold crd_reconcile in *. revert Hok. run_ops.
  rewrite Delete_fst, Hid. rewrite bool_decide_eq_false_2 by done. run_ops.
  destruct (del family id (w_model w)) as [m r] eqn:Hdel. simpl. intros Hok.
  rewrite Get_Delete. rewrite decide_True by done. split; [|done].
  eapply del_gone; [done|]. destruct r as [err|]; [|by left]. right. simpl in Hok.
  case_bool_decide; [by subst|done].
Qed.

(** An error of the API client changes nothing and is returned. *)
Lemma crd_get_error req err w :
  run (reconcile req (GetErr err)) w = (failed (EGet err), w).
Proof. done. Qed.

(** An object without a resolvable UUID changes nothing. *)
Lemma crd_no_uuid req cr w :
  convert cr = None → run (reconcile req (GetOk cr)) w = (done_ok, w).
Proof. intros Hc. unfold crd_reconcile. by rewrite Hc. Qed.

(** The store after a reconcile of an existing object: only the id the object
    has now is written. *)
Lemma crd_found_frame req cr e id w f i :
  convert cr = Some (e, id) → f ≠ FFinding → f ≠ FFindingType → (f, i) ≠ (family, id) →
  get f i (w_model (exec (reconcile req (GetOk cr)) w)) = get f i (w_model w).
Proof.
  intros Hc H1 H2 Hne. destruct (convert_ok _ _ _ Hc) as (Hf & Hid & _).
  unfold crd_reconcile. rewrite Hc. run_ops.
  destruct (add e (w_model w)) as [m r] eqn:Hadd.
  assert (get f i m = get f i (w_model w)) as Hm.
  { eapply add_frame; [done|by left|]. by rewrite Hf, Hid. }
  destruct r as [err|]; run_ops; [done|].
  by rewrite (sbf_get _ _ (sbf_run ruleKey (robj cr) _)).
Qed.
(** The store after the reconcile of a deleted object: only the indexed id
    is touched. *)
Lemma crd_gone_frame req w f i :
  f ≠ FFinding → (f, i) ≠ (family, NameIndex_Get kind (nn_String req) (w_index w)) →
  get f i (w_model (exec (reconcile req GetNotFound) w)) = get f i (w_model w).
Proof.
  intros H1 Hne. unfold crd_reconcile. run_ops. rewrite Delete_fst. case_bool_decide; [done|].
  run_ops. destruct (del _ _ _) as [m r] eqn:Hdel. simpl.
  eapply del_frame; [done|by left|done].
Qed.

(** A refused delete has already forgotten the name: the retry does nothing. *)
Lemma crd_delete_lost req id e err w :
  NameIndex_Get kind (nn_String req) (w_index w) = id → id ≠ Nil →
  (del family id (w_model w)).2 = Some err → err ≠ ErrNotFound family →
  get family id (del family id (w_model w)).1 = Some e →
  let p := reconcile req GetNotFound in
  let w1 := exec p w in
  result p w = failed (EModel err) ∧ get family id (w_model w1) = Some e ∧
  result p w1 = done_ok ∧ w_model (exec p w1) = w_model w1.
Proof.
  intros Hid Hnil Hdel Herr Hget p w1.
  assert (run p w = (failed (EModel err), set_model (del family id (w_model w)).1
    (set_index (NameIndex_Delete kind (nn_String req) (w_index w)).2 w))) as Hrun.
  { unfold p, crd_reconcile. rewrite run_pair. run_ops. rewrite Delete_fst, Hid, bool_decide_eq_false_2 by done.
    run_ops. rewrite Hdel. simpl. by rewrite bool_decide_eq_false_2. }
  assert (result p w1 = done_ok ∧ w_model (exec p w1) = w_model w1) as [Hr Hm].
  { assert (NameIndex_Get kind (nn_String req) (w_index w1) = Nil) as Hn.
    { unfold w1, exec. rewrite Hrun. simpl. by rewrite Get_Delete, decide_True. }
    clearbody w1. unfold p, crd_reconcile. run_ops. rewrite Delete_fst, Hn. by rewrite bool_decide_eq_true_2. }
  split_and!; [unfold result; by rewrite Hrun|unfold w1, exec; by rewrite Hrun|done|done].
Qed.

(** When the id of an object changes between two reconciles, the resource
    stored under the first id is never deleted: the index forgets it. *)
Lemma crd_id_change_leaks req cr1 e1 id1 cr2 e2 id2 w :
  convert cr1 = Some (e1, id1) → convert cr2 = Some (e2, id2) → id1 ≠ id2 →
  let w1 := exec (reconcile req (GetOk cr1)) w in
  let w2 := exec (reconcile req (GetOk cr2)) w1 in
  let w3 := exec (reconcile req GetNotFound) w2 in
  (result (reconcile req (GetOk cr1)) w).(out_Err) = None →
  (result (reconcile req (GetOk cr2)) w1).(out_Err) = None →
  get family id1 (w_model w3) = Some e1 ∧
  NameIndex_Get kind (nn_String req) (w_index w3) = Nil.
Proof.
  intros H1 H2 Hne w1 w2 w3 Hok1 Hok2. destruct family_not_finding as [Hnf Hnft].
  destruct (crd_found_spec _ _ _ _ _ H1 Hok1) as [Hg1 _].
  destruct (crd_found_spec _ _ _ _ _ H2 Hok2) as [_ Hi2]. fold w1 in Hg1. fold w2 in Hi2.
  split.
  - unfold w3. rewrite crd_gone_frame; [|done|rewrite Hi2; congruence].
    unfold w2. rewrite (crd_found_frame _ _ _ _ _ _ _ H2); [done|done|done|congruence].
  - unfold w3, crd_reconcile. run_ops. case_bool_decide; run_ops.
    all: rewrite Get_Delete; by rewrite decide_True.
Qed.
End facts.

Section instances.
Context {L : Lib} {S : ModelSrv}.

Lemma convertSystem_ok s e id :
  as_entity ESystem (convertSystem s) = Some (e, id) →
  family_of e = FSystem ∧ id_of e = id ∧ id ≠ Nil.
Proof. unfold convertSystem, as_entity. case_bool_decide; [done|]. by intros [= <- <-]. Qed.
Lemma convertAPI_ok a e id :
  as_entity EApi (convertAPI a) = Some (e, id) → family_of e = FApi ∧ id_of e = id ∧ id ≠ Nil.
Proof. unfold convertAPI, as_entity. case_bool_decide; [done|]. by intros [= <- <-]. Qed.
Lemma convertComponent_ok c e id :
  as_entity EComponent (convertComponent c) = Some (e, id) →
  family_of e = FComponent ∧ id_of e = id ∧ id ≠ Nil.
Proof. unfold convertComponent, as_entity. case_bool_decide; [done|]. by intros [= <- <-]. Qed.
Lemma convertSystemInstance_ok s e id :
  as_entity ESystemInstance (convertSystemInstance s) = Some (e, id) →
  family_of e = FSystemInstance ∧ id_of e = id ∧ id ≠ Nil.
Proof. unfold convertSystemInstance, as_entity. case_bool_decide; [done|]. by intros [= <- <-]. Qed.
End instances.

(** ** The four reconcilers *)

(** [reconcile] keeps the model a mirror of the objects of one CRD: on success,
    an existing object is stored, converted, and indexed by name; a deleted one
    whose id is known is neither stored nor indexed. *)
Definition mirrors {L : Lib} {S : ModelSrv} {CR} (convert : CR → option (Entity * uuid))
    (family : Family) (kind : ResourceKind)
    (reconcile : NamespacedName → GetResult CR → action Outcome) : Prop :=
  (∀ req cr e id w,
     convert cr = Some (e, id) →
     (result (reconcile req (GetOk cr)) w).(out_Err) = None →
     let w' := exec (reconcile req (GetOk cr)) w in
     get family id (w_model w') = Some e ∧ NameIndex_Get kind (nn_String req) (w_index w') = id) ∧
  (∀ req id w,
     NameIndex_Get kind (nn_String req) (w_index w) = id → id ≠ Nil →
     (result (reconcile req GetNotFound) w).(out_Err) = None →
     let w' := exec (reconcile req GetNotFound) w in
     get family id (w_model w') = None ∧ NameIndex_Get kind (nn_String req) (w_index w') = Nil).

Section theorems.
Context {L : Lib} {S : ModelSrv} {HL : ModelSrvLaws S}.

Lemma crd_reconcile_mirrors {CR} (convert : CR → option (Entity * uuid)) family kind key robj :
  (∀ cr e id, convert cr = Some (e, id) → family_of e = family ∧ id_of e = id ∧ id ≠ Nil) →
  family ≠ FFinding ∧ family ≠ FFindingType →
  mirrors convert family kind (crd_reconcile convert family kind key robj).
Proof.
  intros Hc Hf. split.
  - intros. eapply crd_found_spec; eauto.
  - intros. eapply crd_gone_spec; eauto.
Qed.

(** The reconcilers of System, API, Component and SystemInstance CRDs
    mirror their objects: see [mirrors]. *)
Theorem crd_reconcilers_mirror :
  mirrors (λ s, as_entity ESystem (convertSystem s)) FSystem KindSystem SystemReconciler_Reconcile ∧
  mirrors (λ a, as_entity EApi (convertAPI a)) FApi KindAPI APIReconciler_Reconcile ∧
  mirrors (λ c, as_entity EComponent (convertComponent c)) FComponent KindComponent
    ComponentReconciler_Reconcile ∧
  mirrors (λ s, as_entity ESystemInstance (convertSystemInstance s)) FSystemInstance KindSystemInstance
    SystemInstanceReconciler_Reconcile.
Proof.
  split_and!; apply crd_reconcile_mirrors; try done.
  - apply convertSystem_ok.
  - apply convertAPI_ok.
  - apply convertComponent_ok.
  - apply convertSystemInstance_ok.
Qed.

(** A System first stored under its metadata UID and later given a
    [spec.systemId] leaves a stale System behind: after the new id is stored
    and the object deleted, the model still holds the resource under the first
    id and the name index has no entry that could ever delete it. *)
Theorem SystemReconciler_id_change_leaks req cr1 s1 id1 cr2 s2 id2 w :
  convertSystem cr1 = Some (s1, id1) → convertSystem cr2 = Some (s2, id2) → id1 ≠ id2 →
  let w1 := exec (SystemReconciler_Reconcile req (GetOk cr1)) w in
  let w2 := exec (SystemReconciler_Reconcile req (GetOk cr2)) w1 in
  let w3 := exec (SystemReconciler_Reconcile req GetNotFound) w2 in
  (result (SystemReconciler_Reconcile req (GetOk cr1)) w).(out_Err) = None →
  (result (SystemReconciler_Reconcile req (GetOk cr2)) w1).(out_Err) = None →
  get FSystem id1 (w_model w3) = Some (ESystem s1) ∧
  NameIndex_Get KindSystem (nn_String req) (w_index w3) = Nil.
Proof.
  intros H1 H2 Hne. apply (crd_id_change_leaks (λ s, as_entity ESystem (convertSystem s)) FSystem)
    with (e2 := ESystem s2) (id2 := id2); try done.
  - apply convertSystem_ok.
  - by rewrite H1.
  - by rewrite H2.
Qed.
End theorems.
