(* ===== verification/Glob.v ===== *)
(** * Glob: Go's [filepath.Match] on Unix

    The standard-library functions [utf8.DecodeRuneInString],
    [scanChunk], [getEsc], [matchChunk] and [Match] of [path/filepath]. The
    loops take fuel; [Match_terminates] shows that the fuel given is enough.
    The main lemma is [Match_bad_independent]: whether a pattern is malformed
    does not depend on the name it is matched against. *)

From S2P Require Import Prelude.
From S2P Require Import GoStrings.

(** What a function of the matcher gives. *)
Inductive res (A : Type) := Ok (a : A) | ErrBadPattern | OutOfFuel.
Arguments Ok {A} a.
Arguments ErrBadPattern {A}.
Arguments OutOfFuel {A}.

#[export] Instance res_eq_dec {A} `{EqDecision A} : EqDecision (res A).
Proof. solve_decision. Defined.

#[export] Instance res_ret : MRet res := @Ok.
#[export] Instance res_bind : MBind res := λ A B f r,
  match r with Ok a => f a | ErrBadPattern => ErrBadPattern | OutOfFuel => OutOfFuel end.

(** Only how a computation ends. *)
Definition status {A} (r : res A) : res unit :=
  match r with Ok _ => Ok tt | ErrBadPattern => ErrBadPattern | OutOfFuel => OutOfFuel end.

(** ** [utf8.DecodeRuneInString]: the first rune and its width *)

Definition RuneError : Z := 65533.

Definition continuation (lo hi : Z) (c : ascii) : bool := (lo <=? code c)%Z && (code c <=? hi)%Z.

(** The range of the second byte after the lead byte [b]. *)
Definition second_range (b : Z) : Z * Z :=
  if (b =? 224)%Z then (160, 191)%Z else if (b =? 237)%Z then (128, 159)%Z
  else if (b =? 240)%Z then (144, 191)%Z else if (b =? 244)%Z then (128, 143)%Z
  else (128, 191)%Z.

Definition DecodeRune (s : string) : Z * nat :=
  match s with
  | EmptyString => (RuneError, 0)
  | String c0 s1 =>
      let b := code c0 in
      let '(lo, hi) := second_range b in
      if (b <? 128)%Z then (b, 1)
      else if (b <? 194)%Z || (244 <? b)%Z then (RuneError, 1)
      else
        match s1 with
        | EmptyString => (RuneError, 1)
        | String c1 s2 =>
            if negb (continuation lo hi c1) then (RuneError, 1)
            else if (b <? 224)%Z then ((b mod 32 * 64 + code c1 mod 64)%Z, 2)
            else
              match s2 with
              | EmptyString => (RuneError, 1)
              | String c2 s3 =>
                  if negb (continuation 128 191 c2) then (RuneError, 1)
                  else if (b <? 240)%Z
                  then ((b mod 16 * 4096 + code c1 mod 64 * 64 + code c2 mod 64)%Z, 3)
                  else
                    match s3 with
                    | EmptyString => (RuneError, 1)
                    | String c3 _ =>
                        if negb (continuation 128 191 c3) then (RuneError, 1)
                        else ((b mod 8 * 262144 + code c1 mod 64 * 4096 +
                               code c2 mod 64 * 64 + code c3 mod 64)%Z, 4)
                    end
              end
        end
  end.

(** ** The pattern *)

(** [for len(pattern) > 0 && pattern[0] == '*' { pattern = pattern[1:]; star = true }] *)
Fixpoint strip_stars (p : string) : bool * string :=
  match p with
  | String c p' => if bool_decide (c = "*"%char) then (true, (strip_stars p').2) else (false, p)
  | EmptyString => (false, p)
  end.

(** The [Scan] loop: everything up to the next star outside a class. *)
Fixpoint scan_body (inrange : bool) (p : string) : string * string :=
  match p with
  | EmptyString => ("", "")
  | String c p' =>
      if bool_decide (c = "\"%char)
      then match p' with
           | EmptyString => (p, "")
           | String d p'' => let r := scan_body inrange p'' in (String c (String d r.1), r.2)
           end
      else if bool_decide (c = "*"%char) && negb inrange then ("", p)
      else
        let inrange := if bool_decide (c = "["%char) then true
                       else if bool_decide (c = "]"%char) then false else inrange in
        let r := scan_body inrange p' in (String c r.1, r.2)
  end.

Definition scanChunk (p : string) : bool * string * string :=
  let '(star, p) := strip_stars p in let '(chunk, rest) := scan_body false p in (star, chunk, rest).

(** A possibly escaped character of a class, and what follows it. *)
Definition getEsc (chunk : string) : res (Z * string) :=
  match chunk with
  | EmptyString => ErrBadPattern
  | String c chunk' =>
      if bool_decide (c = "-"%char) || bool_decide (c = "]"%char) then ErrBadPattern
      else
        let chunk := if bool_decide (c = "\"%char) then chunk' else chunk in
        if bool_decide (chunk = "") then ErrBadPattern
        else
          let '(r, n) := DecodeRune chunk in
          let nchunk := str_drop n chunk in
          if bool_decide (r = RuneError) && bool_decide (n = 1) then ErrBadPattern
          else if bool_decide (nchunk = "") then ErrBadPattern
          else Ok (r, nchunk)
  end.

(** The loop over the ranges of a class: whether [r] is in one of them. *)
Fixpoint class_loop (fuel : nat) (r : Z) (nrange : nat) (matched : bool) (chunk : string)
    : res (bool * string) :=
  match fuel with
  | O => OutOfFuel
  | S fuel =>
      if HasPrefix chunk "]" && bool_decide (0 < nrange) then Ok (matched, str_drop 1 chunk)
      else
        '(lo, chunk) ← getEsc chunk;
        '(hi, chunk) ← (if HasPrefix chunk "-" then getEsc (str_drop 1 chunk) else Ok (lo, chunk));
        class_loop fuel r (S nrange) (matched || ((lo <=? r)%Z && (r <=? hi)%Z)) chunk
  end.

(** The rest of [s] after [chunk], [None] when [chunk] does not match. *)
Fixpoint matchChunk_loop (fuel : nat) (failed : bool) (chunk s : string) : res (option string) :=
  match fuel with
  | O => OutOfFuel
  | S fuel =>
      match chunk with
      | EmptyString => Ok (if failed then None else Some s)
      | String c chunk' =>
          let failed := failed || bool_decide (s = "") in
          if bool_decide (c = "["%char)
          then
            let '(r, s) := if failed then (0%Z, s)
                           else let '(r, n) := DecodeRune s in (r, str_drop n s) in
            let '(negated, chunk) := if HasPrefix chunk' "^" then (true, str_drop 1 chunk')
                                     else (false, chunk') in
            '(matched, chunk) ← class_loop (S (String.length chunk)) r 0 false chunk;
            matchChunk_loop fuel (failed || eqb matched negated) chunk s
          else if bool_decide (c = "?"%char)
          then
            if failed then matchChunk_loop fuel true chunk' s
            else matchChunk_loop fuel (HasPrefix s "/") chunk' (str_drop (DecodeRune s).2 s)
          else
            match (if bool_decide (c = "\"%char) then chunk' else chunk) with
            | EmptyString => ErrBadPattern
            | String c chunk' =>
                if failed then matchChunk_loop fuel true chunk' s
                else matchChunk_loop fuel (negb (HasPrefix s (String c ""))) chunk' (str_drop 1 s)
            end
      end
  end.

Definition matchChunk (chunk s : string) : res (option string) :=
  matchChunk_loop (S (String.length chunk)) false chunk s.

(** [for i := 0; i < len(name) && name[i] != '/'; i++]: the first later
    position where the chunk matches (the name used up if it is the last). *)
Fixpoint star_loop (last : bool) (chunk name : string) : res (option string) :=
  match name with
  | EmptyString => Ok None
  | String c name' =>
      if bool_decide (c = "/"%char) then Ok None
      else
        t ← matchChunk chunk name';
        match t with
        | Some t => if last && bool_decide (t ≠ "") then star_loop last chunk name' else Ok (Some t)
        | None => star_loop last chunk name'
        end
  end.

(** [for len(pattern) > 0 { _, chunk, pattern = scanChunk(pattern); ... }]: the
    check that the rest of a pattern that does not match is well formed. *)
Fixpoint check_rest (fuel : nat) (pattern : string) : res unit :=
  match pattern with
  | EmptyString => Ok tt
  | _ =>
      match fuel with
      | O => OutOfFuel
      | S fuel =>
          let '(_, chunk, pattern) := scanChunk pattern in
          _ ← matchChunk chunk ""; check_rest fuel pattern
      end
  end.

(** [if ok && (len(t) == 0 || len(pattern) > 0)]: a match of the last chunk
    has to use up the name. *)
Definition usable_match (pattern : string) (t : option string) : option string :=
  match t with
  | Some t => if bool_decide (t = "") || bool_decide (pattern ≠ "") then Some t else None
  | None => None
  end.

Fixpoint Match_loop (fuel : nat) (pattern name : string) : res bool :=
  match pattern with
  | EmptyString => Ok (bool_decide (name = ""))
  | _ =>
      match fuel with
      | O => OutOfFuel
      | S fuel =>
          let '(star, chunk, pattern) := scanChunk pattern in
          if star && bool_decide (chunk = "") then Ok (negb (ContainsByte name "/"))
          else
            t ← matchChunk chunk name;
            u ← match usable_match pattern t with
                | Some t => Ok (Some t)
                | None => if star then star_loop (bool_decide (pattern = "")) chunk name else Ok None
                end;
            match u with
            | Some t => Match_loop fuel pattern t
            | None => _ ← check_rest fuel pattern; Ok false
            end
      end
  end.

Definition filepath_Match (pattern name : string) : res bool :=
  Match_loop (String.length pattern) pattern name.

Example match_star : filepath_Match "system:*" "system:node" = Ok true.
Proof. reflexivity. Qed.
Example match_slash : filepath_Match "system:*" "system:a/b" = Ok false.
Proof. reflexivity. Qed.
Example match_class : filepath_Match "[^a-c]?x*" "dyx12" = Ok true.
Proof. reflexivity. Qed.
Example match_mid : filepath_Match "*-view*er" "kube-viewer-er" = Ok true.
Proof. reflexivity. Qed.
Example match_bad : filepath_Match "a[" "zzz" = ErrBadPattern.
Proof. reflexivity. Qed.
Example match_bad_late : filepath_Match "a*[" "zzz" = ErrBadPattern.
Proof. reflexivity. Qed.
Example match_empty : filepath_Match "" "" = Ok true.
Proof. reflexivity. Qed.
Example match_escape : filepath_Match "a\*" "a*" = Ok true.
Proof. reflexivity. Qed.
Example match_utf8 : filepath_Match "?" "é" = Ok true.
Proof. reflexivity. Qed.

(** ** Whether a pattern is malformed does not depend on the name *)

Lemma status_bind {A B} (r : res A) (f : A → res B) s :
  status r = s → (s = Ok tt → ∀ a, r = Ok a → status (f a) = s) → status (r ≫= f) = s.
Proof. destruct r; simpl; intros <- H; auto. Qed.

Lemma DecodeRune_pos c s : 1 <= (DecodeRune (String c s)).2.
Proof. simpl. repeat case_match; simpl; lia. Qed.

Lemma str_drop_length n s : String.length (str_drop n s) = String.length s - n.
Proof. revert s. induction n as [|n IH]; intros [|c s]; simpl; done. Qed.

#[local] Arguments str_drop : simpl never.

Lemma getEsc_shrinks chunk r rest :
  getEsc chunk = Ok (r, rest) → String.length rest < String.length chunk.
Proof.
  destruct chunk as [|c chunk]; simpl; [done|]. destruct (_ || _); [done|].
  set (chunk' := if bool_decide (c = "\"%char) then chunk else String c chunk).
  assert (String.length chunk' <= S (String.length chunk)) as Hle.
  { unfold chunk'. case_bool_decide; simpl; lia. }
  destruct chunk' as [|d chunk']; [done|]. case_bool_decide; [done|].
  pose proof (DecodeRune_pos d chunk') as Hpos.
  destruct (DecodeRune (String d chunk')) as [r' n]. simpl in Hpos.
  destruct (_ && _); [done|]. case_bool_decide; [done|]. intros [= <- <-].
  rewrite str_drop_length. simpl in *. lia.
Qed.

(** The range read by one iteration of the class loop. *)
Definition class_range (chunk : string) : res (Z * Z * string) :=
  '(lo, chunk) ← getEsc chunk;
  '(hi, chunk) ← (if HasPrefix chunk "-" then getEsc (str_drop 1 chunk) else Ok (lo, chunk));
  Ok (lo, hi, chunk).

Lemma class_loop_S fuel r nrange matched chunk :
  class_loop (S fuel) r nrange matched chunk =
    if HasPrefix chunk "]" && bool_decide (0 < nrange) then Ok (matched, str_drop 1 chunk)
    else '(lo, hi, chunk) ← class_range chunk;
         class_loop fuel r (S nrange) (matched || ((lo <=? r)%Z && (r <=? hi)%Z)) chunk.
Proof.
  cbn [class_loop]. destruct (_ && _); [done|]. unfold class_range.
  destruct (getEsc chunk) as [[lo c1]| |]; simpl; try done.
  destruct (HasPrefix c1 "-"); [|done]. by destruct (getEsc (str_drop 1 c1)) as [[hi c2]| |].
Qed.

#[local] Arguments class_loop : simpl never.

Lemma class_range_shrinks chunk lo hi rest :
  class_range chunk = Ok (lo, hi, rest) → String.length rest < String.length chunk.
Proof.
  unfold class_range. destruct (getEsc chunk) as [[l c1]| |] eqn:E1; simpl; try done.
  apply getEsc_shrinks in E1. destruct (HasPrefix c1 "-"); simpl; [|by intros [= <- <- <-]].
  destruct (getEsc (str_drop 1 c1)) as [[h c2]| |] eqn:E2; simpl; try done.
  apply getEsc_shrinks in E2. rewrite str_drop_length in E2. intros [= <- <- <-]. lia.
Qed.

Lemma class_range_fuel chunk : class_range chunk ≠ OutOfFuel.
Proof.
  assert (∀ c, getEsc c ≠ OutOfFuel) as H.
  { intros [|c s]; [done|]. unfold getEsc. repeat case_match; done. }
  unfold class_range. pose proof (H chunk). destruct (getEsc chunk) as [[l c1]| |]; simpl; try done.
  destruct (HasPrefix c1 "-"); [|done]. pose proof (H (str_drop 1 c1)).
  by destruct (getEsc (str_drop 1 c1)) as [[h c2]| |].
Qed.

Lemma HasPrefix_nonempty s p : p ≠ "" → HasPrefix s p = true → s ≠ "".
Proof.
  intros Hp [t ->]%HasPrefix_spec. destruct p; [done|]. by rewrite string_app_cons.
Qed.

Lemma class_loop_ok fuel r nrange matched chunk :
  String.length chunk < fuel →
  class_loop fuel r nrange matched chunk = ErrBadPattern ∨
  ∃ m rest, class_loop fuel r nrange matched chunk = Ok (m, rest) ∧
            String.length rest < String.length chunk.
Proof.
  revert nrange matched chunk. induction fuel as [|fuel IH]; intros nrange matched chunk Hf; [lia|].
  rewrite class_loop_S. destruct (_ && _) eqn:E.
  - right. do 2 eexists. split; [done|]. apply andb_true_iff in E as [E _].
    apply HasPrefix_nonempty in E; [|done]. rewrite str_drop_length. destruct chunk; [done|]. simpl. lia.
  - pose proof (class_range_fuel chunk). destruct (class_range chunk) as [[[lo hi] c]| |] eqn:Er;
      simpl; [|by left|done].
    apply class_range_shrinks in Er.
    destruct (IH (S nrange) (matched || ((lo <=? r)%Z && (r <=? hi)%Z)) c) as [->|(m & rest & -> & Hl)];
      [lia|by left|]. right. do 2 eexists. split; [done|lia].
Qed.

Lemma class_loop_independent fuel r r' nrange m m' chunk :
  (∃ rest b b', class_loop fuel r nrange m chunk = Ok (b, rest) ∧
                class_loop fuel r' nrange m' chunk = Ok (b', rest)) ∨
  class_loop fuel r nrange m chunk = class_loop fuel r' nrange m' chunk ∧
  status (class_loop fuel r nrange m chunk) ≠ Ok tt.
Proof.
  revert nrange m m' chunk. induction fuel as [|fuel IH]; intros nrange m m' chunk; [by right|].
  rewrite !class_loop_S. destruct (_ && _); [left; eauto|].
  destruct (class_range chunk) as [[[lo hi] c]| |]; [apply IH|by right|by right].
Qed.

Lemma matchChunk_independent fuel failed failed' chunk s s' :
  status (matchChunk_loop fuel failed chunk s) = status (matchChunk_loop fuel failed' chunk s').
Proof.
  revert failed failed' chunk s s'. induction fuel as [|fuel IH]; intros f f' [|c chunk] s s'; try done.
  cbn [matchChunk_loop]. case_bool_decide; [|case_bool_decide].
  - destruct (HasPrefix chunk "^").
    all: repeat match goal with |- context [if ?b then (0%Z, ?x) else ?y] =>
      destruct (if b then (0%Z, x) else y) as [??] end.
    all: match goal with
      |- status (class_loop ?F ?r1 0 false ?ch ≫= _) = status (class_loop _ ?r2 0 false _ ≫= _) =>
        destruct (class_loop_independent F r1 r2 0 false false ch)
          as [(rest & b & b' & -> & ->)|[-> Hst]] end.
    all: simpl; try apply IH.
    all: by destruct (class_loop _ _ _ _ _).
  - destruct (f || _), (f' || _); apply IH.
  - destruct (if bool_decide _ then chunk else _) as [|d chunk']; [done|].
    destruct (f || _), (f' || _); apply IH.
Qed.

Lemma matchChunk_fuel fuel failed chunk s :
  String.length chunk < fuel → matchChunk_loop fuel failed chunk s ≠ OutOfFuel.
Proof.
  revert failed chunk s.
  induction fuel as [|fuel IH]; intros f [|c chunk] s Hl; simpl in Hl; try lia; try done.
  cbn [matchChunk_loop]. case_bool_decide; [|case_bool_decide].
  - destruct (if f || _ then _ else _) as [r s'].
    assert (∃ neg ch, (if HasPrefix chunk "^" then (true, str_drop 1 chunk) else (false, chunk)) = (neg, ch)
      ∧ String.length ch ≤ String.length chunk) as (neg & ch & -> & Hch).
    { destruct (HasPrefix chunk "^"); do 2 eexists; (split; [done|]); rewrite ?str_drop_length; lia. }
    destruct (class_loop_ok (S (String.length ch)) r 0 false ch) as [->|(m & rest & -> & Hr)]; [lia|done|].
    simpl. apply IH. lia.
  - destruct (f || _); apply IH; lia.
  - destruct (if bool_decide _ then chunk else _) as [|d chunk'] eqn:E; [done|].
    assert (String.length chunk' <= String.length chunk).
    { case_bool_decide; [subst; simpl; lia|]. by injection E as -> ->. }
    destruct (f || _); apply IH; lia.
Qed.

Lemma matchChunk_status chunk s : status (matchChunk chunk s) = status (matchChunk chunk "").
Proof. apply matchChunk_independent. Qed.

Lemma matchChunk_terminates chunk s : matchChunk chunk s ≠ OutOfFuel.
Proof. apply matchChunk_fuel. lia. Qed.

Lemma star_loop_status last chunk name :
  status (matchChunk chunk "") = Ok tt → status (star_loop last chunk name) = Ok tt.
Proof.
  intros Hok. induction name as [|c name IH]; [done|]. cbn [star_loop]. case_bool_decide; [done|].
  pose proof (matchChunk_status chunk name) as H2. rewrite Hok in H2.
  destruct (matchChunk chunk name) as [[t|]| |]; simpl in *; try done. by destruct (_ && _).
Qed.

(** ** The loop over the chunks *)

Lemma strip_stars_length p : String.length (strip_stars p).2 + (if (strip_stars p).1 then 1 else 0) <= String.length p.
Proof. induction p as [|c p IH]; simpl; [lia|]. case_bool_decide; simpl; [|lia]. destruct (strip_stars p).1; lia. Qed.

Lemma strip_stars_head p : HasPrefix (strip_stars p).2 "*" = false.
Proof.
  induction p as [|c p IH]; simpl; [done|]. case_bool_decide; simpl; [done|].
  apply not_true_iff_false. intros [t Ht]%HasPrefix_spec. rewrite string_app_cons in Ht. congruence.
Qed.

Lemma scan_body_app inrange p : (scan_body inrange p).1 +:+ (scan_body inrange p).2 = p.
Proof.
  revert inrange. induction (well_founded_ltof _ String.length p) as [p _ IH]; intros inrange.
  unfold ltof in IH.
  destruct p as [|c p]; [done|]. cbn [scan_body]. case_bool_decide.
  - destruct p as [|d p]; [done|]. simpl. rewrite !string_app_cons. do 2 f_equal. apply IH. simpl. lia.
  - destruct (_ && _); [done|]. simpl. rewrite string_app_cons. f_equal. apply IH. simpl. lia.
Qed.

Lemma scan_body_progress c p : c ≠ "*"%char → (scan_body false (String c p)).1 ≠ "".
Proof.
  intros Hc. cbn [scan_body]. case_bool_decide; [by destruct p|].
  by rewrite bool_decide_eq_false_2 by done.
Qed.

(** A non-empty pattern gets shorter, and an empty chunk ends it. *)
Lemma scanChunk_spec p star chunk rest :
  p ≠ "" → scanChunk p = (star, chunk, rest) →
  String.length rest < String.length p ∧ (chunk = "" → rest = "").
Proof.
  intros Hp. unfold scanChunk. pose proof (strip_stars_length p) as Hl.
  pose proof (strip_stars_head p) as Hh. destruct (strip_stars p) as [st q] eqn:E. simpl in *.
  pose proof (scan_body_app false q) as Happ.
  assert (q ≠ "" → (scan_body false q).1 ≠ "") as Hne.
  { destruct q as [|c q]; [done|]. intros _. apply scan_body_progress. intros ->.
    by rewrite HasPrefix_cons in Hh. }
  destruct (scan_body false q) as [a b]. simpl in *. intros [= <- <- <-].
  apply (f_equal String.length) in Happ as Hlen. rewrite string_length_app in Hlen.
  destruct q as [|c q].
  - simpl in *. destruct a, b; simpl in *; try lia. split; [|done].
    destruct p; [done|]. simpl. lia.
  - destruct a as [|d a]; [by destruct Hne|]. simpl in *. split; [lia|done].
Qed.

Lemma check_rest_status fuel p n :
  String.length p <= fuel →
  status (Match_loop fuel p n) = status (check_rest fuel p) ∧ check_rest fuel p ≠ OutOfFuel.
Proof.
  revert p n. induction fuel as [|fuel IH]; intros p n Hl; [by destruct p; simpl in *; [|lia]|].
  destruct (decide (p = "")) as [->|Hp]; [done|].
  destruct (scanChunk p) as [[star chunk] rest] eqn:Es.
  destruct (scanChunk_spec _ _ _ _ Hp Es) as [Hlt Hend].
  assert (String.length rest <= fuel) as Hrest by lia.
  destruct p as [|c p]; [done|]. cbn [Match_loop check_rest]. rewrite Es.
  destruct (star && bool_decide (chunk = "")) eqn:Estar.
  { apply andb_true_iff in Estar as [_ ->%bool_decide_eq_true]. rewrite Hend by done.
    by destruct fuel. }
  pose proof (matchChunk_status chunk n) as Hst. pose proof (matchChunk_terminates chunk "") as Hf.
  pose proof (matchChunk_terminates chunk n).
  destruct (matchChunk chunk n) as [t| |] eqn:Et; [|by destruct (matchChunk chunk "")|done].
  destruct (matchChunk chunk "") as [t0| |] eqn:Et0; try done.
  assert (∀ last, status (star_loop last chunk n) = Ok tt) as Hs.
  { intros. apply star_loop_status. by rewrite Et0. }
  simpl. set (q := match usable_match rest t with Some t => Ok (Some t) | None => _ end).
  assert (status q = Ok tt) as Hu by (unfold q; destruct (usable_match rest t), star; auto).
  destruct q as [[u|]| |]; try done; simpl.
  - by apply IH.
  - destruct (IH rest n Hrest) as [_ Hcr]. by destruct (check_rest fuel rest) as [[]| |].
Qed.

(** [Match] returns: the fuel is enough. *)
Lemma Match_terminates pattern name : filepath_Match pattern name ≠ OutOfFuel.
Proof.
  unfold filepath_Match.
  destruct (check_rest_status (String.length pattern) pattern name) as [Hs Hf]; [done|].
  intros E. rewrite E in Hs. by destruct (check_rest _ pattern) as [[]| |].
Qed.

(** A pattern is malformed for every name or for none. *)
Lemma Match_bad_independent pattern name name' :
  status (filepath_Match pattern name) = status (filepath_Match pattern name').
Proof.
  unfold filepath_Match.
  destruct (check_rest_status (String.length pattern) pattern name) as [-> _]; [done|].
  by destruct (check_rest_status (String.length pattern) pattern name') as [-> _].
Qed.

(** ** What plain patterns match *)

(** A pattern without special characters. *)
Definition literal (p : string) : Prop :=
  Forall (λ c, c ∉ ["*"; "?"; "["; "\"]%char) (chars p).

Lemma HasPrefix_String d s c p :
  HasPrefix (String d s) (String c p) = bool_decide (c = d) && HasPrefix s p.
Proof.
  unfold HasPrefix. simpl. destruct (Ascii.ascii_dec c d) as [->|Hne].
  - by rewrite bool_decide_eq_true_2.
  - by rewrite bool_decide_eq_false_2.
Qed.

Lemma HasPrefix_nil s : HasPrefix s "" = true.
Proof. by destruct s. Qed.

Lemma literal_cons c p :
  literal (String c p) ↔ (c ≠ "*" ∧ c ≠ "?" ∧ c ≠ "[" ∧ c ≠ "\")%char ∧ literal p.
Proof. unfold literal. simpl. rewrite list.Forall_cons. set_solver. Qed.

Lemma scan_literal p rest :
  literal p → rest = "" ∨ HasPrefix rest "*" = true → scan_body false (p +:+ rest) = (p, rest).
Proof.
  intros Hp Hrest. induction p as [|c p IH].
  - rewrite string_app_nil_l. destruct Hrest as [->|[t ->]%HasPrefix_spec]; done.
  - apply literal_cons in Hp as [(H1 & H2 & H3 & H4) Hp]. rewrite string_app_cons. cbn [scan_body].
    rewrite (bool_decide_eq_false_2 _ H4), (bool_decide_eq_false_2 _ H1), (bool_decide_eq_false_2 _ H3).
    cbn [andb]. replace (if bool_decide (c = "]"%char) then false else false) with false by (by case_bool_decide).
    by rewrite IH.
Qed.

Lemma matchChunk_literal p s :
  literal p → matchChunk p s = Ok (if HasPrefix s p then Some (str_drop (String.length p) s) else None).
Proof.
  intros Hp. unfold matchChunk.
  assert (∀ f s, matchChunk_loop (S (String.length p)) f p s =
    Ok (if negb f && HasPrefix s p then Some (str_drop (String.length p) s) else None)) as H; [|apply H].
  clear s. induction p as [|c p IH]; intros f s.
  { rewrite HasPrefix_nil. by destruct f, s. }
  apply literal_cons in Hp as [(H1 & H2 & H3 & H4) Hp].
  change (String.length (String c p)) with (S (String.length p)).
  set (k := S (String.length p)) in *. cbn [matchChunk_loop].
  rewrite (bool_decide_eq_false_2 _ H3), (bool_decide_eq_false_2 _ H2), (bool_decide_eq_false_2 _ H4).
  destruct f; cbn [orb negb andb]; [by rewrite IH|].
  destruct s as [|d s]; cbn [orb negb andb]; [by rewrite IH|].
  rewrite bool_decide_eq_false_2 by done. rewrite IH by done.
  rewrite !HasPrefix_String, HasPrefix_nil, andb_true_r, negb_involutive. done.
Qed.

(** A literal pattern matches itself only. *)
Lemma Match_literal p n : literal p → filepath_Match p n = Ok (bool_decide (n = p)).
Proof.
  intros Hp. destruct p as [|c p]; [done|]. unfold filepath_Match. cbn [String.length].
  assert (scanChunk (String c p) = (false, String c p, "")) as Hs.
  { unfold scanChunk. pose proof (proj1 (literal_cons _ _) Hp) as [(H1 & _) _].
    cbn [strip_stars]. rewrite bool_decide_eq_false_2 by done.
    rewrite <- (string_app_nil_r (String c p)). rewrite scan_literal by auto. by rewrite string_app_nil_r. }
  cbn [Match_loop]. rewrite Hs. cbn [andb]. rewrite matchChunk_literal by done. cbn [mbind res_bind].
  destruct (HasPrefix n (String c p)) eqn:E.
  - apply HasPrefix_spec in E as [t ->]. rewrite str_drop_app. destruct t as [|d t].
    + rewrite string_app_nil_r. simpl. rewrite bool_decide_eq_true_2 by done. by destruct (String.length p).
    + simpl. rewrite bool_decide_eq_false_2; [by destruct (String.length p)|].
      intros H. apply (f_equal String.length) in H. autorewrite with gostr in H. simpl in H.
      autorewrite with gostr in H. simpl in H. lia.
  - simpl. rewrite bool_decide_eq_false_2; [by destruct (String.length p)|].
    intros ->. rewrite <- (string_app_nil_r (String c p)) in E at 1. by rewrite HasPrefix_app in E.
Qed.

(** A literal prefix with a trailing star matches the names that extend the
    prefix without a slash. *)
Lemma Match_prefix_star p n :
  literal p →
  filepath_Match (p +:+ "*") n =
    Ok (HasPrefix n p && negb (ContainsByte (str_drop (String.length p) n) "/")).
Proof.
  intros Hp. destruct p as [|c p].
  { rewrite string_app_nil_l, HasPrefix_nil. by destruct n. }
  unfold filepath_Match. rewrite string_app_cons. cbn [String.length].
  rewrite string_length_app, Nat.add_comm. cbn [String.length Nat.add].
  assert (scanChunk (String c (p +:+ "*")) = (false, String c p, "*")) as Hs.
  { unfold scanChunk. pose proof (proj1 (literal_cons _ _) Hp) as [(H1 & _) _].
    cbn [strip_stars]. rewrite bool_decide_eq_false_2 by done.
    rewrite <- string_app_cons. by rewrite scan_literal by auto. }
  cbn [Match_loop]. rewrite Hs. cbn [andb]. rewrite matchChunk_literal by done. cbn [mbind res_bind].
  destruct (HasPrefix n (String c p)) eqn:E; simpl; [|by destruct (String.length p)].
  by rewrite orb_true_r.
Qed.
