(* ===== verification/GlobLanguage.v ===== *)
(** * GlobLanguage: what the patterns of [filepath.Match] mean

    The grammar of patterns as a relation between texts and tokens, and the
    language of a list of tokens. [filepath_Match_language]: on a name of
    one-byte runes without a slash, the matcher, which never goes back behind
    a chunk it has matched, decides membership in the language. *)

From S2P Require Import Prelude.
From S2P Require Import GoStrings.
From S2P Require Import Glob.

(** ** Tokens and their language *)
Inductive token :=
| TStar
| TAny
| TLit (c : ascii)
| TClass (negated : bool) (ranges : list (Z * Z)).

Definition in_range (r : Z) (lohi : Z * Z) : bool := (lohi.1 <=? r)%Z && (r <=? lohi.2)%Z.

(** The bytes a token other than the star stands for. *)
Definition token_matches (t : token) (c : ascii) : bool :=
  match t with
  | TStar => false
  | TAny => negb (bool_decide (c = "/"%char))
  | TLit d => bool_decide (c = d)
  | TClass negated ranges => xorb negated (existsb (in_range (code c)) ranges)
  end.

Inductive language : list token → string → Prop :=
| L_nil : language [] ""
| L_byte t ts c s : token_matches t c = true → language ts s → language (t :: ts) (String c s)
| L_star_done ts s : language ts s → language (TStar :: ts) s
| L_star_more ts c s : c ≠ "/"%char → language (TStar :: ts) s → language (TStar :: ts) (String c s).

(** ** The grammar *)

(** The ranges of a class, up to its closing bracket. *)
Inductive class_body : string → list (Z * Z) → string → Prop :=
| CB_last s lo hi rest : class_range s = Ok (lo, hi, String "]" rest) → class_body s [(lo, hi)] rest
| CB_more s lo hi s' ranges rest :
    class_range s = Ok (lo, hi, s') → class_body s' ranges rest → class_body s ((lo, hi) :: ranges) rest.

Definition special : list ascii := ["*"; "?"; "["; "\"]%char.

Inductive tokens : string → list token → Prop :=
| T_nil : tokens "" []
| T_star p ts : tokens p ts → tokens (String "*" p) (TStar :: ts)
| T_any p ts : tokens p ts → tokens (String "?" p) (TAny :: ts)
| T_class body ranges p ts :
    HasPrefix body "^" = false → class_body body ranges p → tokens p ts →
    tokens (String "[" body) (TClass false ranges :: ts)
| T_negated body ranges p ts :
    class_body body ranges p → tokens p ts → tokens (String "[" (String "^" body)) (TClass true ranges :: ts)
| T_escaped c p ts : tokens p ts → tokens (String "\" (String c p)) (TLit c :: ts)
| T_plain c p ts : c ∉ special → tokens p ts → tokens (String c p) (TLit c :: ts).

(** A text has one reading. *)
Lemma class_body_det s rs rest rs' rest' :
  class_body s rs rest → class_body s rs' rest' → rs = rs' ∧ rest = rest'.
Proof.
  intros H. revert rs' rest'. induction H as [s lo hi rest E|s lo hi s' rs rest E H IH]; intros rs' rest' H';
    inversion H'; subst; match goal with H : class_range s = _ |- _ => rewrite E in H end; simplify_eq; [done|..].
  1-2: match goal with H : class_body (String "]" _) _ _ |- _ => by inversion H end.
  naive_solver.
Qed.

Lemma tokens_det p ts ts' : tokens p ts → tokens p ts' → ts = ts'.
Proof.
  intros H. revert ts'. induction H; intros ts' H'; inversion H'; simplify_eq; try (by f_equal; auto);
    try (match goal with H : _ ∉ special |- _ => by destruct H; unfold special; set_solver end);
    try (match goal with H : HasPrefix (String "^" _) _ = false |- _ => by rewrite HasPrefix_cons in H end).
  all: match goal with H1 : class_body ?b _ _, H2 : class_body ?b _ _ |- _ =>
    destruct (class_body_det _ _ _ _ _ H1 H2) as [<- <-] end; f_equal; auto.
Qed.

(** ** Texts put together *)

Lemma DecodeRune_app s t r n :
  DecodeRune s = (r, n) → r ≠ RuneError ∨ n ≠ 1 → s ≠ "" →
  DecodeRune (s +:+ t) = (r, n) ∧ n <= String.length s.
Proof.
  intros H Hr Hs. unfold DecodeRune in *.
  repeat (case_match; simplify_eq/=; try (by destruct Hr)); try done; split; try lia; try done.
Qed.

Lemma str_drop_app_le n s t : n <= String.length s → str_drop n (s +:+ t) = str_drop n s +:+ t.
Proof.
  revert s. induction n as [|n IH]; intros [|c s] Hn; simpl in *; try done; [lia|]. apply IH. lia.
Qed.

Lemma string_app_not_nil (s t : string) : s ≠ "" → s +:+ t ≠ "".
Proof. by destruct s. Qed.

#[local] Arguments str_drop : simpl never.

Lemma getEsc_app s t r rest : getEsc s = Ok (r, rest) → rest ≠ "" ∧ getEsc (s +:+ t) = Ok (r, rest +:+ t).
Proof.
  destruct s as [|c s]; [done|]. rewrite string_app_cons. cbn [getEsc]. destruct (_ || _); [done|].
  assert ((if bool_decide (c = "\"%char) then s +:+ t else String c (s +:+ t)) =
          (if bool_decide (c = "\"%char) then s else String c s) +:+ t) as -> by by case_bool_decide.
  set (u := if bool_decide (c = "\"%char) then s else String c s). case_bool_decide as Hu; [done|].
  rewrite bool_decide_eq_false_2 by by apply string_app_not_nil.
  destruct (DecodeRune u) as [r0 n] eqn:E. destruct (_ && _) eqn:Eb; [done|].
  destruct (decide (str_drop n u = "")) as [Hr|Hr]; [by rewrite (bool_decide_eq_true_2 _ Hr)|].
  rewrite (bool_decide_eq_false_2 _ Hr). intros [= -> <-]. split; [done|].
  destruct (DecodeRune_app u t r n E) as [-> Hn]; [|done|].
  - apply andb_false_iff in Eb as [Eb|Eb]; apply bool_decide_eq_false in Eb; auto.
  - rewrite Eb, str_drop_app_le by done. by rewrite bool_decide_eq_false_2 by by apply string_app_not_nil.
Qed.

Lemma HasPrefix_head s t c : s ≠ "" → HasPrefix (s +:+ t) (String c "") = HasPrefix s (String c "").
Proof.
  destruct s as [|d s]; [done|]. intros _. rewrite string_app_cons, !HasPrefix_String, !HasPrefix_nil. done.
Qed.

Lemma class_range_app s t lo hi rest :
  class_range s = Ok (lo, hi, rest) → rest ≠ "" ∧ class_range (s +:+ t) = Ok (lo, hi, rest +:+ t).
Proof.
  unfold class_range. destruct (getEsc s) as [[l c1]| |] eqn:E1; simpl; try done.
  apply (getEsc_app _ t) in E1 as [Hc1 ->]. cbn [mbind res_bind]. rewrite HasPrefix_head by done.
  destruct (HasPrefix c1 "-"); cbn [mbind res_bind]; [|by intros [= -> <- <-]].
  destruct (getEsc (str_drop 1 c1)) as [[h c2]| |] eqn:E2; cbn [mbind res_bind]; try done. intros E; simplify_eq/=.
  apply (getEsc_app _ t) in E2 as [Hc2 E2]. split; [done|].
  rewrite str_drop_app_le by (destruct c1; [done|simpl; lia]). by rewrite E2.
Qed.

Lemma class_body_not_nil s rs rest : class_body s rs rest → s ≠ "".
Proof. by intros H; destruct H as [s lo hi rest E|s lo hi s' rs rest E _]; intros ->. Qed.

Lemma class_body_app s t rs rest : class_body s rs rest → class_body (s +:+ t) rs (rest +:+ t).
Proof.
  induction 1 as [s lo hi rest E|s lo hi s' rs rest E _ IH]; apply (class_range_app _ t) in E as [_ E].
  - by apply CB_last.
  - by eapply CB_more.
Qed.

Lemma tokens_app p q ts us : tokens p ts → tokens q us → tokens (p +:+ q) (ts ++ us).
Proof.
  intros H Hq. induction H; rewrite ?string_app_cons, <- ?app_comm_cons; try by constructor.
  - rewrite string_app_nil_l. done.
  - eapply T_class; [|by apply class_body_app|done]. rewrite HasPrefix_head; [done|]. by eapply class_body_not_nil.
  - eapply T_negated; [by apply class_body_app|done].
Qed.

(** ** Chunks *)

(** The scanner finds no star in [s]. *)
Definition star_free (inrange : bool) (s : string) : Prop := (scan_body inrange s).2 = "".

Lemma scan_star_free inrange p : star_free inrange (scan_body inrange p).1.
Proof.
  unfold star_free. revert inrange. induction (well_founded_ltof _ String.length p) as [p _ IH]; intros inrange.
  unfold ltof in IH. destruct p as [|c p]; [done|]. cbn [scan_body]. case_bool_decide as Hc.
  - destruct p as [|d p]; cbn [fst]; [by subst|]. subst. cbn [scan_body].
    rewrite bool_decide_eq_true_2 by done. cbn [snd]. apply IH. simpl. lia.
  - destruct (_ && _) eqn:E; [done|]. cbn [fst scan_body]. rewrite (bool_decide_eq_false_2 _ Hc), E. cbn [snd].
    apply IH. simpl. lia.
Qed.

Lemma scan_rest inrange p : (scan_body inrange p).2 = "" ∨ ∃ q, (scan_body inrange p).2 = String "*" q.
Proof.
  revert inrange. induction (well_founded_ltof _ String.length p) as [p _ IH]; intros inrange.
  unfold ltof in IH. destruct p as [|c p]; [by left|]. cbn [scan_body]. case_bool_decide.
  - destruct p as [|d p]; [by left|]. apply IH. simpl. lia.
  - destruct (_ && _) eqn:E; [|apply IH; simpl; lia].
    apply andb_true_iff in E as [->%bool_decide_eq_true _]. right. by exists p.
Qed.

Lemma star_free_escape inrange c s : star_free inrange (String "\" (String c s)) → star_free inrange s.
Proof. done. Qed.

Lemma star_free_byte inrange c s :
  c ≠ "\"%char → star_free inrange (String c s) →
  (c = "*"%char → inrange = true) ∧
  star_free (if bool_decide (c = "["%char) then true else if bool_decide (c = "]"%char) then false else inrange) s.
Proof.
  unfold star_free. intros Hc. cbn [scan_body]. rewrite (bool_decide_eq_false_2 _ Hc).
  destruct (_ && _) eqn:E; [done|]. intros H. split; [|done]. intros ->. by destruct inrange.
Qed.

(** A byte inside a class other than its end. *)
Lemma star_free_inside c s :
  c ≠ "\"%char → c ≠ "]"%char → star_free true (String c s) → star_free true s.
Proof.
  intros H1 H2 [_ H]%star_free_byte; [|done]. rewrite (bool_decide_eq_false_2 (c = "]"%char)) in H by done.
  by case_bool_decide.
Qed.

Lemma star_free_continuation lo hi c s :
  (128 <= lo)%Z → continuation lo hi c = true → star_free true (String c s) → star_free true s.
Proof.
  intros Hlo Hc. unfold continuation in Hc. apply andb_true_iff in Hc as [Hc _]. apply Z.leb_le in Hc.
  assert ((128 <=? code c)%Z = true) as H by lia. apply star_free_inside; intros ->; discriminate H.
Qed.

Lemma second_range_low b : (128 <= (second_range b).1)%Z.
Proof. unfold second_range. repeat case_match; simpl; lia. Qed.

Lemma star_free_rune c s : star_free true s → star_free true (str_drop (DecodeRune (String c s)).2 (String c s)).
Proof.
  intros Hs. cbn [DecodeRune]. pose proof (second_range_low (code c)) as Hlo.
  destruct (second_range (code c)) as [lo hi]. simpl in Hlo.
  repeat (case_match; simplify_eq/=; try done);
    repeat match goal with
    | H : negb (continuation _ _ _) = false |- _ => apply negb_false_iff in H
    | H : continuation ?lo ?hi ?c = true, Hs : star_free true (String ?c ?s) |- _ =>
        apply (star_free_continuation lo hi c s ltac:(lia) H) in Hs
    end; done.
Qed.

Lemma star_free_getEsc s r rest : star_free true s → getEsc s = Ok (r, rest) → star_free true rest.
Proof.
  destruct s as [|c s]; [done|]. intros Hs. cbn [getEsc]. destruct (_ || _) eqn:Hc; [done|].
  apply orb_false_iff in Hc as [_ Hc]. apply bool_decide_eq_false in Hc.
  set (v := if bool_decide (c = "\"%char) then s else String c s).
  assert (v = "" ∨ ∃ d u, v = String d u ∧ star_free true u) as [->|(d & u & -> & Hu)].
  { unfold v. destruct (decide (c = "\"%char)) as [->|Hn].
    - rewrite bool_decide_eq_true_2 by done. destruct s as [|d u]; [by left|right; by exists d, u].
    - rewrite (bool_decide_eq_false_2 _ Hn). right. exists c, s. split; [done|by eapply star_free_inside]. }
  - done.
  - rewrite bool_decide_eq_false_2 by done. apply (star_free_rune d) in Hu.
    destruct (DecodeRune (String d u)) as [r0 n]. destruct (_ && _); [done|].
    destruct (bool_decide (str_drop n _ = "")); [done|]. by intros [= _ <-].
Qed.

Lemma star_free_range s lo hi rest : star_free true s → class_range s = Ok (lo, hi, rest) → star_free true rest.
Proof.
  intros Hs. unfold class_range. destruct (getEsc s) as [[l c1]| |] eqn:E1; simpl; try done.
  apply star_free_getEsc in E1; [|done]. destruct (HasPrefix c1 "-") eqn:Hd; simpl; [|by intros [= _ _ <-]].
  apply HasPrefix_spec in Hd as [t ->]. change (str_drop 1 ("-" +:+ t)) with t. change ("-" +:+ t) with (String "-" t) in E1.
  apply star_free_inside in E1; [|done..].
  destruct (getEsc t) as [[h c2]| |] eqn:E2; simpl; try done. intros [= _ _ <-]. by eapply star_free_getEsc.
Qed.

Lemma star_free_class s rs rest : star_free true s → class_body s rs rest → star_free false rest.
Proof.
  intros Hs H. induction H as [s lo hi rest E|s lo hi s' rs rest E _ IH]; apply star_free_range in E; auto.
Qed.

(** The first bytes of a text, one per token. *)
Fixpoint take (ts : list token) (s : string) : option string :=
  match ts, s with
  | [], _ => Some s
  | t :: ts, String c s => if token_matches t c then take ts s else None
  | _ :: _, EmptyString => None
  end.

(** One-byte runes. *)
Definition ascii_name (s : string) : Prop := Forall (λ c, (code c < 128)%Z) (chars s).

Lemma class_loop_body fuel r n m s b rest :
  class_loop fuel r n m s = Ok (b, rest) →
  (0 < n ∧ s = String "]" rest ∧ b = m) ∨ ∃ rs, class_body s rs rest ∧ b = m || existsb (in_range r) rs.
Proof.
  revert n m s. induction fuel as [|fuel IH]; intros n m s; [done|]. rewrite class_loop_S.
  destruct (_ && _) eqn:E.
  - intros [= -> <-]. left. apply andb_true_iff in E as [[t ->]%HasPrefix_spec Hn].
    by apply bool_decide_eq_true in Hn.
  - destruct (class_range s) as [[[lo hi] s']| |] eqn:Er; simpl; [|done..].
    intros [(_ & -> & ->)|(rs & Hb & ->)]%IH; right.
    + exists [(lo, hi)]. split; [by apply CB_last|]. simpl. by rewrite orb_false_r.
    + exists ((lo, hi) :: rs). split; [by eapply CB_more|]. simpl. by rewrite orb_assoc.
Qed.

(** What the matcher reads of a chunk without stars: tokens without stars. *)
Definition starless (ts : list token) : Prop := TStar ∉ ts.

Lemma starless_cons t ts : t ≠ TStar → starless ts → starless (t :: ts).
Proof. unfold starless. set_solver. Qed.

Lemma ascii_name_cons c s : ascii_name (String c s) ↔ (code c < 128)%Z ∧ ascii_name s.
Proof. unfold ascii_name. simpl. by rewrite list.Forall_cons. Qed.

Lemma ascii_name_app s t : ascii_name (s +:+ t) ↔ ascii_name s ∧ ascii_name t.
Proof. unfold ascii_name. by rewrite chars_app, list.Forall_app. Qed.

Lemma DecodeRune_ascii c s : (code c < 128)%Z → DecodeRune (String c s) = (code c, 1).
Proof. intros H. cbn [DecodeRune]. destruct (second_range _). by rewrite (proj2 (Z.ltb_lt _ _) H). Qed.

Lemma class_open chunk :
  star_free true chunk →
  ∃ neg body, (if HasPrefix chunk "^" then (true, str_drop 1 chunk) else (false, chunk)) = (neg, body) ∧
    star_free true body ∧ ∀ rs rest ts, class_body body rs rest → tokens rest ts →
      tokens (String "[" chunk) (TClass neg rs :: ts).
Proof.
  intros Hc. destruct (HasPrefix chunk "^") eqn:Eh; do 2 eexists; (split; [done|]).
  - apply HasPrefix_spec in Eh as [t ->]. change (str_drop 1 ("^" +:+ t)) with t.
    change ("^" +:+ t) with (String "^" t) in *. apply star_free_inside in Hc; [|done..].
    split; [done|]. intros. by eapply T_negated.
  - split; [done|]. intros. by eapply T_class.
Qed.

(** What is left of the name, if the matcher has not failed. *)
Definition remaining (f : bool) (ts : list token) (s : string) : option string := if f then None else take ts s.

Lemma matchChunk_tokens fuel f chunk s o :
  ascii_name s → star_free false chunk → matchChunk_loop fuel f chunk s = Ok o →
  ∃ ts, tokens chunk ts ∧ starless ts ∧ o = remaining f ts s.
Proof.
  revert f chunk s. induction fuel as [|fuel IH]; intros f chunk s Ha Hc; [done|].
  destruct chunk as [|c chunk].
  { intros [= <-]. exists []. split_and!; [constructor|by intros ?%not_elem_of_nil|by destruct f]. }
  assert (∀ t rest f' s', t ≠ TStar → (∀ ts, tokens rest ts → tokens (String c chunk) (t :: ts)) →
    star_free false rest → ascii_name s' → (∀ ts, remaining f' ts s' = remaining f (t :: ts) s) →
    matchChunk_loop fuel f' rest s' = Ok o → ∃ ts, tokens (String c chunk) ts ∧ starless ts ∧ o = remaining f ts s)
    as step.
  { intros t rest f' s' Ht Hts Hrest Ha' Hr (ts & H1 & H2 & ->)%IH; [|done..].
    exists (t :: ts). split_and!; [by apply Hts|by apply starless_cons|done]. }
  assert (∀ d s', s = String d s' → ascii_name s' ∧ DecodeRune s = (code d, 1)) as Hs.
  { intros d s' ->. apply ascii_name_cons in Ha as [Hd Ha]. split; [done|by apply DecodeRune_ascii]. }
  cbn [matchChunk_loop]. case_bool_decide as Hb; [subst c|case_bool_decide as Hq; [subst c|]].
  - apply star_free_byte in Hc as [_ Hc]; [|done]. cbn in Hc.
    set (decoded := if f || bool_decide (s = "") then (0%Z, s) else _).
    assert (decoded = match f, s with false, String d s' => (code d, s') | _, _ => (0%Z, s) end) as ->.
    { unfold decoded. destruct f; [done|]. destruct s as [|d s']; [done|]. by rewrite (proj2 (Hs d s' eq_refl)). }
    destruct (class_open chunk Hc) as (neg & body & -> & Hbody & Hts).
    set (d := match f, s with false, String d s' => (code d, s') | _, _ => (0%Z, s) end).
    assert (ascii_name d.2) as Ha' by (unfold d; destruct f, s; simpl; [done..|by eapply Hs]).
    destruct d as [r s'] eqn:Ed.
    destruct (class_loop _ r 0 false body) as [[m rest]| |] eqn:El; [|done..]. cbn [mbind res_bind].
    apply class_loop_body in El as [(? & _)|(rs & Hrs & ->)]; [lia|].
    apply (step (TClass neg rs)); [done|eauto|by eapply star_free_class|done|].
    intros ts. unfold d in Ed. destruct f; [done|]. destruct s as [|c s]; [done|]. injection Ed as <- <-.
    unfold remaining. simpl. by destruct (existsb _ _), neg.
  - apply star_free_byte in Hc as [_ Hc]; [|done]. cbn in Hc.
    assert (∀ ts, tokens chunk ts → tokens (String "?" chunk) (TAny :: ts)) as Hts by by constructor.
    destruct f; [by apply (step TAny)|]. destruct s as [|d s']; [by apply (step TAny)|].
    destruct (Hs d s' eq_refl) as [Ha' ->]. apply (step TAny); [done..|].
    intros ts. rewrite HasPrefix_String, HasPrefix_nil, andb_true_r. unfold remaining. simpl.
    by destruct (decide (d = "/"%char)) as [->|Hd]; [|rewrite !bool_decide_eq_false_2 by congruence].
  - destruct (if bool_decide (c = "\"%char) then chunk else _) as [|d chunk'] eqn:Ec; [done|].
    assert (star_free false chunk' ∧ ∀ ts, tokens chunk' ts → tokens (String c chunk) (TLit d :: ts)) as [Hc' Hts].
    { case_bool_decide as He; [subst; split; [by eapply star_free_escape|by constructor]|].
      injection Ec as <- <-. apply star_free_byte in Hc as [Hstar Hc]; [|done].
      rewrite (bool_decide_eq_false_2 _ Hb) in Hc. split; [by case_bool_decide|].
      intros ts. apply T_plain. unfold special. intros Hin.
      repeat (apply elem_of_cons in Hin as [->|Hin]; [naive_solver|]). by apply not_elem_of_nil in Hin. }
    destruct f; [by apply (step (TLit d))|]. destruct s as [|e s']; [by apply (step (TLit d))|].
    destruct (Hs e s' eq_refl) as [Ha' _]. apply (step (TLit d)); [done..|].
    intros ts. rewrite HasPrefix_String, HasPrefix_nil, andb_true_r. unfold remaining. simpl.
    by destruct (decide (e = d)) as [->|Hd]; [rewrite !bool_decide_eq_true_2 by done|rewrite !bool_decide_eq_false_2 by congruence].
Qed.

(** ** The language, chunk by chunk *)

Lemma language_take ts us s :
  starless ts → language (ts ++ us) s ↔ ∃ t, take ts s = Some t ∧ language us t.
Proof.
  revert s. induction ts as [|t ts IH]; intros s Hs; [naive_solver|].
  assert (t ≠ TStar ∧ starless ts) as [Ht Hts] by (unfold starless in *; set_solver). split.
  - intros H. inversion H; simplify_eq/=. case_match; [|done]. by apply IH.
  - intros (u & Hu & H). destruct s as [|c s]; [done|]. simpl in *. case_match; [|done].
    apply L_byte; [done|]. apply IH; eauto.
Qed.

Lemma take_suffix ts s t : take ts s = Some t → ∃ u, s = u +:+ t ∧ String.length u = length ts.
Proof.
  revert s. induction ts as [|x ts IH]; intros s; simpl; [intros [= ->]; by exists ""|].
  destruct s as [|c s]; [done|]. case_match; [|done]. intros (u & -> & <-)%IH. by exists (String c u).
Qed.

Definition slashless (s : string) : Prop := "/"%char ∉ chars s.

Lemma slashless_app s t : slashless (s +:+ t) ↔ slashless s ∧ slashless t.
Proof. unfold slashless. rewrite chars_app. set_solver. Qed.

Lemma language_star ts s :
  language (TStar :: ts) s ↔ ∃ u t, s = u +:+ t ∧ slashless u ∧ language ts t.
Proof.
  split.
  - intros H. remember (TStar :: ts) as us eqn:E. induction H; simplify_eq/=.
    + exists "", s. by split_and!; [|unfold slashless; set_solver|].
    + destruct IHlanguage as (u & t & -> & Hu & Ht); [done|]. exists (String c u), t. split_and!; [done| |done].
      unfold slashless in *. simpl. set_solver.
  - intros (u & t & -> & Hu & Ht). induction u as [|c u IH].
    + rewrite string_app_nil_l. by apply L_star_done.
    + rewrite string_app_cons. unfold slashless in *. simpl in Hu. apply L_star_more; [|apply IH]; set_solver.
Qed.

Lemma language_stars n ts s : language (replicate n TStar ++ TStar :: ts) s ↔ language (TStar :: ts) s.
Proof.
  revert s. induction n as [|n IH]; intros s; [done|]. cbn [replicate app]. rewrite language_star. split.
  - intros (u & t & -> & Hu & Ht). apply IH, language_star in Ht as (v & w & -> & Hv & Hw).
    apply language_star. exists (u +:+ v), w. rewrite string_app_assoc, slashless_app. done.
  - intros H. exists "", s. split_and!; [done|unfold slashless; set_solver|by apply IH].
Qed.

Lemma language_nil s : language [] s ↔ s = "".
Proof. split; [by inversion 1|intros ->; constructor]. Qed.

(** A match of a chunk that may be kept: it uses up the name when the chunk is
    the last one, and otherwise a star follows. *)
Definition keepable (us : list token) (t : string) : Prop := match us with [] => t = "" | u :: _ => u = TStar end.

Lemma suffix_of x y s t : x +:+ s = y +:+ t → String.length y <= String.length x → ∃ w, t = w +:+ s.
Proof.
  revert x. induction y as [|c y IH]; intros x.
  - rewrite string_app_nil_l. intros <- _. by exists x.
  - destruct x as [|d x]; simpl; [lia|]. rewrite !string_app_cons. intros [= -> Hx] Hl. apply (IH x); [done|lia].
Qed.

(** The first match of a chunk behind a star is as good as any later one. *)
Lemma language_commit ts us s t :
  starless ts → slashless s → take ts s = Some t → keepable us t →
  language (TStar :: ts ++ us) s ↔ language us t.
Proof.
  intros Hts Hs Ht Hk. split.
  - intros (u & s' & -> & _ & (t' & Ht' & Hl)%language_take)%language_star; [|done].
    destruct us as [|x us]; simpl in Hk; subst; [by apply language_nil|].
    apply take_suffix in Ht as (v & Hv & Hlv). apply take_suffix in Ht' as (v' & -> & Hlv').
    rewrite string_app_assoc in Hv. destruct (suffix_of _ _ _ _ Hv) as [w ->].
    { rewrite string_length_app. lia. }
    rewrite string_app_assoc, Hv, !slashless_app in Hs. destruct Hs as (_ & Hw & _).
    apply language_star in Hl as (a & b & -> & Ha & Hb). apply language_star.
    exists (w +:+ a), b. by rewrite string_app_assoc, slashless_app.
  - intros Hl. apply L_star_done, language_take; eauto.
Qed.

Lemma language_unusable ts us s :
  starless ts → (∀ t, take ts s = Some t → us = [] ∧ t ≠ "") → ¬ language (ts ++ us) s.
Proof.
  intros Hts Hu (t & Ht & Hl)%language_take; [|done]. destruct (Hu t Ht) as [-> Hne]. by apply language_nil in Hl.
Qed.

(** *** The search for a match behind a star *)

(** [us] reads [rest], which starts with a star unless it is empty. *)
Definition reads_rest (rest : string) (us : list token) : Prop :=
  (rest = "" ∧ us = []) ∨ (rest ≠ "" ∧ ∃ us', us = TStar :: us').

Lemma reads_rest_keepable rest us t : reads_rest rest us → t = "" ∨ rest ≠ "" → keepable us t.
Proof. intros [[-> ->]|[? [us' ->]]]; naive_solver. Qed.

Definition after (us : list token) (o : option string) : Prop := from_option (language us) False o.

Lemma matchChunk_suffix chunk s t :
  ascii_name s → star_free false chunk → matchChunk chunk s = Ok (Some t) → ∃ u, s = u +:+ t.
Proof.
  intros Ha Hc (ts & _ & _ & Ht)%matchChunk_tokens; [|done..]. symmetry in Ht.
  apply take_suffix in Ht as (u & -> & _). by exists u.
Qed.

Lemma star_loop_suffix last chunk s t :
  ascii_name s → star_free false chunk → star_loop last chunk s = Ok (Some t) → ∃ u, s = u +:+ t.
Proof.
  intros Ha Hc. induction s as [|c s IH]; [done|]. apply ascii_name_cons in Ha as [_ Ha]. cbn [star_loop].
  destruct (bool_decide _); [done|]. intros H. assert (∃ u, s = u +:+ t) as [u ->]; [|by exists (String c u)].
  destruct (matchChunk chunk s) as [[t'|]| |] eqn:E; simpl in H; try done; [|by apply IH].
  destruct (_ && _); [by apply IH|]. injection H as ->. by eapply matchChunk_suffix.
Qed.

Lemma star_loop_language chunk ts us rest s o :
  tokens chunk ts → starless ts → star_free false chunk → reads_rest rest us → ascii_name s → slashless s →
  ¬ language (ts ++ us) s → star_loop (bool_decide (rest = "")) chunk s = Ok o →
  language (TStar :: ts ++ us) s ↔ after us o.
Proof.
  intros Htok Hts Hc Hr. revert o. induction s as [|c s IH]; intros o Ha Hs Hno.
  { intros [= <-]. simpl. split; [|done]. by inversion 1. }
  assert (c ≠ "/"%char ∧ slashless s) as [Hcs Hs'] by (unfold slashless in *; simpl in Hs; set_solver).
  apply ascii_name_cons in Ha as [_ Ha]. cbn [star_loop]. rewrite bool_decide_eq_false_2 by done.
  assert (language (TStar :: ts ++ us) (String c s) ↔ language (TStar :: ts ++ us) s) as ->.
  { split; [by inversion 1|by apply L_star_more]. }
  destruct (matchChunk chunk s) as [q| |] eqn:E; [|done..]. cbn [mbind res_bind].
  apply matchChunk_tokens in E as (ts' & Htok' & _ & ->); [|done..].
  rewrite <- (tokens_det _ _ _ Htok Htok') in *. simpl.
  destruct (take ts s) as [t|] eqn:Et; [destruct (_ && _) eqn:Eb|].
  - apply andb_true_iff in Eb as [Hl%bool_decide_eq_true Ht%bool_decide_eq_true]. apply IH; [done..|].
    apply language_unusable; [done|]. intros t' Ht'. rewrite Et in Ht'. injection Ht' as <-.
    destruct Hr as [[_ ->]|[? _]]; done.
  - intros [= <-]. apply language_commit; [done..|]. apply (reads_rest_keepable rest); [done|].
    apply andb_false_iff in Eb as [Hl%bool_decide_eq_false|Ht%bool_decide_eq_false]; [by right|left].
    by destruct (decide (t = "")).
  - apply IH; [done..|]. apply language_unusable; [done|]. intros t' Ht'. by rewrite Et in Ht'.
Qed.

(** ** The matcher *)

Lemma strip_stars_tokens p ts :
  tokens (strip_stars p).2 ts →
  ∃ n, tokens p (replicate n TStar ++ (if (strip_stars p).1 then [TStar] else []) ++ ts) ∧
       ((strip_stars p).1 = false → n = 0).
Proof.
  induction p as [|c p IH]; intros H; [by exists 0|]. simpl in *. case_bool_decide as Hc; [|by exists 0].
  subst. simpl in *. destruct (IH H) as (n & Hn & H0). destruct (strip_stars p).1 eqn:E.
  - exists (S n). split; [|done]. by apply T_star.
  - rewrite H0 in Hn by done. exists 0. split; [|done]. by apply T_star.
Qed.

(** How a pattern is made of its first chunk and the rest. *)
Lemma scan_tokens p star chunk rest ts us :
  scanChunk p = (star, chunk, rest) → tokens chunk ts → tokens rest us →
  reads_rest rest us ∧
  ∃ ts', tokens p ts' ∧ ∀ s, language ts' s ↔ language ((if star then [TStar] else []) ++ ts ++ us) s.
Proof.
  unfold scanChunk. pose proof (scan_rest false (strip_stars p).2) as Hr.
  pose proof (scan_body_app false (strip_stars p).2) as Happ. pose proof (strip_stars_tokens p (ts ++ us)) as Hs.
  destruct (strip_stars p) as [st q]. simpl in *. destruct (scan_body false q) as [ch r]. simpl in *.
  intros [= <- <- <-] Hts Hus. split.
  - destruct Hr as [->|[r' ->]]; [left|right]; (split; [done|]); inversion Hus; simplify_eq; eauto.
    all: by match goal with H : _ ∉ special |- _ => destruct H; unfold special; left end.
  - destruct Hs as (n & Hn & H0); [subst q; by apply tokens_app|]. eexists; split; [exact Hn|]. intros s.
    destruct st; [apply (language_stars n)|by rewrite H0].
Qed.

Lemma chunk_star_free p star chunk rest : scanChunk p = (star, chunk, rest) → star_free false chunk.
Proof.
  unfold scanChunk. destruct (strip_stars p) as [st q]. pose proof (scan_star_free false q).
  destruct (scan_body false q). by intros [= _ <- _].
Qed.

Lemma check_rest_tokens fuel p : check_rest fuel p = Ok tt → ∃ ts, tokens p ts.
Proof.
  revert p. induction fuel as [|fuel IH]; intros [|c p]; simpl; try done; try (exists []; constructor).
  destruct (scanChunk (String c p)) as [[star chunk] rest] eqn:Es.
  destruct (matchChunk chunk "") as [o| |] eqn:Em; simpl; try done. intros [us Hus]%IH.
  apply matchChunk_tokens in Em as (ts & Hts & _); [|by apply list.Forall_nil|by eapply chunk_star_free].
  destruct (scan_tokens _ _ _ _ _ _ Es Hts Hus) as [_ (ts' & H & _)]. by exists ts'.
Qed.

(** The first chunk: where the matcher continues, if it does. *)
Lemma first_chunk_language (star : bool) chunk ts us rest s o :
  tokens chunk ts → starless ts → star_free false chunk → reads_rest rest us → ascii_name s → slashless s →
  match usable_match rest (take ts s) with
  | Some t => Ok (Some t)
  | None => if star then star_loop (bool_decide (rest = "")) chunk s else Ok None
  end = Ok o →
  language ((if star then [TStar] else []) ++ ts ++ us) s ↔ after us o.
Proof.
  intros Htok Hts Hc Hr Ha Hs. destruct (usable_match rest (take ts s)) as [t|] eqn:Eu.
  - intros [= <-]. unfold usable_match in Eu. destruct (take ts s) as [t'|] eqn:Et; [|done].
    destruct (_ || _) eqn:Ek; [|done]. injection Eu as ->.
    apply orb_true_iff in Ek. rewrite !bool_decide_eq_true in Ek.
    destruct star; cbn [app]; [apply language_commit; [done..|by apply (reads_rest_keepable rest)]|].
    simpl. rewrite language_take by done. rewrite Et. naive_solver.
  - assert (¬ language (ts ++ us) s) as Hno.
    { apply language_unusable; [done|]. intros t Ht. rewrite Ht in Eu. unfold usable_match in Eu.
      destruct (_ || _) eqn:Ek; [done|]. apply orb_false_iff in Ek.
      rewrite !bool_decide_eq_false in Ek. destruct Hr as [[_ ->]|[? _]]; naive_solver. }
    destruct star; cbn [app]; [by apply star_loop_language|]. intros [= <-]. simpl. naive_solver.
Qed.

Lemma Match_loop_language fuel p s b :
  ascii_name s → slashless s → Match_loop fuel p s = Ok b → ∃ ts, tokens p ts ∧ (b = true ↔ language ts s).
Proof.
  revert p s. induction fuel as [|fuel IH]; intros [|c p] s Ha Hs; try done.
  1-2: intros [= <-]; exists []; split; [constructor|]; by rewrite bool_decide_eq_true, language_nil.
  cbn [Match_loop]. destruct (scanChunk (String c p)) as [[star chunk] rest] eqn:Es.
  destruct (star && bool_decide (chunk = "")) eqn:Estar.
  { apply andb_true_iff in Estar as [-> ->%bool_decide_eq_true]. intros [= <-].
    destruct (scanChunk_spec (String c p) true "" rest) as [_ Hend]; [done|exact Es|]. rewrite Hend in Es by done.
    destruct (scan_tokens _ _ _ _ [] [] Es T_nil T_nil) as [_ (ts & Hts & Hl)]. exists ts. split; [done|].
    rewrite Hl. unfold ContainsByte. rewrite bool_decide_eq_false_2 by done. split; [|done]. intros _.
    apply language_star. exists s, "". rewrite string_app_nil_r. split_and!; [done..|constructor]. }
  destruct (matchChunk chunk s) as [q| |] eqn:Em; [|done..]. cbn [mbind res_bind].
  pose proof (chunk_star_free _ _ _ _ Es) as Hc.
  apply matchChunk_tokens in Em as (ts & Hts & Hsl & ->); [|done..]. unfold remaining.
  match goal with |- ?q ≫= _ = _ → _ => destruct q as [o| |] eqn:Eo end; [|done..].
  cbn [mbind res_bind].
  assert (∀ us, tokens rest us → (b = true ↔ after us o) → ∃ ts, tokens (String c p) ts ∧ (b = true ↔ language ts s))
    as Hdone.
  { intros us Hus Hb. destruct (scan_tokens _ _ _ _ _ _ Es Hts Hus) as [Hr (ts' & Hp & Hl)].
    exists ts'. split; [done|]. by rewrite Hb, Hl, (first_chunk_language star chunk ts us rest s o). }
  destruct o as [t|].
  - intros HM. assert (∃ u, s = u +:+ t) as [u ->].
    { destruct (usable_match _ _) as [t'|] eqn:Eu; [|destruct star; [by eapply star_loop_suffix|done]].
      injection Eo as ->. unfold usable_match in Eu. destruct (take ts s) as [t'|] eqn:Et; [|done].
      destruct (_ || _); [|done]. injection Eu as ->. apply take_suffix in Et as (u & -> & _). by exists u. }
    apply ascii_name_app in Ha as [_ Ha]. apply slashless_app in Hs as [_ Hs].
    destruct (IH rest t Ha Hs HM) as (us & Hus & Hb). by apply (Hdone us).
  - destruct (check_rest fuel rest) as [[]| |] eqn:Ec; [|done..]. intros [= <-].
    apply check_rest_tokens in Ec as [us Hus]. by apply (Hdone us).
Qed.

(** On a name of one-byte runes without a slash the matcher decides membership
    in the language of the pattern; a pattern it does not reject has a reading. *)
Lemma filepath_Match_language p s b :
  ascii_name s → slashless s → filepath_Match p s = Ok b → ∃ ts, tokens p ts ∧ (b = true ↔ language ts s).
Proof. apply Match_loop_language. Qed.

(** With a slash it may miss a match, because it never goes back: behind the
    star the class first matches the "a", and no star spans the slash. *)
Example match_gives_up :
  filepath_Match "*[/a]*b" "xa/b" = Ok false ∧
  language [TStar; TClass false [(47, 47); (97, 97)]%Z; TStar; TLit "b"] "xa/b".
Proof.
  split; [reflexivity|]. do 2 (apply L_star_more; [done|]). apply L_star_done, L_byte; [done|].
  apply L_star_done, L_byte; [done|constructor].
Qed.
