(* ===== verification/Whitelist.v ===== *)
(** * Whitelist: [src/internal/controller/rbac_whitelist.go]

    The patterns of RBAC names that raise no finding. Reading the file and
    parsing YAML are parameters; matching is [filepath.Match] of [Glob]. *)

From S2P Require Import Prelude.
From S2P Require Import GoStrings.
From S2P Require Import Glob.
From S2P Require Import GlobLanguage.

Record RBACWhitelist := mkRBACWhitelist {
  wl_Roles : list string;
  wl_ClusterRoles : list string;
  wl_RoleBindings : list string;
  wl_ClusterRoleBindings : list string
}.

(** The zero value: no pattern. *)
Definition emptyWhitelist : RBACWhitelist := mkRBACWhitelist [] [] [] [].

(** The [switch kind] of [IsWhitelisted]; [None] is its default branch. *)
Definition whitelist_patterns (wl : RBACWhitelist) (kind : string) : option (list string) :=
  if bool_decide (kind = "Role") then Some (wl_Roles wl)
  else if bool_decide (kind = "ClusterRole") then Some (wl_ClusterRoles wl)
  else if bool_decide (kind = "RoleBinding") then Some (wl_RoleBindings wl)
  else if bool_decide (kind = "ClusterRoleBinding") then Some (wl_ClusterRoleBindings wl)
  else None.

(** [matched, _ := filepath.Match(pattern, name)]: false with an error. *)
Definition matched (pattern name : string) : bool :=
  match filepath_Match pattern name with Ok b => b | _ => false end.

Fixpoint any_match (patterns : list string) (name : string) : bool :=
  match patterns with
  | [] => false
  | pattern :: patterns => if matched pattern name then true else any_match patterns name
  end.

(** The pointer may be nil. *)
Definition IsWhitelisted (wl : option RBACWhitelist) (kind name : string) : bool :=
  match wl with
  | None => false
  | Some wl =>
      match whitelist_patterns wl kind with
      | None => false
      | Some patterns => any_match patterns name
      end
  end.

Inductive WhitelistErr :=
| ReadFileErr (msg : string)
| UnmarshalErr (msg : string)
| InvalidPattern (field pattern : string).

Fixpoint validate_patterns (field : string) (patterns : list string) : option WhitelistErr :=
  match patterns with
  | [] => None
  | p :: patterns =>
      match filepath_Match p "" with
      | Ok _ => validate_patterns field patterns
      | _ => Some (InvalidPattern field p)
      end
  end.

Fixpoint validate_fields (all : list (string * list string)) : option WhitelistErr :=
  match all with
  | [] => None
  | (field, patterns) :: all =>
      match validate_patterns field patterns with
      | Some err => Some err
      | None => validate_fields all
      end
  end.

Definition validate (wl : RBACWhitelist) : option WhitelistErr :=
  validate_fields
    [("roles", wl_Roles wl); ("clusterRoles", wl_ClusterRoles wl);
     ("roleBindings", wl_RoleBindings wl); ("clusterRoleBindings", wl_ClusterRoleBindings wl)].

(** [ReadFile] is [os.ReadFile], [Unmarshal] is [yaml.Unmarshal] into the struct. *)
Definition LoadRBACWhitelist (ReadFile : string → string + string)
    (Unmarshal : string → string + RBACWhitelist) (path : string) : WhitelistErr + RBACWhitelist :=
  if bool_decide (path = "") then inr emptyWhitelist
  else
    match ReadFile path with
    | inl err => inl (ReadFileErr err)
    | inr data =>
        match Unmarshal data with
        | inl err => inl (UnmarshalErr err)
        | inr wl =>
            match validate wl with
            | Some err => inl err
            | None => inr wl
            end
        end
    end.

(** ** Correctness *)

Lemma any_match_spec patterns name :
  any_match patterns name = true ↔ ∃ p, p ∈ patterns ∧ filepath_Match p name = Ok true.
Proof.
  induction patterns as [|p ps IH]; simpl; [set_solver|]. unfold matched.
  split.
  - destruct (filepath_Match p name) as [[]| |] eqn:E; [by exists p; split; [left|]|..].
    all: intros (q & Hq & HE)%IH; exists q; split; [by right|done].
  - intros (q & [->|Hq]%elem_of_cons & HE); [by rewrite HE|].
    assert (any_match ps name = true) as -> by (apply IH; eauto). by case_match.
Qed.

Lemma validate_patterns_None field patterns :
  validate_patterns field patterns = None ↔ Forall (λ p, status (filepath_Match p "") = Ok tt) patterns.
Proof.
  induction patterns as [|p ps IH]; simpl; [by split; [constructor|]|].
  rewrite list.Forall_cons. destruct (filepath_Match p ""); naive_solver.
Qed.

Lemma validate_patterns_Some field patterns err :
  validate_patterns field patterns = Some err →
  ∃ p, err = InvalidPattern field p ∧ p ∈ patterns ∧ filepath_Match p "" = ErrBadPattern.
Proof.
  induction patterns as [|p ps IH]; simpl; [done|]. pose proof (Match_terminates p "").
  destruct (filepath_Match p "") eqn:E; [|intros [= <-]; by exists p; split_and!; [|left|]|done].
  intros (q & -> & Hq & HE)%IH. exists q. by split_and!; [|right|].
Qed.

Lemma validate_fields_None all :
  validate_fields all = None →
  ∀ field patterns, (field, patterns) ∈ all → validate_patterns field patterns = None.
Proof.
  induction all as [|[f ps] all IH]; simpl; intros Hv field patterns Hin; [by apply not_elem_of_nil in Hin|].
  destruct (validate_patterns f ps) eqn:E; [done|]. apply elem_of_cons in Hin as [[= -> ->]|Hin]; eauto.
Qed.

Lemma validate_fields_Some all err :
  validate_fields all = Some err →
  ∃ field patterns, (field, patterns) ∈ all ∧ validate_patterns field patterns = Some err.
Proof.
  induction all as [|[f ps] all IH]; simpl; [done|].
  destruct (validate_patterns f ps) eqn:E; [intros [= <-]; do 2 eexists; split; [by left|done]|].
  intros (field & patterns & Hin & H)%IH. do 2 eexists; split; [by right|done].
Qed.

(** A whitelist none of whose patterns is malformed. *)
Definition well_formed (wl : RBACWhitelist) : Prop :=
  ∀ kind patterns p name, whitelist_patterns wl kind = Some patterns → p ∈ patterns →
    ∃ b, filepath_Match p name = Ok b.

Lemma validate_well_formed wl : validate wl = None → well_formed wl.
Proof.
  intros Hv kind patterns p name Hk Hin.
  assert (∃ field, validate_patterns field patterns = None) as [field Hf].
  { unfold whitelist_patterns in Hk. repeat case_bool_decide; simplify_eq.
    all: eexists; eapply validate_fields_None; [exact Hv|rewrite !elem_of_cons; eauto]. }
  apply validate_patterns_None in Hf. rewrite list.Forall_forall in Hf. specialize (Hf p Hin).
  rewrite (Match_bad_independent p "" name) in Hf. destruct (filepath_Match p name); naive_solver.
Qed.

Lemma validate_Some wl err :
  validate wl = Some err →
  ∃ field p kind patterns, err = InvalidPattern field p ∧ whitelist_patterns wl kind = Some patterns ∧
    p ∈ patterns ∧ ∀ name, filepath_Match p name = ErrBadPattern.
Proof.
  intros (field & patterns & Hin & (p & -> & Hp & HE)%validate_patterns_Some)%validate_fields_Some.
  exists field, p.
  assert (∃ kind, whitelist_patterns wl kind = Some patterns) as [kind Hk].
  { repeat (apply elem_of_cons in Hin as [[= -> ->]|Hin]); [..|by apply not_elem_of_nil in Hin].
    - by exists "Role". - by exists "ClusterRole". - by exists "RoleBinding". - by exists "ClusterRoleBinding". }
  exists kind, patterns. split_and!; try done. intros name.
  pose proof (Match_bad_independent p "" name) as Hs. rewrite HE in Hs.
  by destruct (filepath_Match p name).
Qed.

Lemma LoadRBACWhitelist_well_formed ReadFile Unmarshal path wl :
  LoadRBACWhitelist ReadFile Unmarshal path = inr wl → well_formed wl.
Proof.
  unfold LoadRBACWhitelist. case_bool_decide; [intros [= <-]; by apply validate_well_formed|].
  destruct (ReadFile path) as [|data]; [done|]. destruct (Unmarshal data) as [|wl']; [done|].
  destruct (validate wl') eqn:Hv; [done|]. intros [= <-]. by apply validate_well_formed.
Qed.

Lemma IsWhitelisted_spec wl kind name :
  IsWhitelisted (Some wl) kind name = true ↔
    ∃ patterns p, whitelist_patterns wl kind = Some patterns ∧ p ∈ patterns ∧ filepath_Match p name = Ok true.
Proof.
  simpl. destruct (whitelist_patterns wl kind) as [ps|]; [|naive_solver]. rewrite any_match_spec. naive_solver.
Qed.

(** C32. A whitelist that loads has only well-formed patterns, so the error
    that [IsWhitelisted] drops never occurs for any name, and a name is
    whitelisted for a kind exactly when one of the patterns of the kind matches
    it. A rejected pattern would have failed for every name. *)
Theorem LoadRBACWhitelist_spec ReadFile Unmarshal path :
  match LoadRBACWhitelist ReadFile Unmarshal path with
  | inr wl => well_formed wl ∧
      ∀ kind name, IsWhitelisted (Some wl) kind name = true ↔
        ∃ patterns p, whitelist_patterns wl kind = Some patterns ∧ p ∈ patterns ∧
                      filepath_Match p name = Ok true
  | inl (InvalidPattern field p) =>
      path ≠ "" ∧ ∀ name, filepath_Match p name = ErrBadPattern
  | inl _ => path ≠ ""
  end.
Proof.
  pose proof (LoadRBACWhitelist_well_formed ReadFile Unmarshal path) as Hwf. revert Hwf.
  unfold LoadRBACWhitelist. case_bool_decide; [split; [by apply Hwf|apply IsWhitelisted_spec]|].
  destruct (ReadFile path) as [|data]; [done|]. destruct (Unmarshal data) as [|wl]; [done|].
  destruct (validate wl) as [err|] eqn:Hv.
  - apply validate_Some in Hv as (field & p & kind & patterns & -> & _ & _ & Hbad). done.
  - split; [by apply Hwf|apply IsWhitelisted_spec].
Qed.

(** C31. What a whitelist means: every pattern of a whitelist that loads has
    one reading by the grammar of patterns, and a name of one-byte characters
    without a slash is whitelisted exactly when it is in the language of the
    reading of a pattern of its kind, although the matcher never reconsiders
    what a star stands for once the text behind it has matched. *)
Theorem IsWhitelisted_language ReadFile Unmarshal path wl kind patterns name :
  LoadRBACWhitelist ReadFile Unmarshal path = inr wl →
  whitelist_patterns wl kind = Some patterns → ascii_name name → slashless name →
  (∀ p, p ∈ patterns → ∃ ts, tokens p ts ∧ ∀ ts', tokens p ts' → ts' = ts) ∧
  (IsWhitelisted (Some wl) kind name = true ↔ ∃ p ts, p ∈ patterns ∧ tokens p ts ∧ language ts name).
Proof.
  intros Hload Hk Ha Hs. apply LoadRBACWhitelist_well_formed in Hload.
  assert (∀ p, p ∈ patterns →
    ∃ b ts, filepath_Match p name = Ok b ∧ tokens p ts ∧ (b = true ↔ language ts name)) as Hread.
  { intros p Hp. destruct (Hload kind patterns p name Hk Hp) as [b Hb].
    destruct (filepath_Match_language p name b) as (ts & Hts & Hl); eauto. }
  split.
  - intros p Hp. destruct (Hread p Hp) as (_ & ts & _ & Hts & _). exists ts. split; [done|].
    intros ts' Hts'. by eapply tokens_det.
  - rewrite IsWhitelisted_spec. split.
    + intros (patterns' & p & Hk' & Hp & Hm). simplify_eq. destruct (Hread p Hp) as (b & ts & Hb & Hts & Hl).
      exists p, ts. split_and!; [done..|]. apply Hl. congruence.
    + intros (p & ts & Hp & Hts & Hl). destruct (Hread p Hp) as (b & ts' & Hb & Hts' & Hl').
      rewrite (tokens_det _ _ _ Hts Hts') in Hl. apply Hl' in Hl as ->. eauto.
Qed.

(** A pattern without special characters, or such a prefix and a star. *)
Definition plain_pattern (r : string * bool) : string := if r.2 then r.1 +:+ "*" else r.1.
Definition plain_matches (name : string) (r : string * bool) : bool :=
  if r.2 then HasPrefix name r.1 else bool_decide (name = r.1).

(** With patterns of the shapes the shipped whitelists use, exact names
    and prefixes followed by a star, a name without a slash (every RBAC name)
    is whitelisted exactly when it is one of the names or starts with one of
    the prefixes. *)
Theorem IsWhitelisted_plain wl kind rules name :
  whitelist_patterns wl kind = Some (plain_pattern <$> rules) →
  Forall (λ r, literal r.1) rules → ContainsByte name "/" = false →
  IsWhitelisted (Some wl) kind name = existsb (plain_matches name) rules.
Proof.
  intros Hk Hl Hname. simpl. rewrite Hk. clear Hk.
  induction Hl as [|[p star] rules Hp Hl IH]; [done|]. simpl. rewrite <- IH. simpl in Hp.
  assert (matched (plain_pattern (p, star)) name = plain_matches name (p, star)) as ->; [|by case_match].
  unfold matched, plain_pattern, plain_matches. destruct star; simpl.
  - rewrite Match_prefix_star by done. destruct (HasPrefix name p) eqn:E; [|done]. simpl.
    apply HasPrefix_spec in E as [t ->]. rewrite str_drop_app.
    unfold ContainsByte in *. rewrite chars_app in Hname. apply bool_decide_eq_false in Hname.
    rewrite bool_decide_eq_false_2; [done|]. set_solver.
  - by rewrite Match_literal.
Qed.
