(* ===== verification/Rbac.v ===== *)
(** * Rbac: roles and role bindings

    [role_controller.go], [rolebinding_controller.go] and
    [rbac_finding_types.go] of [src/internal/controller]. A binding that is
    reconciled before its role is recorded as pending in the name index; the
    reconcile of the role takes the pending bindings of its key and sends them
    to the requeue channel of the binding reconciler of the right scope. *)

From S2P Require Import Prelude.
From S2P Require Import Prog.
From S2P Require Import GoStrings.
From S2P Require Import K8s.
From S2P Require Import Lib.
From S2P Require Import Entities.
From S2P Require Import ModelSrv.
From S2P Require Import Registry.
From S2P Require Import RuleRepo.
From S2P Require Import State.
From S2P Require Import Convert.
From S2P Require Import RefFindings.
From S2P Require Import Whitelist.
From S2P Require Import CrdControllers.

Section rbac.
Context {L : Lib} {S : ModelSrv}.

Definition MissingRoleSpecAnnotationFindingTypeID : uuid :=
  uuid_MustParse "f47ac10b-58cc-4372-a567-0e02b2c3d479".
Definition MissingSubjectAnnotationFindingTypeID : uuid :=
  uuid_MustParse "f47ac10b-58cc-4372-a567-0e02b2c3d480".

Definition RBACFindingTypes : list FindingType :=
  [ mkFindingType MissingRoleSpecAnnotationFindingTypeID "Missing RoleSpec Annotation"
      "A Role or ClusterRole does not have the emeland.io/k8s-sensor-role-spec-id annotation set to a valid RoleSpec UUID.";
    mkFindingType MissingSubjectAnnotationFindingTypeID "Missing Subject Annotation"
      "A RoleBinding or ClusterRoleBinding does not have the emeland.io/k8s-sensor-subject-id annotation set to a valid Group or Identity UUID." ].

Definition RegisterRBACFindingTypes : action (option ModelErr) := registerFindingTypes RBACFindingTypes.

(** ** Roles *)

Definition roleSpecFindingID (roleID : uuid) : uuid :=
  uuid_NewSHA1 MissingRoleSpecAnnotationFindingTypeID (uuid_bytes roleID).

Definition roleSpecFinding (kind name : string) (roleID : uuid) : Finding :=
  mkFinding (roleSpecFindingID roleID) ("Missing RoleSpec annotation on " +:+ kind +:+ "/" +:+ name)
    ("The " +:+ kind +:+ " " +:+ fmt_q name +:+ " does not have the " +:+ AnnotationRoleSpecID +:+
     " annotation set to a valid RoleSpec UUID.")
    (Some MissingRoleSpecAnnotationFindingTypeID) [mkResourceRef roleID RoleResource] ∅.

Definition reconcileRoleSpecFinding (wl : option RBACWhitelist) (kind : string) (roleID : uuid)
    (obj : ObjectMeta) : action unit :=
  if IsWhitelisted wl kind (om_Name obj)
  then _ <- Model_Delete FFinding (roleSpecFindingID roleID) ;; Ret tt
  else
    let specID := annotationUUID (om_Annotations obj) AnnotationRoleSpecID in
    let findingID := roleSpecFindingID roleID in
    if bool_decide (specID ≠ Nil)
    then _ <- Model_Delete FFinding findingID ;; Ret tt
    else _ <- Model_Add (EFinding (roleSpecFinding kind (om_Name obj) roleID)) ;; Ret tt.

(** The capacity of the channel [make(chan event.GenericEvent, 64)]. *)
Definition requeue_capacity : nat := 64.

(** What is waiting in the channel of the binding reconciler [kind]. *)
Definition queued (kind : string) (w : World) : list NamespacedName := default [] (w_requeue w !! kind).

(** [select { case r.requeue <- ...: default: }] *)
Definition EnqueueBinding (kind nameKey : string) : action unit :=
  let nn := parseNamespacedName nameKey in
  writing (λ w,
    if bool_decide (length (queued kind w) < requeue_capacity)
    then set_requeue (<[kind := queued kind w ++ [nn]]> (w_requeue w)) w
    else w).

Definition IsClusterScoped (kind : string) : bool := bool_decide (kind = "ClusterRoleBinding").

(** [bindingReconcilers] is the list of the kinds of the reconcilers that
    [SetBindingReconciler] has registered. *)
Definition requeue_pending (bindingReconcilers : list string) (bindingName : string) : action unit :=
  let nn := parseNamespacedName bindingName in
  for_each bindingReconcilers (λ rbc,
    if eqb (IsClusterScoped rbc) (bool_decide (nn_Namespace nn = ""))
    then EnqueueBinding rbc bindingName else Ret tt).

Definition RoleReconciler_Reconcile (wl : option RBACWhitelist) (kind : string)
    (bindingReconcilers : list string) (c : Choice) (req : NamespacedName) (got : GetResult Object) : action Outcome :=
  match got with
  | GetOk obj =>
      match roleFromRBAC (ob_Meta obj) with
      | None => Ret done_ok
      | Some (role, id) =>
          err <- Model_Add (ERole role) ;;
          match err with
          | Some err => Ret (failed (EModel err))
          | None =>
              let indexKey := roleIndexKey req in
              Index_Put KindRole indexKey id ;;
              reconcileRoleSpecFinding wl kind id (ob_Meta obj) ;;
              pending <- Index_ResolvePendingBindings c indexKey ;;
              for_each pending (requeue_pending bindingReconcilers) ;;
              Ret done_ok
          end
      end
  | GetNotFound =>
      let indexKey := roleIndexKey req in
      id <- Index_Delete KindRole indexKey ;;
      if bool_decide (id = Nil) then Ret done_ok
      else
        _ <- Model_Delete FFinding (roleSpecFindingID id) ;;
        err <- Model_Delete FRole id ;;
        Ret (ignore_not_found FRole err)
  | GetErr err => Ret (failed (EGet err))
  end.

(** ** Bindings *)

Definition subjectFindingID (bindingID : uuid) : uuid :=
  uuid_NewSHA1 MissingSubjectAnnotationFindingTypeID (uuid_bytes bindingID).

Definition subjectFinding (kind name : string) (bindingID : uuid) : Finding :=
  mkFinding (subjectFindingID bindingID) ("Missing subject annotation on " +:+ kind +:+ "/" +:+ name)
    ("The " +:+ kind +:+ " " +:+ fmt_q name +:+ " does not have the " +:+ AnnotationSubjectID +:+
     " annotation set to a valid Group or Identity UUID.")
    (Some MissingSubjectAnnotationFindingTypeID) [mkResourceRef bindingID BindingResource] ∅.

Definition reconcileSubjectFinding (wl : option RBACWhitelist) (kind : string) (bindingID : uuid)
    (obj : ObjectMeta) : action unit :=
  if IsWhitelisted wl kind (om_Name obj)
  then _ <- Model_Delete FFinding (subjectFindingID bindingID) ;; Ret tt
  else
    let subjectID := annotationUUID (om_Annotations obj) AnnotationSubjectID in
    let findingID := subjectFindingID bindingID in
    if bool_decide (subjectID ≠ Nil)
    then _ <- Model_Delete FFinding findingID ;; Ret tt
    else _ <- Model_Add (EFinding (subjectFinding kind (om_Name obj) bindingID)) ;; Ret tt.

(** [extractRoleBindingFields]: both kinds of binding objects have the fields. *)
Definition extractRoleBindingFields (obj : BindingObject) : string * string * list string :=
  (bo_RoleRefKind obj, bo_RoleRefName obj, bo_SubjectKinds obj).

(** The key under which the role that [obj] refers to is indexed. *)
Definition bindingRoleKey (obj : BindingObject) : string :=
  let '(roleRefKind, roleRefName, _) := extractRoleBindingFields obj in
  if bool_decide (roleRefKind = "Role") && bool_decide (om_Namespace (bo_Meta obj) ≠ "")
  then om_Namespace (bo_Meta obj) +:+ "/" +:+ roleRefName
  else roleRefName.

Definition bindingFromRBAC (obj : ObjectMeta) (roleIndexKey subjectKind : string)
    : action (option (Binding * uuid)) :=
  let uid := parseOptionalUUID (om_UID obj) in
  if bool_decide (uid = Nil) then Ret None
  else
    roleID <- Index_Get KindRole roleIndexKey ;;
    Ret (Some (binding_with_role obj subjectKind uid roleID, uid)).

(** A stored binding that has lost its subject is removed. *)
Definition drop_binding (id : uuid) : action Outcome :=
  existing <- Model_Get FBinding id ;;
  match existing with
  | None => Ret done_ok
  | Some _ =>
      delErr <- Model_Delete FBinding id ;;
      Ret (ignore_not_found FBinding delErr)
  end.

(** The binding waits for its role, or no longer does. *)
Definition note_role (roleIndexKey bindingName : string) (roleID : uuid) : action unit :=
  if bool_decide (roleID = Nil)
  then Index_AddPendingBinding roleIndexKey bindingName
  else Index_RemovePendingBinding roleIndexKey bindingName.

(** The rest of the reconcile once the binding is built. *)
Definition reconcile_binding (wl : option RBACWhitelist) (kind : string) (req : NamespacedName)
    (obj : BindingObject) (built : option (Binding * uuid)) : action Outcome :=
  let roleIndexKey := bindingRoleKey obj in
  match built with
  | None => Ret done_ok
  | Some (binding, id) =>
      Index_Put KindBinding (nn_String req) id ;;
      if negb (bindingHasValidSubject (Some binding))
      then
        outcome <- drop_binding id ;;
        match out_Err outcome with
        | Some _ => Ret outcome
        | None =>
            Index_RemovePendingBinding roleIndexKey (nn_String req) ;;
            reconcileSubjectFinding wl kind id (bo_Meta obj) ;;
            Ret done_ok
        end
      else
        roleID <- Index_Get KindRole roleIndexKey ;;
        note_role roleIndexKey (nn_String req) roleID ;;
        err <- Model_Add (EBinding binding) ;;
        match err with
        | Some err => Ret (failed (EModel err))
        | None =>
            reconcileSubjectFinding wl kind id (bo_Meta obj) ;;
            Ret done_ok
        end
  end.

Definition RoleBindingReconciler_Reconcile (wl : option RBACWhitelist) (kind : string)
    (req : NamespacedName) (got : GetResult BindingObject) : action Outcome :=
  match got with
  | GetOk obj =>
      let '(_, _, subjects) := extractRoleBindingFields obj in
      built <- bindingFromRBAC (bo_Meta obj) (bindingRoleKey obj) (firstSubjectKind subjects) ;;
      reconcile_binding wl kind req obj built
  | GetNotFound =>
      id <- Index_Delete KindBinding (nn_String req) ;;
      if bool_decide (id = Nil) then Ret done_ok
      else
        Index_RemovePendingBindingByName (nn_String req) ;;
        _ <- Model_Delete FFinding (subjectFindingID id) ;;
        err <- Model_Delete FBinding id ;;
        Ret (ignore_not_found FBinding err)
  | GetErr err => Ret (failed (EGet err))
  end.
End rbac.

(** ** The findings about missing annotations *)

Section findings.
Context {L : Lib} {S : ModelSrv} {HL : ModelSrvLaws S} {HR : FindingsReliable S}.

(** The store with finding [f] removed or set. *)
Definition toggle_finding (suppressed : bool) (f : Finding) (m : Store) : Store :=
  if suppressed then (del FFinding (f_Id f) m).1 else (add (EFinding f) m).1.

Lemma get_toggle b f m :
  get FFinding (f_Id f) (toggle_finding b f m) = if b then None else Some (EFinding f).
Proof. destruct b; [apply get_del_finding|apply get_add_finding]. Qed.

Lemma toggle_frame b f m f' i :
  (f', i) ≠ (FFinding, f_Id f) → get f' i (toggle_finding b f m) = get f' i m.
Proof. destruct b; simpl; intros; [by apply del_finding_frame|by apply add_finding_frame]. Qed.

(** No finding is raised for [obj]: its name is whitelisted or its annotation
    is a UUID. *)
Definition suppressed (wl : option RBACWhitelist) (kind annotation : string) (obj : ObjectMeta) : bool :=
  IsWhitelisted wl kind (om_Name obj) || bool_decide (annotationUUID (om_Annotations obj) annotation ≠ Nil).

Lemma exec_reconcileRoleSpecFinding wl kind id obj w :
  exec (reconcileRoleSpecFinding wl kind id obj) w =
    set_model (toggle_finding (suppressed wl kind AnnotationRoleSpecID obj)
                 (roleSpecFinding kind (om_Name obj) id) (w_model w)) w.
Proof.
  unfold reconcileRoleSpecFinding, suppressed. destruct (IsWhitelisted _ _ _); [by run_ops|].
  case_bool_decide; by run_ops.
Qed.

Lemma exec_reconcileSubjectFinding wl kind id obj w :
  exec (reconcileSubjectFinding wl kind id obj) w =
    set_model (toggle_finding (suppressed wl kind AnnotationSubjectID obj)
                 (subjectFinding kind (om_Name obj) id) (w_model w)) w.
Proof.
  unfold reconcileSubjectFinding, suppressed. destruct (IsWhitelisted _ _ _); [by run_ops|].
  case_bool_decide; by run_ops.
Qed.
End findings.

(** ** The requeue channels *)

Section requeue.
Context {L : Lib} {S : ModelSrv}.

(** Only requests were added to the channels. *)
Record queues_grow (w w' : World) : Prop := {
  qg_model : w_model w' = w_model w;
  qg_index : w_index w' = w_index w;
  qg_rules : w_rules w' = w_rules w;
  qg_queued k : queued k w `prefix_of` queued k w'
}.

Lemma queues_grow_refl w : queues_grow w w.
Proof. by split. Qed.
Lemma queues_grow_trans w1 w2 w3 : queues_grow w1 w2 → queues_grow w2 w3 → queues_grow w1 w3.
Proof. intros [H1 H2 H3 H4] [H5 H6 H7 H8]. split; [congruence..|]. intros k. etrans; [apply H4|apply H8]. Qed.

Lemma queued_set_requeue k q w : queued k (set_requeue q w) = default [] (q !! k).
Proof. done. Qed.

Lemma EnqueueBinding_grow k b w : queues_grow w (exec (EnqueueBinding k b) w).
Proof.
  unfold EnqueueBinding. run_ops. case_bool_decide; [|apply queues_grow_refl].
  split; try done. intros k'. rewrite queued_set_requeue, lookup_insert.
  case_decide; [|done]. subst. simpl. by apply prefix_app_r.
Qed.

Lemma EnqueueBinding_enqueues k b w :
  let w' := exec (EnqueueBinding k b) w in
  parseNamespacedName b ∈ queued k w' ∨ requeue_capacity ≤ length (queued k w').
Proof.
  unfold EnqueueBinding. run_ops. case_bool_decide; [left|right; lia].
  rewrite queued_set_requeue, lookup_insert_eq. simpl. set_solver.
Qed.

Lemma requeue_pending_grow recs b w : queues_grow w (exec (requeue_pending recs b) w).
Proof.
  unfold requeue_pending. apply (exec_for_each_ind queues_grow).
  - apply queues_grow_refl.
  - apply queues_grow_trans.
  - intros k w' _. destruct (eqb _ _); [apply EnqueueBinding_grow|apply queues_grow_refl].
Qed.

Lemma requeue_all_grow recs bs w : queues_grow w (exec (for_each bs (requeue_pending recs)) w).
Proof.
  apply (exec_for_each_ind queues_grow).
  - apply queues_grow_refl.
  - apply queues_grow_trans.
  - intros b w' _. apply requeue_pending_grow.
Qed.

(** Every pending binding reaches the channel of its scope, unless it is full. *)
Lemma requeue_all_enqueues recs bs w b k :
  b ∈ bs → k ∈ recs → IsClusterScoped k = bool_decide (nn_Namespace (parseNamespacedName b) = "") →
  let w' := exec (for_each bs (requeue_pending recs)) w in
  parseNamespacedName b ∈ queued k w' ∨ requeue_capacity ≤ length (queued k w').
Proof.
  intros Hb Hk Hscope.
  set (P := λ w', parseNamespacedName b ∈ queued k w' ∨ requeue_capacity ≤ length (queued k w')).
  assert (∀ w w', queues_grow w w' → P w → P w') as Hstable.
  { intros w1 w2 [_ _ _ Hq] [H|H]; specialize (Hq k); [left|right].
    - destruct Hq as [l ->]. set_solver.
    - apply prefix_length in Hq. lia. }
  apply (exec_for_each_establishes queues_grow P _ _ b).
  - intros. apply requeue_pending_grow.
  - done.
  - intros w1. unfold requeue_pending. apply (exec_for_each_establishes queues_grow P _ _ k).
    + intros y w2. destruct (eqb _ _); [apply EnqueueBinding_grow|apply queues_grow_refl].
    + done.
    + intros w2. rewrite Hscope, eqb_reflx. apply EnqueueBinding_enqueues.
    + done.
  - done.
Qed.
End requeue.

(** ** What the reconciles establish *)

Section facts.
Context {L : Lib} {HLib : LibLaws} {S : ModelSrv} {HL : ModelSrvLaws S} {HR : FindingsReliable S}.

Record role_synced (wl : option RBACWhitelist) (kind : string) (recs : list string) (req : NamespacedName)
    (obj : ObjectMeta) (role : Role) (id : uuid) (w w' : World) : Prop := {
  rs_stored : get FRole id (w_model w') = Some (ERole role);
  rs_indexed : NameIndex_Get KindRole (roleIndexKey req) (w_index w') = id;
  rs_finding : finding_at w' (roleSpecFindingID id) =
    if suppressed wl kind AnnotationRoleSpecID obj then None
    else Some (EFinding (roleSpecFinding kind (om_Name obj) id));
  rs_waits rk b : waits (w_index w') rk b ↔ waits (w_index w) rk b ∧ rk ≠ roleIndexKey req;
  rs_requeued b rbc :
    waits (w_index w) (roleIndexKey req) b → rbc ∈ recs →
    IsClusterScoped rbc = bool_decide (nn_Namespace (parseNamespacedName b) = "") →
    parseNamespacedName b ∈ queued rbc w' ∨ requeue_capacity ≤ length (queued rbc w')
}.

Lemma roleFromRBAC_id obj role id : roleFromRBAC obj = Some (role, id) → role_Id role = id ∧ id ≠ Nil.
Proof. unfold roleFromRBAC. case_bool_decide; [done|]. by intros [= <- <-]. Qed.

Lemma Get_Resolve c rk idx k n :
  NameIndex_Get k n (NameIndex_ResolvePendingBindings c rk idx).2 = NameIndex_Get k n idx.
Proof. unfold NameIndex_ResolvePendingBindings. by case_match. Qed.

Lemma role_found_spec wl kind recs c req obj role id w :
  roleFromRBAC (ob_Meta obj) = Some (role, id) →
  (result (RoleReconciler_Reconcile wl kind recs c req (GetOk obj)) w).(out_Err) = None →
  role_synced wl kind recs req (ob_Meta obj) role id w
    (exec (RoleReconciler_Reconcile wl kind recs c req (GetOk obj)) w).
Proof.
  intros Hrole Hok. destruct (roleFromRBAC_id _ _ _ Hrole) as [Hid _].
  unfold RoleReconciler_Reconcile in *. rewrite Hrole in *. revert Hok. run_ops.
  destruct (add (ERole role) (w_model w)) as [m r] eqn:Hadd. destruct r as [err|]; run_ops; [done|].
  intros _. rewrite exec_reconcileRoleSpecFinding. simpl.
  set (idx := NameIndex_Put KindRole (roleIndexKey req) id (w_index w)).
  set (b := suppressed wl kind AnnotationRoleSpecID (ob_Meta obj)).
  set (f := roleSpecFinding kind (om_Name (ob_Meta obj)) id).
  set (r := NameIndex_ResolvePendingBindings c (roleIndexKey req) idx).
  set (w1 := set_index r.2 _).
  destruct (requeue_all_grow recs r.1 w1) as [Hm Hi _ _].
  split.
  - rewrite Hm. simpl. rewrite toggle_frame by done. apply add_ok in Hadd. simpl in Hadd. by rewrite Hid in Hadd.
  - rewrite Hi. simpl. unfold r. rewrite Get_Resolve. unfold idx. rewrite Get_Put. by rewrite decide_True.
  - unfold finding_at. rewrite Hm. simpl. apply (get_toggle b f).
  - intros rk b'. rewrite Hi. simpl. unfold r. by rewrite waits_resolve.
  - intros b' k Hw Hk Hscope. apply requeue_all_enqueues; try done.
    unfold r. by apply Resolve_spec.
Qed.

(** What holds after the reconcile of an existing binding, when the first
    lookup of its role answered [roleID]. *)
Record binding_synced (wl : option RBACWhitelist) (kind : string) (req : NamespacedName)
    (obj : BindingObject) (id roleID : uuid) (w w' : World) : Prop := {
  bs_indexed : NameIndex_Get KindBinding (nn_String req) (w_index w') = id;
  (** the binding stored: none without a subject, else with the role found *)
  bs_stored : get FBinding id (w_model w') =
    if bool_decide (annotationUUID (om_Annotations (bo_Meta obj)) AnnotationSubjectID = Nil) then None
    else Some (EBinding (binding_with_role (bo_Meta obj) (firstSubjectKind (bo_SubjectKinds obj)) id roleID));
  (** it waits for its role exactly when it has a subject and the role is unknown *)
  bs_waits rk b : waits (w_index w') rk b ↔
    waits (w_index w) rk b ∧ (rk, b) ≠ (bindingRoleKey obj, nn_String req) ∨
    (rk, b) = (bindingRoleKey obj, nn_String req) ∧
    annotationUUID (om_Annotations (bo_Meta obj)) AnnotationSubjectID ≠ Nil ∧
    NameIndex_Get KindRole (bindingRoleKey obj) (w_index w) = Nil;
  bs_finding : finding_at w' (subjectFindingID id) =
    if suppressed wl kind AnnotationSubjectID (bo_Meta obj) then None
    else Some (EFinding (subjectFinding kind (om_Name (bo_Meta obj)) id));
  bs_roles n : NameIndex_Get KindRole n (w_index w') = NameIndex_Get KindRole n (w_index w);
  bs_queues : w_requeue w' = w_requeue w
}.

Lemma bindingHasValidSubject_spec obj sk id roleID :
  bindingHasValidSubject (Some (binding_with_role obj sk id roleID)) =
    bool_decide (annotationUUID (om_Annotations obj) AnnotationSubjectID ≠ Nil).
Proof.
  simpl. unfold annotated_subject.
  destruct (decide (annotationUUID (om_Annotations obj) AnnotationSubjectID = Nil)) as [->|Hne].
  - rewrite (bool_decide_eq_false_2 (Nil ≠ Nil)) by naive_solver.
    rewrite EffectiveKind_none. by apply bool_decide_eq_false_2; intros [].
  - rewrite (bool_decide_eq_true_2 _ Hne). apply bool_decide_eq_true_2.
    case_match; by rewrite ?EffectiveKind_identity, ?EffectiveKind_group.
Qed.

Lemma exec_drop_binding id w :
  ∃ m, exec (drop_binding id) w = set_model m w ∧
    (out_Err (result (drop_binding id) w) = None → get FBinding id m = None).
Proof.
  unfold drop_binding. run_ops. destruct (get FBinding id (w_model w)) eqn:E; run_ops.
  - destruct (del FBinding id (w_model w)) as [m r] eqn:Hdel. exists m. split; [done|]. simpl. intros Hok.
    eapply del_gone; [done|]. destruct r as [err|]; [|by left]. right. simpl in Hok.
    case_bool_decide; [by subst|done].
  - exists (w_model w). by destruct w.
Qed.

(** The index after [note_role]. *)
Definition noted (key name : string) (roleID : uuid) (idx : NameIndex) : NameIndex :=
  if bool_decide (roleID = Nil) then NameIndex_AddPendingBinding key name idx
  else NameIndex_RemovePendingBinding key name idx.

Lemma exec_note_role key name roleID w :
  exec (note_role key name roleID) w = set_index (noted key name roleID (w_index w)) w.
Proof. unfold note_role, noted. case_bool_decide; by run_ops. Qed.

Lemma Get_noted key name roleID idx k n : NameIndex_Get k n (noted key name roleID idx) = NameIndex_Get k n idx.
Proof. unfold noted. by case_bool_decide. Qed.

Lemma waits_noted key name roleID idx rk b :
  waits (noted key name roleID idx) rk b ↔
    waits idx rk b ∧ (rk, b) ≠ (key, name) ∨ (rk, b) = (key, name) ∧ roleID = Nil.
Proof.
  unfold noted. case_bool_decide.
  - rewrite waits_add. destruct (decide ((rk, b) = (key, name))); naive_solver.
  - rewrite waits_remove. naive_solver.
Qed.

Lemma waits_delete k n idx rk b : waits (NameIndex_Delete k n idx).2 rk b ↔ waits idx rk b.
Proof. unfold NameIndex_Delete. by repeat case_match. Qed.

Lemma Resolve_none c rk idx :
  (∀ b, ¬ waits idx rk b) → (NameIndex_ResolvePendingBindings c rk idx).1 = [].
Proof.
  intros H. destruct (NameIndex_ResolvePendingBindings c rk idx).1 as [|b l] eqn:E; [done|].
  destruct (H b). apply (Resolve_spec c). rewrite E. by left.
Qed.

(** The store accepts every role and binding. *)
Definition rbac_accepted : Prop := accepts FRole ∧ accepts FBinding.

Lemma role_found_ok wl kind recs c req obj w :
  rbac_accepted → result (RoleReconciler_Reconcile wl kind recs c req (GetOk obj)) w = done_ok.
Proof.
  intros [Hacc _]. simpl. destruct (roleFromRBAC (ob_Meta obj)) as [[role id]|]; [|done]. run_ops.
  rewrite (Hacc (ERole role)) by done. by run_ops.
Qed.

(** With nobody waiting, a role reconcile sends nothing to the channels. *)
Lemma role_found_queues wl kind recs c req obj w :
  (∀ b, ¬ waits (w_index w) (roleIndexKey req) b) →
  w_requeue (exec (RoleReconciler_Reconcile wl kind recs c req (GetOk obj)) w) = w_requeue w.
Proof.
  intros Hw. simpl. destruct (roleFromRBAC (ob_Meta obj)) as [[role id]|]; [|done]. run_ops.
  destruct (add (ERole role) (w_model w)) as [m [err|]]; run_ops; [done|].
  rewrite exec_reconcileRoleSpecFinding. simpl. by rewrite Resolve_none; run_ops.
Qed.

Section found.
Context (wl : option RBACWhitelist) (kind : string) (req : NamespacedName) (obj : BindingObject) (id : uuid).

Abbreviation rest roleID := (reconcile_binding wl kind req obj
  (Some (binding_with_role (bo_Meta obj) (firstSubjectKind (bo_SubjectKinds obj)) id roleID, id))).
Abbreviation subject := (annotationUUID (om_Annotations (bo_Meta obj)) AnnotationSubjectID).
Abbreviation sup := (suppressed wl kind AnnotationSubjectID (bo_Meta obj)).
Abbreviation fnd := (subjectFinding kind (om_Name (bo_Meta obj)) id).

Lemma binding_rest_invalid roleID w :
  subject = Nil → (result (rest roleID) w).(out_Err) = None →
  binding_synced wl kind req obj id roleID w (exec (rest roleID) w).
Proof.
  intros Ha. unfold reconcile_binding. rewrite bindingHasValidSubject_spec.
  rewrite (bool_decide_eq_false_2 (_ ≠ Nil)) by naive_solver. run_ops.
  set (idx := NameIndex_Put KindBinding (nn_String req) id (w_index w)).
  destruct (exec_drop_binding id (set_index idx w)) as (m & Hd & Hgone). rewrite Hd.
  destruct (out_Err (result (drop_binding id) _)) eqn:Hout; run_ops; [by rewrite Hout|].
  intros _. rewrite exec_reconcileSubjectFinding. split; simpl; try done.
  - change (NameIndex_Get KindBinding (nn_String req) idx = id). unfold idx. by rewrite Get_Put, decide_True.
  - rewrite bool_decide_eq_true_2 by done. rewrite toggle_frame by done. auto.
  - intros rk n. rewrite waits_remove. change (waits idx rk n) with (waits (w_index w) rk n).
    rewrite Ha. naive_solver.
  - apply (get_toggle sup fnd).
  - intros n. change (NameIndex_Get KindRole n idx = NameIndex_Get KindRole n (w_index w)).
    unfold idx. by rewrite Get_Put, decide_False.
Qed.

Lemma binding_rest_valid roleID w :
  subject ≠ Nil → (result (rest roleID) w).(out_Err) = None →
  binding_synced wl kind req obj id roleID w (exec (rest roleID) w).
Proof.
  intros Ha. unfold reconcile_binding. rewrite bindingHasValidSubject_spec.
  rewrite (bool_decide_eq_true_2 _ Ha). run_ops.
  set (idx := NameIndex_Put KindBinding (nn_String req) id (w_index w)).
  assert (∀ n, NameIndex_Get KindRole n idx = NameIndex_Get KindRole n (w_index w)) as Hroles.
  { intros n. unfold idx. by rewrite Get_Put, decide_False. }
  rewrite Hroles, exec_note_role. simpl.
  set (role := NameIndex_Get KindRole (bindingRoleKey obj) (w_index w)).
  destruct (add _ (w_model w)) as [m r] eqn:Hadd. destruct r as [err|]; run_ops; [done|].
  intros _. rewrite exec_reconcileSubjectFinding. apply add_ok in Hadd.
  split; simpl; try done.
  - rewrite Get_noted. unfold idx. by rewrite Get_Put, decide_True.
  - rewrite bool_decide_eq_false_2 by done. rewrite toggle_frame by done. done.
  - intros rk n. rewrite waits_noted. change (waits idx rk n) with (waits (w_index w) rk n). naive_solver.
  - apply (get_toggle sup fnd).
  - intros n. by rewrite Get_noted.
Qed.

Lemma binding_rest_spec roleID w :
  (result (rest roleID) w).(out_Err) = None →
  binding_synced wl kind req obj id roleID w (exec (rest roleID) w).
Proof.
  destruct (decide (subject = Nil)); [by apply binding_rest_invalid|by apply binding_rest_valid].
Qed.

Lemma binding_rest_ok roleID w :
  rbac_accepted → subject ≠ Nil → result (rest roleID) w = done_ok.
Proof.
  intros [_ Hacc] Ha. unfold reconcile_binding. rewrite bindingHasValidSubject_spec.
  rewrite (bool_decide_eq_true_2 _ Ha). run_ops. rewrite (Hacc (EBinding _)) by done. by run_ops.
Qed.

Lemma binding_found_eq w :
  uuidFromMeta (bo_Meta obj) = id → id ≠ Nil →
  run (RoleBindingReconciler_Reconcile wl kind req (GetOk obj)) w =
    run (rest (NameIndex_Get KindRole (bindingRoleKey obj) (w_index w))) w.
Proof.
  intros Hid Hnil. unfold RoleBindingReconciler_Reconcile, bindingFromRBAC. simpl.
  change (parseOptionalUUID (om_UID (bo_Meta obj))) with (uuidFromMeta (bo_Meta obj)). rewrite Hid.
  by rewrite bool_decide_eq_false_2.
Qed.

Lemma binding_found_spec w :
  uuidFromMeta (bo_Meta obj) = id → id ≠ Nil →
  (result (RoleBindingReconciler_Reconcile wl kind req (GetOk obj)) w).(out_Err) = None →
  binding_synced wl kind req obj id (NameIndex_Get KindRole (bindingRoleKey obj) (w_index w)) w
    (exec (RoleBindingReconciler_Reconcile wl kind req (GetOk obj)) w).
Proof.
  intros Hid Hnil. unfold result, exec. rewrite binding_found_eq by done.
  apply binding_rest_spec.
Qed.
End found.
End facts.

(** ** The theorems *)

Section theorems.
Context {L : Lib} {HLib : LibLaws} {S : ModelSrv} {HL : ModelSrvLaws S} {HR : FindingsReliable S}.

(** C22. A Role or ClusterRole that reconciles without an error is stored and
    indexed under its key, has the missing-RoleSpec finding exactly when it is
    neither whitelisted nor annotated, and every binding that waited for it is
    taken off the pending table and sent to the channel of the binding
    reconciler of its scope, unless that channel is full. *)
Theorem RoleReconciler_found wl kind recs c req obj role id w :
  roleFromRBAC (ob_Meta obj) = Some (role, id) →
  (result (RoleReconciler_Reconcile wl kind recs c req (GetOk obj)) w).(out_Err) = None →
  role_synced wl kind recs req (ob_Meta obj) role id w
    (exec (RoleReconciler_Reconcile wl kind recs c req (GetOk obj)) w).
Proof. apply role_found_spec. Qed.

(** C23. A RoleBinding or ClusterRoleBinding that reconciles without an error is
    indexed under its id; it is stored, with the role the index knows, exactly
    when its subject annotation is a UUID (and removed from the model when it
    is not); it waits for its role exactly when it is stored without one; and
    it has the missing-subject finding exactly when it is neither whitelisted
    nor annotated. *)
Theorem RoleBindingReconciler_found wl kind req obj id w :
  uuidFromMeta (bo_Meta obj) = id → id ≠ Nil →
  (result (RoleBindingReconciler_Reconcile wl kind req (GetOk obj)) w).(out_Err) = None →
  binding_synced wl kind req obj id (NameIndex_Get KindRole (bindingRoleKey obj) (w_index w)) w
    (exec (RoleBindingReconciler_Reconcile wl kind req (GetOk obj)) w).
Proof. apply binding_found_spec. Qed.

(** A deleted binding whose id is indexed disappears from the model and
    the index, waits for no role any more, and loses its finding. *)
Theorem RoleBindingReconciler_deleted wl kind req id w :
  NameIndex_Get KindBinding (nn_String req) (w_index w) = id → id ≠ Nil → delete_silent FBinding id →
  let p := RoleBindingReconciler_Reconcile wl kind req GetNotFound in
  (result p w).(out_Err) = None →
  get FBinding id (w_model (exec p w)) = None ∧
  NameIndex_Get KindBinding (nn_String req) (w_index (exec p w)) = Nil ∧
  (∀ rk b, waits (w_index (exec p w)) rk b ↔ waits (w_index w) rk b ∧ b ≠ nn_String req) ∧
  finding_at (exec p w) (subjectFindingID id) = None.
Proof.
  intros Hid Hnil Hsilent p. subst p. simpl. run_ops.
  rewrite Delete_fst, Hid. rewrite bool_decide_eq_false_2 by done. run_ops.
  set (m := (del FFinding _ _).1). destruct (del FBinding id m) as [m' r] eqn:Hdel. simpl. intros Hok.
  split_and!.
  - eapply del_gone; [done|]. destruct r as [err|]; [|by left]. right. simpl in Hok.
    case_bool_decide; [by subst|done].
  - change (NameIndex_Get KindBinding (nn_String req)
      (NameIndex_Delete KindBinding (nn_String req) (w_index w)).2 = Nil).
    by rewrite Get_Delete, decide_True.
  - intros rk b. rewrite waits_remove_by_name. by rewrite waits_delete.
  - unfold finding_at. simpl. specialize (Hsilent m (subjectFindingID id)). rewrite Hdel in Hsilent.
    apply Hsilent, get_del_finding.
Qed.

(** [parseNamespacedName] reads back what [NamespacedName.String] prints. *)
Lemma parseNamespacedName_String nn :
  free_of "/" (nn_Namespace nn) → parseNamespacedName (nn_String nn) = nn.
Proof.
  intros H. unfold parseNamespacedName. rewrite nn_String_spec.
  rewrite (proj2 (Cut_Some "/" _ (nn_Namespace nn) (nn_Name nn))) by done. by destruct nn.
Qed.

(** A binding is never left without its role because the role came
    second: if the binding is reconciled before its role is known, the
    reconcile of the role sends the binding to the channel of its reconciler
    (when the channel has room), and the repeated reconcile stores the binding
    with the role. *)
Theorem late_role_resolves wl bkind rkind recs c req rreq obj robj id role rid w :
  uuidFromMeta (bo_Meta obj) = id → id ≠ Nil →
  annotationUUID (om_Annotations (bo_Meta obj)) AnnotationSubjectID ≠ Nil →
  roleFromRBAC (ob_Meta robj) = Some (role, rid) → roleIndexKey rreq = bindingRoleKey obj →
  NameIndex_Get KindRole (bindingRoleKey obj) (w_index w) = Nil →
  free_of "/" (nn_Namespace req) → IsClusterScoped bkind = bool_decide (nn_Namespace req = "") →
  bkind ∈ recs →
  let bind := RoleBindingReconciler_Reconcile wl bkind req (GetOk obj) in
  let w1 := exec bind w in
  let w2 := exec (RoleReconciler_Reconcile wl rkind recs c rreq (GetOk robj)) w1 in
  let w3 := exec bind w2 in
  (result bind w).(out_Err) = None →
  (result (RoleReconciler_Reconcile wl rkind recs c rreq (GetOk robj)) w1).(out_Err) = None →
  (result bind w2).(out_Err) = None →
  length (queued bkind w2) < requeue_capacity →
  req ∈ queued bkind w2 ∧
  ∃ b, get FBinding id (w_model w3) = Some (EBinding b) ∧ bind_Role b = Some rid.
Proof.
  intros Hid Hnil Hsub Hrole Hkey Hunknown Hfree Hscope Hrec bind w1 w2 w3 Hok1 Hok2 Hok3 Hroom.
  pose proof (binding_found_spec wl bkind req obj id w Hid Hnil Hok1) as B1. fold bind w1 in B1.
  pose proof (role_found_spec wl rkind recs c rreq robj role rid w1 Hrole Hok2) as R2. fold w2 in R2.
  pose proof (binding_found_spec wl bkind req obj id w2 Hid Hnil Hok3) as B3. fold bind w3 in B3.
  destruct (roleFromRBAC_id _ _ _ Hrole) as [_ Hrid]. split.
  - pose proof (rs_requeued _ _ _ _ _ _ _ _ _ R2 (nn_String req) bkind) as Hq.
    rewrite parseNamespacedName_String in Hq by done. destruct Hq as [Hq|Hq]; try done; [|lia].
    rewrite Hkey. apply (bs_waits _ _ _ _ _ _ _ _ B1). by right.
  - eexists. rewrite (bs_stored _ _ _ _ _ _ _ _ B3), bool_decide_eq_false_2 by done.
    split; [done|]. simpl. rewrite <- Hkey, (rs_indexed _ _ _ _ _ _ _ _ _ R2).
    by rewrite bool_decide_eq_true_2.
Qed.

(** C20. Interleaved with the reconcile of its role, a binding can lose its
    role for good: when the role is stored and its (still empty) pending set
    taken between the two index lookups of the binding's reconcile, both
    handlers return without an error, the binding is stored without a role, it
    waits for no role and no channel asks for it to be reconciled again,
    although the role is in the index. *)
Theorem binding_role_race wl bkind rkind recs c req rreq obj robj id role rid w :
  uuidFromMeta (bo_Meta obj) = id → id ≠ Nil →
  annotationUUID (om_Annotations (bo_Meta obj)) AnnotationSubjectID ≠ Nil →
  roleFromRBAC (ob_Meta robj) = Some (role, rid) → roleIndexKey rreq = bindingRoleKey obj →
  NameIndex_Get KindRole (bindingRoleKey obj) (w_index w) = Nil →
  (∀ b, ¬ waits (w_index w) (bindingRoleKey obj) b) →
  rbac_accepted →
  ∃ w', rtc pstep ([RoleBindingReconciler_Reconcile wl bkind req (GetOk obj);
                    RoleReconciler_Reconcile wl rkind recs c rreq (GetOk robj)], w)
                  ([Ret done_ok; Ret done_ok], w') ∧
    (∃ b, get FBinding id (w_model w') = Some (EBinding b) ∧ bind_Role b = None) ∧
    NameIndex_Get KindRole (bindingRoleKey obj) (w_index w') = rid ∧ rid ≠ Nil ∧
    (∀ b, ¬ waits (w_index w') (bindingRoleKey obj) b) ∧ w_requeue w' = w_requeue w.
Proof.
  intros Hid Hnil Hsub Hrole Hkey Hunknown Hnone Hacc.
  set (roles := RoleReconciler_Reconcile wl rkind recs c rreq (GetOk robj)).
  set (rest := reconcile_binding wl bkind req obj
    (Some (binding_with_role (bo_Meta obj) (firstSubjectKind (bo_SubjectKinds obj)) id Nil, id))).
  set (w1 := exec roles w). set (w2 := exec rest w1).
  pose proof (role_found_ok wl rkind recs c rreq robj w Hacc) as Ok1.
  pose proof (role_found_spec wl rkind recs c rreq robj role rid w Hrole) as R1.
  rewrite Ok1 in R1. specialize (R1 eq_refl). fold roles w1 in R1.
  pose proof (binding_rest_ok wl bkind req obj id Nil w1 Hacc Hsub) as Ok2.
  pose proof (binding_rest_spec wl bkind req obj id Nil w1) as B2.
  rewrite Ok2 in B2. specialize (B2 eq_refl). fold rest w2 in B2.
  destruct (roleFromRBAC_id _ _ _ Hrole) as [_ Hrid]. rewrite <- Hkey in *.
  exists w2. split_and!; try done.
  - transitivity ([rest; roles], w).
    { apply rtc_once. unfold RoleBindingReconciler_Reconcile, bindingFromRBAC. simpl.
      change (parseOptionalUUID (om_UID (bo_Meta obj))) with (uuidFromMeta (bo_Meta obj)). rewrite Hid.
      rewrite bool_decide_eq_false_2 by done. unfold rest. rewrite <- Hunknown, Hkey.
      apply pstep_reading. }
    transitivity ([rest; Ret done_ok], w1).
    { pose proof (run_steps [rest; roles] 1 roles w eq_refl) as Hs.
      fold roles in Ok1. by rewrite Ok1 in Hs. }
    pose proof (run_steps [rest; Ret done_ok] 0 rest w1 eq_refl) as Hs.
    fold rest in Ok2. by rewrite Ok2 in Hs.
  - eexists. rewrite (bs_stored _ _ _ _ _ _ _ _ B2), bool_decide_eq_false_2 by done. split; [done|].
    simpl. by rewrite bool_decide_eq_false_2 by naive_solver.
  - rewrite (bs_roles _ _ _ _ _ _ _ _ B2). apply (rs_indexed _ _ _ _ _ _ _ _ _ R1).
  - intros b. rewrite (bs_waits _ _ _ _ _ _ _ _ B2), (rs_waits _ _ _ _ _ _ _ _ _ R1).
    rewrite <- Hkey, (rs_indexed _ _ _ _ _ _ _ _ _ R1). naive_solver.
  - rewrite (bs_queues _ _ _ _ _ _ _ _ B2). apply role_found_queues. intros b. apply Hnone.
Qed.
End theorems.
