(* ===== verification/Instances.v ===== *)
(** * Instances: workloads and API-exposing resources

    [workload_controller.go] and [apiinstance_controller.go] of
    [src/internal/controller]. Both reconcilers do the same over different
    resources; what differs is collected in the record [InstanceOps], with its
    laws in [InstanceLaws], and the theorems are proved once. *)

From S2P Require Import Prelude.
From S2P Require Import Prog.
From S2P Require Import GoStrings.
From S2P Require Import K8s.
From S2P Require Import Lib.
From S2P Require Import Entities.
From S2P Require Import ModelSrv.
From S2P Require Import Registry.
From S2P Require Import RuleRepo.
From S2P Require Import State.
From S2P Require Import Convert.
From S2P Require Import RefFindings.
From S2P Require Import Evaluator.
From S2P Require Import CrdControllers.

Section instances.
Context {L : Lib} {S : ModelSrv}.

Record InstanceOps := mkInstanceOps {
  ik_type : Type;
  ik_from : ObjectMeta → option (ik_type * uuid);
  ik_GetSystemInstance : ik_type → option uuid;
  ik_SetSystemInstance : uuid → ik_type → ik_type;
  ik_entity : ik_type → Entity;
  ik_family : Family;
  ik_kind : ResourceKind;
  (** annotation keys of the reference, and the resource it refers to *)
  ik_key : string;
  ik_legacy : string;
  ik_target : Family;
  ik_subjectType : ResourceType;
  ik_targetType : ResourceType
}.

(** [reconcile<X>ReferenceFindings]: both annotation keys are looked at. *)
Definition reconcileReferenceFindings (k : InstanceOps) (id : uuid) (obj : ObjectMeta) : action unit :=
  let annotations := om_Annotations obj in
  let refID := annotationUUID annotations (ik_key k) in
  let refID := if bool_decide (refID = Nil) then annotationUUID annotations (ik_legacy k) else refID in
  if bool_decide (refID = Nil)
  then deleteReferenceFinding id ReferencedResourceNotFound ;;
       upsertMissingResourceReference id (ik_subjectType k) (om_Name obj) (ik_key k)
  else deleteReferenceFinding id MissingResourceReference ;;
       target <- Model_Get (ik_target k) refID ;;
       match target with
       | None => upsertReferencedResourceNotFound id (ik_subjectType k) refID (ik_targetType k) (om_Name obj)
       | Some _ => deleteReferenceFinding id ReferencedResourceNotFound
       end.

(** The system instance of the resource: its annotation, or the Helm release
    that owns it. *)
Definition with_helm_owner (k : InstanceOps) (x : ik_type k) (req : NamespacedName) : action (ik_type k) :=
  match ik_GetSystemInstance k x with
  | Some _ => Ret x
  | None =>
      siID <- Index_GetHelmOwner (ik_kind k) (nn_String req) ;;
      Ret (if bool_decide (siID ≠ Nil) then ik_SetSystemInstance k siID x else x)
  end.

Definition instance_reconcile (k : InstanceOps) (skip : ObjectMeta → bool) (resourceType : string)
    (req : NamespacedName) (got : GetResult Object) : action Outcome :=
  match got with
  | GetOk obj =>
      if skip (ob_Meta obj) then Ret done_ok
      else
        match ik_from k (ob_Meta obj) with
        | None => Ret done_ok
        | Some (x, id) =>
            x <- with_helm_owner k x req ;;
            err <- Model_Add (ik_entity k x) ;;
            match err with
            | Some err => Ret (failed (EModel err))
            | None =>
                Index_Put (ik_kind k) (nn_String req) id ;;
                reconcileReferenceFindings k id (ob_Meta obj) ;;
                RuleEvaluation_run resourceType (RObject obj) ;;
                Ret done_ok
            end
        end
  | GetNotFound =>
      id <- Index_Delete (ik_kind k) (nn_String req) ;;
      if bool_decide (id = Nil) then Ret done_ok
      else
        deleteReferenceFinding id ReferencedResourceNotFound ;;
        deleteReferenceFinding id MissingResourceReference ;;
        err <- Model_Delete (ik_family k) id ;;
        Ret (ignore_not_found (ik_family k) err)
  | GetErr err => Ret (failed (EGet err))
  end.

Definition ci_SetSystemInstance (si : uuid) (x : ComponentInstance) : ComponentInstance :=
  mkComponentInstance (ci_Id x) (ci_DisplayName x) (ci_ComponentRef x) (Some si) (ci_Annotations x).
Definition ai_SetSystemInstance (si : uuid) (x : ApiInstance) : ApiInstance :=
  mkApiInstance (ai_Id x) (ai_DisplayName x) (ai_ApiRef x) (Some si) (ai_Annotations x).

Definition WorkloadOps : InstanceOps :=
  mkInstanceOps ComponentInstance componentInstanceFromMeta ci_SystemInstance ci_SetSystemInstance
    EComponentInstance FComponentInstance KindComponentInstance
    AnnotationComponentReference AnnotationComponentID FComponent
    ComponentInstanceResource ComponentResource.

Definition APIInstanceOps : InstanceOps :=
  mkInstanceOps ApiInstance apiInstanceFromMeta ai_SystemInstance ai_SetSystemInstance
    EApiInstance FApiInstance KindAPIInstance
    AnnotationAPIReference AnnotationAPIID FApi
    APIInstanceResource APIResource.

Definition reconcileComponentReferenceFindings : uuid → ObjectMeta → action unit :=
  reconcileReferenceFindings WorkloadOps.
Definition reconcileAPIReferenceFindings : uuid → ObjectMeta → action unit :=
  reconcileReferenceFindings APIInstanceOps.

(** [skipFunc] is nil for most kinds, [IsOwnedByCronJob] for Jobs. *)
Definition WorkloadReconciler_Reconcile (skipFunc : option (ObjectMeta → bool)) (resourceType : string)
    : NamespacedName → GetResult Object → action Outcome :=
  instance_reconcile WorkloadOps (λ o, match skipFunc with Some f => f o | None => false end) resourceType.

Definition APIInstanceReconciler_Reconcile (resourceType : string)
    : NamespacedName → GetResult Object → action Outcome :=
  instance_reconcile APIInstanceOps (λ _, false) resourceType.
End instances.

(** ** Laws of the operations *)

Class InstanceLaws {L : Lib} (k : InstanceOps) := {
  ik_entity_family x : family_of (ik_entity k x) = ik_family k;
  ik_from_id m x id : ik_from k m = Some (x, id) → id_of (ik_entity k x) = id ∧ id ≠ Nil;
  ik_set_id si x : id_of (ik_entity k (ik_SetSystemInstance k si x)) = id_of (ik_entity k x);
  ik_families : ik_family k ≠ FFinding ∧ ik_family k ≠ FFindingType ∧
    ik_target k ≠ FFinding ∧ ik_target k ≠ FFindingType ∧ ik_target k ≠ ik_family k
}.

#[export] Instance WorkloadOps_laws {L : Lib} : InstanceLaws WorkloadOps.
Proof.
  split; try done. intros m x id. simpl. unfold componentInstanceFromMeta.
  case_bool_decide; [done|]. by intros [= <- <-].
Qed.

#[export] Instance APIInstanceOps_laws {L : Lib} : InstanceLaws APIInstanceOps.
Proof.
  split; try done. intros m x id. simpl. unfold apiInstanceFromMeta.
  case_bool_decide; [done|]. by intros [= <- <-].
Qed.

(** ** Correctness *)

Section facts.
Context {L : Lib} {S : ModelSrv} {HL : ModelSrvLaws S} {HR : FindingsReliable S}.
Context (k : InstanceOps) {Hk : InstanceLaws k}.

(** The UUID the annotations refer to, [Nil] when there is none. *)
Definition referenced (obj : ObjectMeta) : uuid :=
  default Nil (annotated_ref (om_Annotations obj) (ik_key k) (ik_legacy k)).

Lemma reconcileReferenceFindings_eq id obj :
  reconcileReferenceFindings k id obj =
    reconcileReference id (ik_subjectType k) (om_Name obj) (ik_key k) (referenced obj)
      (ik_target k) (ik_targetType k).
Proof.
  unfold reconcileReferenceFindings, reconcileReference.
  assert (∀ a b : uuid, (if bool_decide (a = Nil) then b else a) =
    default Nil (if bool_decide (a ≠ Nil) then Some a
                 else if bool_decide (b ≠ Nil) then Some b else None)) as H.
  { intros a b. repeat case_bool_decide; simpl; congruence. }
  unfold referenced, annotated_ref. by rewrite H.
Qed.

(** The instance the reconciler stores. *)
Definition stored_instance (x : ik_type k) (req : NamespacedName) (w : World) : ik_type k :=
  match ik_GetSystemInstance k x with
  | Some _ => x
  | None =>
      let siID := NameIndex_GetHelmOwner (ik_kind k) (nn_String req) (w_index w) in
      if bool_decide (siID ≠ Nil) then ik_SetSystemInstance k siID x else x
  end.

Lemma with_helm_owner_result x req w : result (with_helm_owner k x req) w = stored_instance x req w.
Proof. unfold with_helm_owner, stored_instance. case_match; run_ops; done. Qed.
Lemma with_helm_owner_exec x req w : exec (with_helm_owner k x req) w = w.
Proof. unfold with_helm_owner. case_match; run_ops; done. Qed.

Lemma stored_instance_id x req w : id_of (ik_entity k (stored_instance x req w)) = id_of (ik_entity k x).
Proof. unfold stored_instance. repeat case_match; auto using ik_set_id. Qed.

(** What holds after the reconcile of an existing object. *)
Record instance_synced (req : NamespacedName) (obj : ObjectMeta) (x : ik_type k) (id : uuid)
    (w w' : World) : Prop := {
  is_stored : get (ik_family k) id (w_model w') = Some (ik_entity k (stored_instance x req w));
  is_indexed : NameIndex_Get (ik_kind k) (nn_String req) (w_index w') = id;
  is_missing : finding_at w' (referenceFindingID id MissingResourceReference) =
    expected_missing (ref_status (referenced obj) (ik_target k) w)
      (missingFinding id (ik_subjectType k) (om_Name obj) (ik_key k));
  is_not_found : finding_at w' (referenceFindingID id ReferencedResourceNotFound) =
    expected_not_found (ref_status (referenced obj) (ik_target k) w)
      (notFoundFinding id (ik_subjectType k) (referenced obj) (ik_targetType k) (om_Name obj))
}.

(** The rules of the resource type write neither reference finding. *)
Definition rules_avoid_refs (id : uuid) (key : string) (obj : RObj) (w : World) : Prop :=
  rules_avoid (referenceFindingID id MissingResourceReference) key obj w ∧
  rules_avoid (referenceFindingID id ReferencedResourceNotFound) key obj w.

Lemma no_rules_avoid_refs id key obj w : w_rules w = ∅ → rules_avoid_refs id key obj w.
Proof.
  intros Hw. split; intros rule u Hin _; rewrite Hw in Hin; unfold GetRulesForResource in Hin;
    rewrite lookup_empty in Hin; by apply not_elem_of_nil in Hin.
Qed.

Lemma instance_found_spec skip key req obj x id w :
  skip (ob_Meta obj) = false → ik_from k (ob_Meta obj) = Some (x, id) →
  kinds_distinct id → rules_avoid_refs id key (RObject obj) w →
  (result (instance_reconcile k skip key req (GetOk obj)) w).(out_Err) = None →
  instance_synced req (ob_Meta obj) x id w
    (exec (instance_reconcile k skip key req (GetOk obj)) w).
Proof.
  intros Hskip Hfrom Hkd [Hav1 Hav2] Hok.
  destruct (ik_from_id _ _ _ Hfrom) as [Hid _].
  destruct ik_families as (F1 & F2 & F3 & F4 & F5).
  unfold instance_reconcile in *. rewrite Hskip, Hfrom in *. revert Hok. run_ops.
  rewrite with_helm_owner_result, with_helm_owner_exec.
  set (y := stored_instance x req w).
  assert (id_of (ik_entity k y) = id) as Hy by (unfold y; by rewrite stored_instance_id).
  destruct (add (ik_entity k y) (w_model w)) as [m r] eqn:Hadd. destruct r as [err|]; run_ops; [done|].
  intros _. rewrite reconcileReferenceFindings_eq.
  set (w1 := set_index _ (set_model m w)).
  set (p := reconcileReference _ _ _ _ _ _ _).
  assert (ref_status (referenced (ob_Meta obj)) (ik_target k) w =
          ref_status (referenced (ob_Meta obj)) (ik_target k) w1) as Hst.
  { unfold ref_status. simpl. case_bool_decide; [done|].
    erewrite <- (add_frame (ik_entity k y)); [done|done|by left|].
    rewrite ik_entity_family. congruence. }
  destruct (reconcileReference_table id (ik_subjectType k) (om_Name (ob_Meta obj)) (ik_key k)
    (referenced (ob_Meta obj)) (ik_target k) (ik_targetType k) w1 Hkd F3) as [Htm Htn].
  rewrite <- Hst in Htm, Htn. fold p in Htm, Htn.
  assert (w_rules (exec p w1) = w_rules w) as Hrules.
  { unfold p, reconcileReference. case_bool_decide; run_ops; [done|]. by case_match; run_ops. }
  assert (∀ i, rules_avoid i key (RObject obj) w → rules_avoid i key (RObject obj) (exec p w1)) as Hav.
  { intros i H. unfold rules_avoid. by rewrite Hrules. }
  destruct (sbf_run key (RObject obj) (exec p w1)) as [Hget Hidx _ _ _ _ _].
  split.
  - rewrite Hget by done. unfold p. rewrite reconcileReference_frame by congruence. simpl.
    apply add_ok in Hadd. by rewrite ik_entity_family, Hy in Hadd.
  - rewrite Hidx. unfold p. rewrite reconcileReference_index. simpl.
    rewrite Get_Put. by rewrite decide_True.
  - by rewrite run_keeps_finding by auto.
  - by rewrite run_keeps_finding by auto.
Qed.

(** What holds after the reconcile of a deleted object. *)
Record instance_removed (req : NamespacedName) (id : uuid) (w' : World) : Prop := {
  ir_stored : get (ik_family k) id (w_model w') = None;
  ir_indexed : NameIndex_Get (ik_kind k) (nn_String req) (w_index w') = Nil;
  ir_missing : finding_at w' (referenceFindingID id MissingResourceReference) = None;
  ir_not_found : finding_at w' (referenceFindingID id ReferencedResourceNotFound) = None
}.

Lemma instance_gone_spec skip key req id w :
  NameIndex_Get (ik_kind k) (nn_String req) (w_index w) = id → id ≠ Nil →
  kinds_distinct id → delete_silent (ik_family k) id →
  (result (instance_reconcile k skip key req GetNotFound) w).(out_Err) = None →
  instance_removed req id (exec (instance_reconcile k skip key req GetNotFound) w).
Proof.
  intros Hid Hnil Hkd Hnone Hok. unfold instance_reconcile in *. revert Hok. run_ops.
  rewrite Delete_fst, Hid. rewrite bool_decide_eq_false_2 by done. run_ops.
  set (m := (del FFinding _ (del FFinding _ _).1).1).
  assert (get FFinding (referenceFindingID id MissingResourceReference) m = None ∧
          get FFinding (referenceFindingID id ReferencedResourceNotFound) m = None) as [Hm Hn].
  { unfold m. split; [apply get_del_finding|].
    rewrite del_finding_frame by (unfold kinds_distinct in Hkd; congruence). apply get_del_finding. }
  destruct (del (ik_family k) id m) as [m' r] eqn:Hdel.
  pose proof (Hnone m) as Hnone'. rewrite Hdel in Hnone'. simpl in *. intros Hok.
  split; unfold finding_at; simpl; auto.
  - eapply del_gone; [done|]. destruct r as [err|]; [|by left]. right. simpl in Hok.
    case_bool_decide; [by subst|done].
  - rewrite Get_Delete. by rewrite decide_True.
Qed.

(** Which resources other than findings a reconcile may touch. *)
Lemma instance_found_frame skip key req obj x id w f i :
  ik_from k (ob_Meta obj) = Some (x, id) → f ≠ FFinding → f ≠ FFindingType →
  (f, i) ≠ (ik_family k, id) →
  get f i (w_model (exec (instance_reconcile k skip key req (GetOk obj)) w)) = get f i (w_model w).
Proof.
  intros Hfrom Hf Hft Hne. destruct (ik_from_id _ _ _ Hfrom) as [Hid _].
  unfold instance_reconcile. destruct (skip _); [done|]. rewrite Hfrom. run_ops.
  rewrite with_helm_owner_result, with_helm_owner_exec.
  destruct (add _ (w_model w)) as [m r] eqn:Hadd.
  assert (get f i m = get f i (w_model w)) as Hm.
  { eapply add_frame; [done|by left|]. by rewrite ik_entity_family, stored_instance_id, Hid. }
  destruct r as [err|]; run_ops; [done|].
  rewrite (sbf_get _ _ (sbf_run key (RObject obj) _)) by done.
  rewrite reconcileReferenceFindings_eq, reconcileReference_frame by congruence. done.
Qed.

Lemma instance_gone_frame skip key req w f i :
  f ≠ FFinding → (f, i) ≠ (ik_family k, NameIndex_Get (ik_kind k) (nn_String req) (w_index w)) →
  get f i (w_model (exec (instance_reconcile k skip key req GetNotFound) w)) = get f i (w_model w).
Proof.
  intros Hf Hne. unfold instance_reconcile. run_ops. rewrite Delete_fst. case_bool_decide; [done|].
  run_ops. destruct (del (ik_family k) _ _) as [m r] eqn:Hdel. simpl.
  erewrite (del_frame (ik_family k)); [|done|by left|done].
  by rewrite !del_finding_frame by congruence.
Qed.

(** Indexed id and stored instance of a successful reconcile, whatever the
    rules do to findings. *)
Lemma instance_found_stored skip key req obj x id w :
  skip (ob_Meta obj) = false → ik_from k (ob_Meta obj) = Some (x, id) →
  (result (instance_reconcile k skip key req (GetOk obj)) w).(out_Err) = None →
  let w' := exec (instance_reconcile k skip key req (GetOk obj)) w in
  get (ik_family k) id (w_model w') = Some (ik_entity k (stored_instance x req w)) ∧
  NameIndex_Get (ik_kind k) (nn_String req) (w_index w') = id.
Proof.
  intros Hskip Hfrom Hok w'. subst w'. destruct (ik_from_id _ _ _ Hfrom) as [Hid _].
  destruct ik_families as (F1 & F2 & _).
  unfold instance_reconcile in *. rewrite Hskip, Hfrom in *. revert Hok. run_ops.
  rewrite with_helm_owner_result, with_helm_owner_exec.
  destruct (add _ (w_model w)) as [m r] eqn:Hadd. destruct r as [err|]; run_ops; [done|].
  intros _. rewrite reconcileReferenceFindings_eq.
  set (p := reconcileReference _ _ _ _ _ _ _).
  destruct (sbf_run key (RObject obj) (exec p (set_index
    (NameIndex_Put (ik_kind k) (nn_String req) id (w_index w)) (set_model m w)))) as [Hget Hidx _ _ _ _ _].
  rewrite Hget, Hidx by done. unfold p.
  rewrite reconcileReference_frame, reconcileReference_index by congruence. simpl. split.
  - apply add_ok in Hadd. by rewrite ik_entity_family, stored_instance_id, Hid in Hadd.
  - rewrite Get_Put. by rewrite decide_True.
Qed.

Lemma instance_found_ok skip key req obj w :
  accepts (ik_family k) → (result (instance_reconcile k skip key req (GetOk obj)) w).(out_Err) = None.
Proof.
  intros Hacc. unfold instance_reconcile. destruct (skip _); [done|].
  destruct (ik_from k (ob_Meta obj)) as [[x id]|]; [|done]. run_ops.
  rewrite with_helm_owner_result, with_helm_owner_exec.
  rewrite (Hacc (ik_entity k (stored_instance x req w))) by apply ik_entity_family. by run_ops.
Qed.

Lemma instance_found_revision skip key req obj w :
  w_latestRevision (exec (instance_reconcile k skip key req (GetOk obj)) w) = w_latestRevision w.
Proof.
  unfold instance_reconcile. destruct (skip _); [done|].
  destruct (ik_from k (ob_Meta obj)) as [[x id]|]; [|done]. run_ops.
  rewrite with_helm_owner_result, with_helm_owner_exec.
  destruct (add _ (w_model w)) as [m [err|]]; run_ops; [done|].
  rewrite (sbf_revision _ _ (sbf_run key (RObject obj) _)).
  by rewrite reconcileReferenceFindings_eq, reconcileReference_revision.
Qed.

(** Two live objects of different kinds that share a namespace and a name share
    one entry of the name index. Deleting the first deletes the model resource
    of the second and keeps its own. *)
Lemma instance_name_clash skip1 skip2 key1 key2 req o1 x1 id1 o2 x2 id2 w :
  skip1 (ob_Meta o1) = false → skip2 (ob_Meta o2) = false →
  ik_from k (ob_Meta o1) = Some (x1, id1) → ik_from k (ob_Meta o2) = Some (x2, id2) → id1 ≠ id2 →
  let r1 := instance_reconcile k skip1 key1 req (GetOk o1) in
  let r2 := instance_reconcile k skip2 key2 req (GetOk o2) in
  let r3 := instance_reconcile k skip1 key1 req GetNotFound in
  (result r1 w).(out_Err) = None → (result r2 (exec r1 w)).(out_Err) = None →
  (result r3 (exec r2 (exec r1 w))).(out_Err) = None →
  let w3 := exec r3 (exec r2 (exec r1 w)) in
  get (ik_family k) id2 (w_model w3) = None ∧
  get (ik_family k) id1 (w_model w3) = Some (ik_entity k (stored_instance x1 req w)).
Proof.
  intros Hs1 Hs2 Hf1 Hf2 Hne r1 r2 r3 Hok1 Hok2 Hok3 w3. subst w3.
  destruct ik_families as (F1 & F2 & _).
  destruct (instance_found_stored _ _ _ _ _ _ _ Hs1 Hf1 Hok1) as [Hg1 _].
  destruct (instance_found_stored _ _ _ _ _ _ _ Hs2 Hf2 Hok2) as [_ Hi2].
  destruct (ik_from_id _ _ _ Hf2) as [_ Hnil]. fold r1 r2 in Hg1, Hi2.
  split.
  - revert Hok3. unfold r3, instance_reconcile. run_ops.
    rewrite Delete_fst, Hi2. rewrite bool_decide_eq_false_2 by done. run_ops.
    destruct (del (ik_family k) id2 _) as [m r] eqn:Hdel. simpl. intros Hok.
    eapply del_gone; [done|]. destruct r as [err|]; [|by left]. right. simpl in Hok.
    case_bool_decide; [by subst|done].
  - unfold r3. rewrite instance_gone_frame; [|done|rewrite Hi2; congruence].
    unfold r2. rewrite (instance_found_frame _ _ _ _ _ _ _ _ _ Hf2); [done|done|done|congruence].
Qed.
End facts.

(** ** The two reconcilers *)

Section theorems.
Context {L : Lib} {S : ModelSrv} {HL : ModelSrvLaws S} {HR : FindingsReliable S}.

(** C18. A workload that is not skipped and reconciles without an error is
    stored as a ComponentInstance whose SystemInstance is its annotation or
    else the Helm release owning it, is indexed by name, and has exactly the
    reference finding of the documented table: MissingResourceReference when
    neither component key is set, ReferencedResourceNotFound when the
    Component is not in the model, none when it is. *)
Theorem WorkloadReconciler_found skipFunc key req obj ci id w :
  match skipFunc with Some f => f (ob_Meta obj) | None => false end = false →
  componentInstanceFromMeta (ob_Meta obj) = Some (ci, id) →
  kinds_distinct id → rules_avoid_refs id key (RObject obj) w →
  (result (WorkloadReconciler_Reconcile skipFunc key req (GetOk obj)) w).(out_Err) = None →
  instance_synced WorkloadOps req (ob_Meta obj) ci id w
    (exec (WorkloadReconciler_Reconcile skipFunc key req (GetOk obj)) w).
Proof. intros. by apply (instance_found_spec WorkloadOps). Qed.

(** The same of Services and Ingresses: an ApiInstance, the API keys and
    the API they refer to. *)
Theorem APIInstanceReconciler_found key req obj ai id w :
  apiInstanceFromMeta (ob_Meta obj) = Some (ai, id) →
  kinds_distinct id → rules_avoid_refs id key (RObject obj) w →
  (result (APIInstanceReconciler_Reconcile key req (GetOk obj)) w).(out_Err) = None →
  instance_synced APIInstanceOps req (ob_Meta obj) ai id w
    (exec (APIInstanceReconciler_Reconcile key req (GetOk obj)) w).
Proof. intros. by apply (instance_found_spec APIInstanceOps). Qed.

(** Deleting a workload whose id is indexed removes the ComponentInstance,
    the index entry and both reference findings. *)
Theorem WorkloadReconciler_deleted skipFunc key req id w :
  NameIndex_Get KindComponentInstance (nn_String req) (w_index w) = id → id ≠ Nil →
  kinds_distinct id → delete_silent FComponentInstance id →
  (result (WorkloadReconciler_Reconcile skipFunc key req GetNotFound) w).(out_Err) = None →
  instance_removed WorkloadOps req id
    (exec (WorkloadReconciler_Reconcile skipFunc key req GetNotFound) w).
Proof. intros. by apply (instance_gone_spec WorkloadOps). Qed.

(** A Service and an Ingress of the same namespace and name, both alive
    and reconciled, share one index entry: when the Service is deleted the
    Ingress' ApiInstance disappears from the model and the Service's stays. *)
Theorem APIInstance_name_clash req svc x1 id1 ing x2 id2 w :
  apiInstanceFromMeta (ob_Meta svc) = Some (x1, id1) →
  apiInstanceFromMeta (ob_Meta ing) = Some (x2, id2) → id1 ≠ id2 →
  let r1 := APIInstanceReconciler_Reconcile "/services" req (GetOk svc) in
  let r2 := APIInstanceReconciler_Reconcile "networking.k8s.io/ingresses" req (GetOk ing) in
  let r3 := APIInstanceReconciler_Reconcile "/services" req GetNotFound in
  (result r1 w).(out_Err) = None → (result r2 (exec r1 w)).(out_Err) = None →
  (result r3 (exec r2 (exec r1 w))).(out_Err) = None →
  let w3 := exec r3 (exec r2 (exec r1 w)) in
  get FApiInstance id2 (w_model w3) = None ∧
  get FApiInstance id1 (w_model w3) = Some (EApiInstance (stored_instance APIInstanceOps x1 req w)).
Proof. intros H1 H2 Hne. by apply (instance_name_clash APIInstanceOps _ _ _ _ _ _ _ _ _ x2). Qed.
End theorems.
