(* ===== verification/HelmRelease.v ===== *)
(** * HelmRelease: [src/internal/controller/helmrelease_controller.go]

    Every Helm release that deploys no SystemInstance of its own becomes a
    SystemInstance. [latestRevision] keeps the highest revision seen of each
    release; older revisions are ignored. The resources of the manifest are
    recorded as owned by the release, and instances already in the model are
    linked to it. *)

From S2P Require Import Prelude.
From S2P Require Import Prog.
From S2P Require Import GoStrings.
From S2P Require Import HelmDecode.
From S2P Require Import K8s.
From S2P Require Import Lib.
From S2P Require Import Entities.
From S2P Require Import ModelSrv.
From S2P Require Import Registry.
From S2P Require Import RuleRepo.
From S2P Require Import State.
From S2P Require Import Convert.
From S2P Require Import RefFindings.
From S2P Require Import CrdControllers.
From S2P Require Import Instances.

Definition helmKindToResourceKind (kind : string) : option ResourceKind :=
  if bool_decide (kind ∈ ["Deployment"; "StatefulSet"; "DaemonSet"; "Job"; "CronJob"])
  then Some KindComponentInstance
  else if bool_decide (kind ∈ ["Service"; "Ingress"]) then Some KindAPIInstance
  else None.

(** The key of a resource of the manifest in the name index. *)
Definition helm_nameKey (releaseNamespace : string) (res : ManifestResource) : string :=
  let ns := if bool_decide (mr_Namespace res = "") then releaseNamespace else mr_Namespace res in
  ns +:+ "/" +:+ mr_Name res.

Definition helmSecretType : string := "helm.sh/release.v1".

(** The update of [latestRevision] by one revision of a release, and whether
    the revision is the latest: [tracked && revision < existing] is not. *)
Definition track_revision (releaseKey : string) (revision : Z) (latest : gmap string Z) : bool * gmap string Z :=
  match latest !! releaseKey with
  | Some existing => if (revision <? existing)%Z then (false, latest)
                     else (true, <[releaseKey := revision]> latest)
  | None => (true, <[releaseKey := revision]> latest)
  end.

(** [!exists || revision != tracked]: not the revision that is tracked. *)
Definition untrack_revision (releaseKey : string) (revision : Z) (latest : gmap string Z) : bool * gmap string Z :=
  match latest !! releaseKey with
  | Some tracked => if bool_decide (revision ≠ tracked) then (false, latest)
                    else (true, delete releaseKey latest)
  | None => (false, latest)
  end.

(** One Secret of the list in [populateLatestRevisions]. *)
Definition populate_one (latest : gmap string Z) (s : Secret) : gmap string Z :=
  if bool_decide (sec_Type s ≠ helmSecretType) then latest
  else
    let '(releaseName, revision, ok) := SecretNameParts (om_Name (sec_Meta s)) in
    if negb ok then latest
    else
      let releaseKey := om_Namespace (sec_Meta s) +:+ "/" +:+ releaseName in
      if (default 0 (latest !! releaseKey) <? revision)%Z then <[releaseKey := revision]> latest
      else latest.

Section helm.
Context {L : Lib} {S : ModelSrv} {C : HelmCodecs}.

Definition helmNamespaceUUID : uuid := uuid_MustParse "a3e4c5d6-1234-5678-9abc-def012345678".

Definition Track_revision (releaseKey : string) (revision : Z) : action bool :=
  atomic (λ w, let r := track_revision releaseKey revision (w_latestRevision w) in
               (r.1, set_latestRevision r.2 w)).
Definition Untrack_revision (releaseKey : string) (revision : Z) : action bool :=
  atomic (λ w, let r := untrack_revision releaseKey revision (w_latestRevision w) in
               (r.1, set_latestRevision r.2 w)).

(** [List] under the lock; [inl] is the error of the API client. *)
Definition populateLatestRevisions (secrets : string + list Secret) : action (option Err) :=
  match secrets with
  | inl err => Ret (Some (EGet err))
  | inr secrets =>
      writing (λ w, set_latestRevision (foldl populate_one (w_latestRevision w) secrets) w) ;;
      Ret None
  end.

Definition correlate_one (releaseNamespace : string) (systemInstanceID : uuid)
    (res : ManifestResource) : action unit :=
  match helmKindToResourceKind (mr_Kind res) with
  | None => Ret tt
  | Some kind =>
      let nameKey := helm_nameKey releaseNamespace res in
      Index_SetHelmOwner kind nameKey systemInstanceID ;;
      resourceID <- Index_Get kind nameKey ;;
      if bool_decide (resourceID = Nil) then Ret tt
      else
        match kind with
        | KindComponentInstance =>
            ci <- Model_Get FComponentInstance resourceID ;;
            match ci with
            | Some (EComponentInstance ci) =>
                _ <- Model_Add (EComponentInstance (ci_SetSystemInstance systemInstanceID ci)) ;; Ret tt
            | _ => Ret tt
            end
        | KindAPIInstance =>
            ai <- Model_Get FApiInstance resourceID ;;
            match ai with
            | Some (EApiInstance ai) =>
                _ <- Model_Add (EApiInstance (ai_SetSystemInstance systemInstanceID ai)) ;; Ret tt
            | _ => Ret tt
            end
        | _ => Ret tt
        end
  end.

Definition correlateResources (resources : list ManifestResource) (releaseNamespace : string)
    (systemInstanceID : uuid) : action unit :=
  for_each resources (correlate_one releaseNamespace systemInstanceID).

(** [reconcileSystemReferenceFindings]: the table of [RefFindings] for the
    system-reference annotation of the Secret. *)
Definition reconcileSystemReferenceFindings (id : uuid) (secret : Secret) (releaseName : string) : action unit :=
  reconcileReference id SystemInstanceResource releaseName AnnotationSystemReference
    (annotationUUID (om_Annotations (sec_Meta secret)) AnnotationSystemReference) FSystem SystemResource.

Definition release_id (releaseKey : string) : uuid := uuid_NewSHA1 helmNamespaceUUID releaseKey.

Definition release_instance (releaseName : string) (id : uuid) (rel : Release) : SystemInstance :=
  let md := Chart_Metadata (Release_Chart rel) in
  mkSystemInstance id releaseName None
    {["helm.sh/chart" := ChartMetadata_Name md +:+ "-" +:+ ChartMetadata_Version md]}.

Definition HelmReleaseReconciler_Reconcile (req : NamespacedName) (got : GetResult Secret) : action Outcome :=
  match got with
  | GetOk secret =>
      if bool_decide (sec_Type secret ≠ helmSecretType) then Ret done_ok
      else
        let '(releaseName, revision, ok) := SecretNameParts (om_Name (sec_Meta secret)) in
        if negb ok then Ret done_ok
        else
          let releaseKey := nn_Namespace req +:+ "/" +:+ releaseName in
          latest <- Track_revision releaseKey revision ;;
          if negb latest then Ret done_ok
          else
            match DecodeReleaseData (default "" (sec_Data secret !! "release")) with
            | inl _ => Ret done_ok
            | inr releaseData =>
                if bool_decide (Info_Status (Release_Info releaseData) ≠ "deployed") then Ret done_ok
                else
                  let resources := ParseManifestResources (Release_Manifest releaseData) in
                  if HasSystemInstance resources then Ret done_ok
                  else
                    let id := release_id releaseKey in
                    err <- Model_Add (ESystemInstance (release_instance releaseName id releaseData)) ;;
                    match err with
                    | Some err => Ret (failed (EModel err))
                    | None =>
                        Index_Put KindSystemInstance releaseKey id ;;
                        correlateResources resources (nn_Namespace req) id ;;
                        reconcileSystemReferenceFindings id secret releaseName ;;
                        Ret done_ok
                    end
            end
  | GetNotFound =>
      let '(releaseName, revision, ok) := SecretNameParts (nn_Name req) in
      if negb ok then Ret done_ok
      else
        let releaseKey := nn_Namespace req +:+ "/" +:+ releaseName in
        latest <- Untrack_revision releaseKey revision ;;
        if negb latest then Ret done_ok
        else
          id <- Index_Delete KindSystemInstance releaseKey ;;
          if bool_decide (id = Nil) then Ret done_ok
          else
            Index_DeleteHelmOwnersBySystemInstance id ;;
            deleteReferenceFinding id ReferencedResourceNotFound ;;
            deleteReferenceFinding id MissingResourceReference ;;
            delErr <- Model_Delete FSystemInstance id ;;
            Ret (ignore_not_found FSystemInstance delErr)
  | GetErr err => Ret (failed (EGet err))
  end.
End helm.

#[export] Hint Unfold Track_revision Untrack_revision : sensor.

(** ** Linking the resources of a manifest *)

Section link.
Context {L : Lib} {S : ModelSrv} {HL : ModelSrvLaws S}.

Lemma GetHelmOwner_Set k n si k' n' idx :
  NameIndex_GetHelmOwner k' n' (NameIndex_SetHelmOwner k n si idx) =
    if decide ((k, n) = (k', n')) then si else NameIndex_GetHelmOwner k' n' idx.
Proof.
  unfold NameIndex_GetHelmOwner, NameIndex_SetHelmOwner. simpl. rewrite !get2_at2, at2_put2. by case_decide.
Qed.

Lemma GetHelmOwner_DeleteBySI si k n idx :
  NameIndex_GetHelmOwner k n (NameIndex_DeleteHelmOwnersBySystemInstance si idx) =
    let o := NameIndex_GetHelmOwner k n idx in if decide (o = si) then Nil else o.
Proof.
  unfold NameIndex_GetHelmOwner, NameIndex_DeleteHelmOwnersBySystemInstance. simpl.
  rewrite !get2_at2, at2_filter. destruct (at2 (helmOwner idx) k n) as [o|]; simpl; [by case_decide|].
  by case_decide.
Qed.

(** The instance [e] with its SystemInstance replaced. *)
Definition link (si : uuid) (e : Entity) : Entity :=
  match e with
  | EComponentInstance ci => EComponentInstance (ci_SetSystemInstance si ci)
  | EApiInstance ai => EApiInstance (ai_SetSystemInstance si ai)
  | e => e
  end.

Lemma link_idemp si (o : option Entity) : link si <$> (link si <$> o) = link si <$> o.
Proof. by destruct o as [[]|]. Qed.
Lemma link_family si e : family_of (link si e) = family_of e.
Proof. by destruct e. Qed.
Lemma link_id si e : id_of (link si e) = id_of e.
Proof. by destruct e. Qed.

Lemma link_other si f i m :
  f ≠ FComponentInstance → f ≠ FApiInstance → link si <$> get f i m = get f i m.
Proof.
  intros H1 H2. destruct (get f i m) as [e|] eqn:E; [|done]. apply get_family in E as [<- _].
  by destruct e.
Qed.

(** The family of the instances indexed under a kind. *)
Definition instance_family (k : ResourceKind) : Family :=
  match k with KindComponentInstance => FComponentInstance | _ => FApiInstance end.

Definition owned (resources : list ManifestResource) (ns : string) (k : ResourceKind) (n : string) : Prop :=
  ∃ res, res ∈ resources ∧ helmKindToResourceKind (mr_Kind res) = Some k ∧ helm_nameKey ns res = n.

#[export] Instance owned_dec resources ns k n : Decision (owned resources ns k n).
Proof.
  refine (cast_if (decide (Exists (λ res, helmKindToResourceKind (mr_Kind res) = Some k ∧
    helm_nameKey ns res = n) resources))); unfold owned; rewrite <- list.Exists_exists; done.
Defined.

Lemma helm_kinds s k : helmKindToResourceKind s = Some k → k = KindComponentInstance ∨ k = KindAPIInstance.
Proof. unfold helmKindToResourceKind. repeat case_bool_decide; naive_solver. Qed.

Section correlate.
Context (resources : list ManifestResource) (ns : string) (si : uuid).
Hypothesis Hacc : accepts FComponentInstance ∧ accepts FApiInstance.

(** What correlating some of the resources may change. *)
Record correlated (w w' : World) : Prop := {
  co_names : names (w_index w') = names (w_index w);
  co_revision : w_latestRevision w' = w_latestRevision w;
  co_owner k n : ¬ owned resources ns k n →
    NameIndex_GetHelmOwner k n (w_index w') = NameIndex_GetHelmOwner k n (w_index w);
  co_owner_set k n : NameIndex_GetHelmOwner k n (w_index w') = NameIndex_GetHelmOwner k n (w_index w) ∨
    NameIndex_GetHelmOwner k n (w_index w') = si;
  co_store f i : f ≠ FFinding →
    get f i (w_model w') = get f i (w_model w) ∨ get f i (w_model w') = link si <$> get f i (w_model w)
}.

Lemma correlated_refl w : correlated w w.
Proof. split; auto. Qed.

Lemma correlated_trans w1 w2 w3 : correlated w1 w2 → correlated w2 w3 → correlated w1 w3.
Proof.
  intros [N1 V1 O1 T1 S1] [N2 V2 O2 T2 S2]. split; [congruence|congruence|..].
  - intros k n Hn. by rewrite O2, O1.
  - intros k n. destruct (T1 k n), (T2 k n); naive_solver congruence.
  - intros f i Hf. destruct (S1 f i Hf) as [E1|E1], (S2 f i Hf) as [E2|E2]; rewrite E2, E1;
      rewrite ?link_idemp; auto.
Qed.

(** Storing the linked instance [e] over [e]. *)
Lemma add_link_store e f i m :
  f = family_of e → f = FComponentInstance ∨ f = FApiInstance → get f i m = Some e →
  get f i (add (link si e) m).1 = Some (link si e) ∧
  ∀ f' i', f' ≠ FFinding → (f', i') ≠ (f, i) → get f' i' (add (link si e) m).1 = get f' i' m.
Proof.
  intros -> Hf Hget. destruct (get_family _ _ _ _ Hget) as [_ <-].
  destruct (add (link si e) m) as [m' r] eqn:E. simpl.
  assert (r = None) as ->.
  { destruct Hacc as [H1 H2]. change r with (m', r).2. rewrite <- E.
    destruct Hf as [Hf|Hf]; [apply H1|apply H2]; by rewrite link_family. }
  split.
  - apply add_ok in E. by rewrite link_family, link_id in E.
  - intros f' i' Hf' Hne. eapply add_frame; [done|by left|]. by rewrite link_family, link_id.
Qed.

(** One resource: it is recorded as owned, and its instance linked if indexed. *)
Lemma correlate_one_eq res k w :
  helmKindToResourceKind (mr_Kind res) = Some k →
  exec (correlate_one ns si res) w =
    let n := helm_nameKey ns res in
    let w1 := set_index (NameIndex_SetHelmOwner k n si (w_index w)) w in
    let iid := NameIndex_Get k n (w_index w) in
    if bool_decide (iid = Nil) then w1
    else match get (instance_family k) iid (w_model w) with
         | Some e => set_model (add (link si e) (w_model w)).1 w1
         | None => w1
         end.
Proof.
  intros Hk. unfold correlate_one. rewrite Hk. run_ops.
  change (NameIndex_Get k (helm_nameKey ns res) (NameIndex_SetHelmOwner k (helm_nameKey ns res) si (w_index w)))
    with (NameIndex_Get k (helm_nameKey ns res) (w_index w)).
  case_bool_decide; [done|].
  destruct (helm_kinds _ _ Hk) as [->| ->]; run_ops.
  all: destruct (get _ _ (w_model w)) as [e|] eqn:E; run_ops; [|done].
  all: apply get_family in E as [Hf _]; by destruct e; run_ops.
Qed.

Lemma correlate_one_correlated res w :
  res ∈ resources → correlated w (exec (correlate_one ns si res) w).
Proof.
  intros Hin. destruct (helmKindToResourceKind (mr_Kind res)) as [k|] eqn:Hk; last first.
  { unfold correlate_one. rewrite Hk. apply correlated_refl. }
  rewrite (correlate_one_eq res k) by done. cbv zeta.
  set (n := helm_nameKey ns res). set (w1 := set_index _ w).
  assert (correlated w w1) as H1.
  { split; try done; auto; intros k' n'; simpl; rewrite GetHelmOwner_Set.
    - intros Hn. rewrite decide_False; [done|]. intros [= <- <-]. apply Hn. by exists res.
    - case_decide; auto. }
  case_bool_decide; [done|].
  destruct (get (instance_family k) _ (w_model w)) as [e|] eqn:E; [|done].
  assert (instance_family k = family_of e) as Hf by (by apply get_family in E as [-> _]).
  destruct H1 as [N V O T _]. split; try done.
  intros f i Hff. simpl.
  destruct (add_link_store e (instance_family k) (NameIndex_Get k n (w_index w)) (w_model w) Hf) as [Hs Hfr];
    [destruct k; auto|done|].
  destruct (decide ((f, i) = (instance_family k, NameIndex_Get k n (w_index w)))) as [[= -> ->]|Hne].
  - right. by rewrite Hs, E.
  - left. by apply Hfr.
Qed.

Lemma correlate_correlated w : correlated w (exec (correlateResources resources ns si) w).
Proof.
  apply (exec_for_each_ind correlated).
  - apply correlated_refl.
  - apply correlated_trans.
  - intros. by apply correlate_one_correlated.
Qed.

(** Every resource of the manifest ends up owned. *)
Lemma correlate_owner k n w :
  NameIndex_GetHelmOwner k n (w_index (exec (correlateResources resources ns si) w)) =
    if decide (owned resources ns k n) then si else NameIndex_GetHelmOwner k n (w_index w).
Proof.
  case_decide as Ho; [|by apply co_owner; [apply correlate_correlated|]].
  destruct Ho as (res & Hin & Hk & <-).
  apply (exec_for_each_establishes_from correlated
    (λ w, NameIndex_GetHelmOwner k (helm_nameKey ns res) (w_index w) = si) _ _ res).
  - apply correlated_refl.
  - apply correlated_trans.
  - intros. by apply correlate_one_correlated.
  - intros w1 w2 H12 H1. destruct (co_owner_set _ _ H12 k (helm_nameKey ns res)); congruence.
  - intros w1 _. rewrite (correlate_one_eq res k) by done. cbv zeta.
    assert (NameIndex_GetHelmOwner k (helm_nameKey ns res)
      (NameIndex_SetHelmOwner k (helm_nameKey ns res) si (w_index w1)) = si) as H
      by (by rewrite GetHelmOwner_Set, decide_True).
    case_bool_decide; [done|]. by case_match.
  - done.
Qed.

(** Every instance of the manifest that was indexed ends up linked. *)
Lemma correlate_linked k n w :
  owned resources ns k n → NameIndex_Get k n (w_index w) ≠ Nil →
  let iid := NameIndex_Get k n (w_index w) in
  get (instance_family k) iid (w_model (exec (correlateResources resources ns si) w)) =
    link si <$> get (instance_family k) iid (w_model w).
Proof.
  intros (res & Hin & Hk & <-) Hnil iid.
  assert (instance_family k ≠ FFinding) as Hff by (by destruct k).
  set (P := λ w', link si <$> get (instance_family k) iid (w_model w') =
                  get (instance_family k) iid (w_model w')).
  assert (P (exec (correlateResources resources ns si) w)) as HP.
  { apply (exec_for_each_establishes_from correlated P _ _ res).
    - apply correlated_refl.
    - apply correlated_trans.
    - intros. by apply correlate_one_correlated.
    - intros w1 w2 H12 H1. unfold P in *.
      destruct (co_store _ _ H12 (instance_family k) iid Hff) as [-> | ->]; [done|by rewrite link_idemp].
    - intros w1 Hw1. rewrite (correlate_one_eq res k) by done. cbv zeta.
      assert (NameIndex_Get k (helm_nameKey ns res) (w_index w1) = iid) as ->.
      { unfold NameIndex_Get, iid. by rewrite (co_names _ _ Hw1). }
      rewrite bool_decide_eq_false_2 by done. unfold P.
      destruct (get (instance_family k) iid (w_model w1)) as [e|] eqn:E; simpl; [|by rewrite E].
      destruct (add_link_store e (instance_family k) iid (w_model w1)) as [-> _].
      + by apply get_family in E as [-> _].
      + destruct k; auto.
      + done.
      + apply (link_idemp si (Some e)).
    - done. }
  destruct (co_store _ _ (correlate_correlated w) (instance_family k) iid Hff) as [E|E]; [|done].
  unfold P in HP. by rewrite <- HP, E.
Qed.
End correlate.
End link.

(** ** What a reconcile establishes *)

Section facts.
Context {L : Lib} {S : ModelSrv} {C : HelmCodecs} {HL : ModelSrvLaws S} {HR : FindingsReliable S}.

(** [secret] holds revision [rev] of release [name], deployed, whose manifest
    has no SystemInstance. *)
Record deployed_release (secret : Secret) (name : string) (rev : Z) (rel : Release) : Prop := {
  dr_type : sec_Type secret = helmSecretType;
  dr_name : SecretNameParts (om_Name (sec_Meta secret)) = (name, rev, true);
  dr_decode : DecodeReleaseData (default "" (sec_Data secret !! "release")) = inr rel;
  dr_status : Info_Status (Release_Info rel) = "deployed";
  dr_no_si : HasSystemInstance (ParseManifestResources (Release_Manifest rel)) = false
}.

(** No higher revision of the release has been seen. *)
Definition is_latest (key : string) (rev : Z) (w : World) : Prop :=
  ∀ e, w_latestRevision w !! key = Some e → (e <= rev)%Z.

Lemma track_revision_latest key rev w :
  is_latest key rev w → track_revision key rev (w_latestRevision w) = (true, <[key := rev]> (w_latestRevision w)).
Proof.
  intros H. unfold track_revision. destruct (_ !! key) as [e|] eqn:E; [|done].
  specialize (H e E). by rewrite (proj2 (Z.ltb_ge rev e)).
Qed.

Record release_synced (ns : string) (secret : Secret) (name : string) (rev : Z) (rel : Release)
    (w w' : World) : Prop := {
  rl_stored : let id := release_id (ns +:+ "/" +:+ name) in
    get FSystemInstance id (w_model w') = Some (ESystemInstance (release_instance name id rel));
  rl_indexed : NameIndex_Get KindSystemInstance (ns +:+ "/" +:+ name) (w_index w') =
    release_id (ns +:+ "/" +:+ name);
  rl_tracked : w_latestRevision w' !! (ns +:+ "/" +:+ name) = Some rev;
  rl_owner k n : NameIndex_GetHelmOwner k n (w_index w') =
    if decide (owned (ParseManifestResources (Release_Manifest rel)) ns k n)
    then release_id (ns +:+ "/" +:+ name) else NameIndex_GetHelmOwner k n (w_index w);
  rl_linked k n iid :
    owned (ParseManifestResources (Release_Manifest rel)) ns k n →
    NameIndex_Get k n (w_index w) = iid → iid ≠ Nil →
    get (instance_family k) iid (w_model w') =
      link (release_id (ns +:+ "/" +:+ name)) <$> get (instance_family k) iid (w_model w);
  rl_missing : let id := release_id (ns +:+ "/" +:+ name) in
    let refID := annotationUUID (om_Annotations (sec_Meta secret)) AnnotationSystemReference in
    finding_at w' (referenceFindingID id MissingResourceReference) =
      expected_missing (ref_status refID FSystem w)
        (missingFinding id SystemInstanceResource name AnnotationSystemReference);
  rl_not_found : let id := release_id (ns +:+ "/" +:+ name) in
    let refID := annotationUUID (om_Annotations (sec_Meta secret)) AnnotationSystemReference in
    finding_at w' (referenceFindingID id ReferencedResourceNotFound) =
      expected_not_found (ref_status refID FSystem w)
        (notFoundFinding id SystemInstanceResource refID SystemResource name)
}.

(** The reconcile of a deployed release, step by step. *)
Lemma helm_deployed_eq req secret name rev rel w :
  deployed_release secret name rev rel → is_latest (nn_Namespace req +:+ "/" +:+ name) rev w →
  run (HelmReleaseReconciler_Reconcile req (GetOk secret)) w =
    let key := nn_Namespace req +:+ "/" +:+ name in
    let id := release_id key in
    let w1 := set_latestRevision (<[key := rev]> (w_latestRevision w)) w in
    let r := add (ESystemInstance (release_instance name id rel)) (w_model w) in
    match r.2 with
    | Some err => (failed (EModel err), set_model r.1 w1)
    | None =>
        let w2 := set_index (NameIndex_Put KindSystemInstance key id (w_index w)) (set_model r.1 w1) in
        let w3 := exec (correlateResources (ParseManifestResources (Release_Manifest rel)) (nn_Namespace req) id) w2 in
        (done_ok, exec (reconcileSystemReferenceFindings id secret name) w3)
    end.
Proof.
  intros [Ht Hn Hd Hs Hsi] Hlatest. unfold HelmReleaseReconciler_Reconcile.
  rewrite bool_decide_eq_false_2 by naive_solver. rewrite Hn. cbn [negb].
  rewrite run_pair. run_ops. rewrite track_revision_latest by done. cbn [fst snd negb].
  rewrite Hd, (bool_decide_eq_false_2 (_ ≠ "deployed")) by naive_solver. rewrite Hsi. run_ops.
  destruct (add _ (w_model w)) as [m [err|]]; by run_ops.
Qed.

Lemma helm_deployed_spec req secret name rev rel w :
  deployed_release secret name rev rel → is_latest (nn_Namespace req +:+ "/" +:+ name) rev w →
  accepts FSystemInstance → accepts FComponentInstance → accepts FApiInstance →
  kinds_distinct (release_id (nn_Namespace req +:+ "/" +:+ name)) →
  release_synced (nn_Namespace req) secret name rev rel w
    (exec (HelmReleaseReconciler_Reconcile req (GetOk secret)) w).
Proof.
  intros Hdep Hlatest Hsi Hci Hai Hkd.
  unfold exec at 1. rewrite helm_deployed_eq with (1 := Hdep) by done. cbv zeta.
  set (ns := nn_Namespace req). set (key := ns +:+ "/" +:+ name). fold ns key in Hkd.
  set (id := release_id key). set (si := release_instance name id rel).
  destruct (add (ESystemInstance si) (w_model w)) as [m r] eqn:Hadd.
  assert (r = None) as ->.
  { change r with (m, r).2. rewrite <- Hadd. by apply Hsi. }
  cbn [fst snd]. set (w2 := set_index _ _). set (res := ParseManifestResources _).
  pose proof (correlate_correlated res ns id (conj Hci Hai) w2) as Hco.
  pose proof (correlate_owner res ns id (conj Hci Hai)) as Hown.
  pose proof (correlate_linked res ns id (conj Hci Hai)) as Hlink.
  set (w3 := exec (correlateResources res ns id) w2) in *.
  unfold reconcileSystemReferenceFindings.
  set (refID := annotationUUID _ _).
  set (p := reconcileReference id SystemInstanceResource name AnnotationSystemReference refID FSystem SystemResource).
  destruct (reconcileReference_only_model id SystemInstanceResource name AnnotationSystemReference refID
    FSystem SystemResource w3) as [m4 Hw4]. fold p in Hw4.
  assert (∀ f i, f ≠ FFinding → get f i (w_model (exec p w3)) = get f i (w_model w3)) as Hframe.
  { intros f i Hf. apply reconcileReference_frame; congruence. }
  assert (∀ f i, f ≠ FFinding → f ≠ FSystemInstance → get f i (w_model w2) = get f i (w_model w)) as Hm.
  { intros f i Hf1 Hf2. simpl. eapply add_frame; [done|by left|]. simpl. congruence. }
  assert (ref_status refID FSystem w3 = ref_status refID FSystem w) as Hst.
  { unfold ref_status. case_bool_decide; [done|].
    assert (get FSystem refID (w_model w3) = get FSystem refID (w_model w2)) as ->.
    { destruct (co_store _ _ _ _ _ Hco FSystem refID) as [-> | ->]; [done|done|by apply link_other]. }
    by rewrite Hm. }
  destruct (reconcileReference_table id SystemInstanceResource name AnnotationSystemReference refID FSystem
    SystemResource w3 Hkd) as [Tm Tn]; [done|]. fold p in Tm, Tn. rewrite Hst in Tm, Tn.
  split; fold key id; try done.
  - cbv zeta. rewrite Hframe by done. apply add_ok in Hadd.
    destruct (co_store _ _ _ _ _ Hco FSystemInstance id) as [-> | ->]; [done|done|].
    by rewrite link_other.
  - rewrite Hw4. simpl. unfold NameIndex_Get. rewrite (co_names _ _ _ _ _ Hco).
    change (NameIndex_Get KindSystemInstance key (w_index w2) = id). simpl. by rewrite Get_Put, decide_True.
  - rewrite Hw4. simpl. rewrite (co_revision _ _ _ _ _ Hco). simpl. by rewrite lookup_insert_eq.
  - intros k n. rewrite Hw4. apply (Hown k n w2).
  - intros k n iid Ho Hiid Hnil. rewrite Hframe by (by destruct k).
    assert (NameIndex_Get k n (w_index w2) = iid) as Hiid2.
    { simpl. rewrite Get_Put. rewrite decide_False; [done|]. intros [= <- _].
      destruct Ho as (? & _ & Hk & _). by destruct (helm_kinds _ _ Hk). }
    rewrite <- Hiid2 at 1. unfold w3. rewrite (Hlink k n w2) by (done || by rewrite Hiid2).
    rewrite Hiid2, Hm; [done|by destruct k..].
Qed.
End facts.

(** ** Revisions *)

Section revisions.
Context {L : Lib} {S : ModelSrv} {C : HelmCodecs}.

(** The revision of release [key] that the name of a Secret carries. *)
Definition seen (key ns secretName : string) : option Z :=
  let '(name, rev, ok) := SecretNameParts secretName in
  if ok && bool_decide (ns +:+ "/" +:+ name = key) then Some rev else None.

Lemma track_revision_fst_false key rev latest :
  (track_revision key rev latest).1 = false → (track_revision key rev latest).2 = latest.
Proof. unfold track_revision. by repeat case_match. Qed.

Lemma correlate_revision resources ns si w :
  w_latestRevision (exec (correlateResources resources ns si) w) = w_latestRevision w.
Proof.
  apply (exec_for_each_ind (λ w w', w_latestRevision w' = w_latestRevision w)); [done|congruence|].
  intros res w1 _. unfold correlate_one. destruct (helmKindToResourceKind _) as [k|]; [|done].
  run_ops. case_bool_decide; run_ops; [done|].
  destruct k; run_ops; try done; case_match; run_ops; try done; case_match; by run_ops.
Qed.

(** What the reconcile of an existing Secret does to the revisions. *)
Lemma helm_found_revision req secret w :
  w_latestRevision (exec (HelmReleaseReconciler_Reconcile req (GetOk secret)) w) =
    let '(name, rev, ok) := SecretNameParts (om_Name (sec_Meta secret)) in
    if bool_decide (sec_Type secret = helmSecretType) && ok
    then (track_revision (nn_Namespace req +:+ "/" +:+ name) rev (w_latestRevision w)).2
    else w_latestRevision w.
Proof.
  unfold HelmReleaseReconciler_Reconcile. destruct (SecretNameParts _) as [[name rev] ok].
  destruct (decide (sec_Type secret = helmSecretType)) as [Ht|Ht]; last first.
  { rewrite bool_decide_eq_true_2 by done. by rewrite (bool_decide_eq_false_2 (_ = _)). }
  rewrite bool_decide_eq_false_2 by naive_solver. rewrite bool_decide_eq_true_2 by done.
  destruct ok; [|done]. cbn [negb andb]. run_ops.
  destruct (track_revision _ _ _).1; run_ops; [|done].
  destruct (DecodeReleaseData _) as [|rel]; [done|]. case_bool_decide; [done|].
  destruct (HasSystemInstance _); [done|]. run_ops.
  destruct (add _ _) as [m [err|]]; run_ops; [done|]. unfold reconcileSystemReferenceFindings.
  by rewrite reconcileReference_revision, correlate_revision.
Qed.

(** The revision of release [key] that the reconcile of a Secret takes note of. *)
Definition noted_revision (key : string) (ev : NamespacedName * Secret) : option Z :=
  if bool_decide (sec_Type ev.2 = helmSecretType)
  then seen key (nn_Namespace ev.1) (om_Name (sec_Meta ev.2)) else None.

(** The higher of what is tracked and a revision. *)
Definition raise (tracked rev : option Z) : option Z :=
  match tracked, rev with
  | Some t, Some r => Some (Z.max t r)
  | None, r => r
  | t, None => t
  end.

Lemma helm_found_raises ev w key :
  w_latestRevision (exec (HelmReleaseReconciler_Reconcile ev.1 (GetOk ev.2)) w) !! key =
    raise (w_latestRevision w !! key) (noted_revision key ev).
Proof.
  rewrite helm_found_revision. unfold noted_revision, seen.
  destruct (SecretNameParts _) as [[name rev] ok]. case_bool_decide; [|by destruct (_ !! key)].
  destruct ok; cbn [andb]; [|by destruct (_ !! key)].
  set (k := nn_Namespace ev.1 +:+ "/" +:+ name). unfold track_revision.
  case_bool_decide as Hk.
  - subst key. destruct (w_latestRevision w !! k) as [e|] eqn:E; simpl.
    + destruct (Z.ltb_spec rev e); simpl; [rewrite E; f_equal; lia|].
      rewrite lookup_insert_eq. f_equal. lia.
    + by rewrite lookup_insert_eq.
  - destruct (w_latestRevision w !! k) as [e|] eqn:E; simpl.
    + destruct (rev <? e)%Z; simpl; rewrite ?lookup_insert_ne by done; by destruct (_ !! key).
    + rewrite lookup_insert_ne by done. by destruct (_ !! key).
Qed.

(** The reconciles of a sequence of Secrets, one after the other. *)
Definition reconcile_secrets (evs : list (NamespacedName * Secret)) : action unit :=
  for_each evs (λ ev, _ <- HelmReleaseReconciler_Reconcile ev.1 (GetOk ev.2) ;; Ret tt).

Lemma raise_foldl (revs : list (option Z)) (o : option Z) (r : Z) :
  foldl raise o revs = Some r ↔
    (Some r = o ∨ Some r ∈ revs) ∧ (∀ r', Some r' = o ∨ Some r' ∈ revs → (r' <= r)%Z).
Proof.
  revert o. induction revs as [|x revs IH]; intros o; simpl.
  - split.
    + intros ->. split; [by left|]. intros r' [[= ->]|H]; [done|by apply not_elem_of_nil in H].
    + intros [[->|H] _]; [done|by apply not_elem_of_nil in H].
  - rewrite IH. setoid_rewrite elem_of_cons. destruct o as [a|], x as [b|]; simpl.
    + split.
      * intros [H1 H2]. split.
        { destruct H1 as [[= ->]|H1]; [|auto]. destruct (Z.max_spec a b) as [[_ ->]|[_ ->]]; auto. }
        intros r' [[= ->]|[[= ->]|Hr]]; [..|auto].
        all: specialize (H2 _ (or_introl eq_refl)); lia.
      * intros [H1 H2]. pose proof (H2 a (or_introl eq_refl)). pose proof (H2 b (or_intror (or_introl eq_refl))).
        split; [|intros r' [[= ->]|Hr]; [lia|auto]].
        destruct H1 as [[= ->]|[[= ->]|H1]]; [..|auto]; left; f_equal; lia.
    + naive_solver.
    + naive_solver.
    + naive_solver.
Qed.

Lemma reconcile_secrets_raises evs w key :
  w_latestRevision (exec (reconcile_secrets evs) w) !! key =
    foldl raise (w_latestRevision w !! key) (noted_revision key <$> evs).
Proof.
  unfold reconcile_secrets. revert w. induction evs as [|ev evs IH]; intros w; [done|].
  rewrite exec_for_each_cons, IH, exec_bind, exec_Ret. by rewrite helm_found_raises.
Qed.
End revisions.

(** ** The theorems *)

Section theorems.
Context {L : Lib} {HLib : LibLaws} {S : ModelSrv} {C : HelmCodecs} {HL : ModelSrvLaws S} {HR : FindingsReliable S}.

(** C12. The reconcile of the latest revision of a deployed Helm release whose
    manifest has no SystemInstance stores and indexes a SystemInstance under an
    id that depends on namespace and release name only, tracks the revision,
    records every workload, Service and Ingress of the manifest as owned by the
    release (and no other), links every instance of the manifest that is
    already in the model, and leaves the reference findings of the table for
    the system-reference annotation. *)
Theorem HelmReleaseReconciler_deployed req secret name rev rel w :
  deployed_release secret name rev rel → is_latest (nn_Namespace req +:+ "/" +:+ name) rev w →
  accepts FSystemInstance → accepts FComponentInstance → accepts FApiInstance →
  kinds_distinct (release_id (nn_Namespace req +:+ "/" +:+ name)) →
  release_synced (nn_Namespace req) secret name rev rel w
    (exec (HelmReleaseReconciler_Reconcile req (GetOk secret)) w).
Proof. apply helm_deployed_spec. Qed.

(** C17. In whatever order the Secrets of the revisions arrive, the tracked
    revision of a release is the highest one seen; and a Secret of a lower
    revision than the tracked one, or the deletion of any other revision than
    the tracked one, changes nothing. *)
Theorem HelmReleaseReconciler_revisions :
  (∀ evs w key r,
     w_latestRevision (exec (reconcile_secrets evs) w) !! key = Some r ↔
       (Some r = w_latestRevision w !! key ∨ Some r ∈ noted_revision key <$> evs) ∧
       ∀ r', Some r' = w_latestRevision w !! key ∨ Some r' ∈ noted_revision key <$> evs → (r' <= r)%Z) ∧
  (∀ req secret name rev w e,
     SecretNameParts (om_Name (sec_Meta secret)) = (name, rev, true) →
     w_latestRevision w !! (nn_Namespace req +:+ "/" +:+ name) = Some e → (rev < e)%Z →
     run (HelmReleaseReconciler_Reconcile req (GetOk secret)) w = (done_ok, w)) ∧
  (∀ req name rev w,
     SecretNameParts (nn_Name req) = (name, rev, true) →
     w_latestRevision w !! (nn_Namespace req +:+ "/" +:+ name) ≠ Some rev →
     run (HelmReleaseReconciler_Reconcile req GetNotFound) w = (done_ok, w)).
Proof.
  split_and!.
  - intros. rewrite reconcile_secrets_raises. apply raise_foldl.
  - intros req secret name rev w e Hn He Hlt. unfold HelmReleaseReconciler_Reconcile.
    case_bool_decide; [done|]. rewrite Hn. cbn [negb]. rewrite run_pair. run_ops.
    unfold track_revision. rewrite He, (proj2 (Z.ltb_lt rev e) Hlt). run_ops. by destruct w.
  - intros req name rev w Hn Hne. unfold HelmReleaseReconciler_Reconcile. rewrite Hn. cbn [negb].
    rewrite run_pair. run_ops. unfold untrack_revision.
    destruct (_ !! _) as [e|] eqn:E; [|by run_ops; destruct w].
    rewrite bool_decide_eq_true_2 by congruence. run_ops. by destruct w.
Qed.

(** C36. The deletion of the Secret of the tracked revision removes the
    SystemInstance of the release from the model and the index, stops tracking
    the release, clears both reference findings, and leaves no resource owned
    by it. *)
Theorem HelmReleaseReconciler_deleted req name rev id w :
  SecretNameParts (nn_Name req) = (name, rev, true) →
  w_latestRevision w !! (nn_Namespace req +:+ "/" +:+ name) = Some rev →
  NameIndex_Get KindSystemInstance (nn_Namespace req +:+ "/" +:+ name) (w_index w) = id → id ≠ Nil →
  kinds_distinct id → delete_silent FSystemInstance id →
  let p := HelmReleaseReconciler_Reconcile req GetNotFound in
  (result p w).(out_Err) = None →
  get FSystemInstance id (w_model (exec p w)) = None ∧
  NameIndex_Get KindSystemInstance (nn_Namespace req +:+ "/" +:+ name) (w_index (exec p w)) = Nil ∧
  w_latestRevision (exec p w) !! (nn_Namespace req +:+ "/" +:+ name) = None ∧
  (∀ k n, NameIndex_GetHelmOwner k n (w_index (exec p w)) ≠ id) ∧
  finding_at (exec p w) (referenceFindingID id MissingResourceReference) = None ∧
  finding_at (exec p w) (referenceFindingID id ReferencedResourceNotFound) = None.
Proof.
  intros Hn Hrev Hid Hnil Hkd Hsilent p. subst p. set (key := nn_Namespace req +:+ "/" +:+ name) in *.
  unfold HelmReleaseReconciler_Reconcile. rewrite Hn. cbn [negb]. fold key. run_ops.
  unfold untrack_revision. rewrite Hrev, bool_decide_eq_false_2 by naive_solver. run_ops.
  rewrite Delete_fst, Hid, bool_decide_eq_false_2 by done. run_ops.
  set (m := (del FFinding _ (del FFinding _ _).1).1).
  assert (get FFinding (referenceFindingID id MissingResourceReference) m = None ∧
          get FFinding (referenceFindingID id ReferencedResourceNotFound) m = None) as [Hm1 Hm2].
  { unfold m. split; [apply get_del_finding|].
    rewrite del_finding_frame by (unfold kinds_distinct in Hkd; congruence). apply get_del_finding. }
  destruct (del FSystemInstance id m) as [m' r] eqn:Hdel. simpl. intros Hok.
  assert (∀ i, get FFinding i m = None → get FFinding i m' = None) as Hs.
  { intros i Hi. specialize (Hsilent m i Hi). by rewrite Hdel in Hsilent. }
  split_and!; unfold finding_at; simpl; auto.
  - eapply del_gone; [done|]. destruct r as [err|]; [|by left]. right. simpl in Hok.
    case_bool_decide; [by subst|done].
  - change (NameIndex_Get KindSystemInstance key (NameIndex_Delete KindSystemInstance key (w_index w)).2 = Nil).
    by rewrite Get_Delete, decide_True.
  - by rewrite lookup_delete_eq.
  - intros k n. rewrite GetHelmOwner_DeleteBySI. cbv zeta. case_decide; congruence.
Qed.

(** The release deploys the workload [req]. *)
Abbreviation deploys rel hreq req :=
  (owned (ParseManifestResources (Release_Manifest rel)) (nn_Namespace hreq) KindComponentInstance (nn_String req)).

(** The hypotheses of the next three theorems: [hreq] is the request of a
    deployed latest release, in a model that accepts instances. *)
Record release_ready (hreq : NamespacedName) (secret : Secret) (name : string) (rev : Z) (rel : Release)
    (w : World) : Prop := {
  rr_deployed : deployed_release secret name rev rel;
  rr_latest : is_latest (nn_Namespace hreq +:+ "/" +:+ name) rev w;
  rr_accepts : accepts FSystemInstance ∧ accepts FComponentInstance ∧ accepts FApiInstance;
  rr_id : kinds_distinct (release_id (nn_Namespace hreq +:+ "/" +:+ name)) ∧
    release_id (nn_Namespace hreq +:+ "/" +:+ name) ≠ Nil
}.

(** What is stored for a workload of the release, in both orders. *)
Lemma helm_workload_states hreq secret name rev rel key req obj ci cid w :
  release_ready hreq secret name rev rel w → deploys rel hreq req →
  componentInstanceFromMeta (ob_Meta obj) = Some (ci, cid) →
  let si := release_id (nn_Namespace hreq +:+ "/" +:+ name) in
  let helm := HelmReleaseReconciler_Reconcile hreq (GetOk secret) in
  let workload := WorkloadReconciler_Reconcile None key req (GetOk obj) in
  get FComponentInstance cid (w_model (exec workload (exec helm w))) =
    Some (EComponentInstance (match ci_SystemInstance ci with
                              | Some _ => ci | None => ci_SetSystemInstance si ci end)) ∧
  get FComponentInstance cid (w_model (exec helm (exec workload w))) =
    Some (EComponentInstance (ci_SetSystemInstance si ci)).
Proof.
  intros [Hdep Hlatest (Hsi & Hci & Hai) [Hkd Hnil]] Howned Hfrom si helm workload.
  assert (∀ w, get FComponentInstance cid (w_model (exec workload w)) =
      Some (ik_entity WorkloadOps (stored_instance WorkloadOps ci req w)) ∧
      NameIndex_Get KindComponentInstance (nn_String req) (w_index (exec workload w)) = cid) as Hwl.
  { intros w'. apply (instance_found_stored WorkloadOps); [done|done|].
    by apply (instance_found_ok WorkloadOps). }
  split.
  - destruct (Hwl (exec helm w)) as [-> _].
    pose proof (helm_deployed_spec hreq secret name rev rel w Hdep Hlatest Hsi Hci Hai Hkd) as Hs.
    fold helm in Hs. unfold stored_instance. simpl. destruct (ci_SystemInstance ci); [done|].
    rewrite (rl_owner _ _ _ _ _ _ _ Hs), decide_True by done. by rewrite bool_decide_eq_true_2.
  - assert (is_latest (nn_Namespace hreq +:+ "/" +:+ name) rev (exec workload w)) as Hl2
      by (unfold is_latest, workload, WorkloadReconciler_Reconcile; by rewrite instance_found_revision).
    pose proof (helm_deployed_spec hreq secret name rev rel _ Hdep Hl2 Hsi Hci Hai Hkd) as Hs. fold helm in Hs.
    destruct (Hwl w) as [Hg Hi].
    etrans; [apply (rl_linked _ _ _ _ _ _ _ Hs KindComponentInstance (nn_String req) cid); try done;
      by destruct (ik_from_id (k := WorkloadOps) _ _ _ Hfrom)|].
    simpl. rewrite Hg. simpl. do 2 f_equal. unfold stored_instance. simpl.
    destruct (ci_SystemInstance ci); [done|]. by case_bool_decide.
Qed.

(** A workload without a SystemInstance annotation that a Helm release
    deploys ends up linked to the release's SystemInstance whichever of the
    two is reconciled first, and both orders store the same instance. *)
Theorem helm_workload_orders hreq secret name rev rel key req obj ci cid w :
  release_ready hreq secret name rev rel w → deploys rel hreq req →
  componentInstanceFromMeta (ob_Meta obj) = Some (ci, cid) → ci_SystemInstance ci = None →
  let si := release_id (nn_Namespace hreq +:+ "/" +:+ name) in
  let helm := HelmReleaseReconciler_Reconcile hreq (GetOk secret) in
  let workload := WorkloadReconciler_Reconcile None key req (GetOk obj) in
  get FComponentInstance cid (w_model (exec workload (exec helm w))) =
    Some (EComponentInstance (ci_SetSystemInstance si ci)) ∧
  get FComponentInstance cid (w_model (exec helm (exec workload w))) =
    Some (EComponentInstance (ci_SetSystemInstance si ci)).
Proof.
  intros Hr Hd Hf Hnone. pose proof (helm_workload_states hreq secret name rev rel key req obj ci cid w Hr Hd Hf) as H.
  by rewrite Hnone in H.
Qed.

(** With a SystemInstance annotation the result depends on the order: the
    annotation counts when the workload comes last, and is replaced by the
    SystemInstance of the release when the Secret comes last. *)
Theorem helm_overrides_annotation hreq secret name rev rel key req obj ci cid annotated w :
  release_ready hreq secret name rev rel w → deploys rel hreq req →
  componentInstanceFromMeta (ob_Meta obj) = Some (ci, cid) → ci_SystemInstance ci = Some annotated →
  let si := release_id (nn_Namespace hreq +:+ "/" +:+ name) in
  let helm := HelmReleaseReconciler_Reconcile hreq (GetOk secret) in
  let workload := WorkloadReconciler_Reconcile None key req (GetOk obj) in
  get FComponentInstance cid (w_model (exec workload (exec helm w))) = Some (EComponentInstance ci) ∧
  ∃ ci', get FComponentInstance cid (w_model (exec helm (exec workload w))) = Some (EComponentInstance ci') ∧
         ci_SystemInstance ci' = Some si.
Proof.
  intros Hr Hd Hf Ha. pose proof (helm_workload_states hreq secret name rev rel key req obj ci cid w Hr Hd Hf) as H.
  rewrite Ha in H. destruct H as [H1 H2]. split; [done|]. by eexists.
Qed.

(** A SystemInstance object named like a Helm release of its namespace
    shares the release's entry of the name index: once the object has been
    reconciled and deleted, deleting the release leaves its SystemInstance in
    the model for good. *)
Theorem helm_cr_collision_leaks hreq secret name rev rel req cr si_cr id_cr hgone rev' w :
  release_ready hreq secret name rev rel w →
  convertSystemInstance cr = Some (si_cr, id_cr) →
  id_cr ≠ release_id (nn_Namespace hreq +:+ "/" +:+ name) →
  nn_String req = nn_Namespace hreq +:+ "/" +:+ name →
  SecretNameParts (nn_Name hgone) = (name, rev', true) → nn_Namespace hgone = nn_Namespace hreq →
  let w1 := exec (HelmReleaseReconciler_Reconcile hreq (GetOk secret)) w in
  let w2 := exec (SystemInstanceReconciler_Reconcile req (GetOk cr)) w1 in
  let w3 := exec (SystemInstanceReconciler_Reconcile req GetNotFound) w2 in
  let w4 := exec (HelmReleaseReconciler_Reconcile hgone GetNotFound) w3 in
  get FSystemInstance (release_id (nn_Namespace hreq +:+ "/" +:+ name)) (w_model w4) =
    Some (ESystemInstance (release_instance name (release_id (nn_Namespace hreq +:+ "/" +:+ name)) rel)).
Proof.
  intros [Hdep Hlatest (Hsi & Hci & Hai) [Hkd Hnil]] Hcr Hne Hkey Hn Hns w1 w2 w3 w4.
  set (key := nn_Namespace hreq +:+ "/" +:+ name) in *.
  pose proof (helm_deployed_spec hreq secret name rev rel w Hdep Hlatest Hsi Hci Hai Hkd) as Hs.
  pose proof (rl_stored _ _ _ _ _ _ _ Hs) as Hst. cbv zeta in Hst. fold key w1 in Hst.
  set (conv := λ s, as_entity ESystemInstance (convertSystemInstance s)).
  assert (conv cr = Some (ESystemInstance si_cr, id_cr)) as Hconv by (unfold conv; by rewrite Hcr).
  assert (∀ cr e id, conv cr = Some (e, id) → family_of e = FSystemInstance ∧ id_of e = id ∧ id ≠ Nil)
    as Hok by apply convertSystemInstance_ok.
  assert (NameIndex_Get KindSystemInstance key (w_index w2) = id_cr) as Hi2.
  { rewrite <- Hkey. eapply (crd_found_spec conv FSystemInstance); [done|done|done|].
    unfold crd_reconcile. rewrite Hconv. run_ops. rewrite (Hsi (ESystemInstance si_cr)) by done. by run_ops. }
  assert (get FSystemInstance (release_id key) (w_model w2) = get FSystemInstance (release_id key) (w_model w1)) as G2.
  { eapply (crd_found_frame conv FSystemInstance); try done. congruence. }
  assert (get FSystemInstance (release_id key) (w_model w3) = get FSystemInstance (release_id key) (w_model w2)) as G3.
  { apply (crd_gone_frame conv FSystemInstance); [done|]. rewrite Hkey, Hi2. congruence. }
  assert (NameIndex_Get KindSystemInstance key (w_index w3) = Nil) as Hi3.
  { unfold w3, SystemInstanceReconciler_Reconcile, crd_reconcile. run_ops. rewrite Hkey.
    case_bool_decide; run_ops; by rewrite Get_Delete, decide_True. }
  rewrite <- Hst, <- G2, <- G3. unfold w4, HelmReleaseReconciler_Reconcile. rewrite Hn, Hns. cbn [negb].
  fold key. run_ops. destruct (untrack_revision _ _ _).1; run_ops; [|done].
  by rewrite Delete_fst, Hi3, bool_decide_eq_true_2.
Qed.
End theorems.
