(* ===== verification/HelmHistory.v ===== *)
(** * HelmHistory: what the history of a Helm release hides

    The reconciler keeps one number per release, the highest revision it has
    seen, and ignores every lower one, also when the highest is not the one
    that is deployed. Here is what becomes of a deployed release then, while
    the sensor runs, after a restart, and when the listing of the startup
    runnable is older than the state it is written into. *)

From S2P Require Import Prelude.
From S2P Require Import Prog.
From S2P Require Import GoStrings.
From S2P Require Import HelmDecode.
From S2P Require Import K8s.
From S2P Require Import Lib.
From S2P Require Import Entities.
From S2P Require Import ModelSrv.
From S2P Require Import Registry.
From S2P Require Import State.
From S2P Require Import RefFindings.
From S2P Require Import HelmRelease.

(** ** The startup listing *)

(** [s] is the Secret of revision [rev] of release [name] in namespace [ns]. *)
Definition lists (s : Secret) (ns name : string) (rev : Z) : Prop :=
  sec_Type s = helmSecretType ∧ SecretNameParts (om_Name (sec_Meta s)) = (name, rev, true) ∧
  om_Namespace (sec_Meta s) = ns.

(** At least revision [rev] of release [key] is tracked. *)
Definition tracked_from (key : string) (rev : Z) (latest : gmap string Z) : Prop :=
  ∃ e, latest !! key = Some e ∧ (rev <= e)%Z.

Lemma populate_one_keeps key rev latest s :
  tracked_from key rev latest → tracked_from key rev (populate_one latest s).
Proof.
  intros (e & He & Hle). unfold populate_one. case_bool_decide; [by exists e|].
  destruct (SecretNameParts _) as [[name r] []]; simpl; [|by exists e].
  set (k := om_Namespace (sec_Meta s) +:+ "/" +:+ name). unfold tracked_from.
  destruct (Z.ltb_spec (default 0%Z (latest !! k)) r) as [Hr|]; [|by exists e].
  rewrite lookup_insert. case_decide as Hk; [|by exists e].
  rewrite Hk, He in Hr. simpl in Hr. exists r. split; [done|lia].
Qed.

Lemma populate_one_tracks s ns name rev latest :
  lists s ns name rev → (0 < rev)%Z → tracked_from (ns +:+ "/" +:+ name) rev (populate_one latest s).
Proof.
  intros (Ht & Hn & <-) Hrev. unfold populate_one. rewrite bool_decide_eq_false_2 by naive_solver. rewrite Hn.
  cbn [negb]. set (k := om_Namespace (sec_Meta s) +:+ "/" +:+ name). unfold tracked_from.
  destruct (Z.ltb_spec (default 0%Z (latest !! k)) rev) as [Hr|Hr].
  - exists rev. by rewrite lookup_insert_eq.
  - destruct (latest !! k) as [e|]; simpl in Hr; [by exists e|lia].
Qed.

(** What the listing contains is tracked afterwards. *)
Lemma populate_tracks secrets s ns name rev latest :
  s ∈ secrets → lists s ns name rev → (0 < rev)%Z →
  tracked_from (ns +:+ "/" +:+ name) rev (foldl populate_one latest secrets).
Proof.
  intros Hin Hs Hrev. apply list_elem_of_split in Hin as (l1 & l2 & ->). rewrite foldl_app. simpl.
  pose proof (populate_one_tracks s ns name rev (foldl populate_one latest l1) Hs Hrev) as H.
  revert H. generalize (populate_one (foldl populate_one latest l1) s). clear.
  induction l2 as [|x l2 IH]; intros latest H; [done|]. by apply IH, populate_one_keeps.
Qed.

(** ** One reconcile *)
Section history.
Context {L : Lib} {S : ModelSrv} {C : HelmCodecs}.

(** A Secret of a lower revision than the tracked one is ignored. *)
Lemma helm_superseded req secret name rev rev' w :
  SecretNameParts (om_Name (sec_Meta secret)) = (name, rev, true) →
  tracked_from (nn_Namespace req +:+ "/" +:+ name) rev' (w_latestRevision w) → (rev < rev')%Z →
  run (HelmReleaseReconciler_Reconcile req (GetOk secret)) w = (done_ok, w).
Proof.
  intros Hn (e & He & Hle) Hlt. unfold HelmReleaseReconciler_Reconcile. case_bool_decide; [done|]. rewrite Hn.
  cbn [negb]. rewrite run_pair. run_ops. unfold track_revision. rewrite He, (proj2 (Z.ltb_lt rev e)) by lia.
  run_ops. by destruct w.
Qed.

(** Revision [rev] of the release has been tried and is not what is deployed:
    it has failed, is pending, or has been uninstalled with its history kept. *)
Definition undeployed_revision (secret : Secret) (name : string) (rev : Z) : Prop :=
  sec_Type secret = helmSecretType ∧ SecretNameParts (om_Name (sec_Meta secret)) = (name, rev, true) ∧
  ∃ rel, DecodeReleaseData (default "" (sec_Data secret !! "release")) = inr rel ∧
    Info_Status (Release_Info rel) ≠ "deployed".

(** It is tracked, and nothing else happens. *)
Lemma helm_undeployed_eq req secret name rev w :
  undeployed_revision secret name rev → is_latest (nn_Namespace req +:+ "/" +:+ name) rev w →
  run (HelmReleaseReconciler_Reconcile req (GetOk secret)) w =
    (done_ok, set_latestRevision (<[nn_Namespace req +:+ "/" +:+ name := rev]> (w_latestRevision w)) w).
Proof.
  intros (Ht & Hn & rel & Hd & Hs) Hlatest. unfold HelmReleaseReconciler_Reconcile.
  rewrite bool_decide_eq_false_2 by naive_solver. rewrite Hn. cbn [negb].
  rewrite run_pair. run_ops. rewrite track_revision_latest by done. cbn [fst snd negb].
  rewrite Hd, bool_decide_eq_true_2 by done. by run_ops.
Qed.
End history.

(** ** The theorems *)
Section theorems.
Context {L : Lib} {S : ModelSrv} {C : HelmCodecs} {HL : ModelSrvLaws S} {HR : FindingsReliable S}.

(** C38. Only the highest revision of a release is looked at. A revision that is
    not deployed (it has failed, or was uninstalled with its history kept)
    leaves the SystemInstance of the release in the model when it is reconciled
    after the deployed one. A failed upgrade, whose revision is the higher one,
    hides the release it has left deployed from a sensor that has not seen it
    before: reconciled first, or listed when the sensor starts (so after every
    restart), it keeps the deployed release out of the model. *)
Theorem failed_upgrade_hides_release hreq secret name rev rel freq failed frev w :
  release_ready hreq secret name rev rel w →
  undeployed_revision failed name frev → nn_Namespace freq = nn_Namespace hreq → (0 <= rev <= frev)%Z →
  let id := release_id (nn_Namespace hreq +:+ "/" +:+ name) in
  let helm := HelmReleaseReconciler_Reconcile hreq (GetOk secret) in
  let upgrade := HelmReleaseReconciler_Reconcile freq (GetOk failed) in
  get FSystemInstance id (w_model (exec upgrade (exec helm w))) =
    Some (ESystemInstance (release_instance name id rel)) ∧
  ((rev < frev)%Z → let w1 := exec upgrade w in
   run helm w1 = (done_ok, w1) ∧ w_model w1 = w_model w ∧ w_index w1 = w_index w) ∧
  (∀ secrets, (rev < frev)%Z → failed ∈ secrets → om_Namespace (sec_Meta failed) = nn_Namespace hreq →
   let w1 := exec (populateLatestRevisions (inr secrets)) w in
   run helm w1 = (done_ok, w1) ∧ w_model w1 = w_model w).
Proof.
  intros [Hdep Hlatest (Hsi & Hci & Hai) [Hkd Hnil]] Hf Hns Hrev id helm upgrade.
  set (key := nn_Namespace hreq +:+ "/" +:+ name) in *.
  pose proof (dr_name _ _ _ _ Hdep) as Hn. split_and!.
  - pose proof (helm_deployed_spec hreq secret name rev rel w Hdep Hlatest Hsi Hci Hai Hkd) as Hs.
    fold helm in Hs. unfold upgrade, exec at 1. rewrite (helm_undeployed_eq freq failed name frev) by
      (try done; rewrite Hns; intros e He; rewrite (rl_tracked _ _ _ _ _ _ _ Hs) in He; injection He as <-; lia).
    apply (rl_stored _ _ _ _ _ _ _ Hs).
  - intros Hlt. assert (is_latest (nn_Namespace freq +:+ "/" +:+ name) frev w) as Hl.
    { rewrite Hns. intros e He. specialize (Hlatest e He). lia. }
    unfold exec, upgrade. rewrite (helm_undeployed_eq freq failed name frev) by done. cbn [snd]. split; [|done].
    apply (helm_superseded hreq secret name rev frev); [done| |lia].
    simpl. rewrite Hns. exists frev. by rewrite lookup_insert_eq.
  - intros secrets Hlt Hin Hsns w1. split; [|done]. apply (helm_superseded hreq secret name rev frev); [done| |lia].
    simpl. apply (populate_tracks secrets failed (nn_Namespace hreq) name frev); [done| |lia].
    destruct Hf as (Ht & Hfn & _). done.
Qed.

(** The startup runnable lists the Secrets before it takes the lock: when
    the tracked Secret of a release is deleted and reconciled in between, the
    old listing makes the release tracked again, and when it is installed
    anew (revisions start at one again) the sensor ignores it. *)
Theorem stale_listing_hides_release hreq secret name rev rel gone grev old secrets w :
  deployed_release secret name rev rel → (0 <= rev < grev)%Z →
  SecretNameParts (nn_Name gone) = (name, grev, true) → nn_Namespace gone = nn_Namespace hreq →
  w_latestRevision w !! (nn_Namespace hreq +:+ "/" +:+ name) = Some grev →
  old ∈ secrets → lists old (nn_Namespace hreq) name grev →
  let w1 := exec (HelmReleaseReconciler_Reconcile gone GetNotFound) w in
  let w2 := exec (populateLatestRevisions (inr secrets)) w1 in
  w_latestRevision w1 !! (nn_Namespace hreq +:+ "/" +:+ name) = None ∧
  run (HelmReleaseReconciler_Reconcile hreq (GetOk secret)) w2 = (done_ok, w2).
Proof.
  intros Hdep Hrev Hg Hns Ht Hin Hold w1 w2. split.
  - unfold w1, HelmReleaseReconciler_Reconcile. rewrite Hg, Hns. cbn [negb]. run_ops.
    unfold untrack_revision. rewrite Ht, bool_decide_eq_false_2 by naive_solver. run_ops.
    destruct (bool_decide _); run_ops; by rewrite lookup_delete_eq.
  - apply (helm_superseded hreq secret name rev grev); [by destruct Hdep| |lia].
    simpl. by apply (populate_tracks secrets old); [..|lia].
Qed.
End theorems.
