(* ===== verification/Races.v ===== *)
(** * Races: a workload and its Helm release, interleaved

    [helm_workload_orders] of [HelmRelease] shows that a workload and the
    release that deploys it end up linked whichever of the two is reconciled
    first. The two reconciles run in different goroutines: here is what becomes
    of the link when one runs inside the other. *)

From S2P Require Import Prelude.
From S2P Require Import Prog.
From S2P Require Import HelmDecode.
From S2P Require Import K8s.
From S2P Require Import Lib.
From S2P Require Import Entities.
From S2P Require Import ModelSrv.
From S2P Require Import Registry.
From S2P Require Import State.
From S2P Require Import Convert.
From S2P Require Import RefFindings.
From S2P Require Import Evaluator.
From S2P Require Import CrdControllers.
From S2P Require Import Instances.
From S2P Require Import HelmRelease.

(** ** The reconcile of an instance, behind the lookup of its owner *)
Section store.
Context {L : Lib} {S : ModelSrv} {HL : ModelSrvLaws S}.
Context (k : InstanceOps) {Hk : InstanceLaws k}.

Definition store_instance (resourceType : string) (req : NamespacedName) (obj : Object) (x : ik_type k)
    (id : uuid) : action Outcome :=
  err <- Model_Add (ik_entity k x) ;;
  match err with
  | Some err => Ret (failed (EModel err))
  | None =>
      Index_Put (ik_kind k) (nn_String req) id ;;
      reconcileReferenceFindings k id (ob_Meta obj) ;;
      RuleEvaluation_run resourceType (RObject obj) ;;
      Ret done_ok
  end.

Lemma store_instance_ok key req obj x id w :
  accepts (ik_family k) → result (store_instance key req obj x id) w = done_ok.
Proof.
  intros Ha. unfold store_instance. run_ops. rewrite (Ha (ik_entity k x)) by apply ik_entity_family. by run_ops.
Qed.

(** It stores [x] as it is, whatever the store and the index have by then. *)
Lemma store_instance_stores key req obj x id w :
  accepts (ik_family k) → id_of (ik_entity k x) = id →
  let w' := exec (store_instance key req obj x id) w in
  get (ik_family k) id (w_model w') = Some (ik_entity k x) ∧
  NameIndex_Get (ik_kind k) (nn_String req) (w_index w') = id ∧
  (∀ k' n, NameIndex_GetHelmOwner k' n (w_index w') = NameIndex_GetHelmOwner k' n (w_index w)) ∧
  ∀ f i, f ≠ FFinding → f ≠ FFindingType → f ≠ ik_family k → get f i (w_model w') = get f i (w_model w).
Proof.
  intros Ha Hid w'. subst w'. destruct ik_families as (F1 & F2 & _). unfold store_instance. run_ops.
  destruct (add (ik_entity k x) (w_model w)) as [m r] eqn:Hadd.
  assert (r = None) as -> by (change r with (m, r).2; rewrite <- Hadd; by apply Ha, ik_entity_family).
  run_ops. rewrite reconcileReferenceFindings_eq. set (p := reconcileReference _ _ _ _ _ _ _).
  set (w1 := set_index _ (set_model m w)).
  destruct (sbf_run key (RObject obj) (exec p w1)) as [Hget Hidx _ _ _ _ _].
  rewrite Hidx. unfold p at 2 3. rewrite reconcileReference_index.
  assert (∀ f i, f ≠ FFinding → f ≠ FFindingType → get f i (w_model (exec (RuleEvaluation_run key (RObject obj)) (exec p w1))) =
    get f i m) as Hm.
  { intros f i Hf Hft. rewrite Hget by done. unfold p. by rewrite reconcileReference_frame by congruence. }
  split_and!; [|by simpl; rewrite Get_Put, decide_True|done|].
  - rewrite Hm by done. apply add_ok in Hadd. by rewrite ik_entity_family, Hid in Hadd.
  - intros f i Hf Hft Hne. rewrite Hm by done. eapply add_frame; [exact Hadd|by left|].
    rewrite ik_entity_family. congruence.
Qed.

(** The reconcile is the lookup of the owner and the rest. *)
Lemma instance_reconcile_unowned skip key req obj x id :
  skip (ob_Meta obj) = false → ik_from k (ob_Meta obj) = Some (x, id) → ik_GetSystemInstance k x = None →
  instance_reconcile k skip key req (GetOk obj) =
    bind (bind (reading (λ w, NameIndex_GetHelmOwner (ik_kind k) (nn_String req) (w_index w)))
            (λ siID, Ret (if bool_decide (siID ≠ Nil) then ik_SetSystemInstance k siID x else x)))
      (λ x, store_instance key req obj x id).
Proof. intros Hs Hf Hn. unfold instance_reconcile, with_helm_owner. by rewrite Hs, Hf, Hn. Qed.
End store.

(** ** The race *)
Section race.
Context {L : Lib} {S : ModelSrv} {C : HelmCodecs} {HL : ModelSrvLaws S} {HR : FindingsReliable S}.

(** C21. The link can be lost: when the whole reconcile of the release runs
    between the workload's lookup of its owner and its store, the release finds
    no instance to link and the workload stores the instance it has built
    before. Both handlers return without an error, and the workload stays
    without a SystemInstance, although the index has its owner. Run one after the
    other from the same state, in either order, the two leave it linked. *)
Theorem helm_workload_race hreq secret name rev rel key req obj ci cid w :
  release_ready hreq secret name rev rel w →
  owned (ParseManifestResources (Release_Manifest rel)) (nn_Namespace hreq) KindComponentInstance (nn_String req) →
  componentInstanceFromMeta (ob_Meta obj) = Some (ci, cid) → ci_SystemInstance ci = None →
  NameIndex_GetHelmOwner KindComponentInstance (nn_String req) (w_index w) = Nil →
  let si := release_id (nn_Namespace hreq +:+ "/" +:+ name) in
  ∃ w', rtc pstep ([WorkloadReconciler_Reconcile None key req (GetOk obj);
                    HelmReleaseReconciler_Reconcile hreq (GetOk secret)], w)
                  ([Ret done_ok; Ret done_ok], w') ∧
    get FComponentInstance cid (w_model w') = Some (EComponentInstance ci) ∧
    NameIndex_Get KindComponentInstance (nn_String req) (w_index w') = cid ∧
    get FSystemInstance si (w_model w') = Some (ESystemInstance (release_instance name si rel)) ∧
    NameIndex_GetHelmOwner KindComponentInstance (nn_String req) (w_index w') = si ∧
    let workload := WorkloadReconciler_Reconcile None key req (GetOk obj) in
    let helm := HelmReleaseReconciler_Reconcile hreq (GetOk secret) in
    get FComponentInstance cid (w_model (exec helm (exec workload w))) =
      Some (EComponentInstance (ci_SetSystemInstance si ci)) ∧
    get FComponentInstance cid (w_model (exec workload (exec helm w))) =
      Some (EComponentInstance (ci_SetSystemInstance si ci)).
Proof.
  intros Hready. pose proof (helm_workload_states hreq secret name rev rel key req obj ci cid w Hready) as Horders.
  revert Hready.
  intros [Hdep Hlatest (Hsi & Hci & Hai) [Hkd Hnil]] Howned Hfrom Hnone Howner si.
  specialize (Horders Howned Hfrom). rewrite Hnone in Horders. destruct Horders as [Hfirst Hlast].
  set (helm := HelmReleaseReconciler_Reconcile hreq (GetOk secret)).
  set (rest := store_instance WorkloadOps key req obj ci cid).
  set (w1 := exec helm w). set (w2 := exec rest w1).
  assert (result helm w = done_ok) as Ok1.
  { unfold helm, result. rewrite (helm_deployed_eq hreq secret name rev rel w Hdep Hlatest). cbv zeta.
    by rewrite (Hsi (ESystemInstance _)). }
  pose proof (helm_deployed_spec hreq secret name rev rel w Hdep Hlatest Hsi Hci Hai Hkd) as Hs. fold helm w1 in Hs.
  destruct (ik_from_id (k := WorkloadOps) _ _ _ Hfrom) as [Hid _].
  pose proof (store_instance_ok WorkloadOps key req obj ci cid w1 Hci) as Ok2. fold rest in Ok2.
  destruct (store_instance_stores WorkloadOps key req obj ci cid w1 Hci Hid) as (G1 & G2 & G3 & G4).
  fold rest w2 in G1, G2, G3, G4.
  exists w2. cbv zeta. split_and!; [|exact G1|exact G2| | |exact Hlast|exact Hfirst].
  - transitivity ([rest; helm], w).
    { apply rtc_once. unfold WorkloadReconciler_Reconcile.
      rewrite (instance_reconcile_unowned WorkloadOps _ key req obj ci cid) by done.
      pose proof (pstep_reading (λ w, NameIndex_GetHelmOwner KindComponentInstance (nn_String req) (w_index w))
        (λ siID, Ret (if bool_decide (siID ≠ Nil) then ci_SetSystemInstance siID ci else ci))
        (λ x, store_instance WorkloadOps key req obj x cid) [helm] w) as Hp. cbv beta in Hp.
      rewrite Howner, bool_decide_eq_false_2 in Hp by naive_solver. exact Hp. }
    transitivity ([rest; Ret done_ok], w1).
    { pose proof (run_steps [rest; helm] 1 helm w eq_refl) as Hr. by rewrite Ok1 in Hr. }
    pose proof (run_steps [rest; Ret done_ok] 0 rest w1 eq_refl) as Hr. by rewrite Ok2 in Hr.
  - rewrite G4 by done. apply (rl_stored _ _ _ _ _ _ _ Hs).
  - rewrite G3, (rl_owner _ _ _ _ _ _ _ Hs). by rewrite decide_True.
Qed.
End race.
