(* ===== verification/CrdReporter.v ===== *)
(** * CrdReporter: the findings about missing CRDs

    The second half of [src/internal/crdcheck/crdcheck.go]: [Report] and the
    [Reporter], a small state machine that attaches the findings to the cluster
    Context, or to the sensor's Node while there is no cluster Context; and
    [runCRDCheck] of [src/cmd/main.go]. The methods of the reporter run under
    its mutex: they are critical sections. *)

From S2P Require Import Prelude.
From S2P Require Import Prog.
From S2P Require Import GoStrings.
From S2P Require Import K8s.
From S2P Require Import Lib.
From S2P Require Import Entities.
From S2P Require Import ModelSrv.
From S2P Require Import Registry.
From S2P Require Import RuleRepo.
From S2P Require Import CrdCheck.
From S2P Require Import State.

Definition crdMissingFindingKind : string := "CRDNotAvailable".

Section reporter.
Context {L : Lib} {S : ModelSrv}.

Definition ensureCRDMissingFindingType : action unit :=
  let id := TypeIDForKind crdMissingFindingKind in
  ft <- Model_Get FFindingType id ;;
  match ft with
  | Some _ => Ret tt
  | None =>
      _ <- Model_Add (EFindingType (mkFindingType id crdMissingFindingKind
             "A CRD expected by the k8s sensor is not installed in the cluster.")) ;;
      Ret tt
  end.

Definition crdMissingFindingID (entry : CRDEntry) : uuid :=
  uuid_NewSHA1 (TypeIDForKind crdMissingFindingKind) (CRDEntry_String entry).

Definition crdMissingFinding (entry : CRDEntry) (subject : ResourceRef) : Finding :=
  mkFinding (crdMissingFindingID entry)
    ("CRD not available: " +:+ crd_DisplayName entry)
    ("The CRD " +:+ CRDEntry_String entry +:+ " (category: " +:+ crd_Category entry +:+
     ") is not installed in this cluster. The sensor cannot watch resources of this type.")
    (Some (TypeIDForKind crdMissingFindingKind))
    [mkResourceRef (rr_ResourceId subject) (rr_ResourceType subject)] ∅.

Definition createCRDMissingFinding (entry : CRDEntry) (subject : ResourceRef) : action unit :=
  _ <- Model_Add (EFinding (crdMissingFinding entry subject)) ;; Ret tt.

Definition Report (result : CheckResult) (subject : ResourceRef) : action unit :=
  if bool_decide (cres_Missing result = []) then Ret tt
  else if bool_decide (rr_ResourceId subject = Nil) then Ret tt
  else
    ensureCRDMissingFindingType ;;
    for_each (cres_Missing result) (λ entry, createCRDMissingFinding entry subject).

Definition NewReporter (result : CheckResult) (fallbackNodeID : uuid) : Reporter :=
  mkReporter result
    (if bool_decide (fallbackNodeID ≠ Nil) then Some (mkResourceRef fallbackNodeID NodeResource) else None)
    false.

(** [r.reportedWithContext = b] *)
Definition set_reportedWithContext (b : bool) : action unit :=
  writing (λ w, set_reporter
    (option_map (λ r, mkReporter (rep_result r) (rep_fallback r) b) (w_reporter w)) w).

(** The methods, on the reporter of the world; it may be nil. *)
Definition ReportWithContext (clusterContextID : uuid) : action unit :=
  r <- reading w_reporter ;;
  match r with
  | None => Ret tt
  | Some r =>
      if bool_decide (clusterContextID = Nil) then Ret tt
      else
        critical (
          Report (rep_result r) (mkResourceRef clusterContextID ContextResource) ;;
          set_reportedWithContext true)
  end.

Definition ReportFallback : action unit :=
  r <- reading w_reporter ;;
  match r with
  | None => Ret tt
  | Some r =>
      match rep_fallback r with
      | None => Ret tt
      | Some fallback =>
          critical (
            r' <- reading w_reporter ;;
            if default false (rep_reportedWithContext <$> r') then Ret tt
            else Report (rep_result r) fallback)
      end
  end.

Definition ClearContext : action unit :=
  r <- reading w_reporter ;;
  match r with
  | None => Ret tt
  | Some _ => critical (set_reportedWithContext false) ;; ReportFallback
  end.

(** [runCRDCheck]: [None] when the checklist does not parse (the process
    exits), [Some None] when there is no discovery client, else the reporter. *)
Definition runCRDCheck (crdChecklistRaw : string) (discovery : option Discovery) (nodeID : uuid)
    : option (option Reporter) :=
  let checklist :=
    if bool_decide (crdChecklistRaw ≠ "")
    then match ParseChecklist crdChecklistRaw with inl _ => None | inr parsed => Some parsed end
    else Some DefaultChecklist in
  checklist ← checklist;
  match discovery with
  | None => Some None
  | Some d => Some (Some (NewReporter (CRDCheck d checklist) nodeID))
  end.

(** ** The abstract reporter: what the findings are attached to *)

Record Attachment := mkAttachment { at_subject : option ResourceRef; at_context : bool }.

Inductive ReporterOp := OpContext (id : uuid) | OpFallback | OpClear.

Definition attach_fallback (fallback : option ResourceRef) (a : Attachment) : Attachment :=
  match fallback with
  | Some f => if at_context a then a else mkAttachment (Some f) false
  | None => a
  end.

Definition attach_step (fallback : option ResourceRef) (op : ReporterOp) (a : Attachment) : Attachment :=
  match op with
  | OpContext id => if bool_decide (id = Nil) then a
                    else mkAttachment (Some (mkResourceRef id ContextResource)) true
  | OpFallback => attach_fallback fallback a
  | OpClear => attach_fallback fallback (mkAttachment (at_subject a) false)
  end.

Definition reporter_step (op : ReporterOp) : action unit :=
  match op with
  | OpContext id => ReportWithContext id
  | OpFallback => ReportFallback
  | OpClear => ClearContext
  end.
End reporter.

(** ** Correctness *)

Section facts.
Context {L : Lib} {S : ModelSrv} {HL : ModelSrvLaws S} {HR : FindingsReliable S}.

(** No two entries of the list share the id of a finding. *)
Definition distinct_findings (entries : list CRDEntry) : Prop :=
  ∀ e1 e2, e1 ∈ entries → e2 ∈ entries → crdMissingFindingID e1 = crdMissingFindingID e2 → e1 = e2.

(** Every missing CRD has its finding, attached to [subject]. *)
Definition attached_to (entries : list CRDEntry) (subject : ResourceRef) (w : World) : Prop :=
  ∀ e, e ∈ entries → finding_at w (crdMissingFindingID e) = Some (EFinding (crdMissingFinding e subject)).

Lemma createCRDMissingFinding_eq e s w :
  exec (createCRDMissingFinding e s) w = set_model (add (EFinding (crdMissingFinding e s)) (w_model w)).1 w.
Proof. unfold createCRDMissingFinding. by run_ops. Qed.

Lemma create_all_attached entries all s w :
  distinct_findings all → entries ⊆ all →
  attached_to entries s (exec (for_each entries (λ e, createCRDMissingFinding e s)) w) ∧
  (∀ e, e ∈ all → finding_at w (crdMissingFindingID e) = Some (EFinding (crdMissingFinding e s)) →
    finding_at (exec (for_each entries (λ e, createCRDMissingFinding e s)) w) (crdMissingFindingID e) =
      Some (EFinding (crdMissingFinding e s))).
Proof.
  intros Hd. revert w. induction entries as [|x entries IH]; intros w Hsub.
  { split; [by intros e He; apply not_elem_of_nil in He|done]. }
  rewrite exec_for_each_cons, createCRDMissingFinding_eq.
  set (w1 := set_model _ w). destruct (IH w1) as [Ha Hk]; [set_solver|].
  assert (finding_at w1 (crdMissingFindingID x) = Some (EFinding (crdMissingFinding x s))) as Hx.
  { unfold finding_at, w1. simpl. apply (get_add_finding (crdMissingFinding x s)). }
  split.
  - intros e [->|He]%elem_of_cons; [apply Hk; [set_solver|done]|by apply Ha].
  - intros e He Hw. apply Hk; [done|]. destruct (decide (e = x)) as [->|Hne]; [done|].
    unfold finding_at, w1. simpl. rewrite add_finding_frame; [done|]. simpl. intros [= H].
    apply Hne, Hd; set_solver.
Qed.

Lemma ensureCRDMissingFindingType_finding w i :
  finding_at (exec ensureCRDMissingFindingType w) i = finding_at w i ∧
  w_reporter (exec ensureCRDMissingFindingType w) = w_reporter w.
Proof.
  unfold ensureCRDMissingFindingType. run_ops. case_match; run_ops; [done|]. split; [|done].
  unfold finding_at. simpl. destruct (add _ (w_model w)) as [m r] eqn:E. simpl.
  eapply add_frame; [done|by right; right|done].
Qed.

Lemma for_each_reporter entries s w :
  w_reporter (exec (for_each entries (λ e, createCRDMissingFinding e s)) w) = w_reporter w.
Proof.
  apply (exec_for_each_ind (λ w w', w_reporter w' = w_reporter w)); [done|congruence|].
  intros e w' _. by rewrite createCRDMissingFinding_eq.
Qed.

Lemma Report_spec res s w :
  distinct_findings (cres_Missing res) → rr_ResourceId s ≠ Nil →
  attached_to (cres_Missing res) s (exec (Report res s) w) ∧
  w_reporter (exec (Report res s) w) = w_reporter w.
Proof.
  intros Hd Hs. unfold Report. case_bool_decide as Hm.
  { split; [|done]. rewrite Hm. by intros e He; apply not_elem_of_nil in He. }
  rewrite bool_decide_eq_false_2 by done. run_ops. split.
  - by apply (create_all_attached _ (cres_Missing res)).
  - rewrite for_each_reporter. apply (ensureCRDMissingFindingType_finding w Nil).
Qed.

(** The world represents the abstract attachment [a] of the reporter that was
    made with [res] and [fallback]. *)
Record reporter_rep (res : CheckResult) (fallback : option ResourceRef) (a : Attachment) (w : World) : Prop := {
  rr_reporter : w_reporter w = Some (mkReporter res fallback (at_context a));
  rr_attached s : at_subject a = Some s → attached_to (cres_Missing res) s w
}.

Section steps.
Context (res : CheckResult) (fallback : option ResourceRef).
Hypothesis Hdistinct : distinct_findings (cres_Missing res).
Hypothesis Hfallback : ∀ f, fallback = Some f → rr_ResourceId f ≠ Nil.

Lemma attached_set_reporter l s r w : attached_to l s (set_reporter r w) ↔ attached_to l s w.
Proof. done. Qed.

Lemma ReportFallback_rep a w :
  reporter_rep res fallback a w →
  reporter_rep res fallback (attach_fallback fallback a) (exec ReportFallback w).
Proof.
  intros [Hr Ha]. unfold ReportFallback, attach_fallback. run_ops. rewrite Hr. simpl.
  destruct fallback as [f|] eqn:Ef; [|by split].
  run_ops. rewrite Hr. simpl. destruct (at_context a) eqn:Ec; [by split; rewrite ?Ec|].
  destruct (Report_spec res f w) as [H1 H2]; [done|by apply Hfallback|].
  split; simpl; [by rewrite H2, Hr|]. by intros s [= <-].
Qed.

Lemma reporter_step_rep op a w :
  reporter_rep res fallback a w →
  reporter_rep res fallback (attach_step fallback op a) (exec (reporter_step op) w).
Proof.
  intros Hrep. pose proof Hrep as [Hr Ha]. destruct op as [id| |]; simpl.
  - unfold ReportWithContext. run_ops. rewrite Hr. simpl. case_bool_decide; [done|].
    unfold set_reportedWithContext. run_ops.
    destruct (Report_spec res (mkResourceRef id ContextResource) w) as [H1 H2]; [done|done|].
    split; simpl; [by rewrite H2, Hr|]. by intros s [= <-].
  - by apply ReportFallback_rep.
  - unfold ClearContext. run_ops. rewrite Hr. run_ops. apply ReportFallback_rep.
    unfold set_reportedWithContext. run_ops. split; simpl; [by rewrite Hr|done].
Qed.
End steps.

(** C14. Whatever sequence of [ReportWithContext], [ReportFallback] and
    [ClearContext] calls reaches a reporter, the findings of the missing CRDs
    are attached to what the abstract reporter says: the last reported cluster
    Context, or the sensor's Node once the Context was cleared or never came. *)
Theorem Reporter_refines_attachment res nodeID ops w :
  distinct_findings (cres_Missing res) → w_reporter w = Some (NewReporter res nodeID) →
  let fallback := rep_fallback (NewReporter res nodeID) in
  reporter_rep res fallback (foldl (λ a op, attach_step fallback op a) (mkAttachment None false) ops)
    (exec (for_each ops reporter_step) w).
Proof.
  intros Hd Hw fallback.
  assert (∀ f, fallback = Some f → rr_ResourceId f ≠ Nil) as Hf.
  { intros f. subst fallback. simpl. case_bool_decide; [|done]. by intros [= <-]. }
  assert (reporter_rep res fallback (mkAttachment None false) w) as Hrep by (split; [done|by intros]).
  clear Hw. revert w Hrep. generalize (mkAttachment None false).
  induction ops as [|op ops IH]; intros a w Hrep; [done|].
  rewrite exec_for_each_cons. simpl. apply IH. by apply reporter_step_rep.
Qed.
End facts.
