(* ===== verification/Namespace.v ===== *)
(** * Namespace: [src/internal/controller/namespace_controller.go]

    Namespaces become Contexts below the Context of kube-system, the cluster.
    Until kube-system has been seen the other namespaces are asked for again
    every two seconds. [clusterContextID] is read and written under its lock. *)

From S2P Require Import Prelude.
From S2P Require Import Prog.
From S2P Require Import GoStrings.
From S2P Require Import K8s.
From S2P Require Import Lib.
From S2P Require Import Entities.
From S2P Require Import ModelSrv.
From S2P Require Import Registry.
From S2P Require Import RuleRepo.
From S2P Require Import CrdCheck.
From S2P Require Import State.
From S2P Require Import Convert.
From S2P Require Import RefFindings.
From S2P Require Import Evaluator.
From S2P Require Import CrdControllers.
From S2P Require Import CrdReporter.

(** [2 * time.Second], in nanoseconds. *)
Definition namespaceRequeue : Z := 2 * 10 ^ 9.

Section namespace.
Context {L : Lib} {S : ModelSrv}.

Definition getClusterContextID : action uuid := reading w_clusterContextID.
Definition setClusterContextID (id : uuid) : action unit := writing (set_clusterContextID id).

Definition reconcileContextParentFinding (id : uuid) (ns : Object) : action unit :=
  let parentID := annotationUUID (om_Annotations (ob_Meta ns)) AnnotationContextParent in
  if bool_decide (parentID = Nil)
  then deleteReferenceFinding id ReferencedResourceNotFound
  else
    parent <- Model_Get FContext parentID ;;
    match parent with
    | None => upsertReferencedResourceNotFound id ContextResource parentID ContextResource (om_Name (ob_Meta ns))
    | Some _ => deleteReferenceFinding id ReferencedResourceNotFound
    end.

(** [clear_cluster]: what a missing kube-system does first. *)
Definition clear_cluster (name : string) : action unit :=
  if bool_decide (name = "kube-system")
  then setClusterContextID Nil ;; ClearContext
  else Ret tt.

(** With an id that is not indexed the method returns [err], which still is
    the NotFound error of the client. *)
Definition NamespaceReconciler_Reconcile (req : NamespacedName) (got : GetResult Object) : action Outcome :=
  match got with
  | GetNotFound =>
      clear_cluster (nn_Name req) ;;
      id <- Index_Delete KindContext (nn_Name req) ;;
      if bool_decide (id ≠ Nil)
      then
        deleteReferenceFinding id ReferencedResourceNotFound ;;
        err <- Model_Delete FContext id ;;
        Ret (ignore_not_found FContext err)
      else Ret (failed (EGet "not found"))
  | GetErr err => Ret (failed (EGet err))
  | GetOk ns =>
      let kube_system := bool_decide (om_Name (ob_Meta ns) = "kube-system") in
      clusterID <- getClusterContextID ;;
      if negb kube_system && bool_decide (clusterID = Nil)
      then Ret (mkOutcome namespaceRequeue None)
      else
        match convertNamespaceToContext ns clusterID with
        | None => Ret done_ok
        | Some (emCtx, id) =>
            (if kube_system then setClusterContextID id else Ret tt) ;;
            err <- Model_Add (EContext emCtx) ;;
            match err with
            | Some err => Ret (failed (EModel err))
            | None =>
                Index_Put KindContext (nn_Name req) id ;;
                (if kube_system then ReportWithContext id else Ret tt) ;;
                reconcileContextParentFinding id ns ;;
                RuleEvaluation_run "/namespaces" (RObject ns) ;;
                Ret done_ok
            end
        end
  end.

(** [crdMissingFallback.Start]: after the cache has synced; any error of the
    client counts as an absent kube-system. *)
Definition crdMissingFallback_Start (got : GetResult Object) : action unit :=
  r <- reading w_reporter ;;
  match r with
  | None => Ret tt
  | Some _ => match got with GetOk _ => Ret tt | _ => ReportFallback end
  end.
End namespace.

(** ** What the steps leave alone *)

Section facts.
Context {L : Lib} {S : ModelSrv} {HL : ModelSrvLaws S} {HR : FindingsReliable S}.

(** Everything but findings, finding types and the flag of the reporter. *)
Record same_but_report (w w' : World) : Prop := {
  sr_get f i : f ≠ FFinding → f ≠ FFindingType → get f i (w_model w') = get f i (w_model w);
  sr_index : w_index w' = w_index w;
  sr_rules : w_rules w' = w_rules w;
  sr_cluster : w_clusterContextID w' = w_clusterContextID w
}.

Lemma sr_refl w : same_but_report w w.
Proof. by split. Qed.
Lemma sr_trans w1 w2 w3 : same_but_report w1 w2 → same_but_report w2 w3 → same_but_report w1 w3.
Proof.
  intros [G1 I1 R1 C1] [G2 I2 R2 C2]. split; [|congruence..]. intros f i Hf Hft. by rewrite G2, G1.
Qed.
Lemma sr_sbf w w' : same_but_findings w w' → same_but_report w w'.
Proof. intros [G I R _ _ C _]. by split. Qed.

Lemma sr_Report res s w : same_but_report w (exec (Report res s) w).
Proof.
  unfold Report. case_bool_decide; [apply sr_refl|]. case_bool_decide; [apply sr_refl|].
  rewrite exec_bind. apply (sr_trans _ (exec ensureCRDMissingFindingType w)).
  - apply sr_sbf. unfold ensureCRDMissingFindingType. cbv zeta. apply sbf_bind; [intros; apply sbf_refl|].
    intros [ft|] w1; [apply sbf_refl|]. apply sbf_bind; [intros; apply sbf_add; by right|].
    intros; apply sbf_refl.
  - apply (exec_for_each_ind same_but_report); [apply sr_refl|apply sr_trans|].
    intros e w1 _. apply sr_sbf. unfold createCRDMissingFinding. apply sbf_bind; [|intros; apply sbf_refl].
    intros; apply sbf_add; by left.
Qed.

Lemma sr_ReportWithContext id w : same_but_report w (exec (ReportWithContext id) w).
Proof.
  unfold ReportWithContext. run_ops. destruct (w_reporter w) as [r|]; [|apply sr_refl].
  case_bool_decide; [apply sr_refl|]. unfold set_reportedWithContext. run_ops.
  destruct (sr_Report (rep_result r) (mkResourceRef id ContextResource) w). by split.
Qed.

Lemma sr_ReportFallback w : same_but_report w (exec ReportFallback w).
Proof.
  unfold ReportFallback. run_ops. destruct (w_reporter w) as [r|] eqn:E; [|apply sr_refl].
  destruct (rep_fallback r); [|apply sr_refl]. run_ops. rewrite E. simpl.
  destruct (rep_reportedWithContext r); [apply sr_refl|apply sr_Report].
Qed.

Lemma sr_ClearContext w : same_but_report w (exec ClearContext w).
Proof.
  unfold ClearContext. run_ops. destruct (w_reporter w) as [r|] eqn:E; [|apply sr_refl].
  unfold set_reportedWithContext. run_ops.
  eapply sr_trans; [|apply sr_ReportFallback]. by split.
Qed.

(** The finding about the parent annotation. *)
Lemma exec_reconcileContextParentFinding id ns w :
  let parentID := annotationUUID (om_Annotations (ob_Meta ns)) AnnotationContextParent in
  ∃ m, exec (reconcileContextParentFinding id ns) w = set_model m w ∧
    (∀ f i, (f, i) ≠ (FFinding, referenceFindingID id ReferencedResourceNotFound) →
      get f i m = get f i (w_model w)) ∧
    get FFinding (referenceFindingID id ReferencedResourceNotFound) m =
      match ref_status parentID FContext w with
      | RefUnknown => Some (EFinding (notFoundFinding id ContextResource parentID ContextResource (om_Name (ob_Meta ns))))
      | _ => None
      end.
Proof.
  intros parentID. unfold reconcileContextParentFinding, ref_status. fold parentID. case_bool_decide.
  - run_ops. eexists. split; [done|]. split; [|apply get_del_finding].
    intros. by apply del_finding_frame.
  - run_ops. destruct (get FContext parentID (w_model w)); run_ops; (eexists; split; [done|]); split.
    + intros. by apply del_finding_frame.
    + apply get_del_finding.
    + intros. by apply add_finding_frame.
    + apply (get_add_finding (notFoundFinding id ContextResource parentID ContextResource (om_Name (ob_Meta ns)))).
Qed.
End facts.

(** ** The theorems *)

Section theorems.
Context {L : Lib} {S : ModelSrv} {HL : ModelSrvLaws S} {HR : FindingsReliable S}.

(** What holds after the reconcile of an existing namespace. *)
Record namespace_synced (req : NamespacedName) (ns : Object) (emCtx : Context_) (id : uuid)
    (w w' : World) : Prop := {
  ns_stored : get FContext id (w_model w') = Some (EContext emCtx);
  ns_indexed : NameIndex_Get KindContext (nn_Name req) (w_index w') = id;
  ns_cluster : w_clusterContextID w' =
    if bool_decide (om_Name (ob_Meta ns) = "kube-system") then id else w_clusterContextID w;
  (** the optional parent annotation: a finding when it names an unknown Context *)
  ns_finding : let parentID := annotationUUID (om_Annotations (ob_Meta ns)) AnnotationContextParent in
    finding_at w' (referenceFindingID id ReferencedResourceNotFound) =
      if bool_decide (parentID = id) then None
      else expected_not_found (ref_status parentID FContext w)
        (notFoundFinding id ContextResource parentID ContextResource (om_Name (ob_Meta ns)))
}.

Lemma convertNamespace_id ns c emCtx id :
  convertNamespaceToContext ns c = Some (emCtx, id) → ctx_Id emCtx = id ∧ id ≠ Nil.
Proof. unfold convertNamespaceToContext. case_bool_decide; [done|]. by intros [= <- <-]. Qed.

(** Without a parent annotation of its own a namespace is a child of the cluster. *)
Lemma convertNamespace_child ns kid :
  uuidFromMeta (ob_Meta ns) ≠ Nil → om_Name (ob_Meta ns) ≠ "kube-system" →
  annotationUUID (om_Annotations (ob_Meta ns)) AnnotationContextParent = Nil → kid ≠ Nil →
  ∃ c, convertNamespaceToContext ns kid = Some (c, uuidFromMeta (ob_Meta ns)) ∧ ctx_Parent c = Some kid.
Proof.
  intros Hu Hn Ha Hk. unfold convertNamespaceToContext. rewrite bool_decide_eq_false_2 by done.
  eexists. split; [done|]. simpl. rewrite Ha, (bool_decide_eq_false_2 (Nil ≠ Nil)) by naive_solver.
  by rewrite (bool_decide_eq_true_2 _ Hn), (bool_decide_eq_true_2 _ Hk).
Qed.

(** The world just before the parent annotation is looked at. *)
Definition context_added (req : NamespacedName) (ns : Object) (id : uuid) (m : Store) (w : World) : World :=
  let kube_system := bool_decide (om_Name (ob_Meta ns) = "kube-system") in
  let w1 := if kube_system then set_clusterContextID id w else w in
  let w2 := set_index (NameIndex_Put KindContext (nn_Name req) id (w_index w)) (set_model m w1) in
  if kube_system then exec (ReportWithContext id) w2 else w2.

Lemma namespace_found_eq req ns emCtx id w :
  om_Name (ob_Meta ns) = "kube-system" ∨ w_clusterContextID w ≠ Nil →
  convertNamespaceToContext ns (w_clusterContextID w) = Some (emCtx, id) →
  let r := add (EContext emCtx) (w_model w) in
  out_Err (result (NamespaceReconciler_Reconcile req (GetOk ns)) w) = EModel <$> r.2 ∧
  (r.2 = None → exec (NamespaceReconciler_Reconcile req (GetOk ns)) w =
    exec (RuleEvaluation_run "/namespaces" (RObject ns))
      (exec (reconcileContextParentFinding id ns) (context_added req ns id r.1 w))).
Proof.
  intros Hready Hconv r. subst r. unfold NamespaceReconciler_Reconcile, context_added, getClusterContextID. run_ops.
  assert (negb (bool_decide (om_Name (ob_Meta ns) = "kube-system")) &&
    bool_decide (w_clusterContextID w = Nil) = false) as ->.
  { destruct Hready as [H|H]; [by rewrite bool_decide_eq_true_2|].
    rewrite (bool_decide_eq_false_2 _ H). by rewrite andb_false_r. }
  rewrite Hconv. case_bool_decide; unfold setClusterContextID; run_ops.
  all: destruct (add (EContext emCtx) (w_model w)) as [m [err|]]; run_ops; by split.
Qed.

Lemma context_added_sr req ns id m w :
  let w' := context_added req ns id m w in
  (∀ f i, f ≠ FFinding → f ≠ FFindingType → get f i (w_model w') = get f i m) ∧
  w_index w' = NameIndex_Put KindContext (nn_Name req) id (w_index w) ∧ w_rules w' = w_rules w ∧
  w_clusterContextID w' = if bool_decide (om_Name (ob_Meta ns) = "kube-system") then id else w_clusterContextID w.
Proof.
  unfold context_added. case_bool_decide; [|done].
  set (w2 := set_index _ _). destruct (sr_ReportWithContext id w2) as [G I R C].
  split_and!; [intros; by rewrite G|by rewrite I|by rewrite R|by rewrite C].
Qed.

Lemma namespace_found_spec req ns emCtx id w :
  om_Name (ob_Meta ns) = "kube-system" ∨ w_clusterContextID w ≠ Nil →
  convertNamespaceToContext ns (w_clusterContextID w) = Some (emCtx, id) →
  rules_avoid (referenceFindingID id ReferencedResourceNotFound) "/namespaces" (RObject ns) w →
  (result (NamespaceReconciler_Reconcile req (GetOk ns)) w).(out_Err) = None →
  namespace_synced req ns emCtx id w (exec (NamespaceReconciler_Reconcile req (GetOk ns)) w).
Proof.
  intros Hready Hconv Hav. destruct (convertNamespace_id _ _ _ _ Hconv) as [Hid _].
  destruct (namespace_found_eq req ns emCtx id w Hready Hconv) as [-> He].
  destruct (add (EContext emCtx) (w_model w)) as [m [err|]] eqn:Hadd; [done|]. intros _.
  rewrite He by done. cbn [fst]. apply add_ok in Hadd as Hst. simpl in Hst. rewrite Hid in Hst.
  destruct (context_added_sr req ns id m w) as (G & I & R & C).
  set (w1 := context_added req ns id m w) in *.
  destruct (exec_reconcileContextParentFinding id ns w1) as (m2 & -> & F2 & N2).
  destruct (sbf_run "/namespaces" (RObject ns) (set_model m2 w1)) as [Gr Ir _ _ _ Cr _].
  split.
  - rewrite Gr by done. simpl. rewrite F2 by done. by rewrite G.
  - rewrite Ir. simpl. rewrite I, Get_Put. by rewrite decide_True.
  - rewrite Cr. apply C.
  - intros parentID. rewrite run_keeps_finding; [|unfold rules_avoid; simpl; by rewrite R].
    unfold finding_at. simpl. rewrite N2. fold parentID. unfold ref_status. rewrite G by done.
    destruct (decide (parentID = id)) as [Hp|Hp].
    + rewrite (bool_decide_eq_true_2 _ Hp), Hp, Hst.
      by destruct (bool_decide (id = Nil)).
    + rewrite (bool_decide_eq_false_2 _ Hp). destruct (bool_decide (parentID = Nil)); [done|].
      erewrite add_frame; [|done|by left|simpl; congruence]. by destruct (get FContext parentID (w_model w)).
Qed.

(** C25. A namespace that reconciles without an error, kube-system or one that
    comes after it, is stored as a Context and indexed; kube-system becomes the
    cluster; and the namespace has the ReferencedResourceNotFound finding
    exactly when its optional parent annotation names a Context that is not in
    the model. *)
Theorem NamespaceReconciler_found req ns emCtx id w :
  om_Name (ob_Meta ns) = "kube-system" ∨ w_clusterContextID w ≠ Nil →
  convertNamespaceToContext ns (w_clusterContextID w) = Some (emCtx, id) →
  rules_avoid (referenceFindingID id ReferencedResourceNotFound) "/namespaces" (RObject ns) w →
  (result (NamespaceReconciler_Reconcile req (GetOk ns)) w).(out_Err) = None →
  namespace_synced req ns emCtx id w (exec (NamespaceReconciler_Reconcile req (GetOk ns)) w).
Proof. apply namespace_found_spec. Qed.

(** A namespace that arrives before kube-system changes nothing and is
    asked for again after two seconds; reconciled again once kube-system has
    been, it is stored as a child of the Context of kube-system. *)
Theorem namespace_bootstrap req ns kreq kns kctx kid w :
  w_clusterContextID w = Nil → accepts FContext →
  om_Name (ob_Meta ns) ≠ "kube-system" → uuidFromMeta (ob_Meta ns) ≠ Nil →
  annotationUUID (om_Annotations (ob_Meta ns)) AnnotationContextParent = Nil →
  om_Name (ob_Meta kns) = "kube-system" → convertNamespaceToContext kns Nil = Some (kctx, kid) →
  let child := NamespaceReconciler_Reconcile req (GetOk ns) in
  let w1 := exec child w in
  let w2 := exec (NamespaceReconciler_Reconcile kreq (GetOk kns)) w1 in
  let w3 := exec child w2 in
  run child w = (mkOutcome namespaceRequeue None, w) ∧
  result child w2 = done_ok ∧
  ∃ c, get FContext (uuidFromMeta (ob_Meta ns)) (w_model w3) = Some (EContext c) ∧ ctx_Parent c = Some kid.
Proof.
  intros Hc Hacc Hn Hu Ha Hkn Hkc child w1 w2 w3.
  assert (run child w = (mkOutcome namespaceRequeue None, w)) as Hrun.
  { unfold child, NamespaceReconciler_Reconcile, getClusterContextID. rewrite run_pair. run_ops.
    by rewrite (bool_decide_eq_false_2 _ Hn), (bool_decide_eq_true_2 _ Hc). }
  assert (w1 = w) as Hw1 by (unfold w1, exec; by rewrite Hrun).
  destruct (convertNamespace_id _ _ _ _ Hkc) as [Hkid Hknil].
  assert (w_clusterContextID w2 = kid) as Hc2.
  { unfold w2. rewrite Hw1. destruct (namespace_found_eq kreq kns kctx kid w) as [_ He];
      [by left|by rewrite Hc|]. rewrite He by (by apply Hacc).
    rewrite (sbf_cluster _ _ (sbf_run "/namespaces" (RObject kns) _)).
    destruct (exec_reconcileContextParentFinding kid kns
      (context_added kreq kns kid (add (EContext kctx) (w_model w)).1 w)) as (m & -> & _ & _). simpl.
    destruct (context_added_sr kreq kns kid (add (EContext kctx) (w_model w)).1 w) as (_ & _ & _ & ->).
    by rewrite bool_decide_eq_true_2. }
  destruct (convertNamespace_child ns kid Hu Hn Ha Hknil) as (c & Hconv & Hparent).
  split_and!; [done| |].
  - unfold child, NamespaceReconciler_Reconcile, getClusterContextID. run_ops. rewrite Hc2.
    rewrite (bool_decide_eq_false_2 _ Hn), (bool_decide_eq_false_2 _ Hknil). cbn [negb andb]. rewrite Hconv.
    run_ops. rewrite (Hacc (EContext c)) by done. by run_ops.
  - exists c. split; [|done]. unfold w3, child.
    destruct (namespace_found_eq req ns c (uuidFromMeta (ob_Meta ns)) w2) as [_ He];
      [right; by rewrite Hc2|by rewrite Hc2|]. rewrite He by (by apply Hacc).
    rewrite (sbf_get _ _ (sbf_run "/namespaces" (RObject ns) _)) by done.
    set (r := add (EContext c) (w_model w2)).
    destruct (exec_reconcileContextParentFinding (uuidFromMeta (ob_Meta ns)) ns
      (context_added req ns (uuidFromMeta (ob_Meta ns)) r.1 w2)) as (m & -> & Hf & _). simpl.
    rewrite Hf by done.
    destruct (context_added_sr req ns (uuidFromMeta (ob_Meta ns)) r.1 w2) as (G & _ & _ & _).
    rewrite G by done. destruct (convertNamespace_id _ _ _ _ Hconv) as [<- _].
    by apply (get_accepted (EContext c)).
Qed.

(** The cluster is announced before its Context is stored: when the store
    refuses the Context of kube-system, the reconcile fails and is to be
    retried, but the other namespaces no longer wait, and the next one is
    stored as a child of a Context that is not in the model. *)
Theorem cluster_announced_too_early kreq kns kctx kid req ns id w err :
  om_Name (ob_Meta kns) = "kube-system" →
  convertNamespaceToContext kns (w_clusterContextID w) = Some (kctx, kid) →
  (add (EContext kctx) (w_model w)).2 = Some err →
  get FContext kid (add (EContext kctx) (w_model w)).1 = None →
  om_Name (ob_Meta ns) ≠ "kube-system" → uuidFromMeta (ob_Meta ns) = id → id ≠ Nil → id ≠ kid →
  annotationUUID (om_Annotations (ob_Meta ns)) AnnotationContextParent = Nil →
  let kube_system := NamespaceReconciler_Reconcile kreq (GetOk kns) in
  let child := NamespaceReconciler_Reconcile req (GetOk ns) in
  let w1 := exec kube_system w in
  let w2 := exec child w1 in
  out_Err (result child w1) = None →
  out_Err (result kube_system w) = Some (EModel err) ∧
  get FContext kid (w_model w2) = None ∧
  ∃ c, get FContext id (w_model w2) = Some (EContext c) ∧ ctx_Parent c = Some kid.
Proof.
  intros Hkn Hkc Herr Hnone Hn Hu Hnil Hne Ha kube_system child w1 w2 Hok.
  destruct (convertNamespace_id _ _ _ _ Hkc) as [_ Hknil].
  destruct (namespace_found_eq kreq kns kctx kid w) as [Hkout _]; [by left|done|]. rewrite Herr in Hkout.
  assert (w1 = set_model (add (EContext kctx) (w_model w)).1 (set_clusterContextID kid w)) as Hw1.
  { unfold w1, kube_system, NamespaceReconciler_Reconcile, getClusterContextID, setClusterContextID. run_ops.
    rewrite Hkn, Hkc. run_ops. by rewrite Herr. }
  destruct (convertNamespace_child ns kid) as (c & Hconv & Hparent); [by rewrite Hu|done..|].
  rewrite Hu in Hconv. destruct (convertNamespace_id _ _ _ _ Hconv) as [Hcid _].
  assert (w_clusterContextID w1 = kid) as Hc1 by by rewrite Hw1.
  destruct (namespace_found_eq req ns c id w1) as [Hout He]; [right; by rewrite Hc1|by rewrite Hc1|].
  fold child in Hout. rewrite Hok in Hout. destruct (add (EContext c) (w_model w1)) as [m [e|]] eqn:Hadd; [done|]. cbn [fst snd] in He.
  assert (∀ i, get FContext i (w_model w2) = get FContext i m) as Hg.
  { intros i. unfold w2, child. rewrite He by done. rewrite (sbf_get _ _ (sbf_run "/namespaces" (RObject ns) _)) by done.
    destruct (exec_reconcileContextParentFinding id ns (context_added req ns id m w1)) as (m' & -> & Hf & _).
    simpl. rewrite Hf by done. destruct (context_added_sr req ns id m w1) as (G & _). by rewrite G. }
  split_and!; [done| |exists c; split; [|done]]; rewrite Hg.
  - rewrite (add_frame _ _ _ _ _ _ Hadd) by (by left || (simpl; congruence)). by rewrite Hw1.
  - apply add_ok in Hadd. simpl in Hadd. by rewrite Hcid in Hadd.
Qed.

(** A deleted namespace whose id is indexed disappears from the model and
    the index and loses its finding; without kube-system there is no cluster. *)
Theorem NamespaceReconciler_deleted req id w :
  NameIndex_Get KindContext (nn_Name req) (w_index w) = id → id ≠ Nil → delete_silent FContext id →
  let p := NamespaceReconciler_Reconcile req GetNotFound in
  (result p w).(out_Err) = None →
  get FContext id (w_model (exec p w)) = None ∧
  NameIndex_Get KindContext (nn_Name req) (w_index (exec p w)) = Nil ∧
  finding_at (exec p w) (referenceFindingID id ReferencedResourceNotFound) = None ∧
  w_clusterContextID (exec p w) =
    if bool_decide (nn_Name req = "kube-system") then Nil else w_clusterContextID w.
Proof.
  intros Hid Hnil Hsilent p. subst p. unfold NamespaceReconciler_Reconcile. run_ops.
  set (w1 := exec (clear_cluster (nn_Name req)) w).
  assert (w_index w1 = w_index w ∧ w_clusterContextID w1 =
    if bool_decide (nn_Name req = "kube-system") then Nil else w_clusterContextID w) as [Hi1 Hc1].
  { unfold w1, clear_cluster, setClusterContextID. case_bool_decide; [|done]. run_ops.
    destruct (sr_ClearContext (set_clusterContextID Nil w)) as [_ -> _ ->]. done. }
  rewrite Delete_fst, Hi1, Hid. rewrite bool_decide_eq_true_2 by done. run_ops.
  set (m := (del FFinding _ (w_model w1)).1). destruct (del FContext id m) as [m' r] eqn:Hdel. simpl. intros Hok.
  split_and!.
  - eapply del_gone; [done|]. destruct r as [err|]; [|by left]. right. simpl in Hok.
    case_bool_decide; [by subst|done].
  - rewrite Get_Delete. by rewrite decide_True.
  - unfold finding_at. simpl. specialize (Hsilent m (referenceFindingID id ReferencedResourceNotFound)).
    rewrite Hdel in Hsilent. apply Hsilent, get_del_finding.
  - done.
Qed.

(** A deleted namespace that was never indexed (deleted before
    kube-system was seen, say) makes the reconcile fail with the client's
    NotFound error, in this and in every later attempt. *)
Theorem NamespaceReconciler_unindexed_fails req n w :
  NameIndex_Get KindContext (nn_Name req) (w_index w) = Nil →
  let p := NamespaceReconciler_Reconcile req GetNotFound in
  result p (Nat.iter n (exec p) w) = failed (EGet "not found").
Proof.
  intros Hw p.
  assert (∀ w, NameIndex_Get KindContext (nn_Name req) (w_index w) = Nil →
    result p w = failed (EGet "not found") ∧
    NameIndex_Get KindContext (nn_Name req) (w_index (exec p w)) = Nil) as H.
  { clear w Hw. intros w Hw. unfold p, NamespaceReconciler_Reconcile. run_ops.
    set (w1 := exec (clear_cluster (nn_Name req)) w).
    assert (w_index w1 = w_index w) as Hi1.
    { unfold w1, clear_cluster, setClusterContextID. case_bool_decide; [|done]. run_ops.
      by destruct (sr_ClearContext (set_clusterContextID Nil w)) as [_ -> _ _]. }
    rewrite Delete_fst, Hi1, Hw. rewrite bool_decide_eq_false_2 by naive_solver. run_ops. split; [done|].
    rewrite Get_Delete. by rewrite decide_True. }
  assert (NameIndex_Get KindContext (nn_Name req) (w_index (Nat.iter n (exec p) w)) = Nil) as Hn.
  { induction n as [|n IH]; [done|]. simpl. by apply H. }
  by apply H.
Qed.
End theorems.
