(* ===== verification/Image.v ===== *)
(** * Image: [src/internal/controller/image.go] — container images of the cluster

    The identity of an image (its digest, or its reference), and the
    aggregation of what the Pods say about every image. The map of the code
    holds pointers, each under one key only; an update through a pointer is an
    [alter] of the entry. *)

From S2P Require Import Prelude.
From S2P Require Import GoStrings.
From S2P Require Import Lib.

Record imageObservation := mkObservation {
  io_key : string;
  io_displayName : string;
  io_hash : string;
  io_started : bool;
  io_pullFailed : bool;
  io_locations : list string;
  io_failingPods : list string
}.

Record imageIdentity := mkIdentity { ii_key : string; ii_displayName : string; ii_hash : string }.

(** What the scan reads of a Pod: the state of a container is Running,
    Terminated or Waiting with a reason. *)
Record ContainerStatus := mkContainerStatus {
  cs_Image : string;
  cs_ImageID : string;
  cs_Running : bool;
  cs_Terminated : bool;
  cs_Waiting : option string
}.

Record Pod := mkPod {
  pod_Namespace : string;
  pod_Name : string;
  pod_NodeName : string;
  pod_Containers : list string;
  pod_InitContainers : list string;
  pod_EphemeralContainers : list string;
  pod_ContainerStatuses : list ContainerStatus;
  pod_InitContainerStatuses : list ContainerStatus;
  pod_EphemeralContainerStatuses : list ContainerStatus
}.

(** ** Identities *)

Definition pullFailureReasons : list string := ["ErrImagePull"; "ImagePullBackOff"; "InvalidImageName"].

Definition hex64 (s : string) : bool :=
  bool_decide (String.length s = 64) && forallb is_hex_digit (chars s).

(** The group of the leftmost match of [(?i)(?:sha256:)?([a-f0-9]{64})]: the
    first 64 hexadecimal digits in a row. A match that starts with the optional
    prefix has the same group: no digit run of that length starts within
    "sha256:", whose colon is no digit. *)
Fixpoint find_digest (s : string) : option string :=
  if hex64 (str_take 64 s) then Some (str_take 64 s)
  else match s with EmptyString => None | String _ s => find_digest s end.

(** [strings.ToLower] on ASCII. *)
Definition lower (c : ascii) : ascii :=
  if (65 <=? code c)%Z && (code c <=? 90)%Z then ascii_of_N (N_of_ascii c + 32) else c.
Fixpoint ToLower (s : string) : string :=
  match s with EmptyString => "" | String c s => String (lower c) (ToLower s) end.

Definition parseImageID (imageID : string) : string :=
  if bool_decide (imageID = "") then ""
  else match find_digest imageID with None => "" | Some m => "SHA256:" +:+ ToLower m end.

Definition normalizeImageRef (ref : string) : string := TrimSpace ref.

Definition displayNameForDigest (ref hex : string) : string :=
  let at_ := LastIndex ref "@" in
  if (0 <=? at_)%Z then str_take (Z.to_nat at_) ref +:+ "@sha256:" +:+ hex
  else if bool_decide (ref ≠ "")
  then
    let i := LastIndex ref ":" in
    let base := if (LastIndex ref "/" <? i)%Z then str_take (Z.to_nat i) ref else ref in
    base +:+ "@sha256:" +:+ hex
  else "sha256:" +:+ hex.

Definition identityFromImage (imageRef imageID : string) : imageIdentity :=
  let ref := normalizeImageRef imageRef in
  let hash := parseImageID imageID in
  let hash := if bool_decide (hash = "") then parseImageID ref else hash in
  if bool_decide (hash ≠ "")
  then
    let hex := TrimPrefix hash "SHA256:" in
    mkIdentity ("sha256:" +:+ hex) (displayNameForDigest ref hex) hash
  else mkIdentity ref ref "".

Definition containerStarted (cs : ContainerStatus) : bool :=
  if bool_decide (cs_ImageID cs = "") then false else cs_Running cs || cs_Terminated cs.

Definition containerPullFailed (cs : ContainerStatus) : bool :=
  match cs_Waiting cs with
  | None => false
  | Some reason => bool_decide (reason ∈ pullFailureReasons)
  end.

(** ** Observations *)

Abbreviation Observations := (gmap string imageObservation).

Definition ensureObservation (id : imageIdentity) (obs : Observations) : Observations :=
  match obs !! ii_key id with
  | None => <[ii_key id := mkObservation (ii_key id) (ii_displayName id) (ii_hash id) false false [] []]> obs
  | Some o =>
      if bool_decide (io_hash o = "") && bool_decide (ii_hash id ≠ "")
      then <[ii_key id := mkObservation (io_key o) (ii_displayName id) (ii_hash id) (io_started o)
                            (io_pullFailed o) (io_locations o) (io_failingPods o)]> obs
      else obs
  end.

Definition addUnique (l : list string) (value : string) : list string :=
  if bool_decide (value = "") then l
  else if bool_decide (value ∈ l) then l else l ++ [value].

(** What an observation takes over from that of the tag. *)
Definition absorb (prev o : imageObservation) : imageObservation :=
  mkObservation (io_key o) (io_displayName o) (io_hash o)
    (if io_started prev then true else io_started o)
    (if io_pullFailed prev then true else io_pullFailed o)
    (foldl addUnique (io_locations o) (io_locations prev))
    (foldl addUnique (io_failingPods o) (io_failingPods prev)).

(** [digestObs] is the entry of [key]. *)
Definition mergeTagObservation (key tagKey : string) (obs : Observations) : Observations :=
  match obs !! key with
  | None => obs
  | Some digestObs =>
      if bool_decide (tagKey = "") || bool_decide (tagKey = io_key digestObs) then obs
      else
        match obs !! tagKey with
        | None => obs
        | Some prev => delete tagKey (alter (absorb prev) key obs)
        end
  end.

Definition registerDeclaredImages (images : list string) (obs : Observations) : Observations :=
  foldl (λ obs image,
    if bool_decide (image = "") then obs else ensureObservation (identityFromImage image "") obs) obs images.

Definition mark_started (nodeName : string) (o : imageObservation) : imageObservation :=
  let l := addUnique (io_locations o) ("oci://" +:+ io_displayName o) in
  let l := if bool_decide (nodeName ≠ "") then addUnique l ("node://" +:+ nodeName) else l in
  mkObservation (io_key o) (io_displayName o) (io_hash o) true (io_pullFailed o) l (io_failingPods o).

Definition mark_failed (podKey : string) (o : imageObservation) : imageObservation :=
  mkObservation (io_key o) (io_displayName o) (io_hash o) (io_started o) true (io_locations o)
    (addUnique (io_failingPods o) podKey).

Definition observeContainerStatus (pod : Pod) (podKey : string) (obs : Observations)
    (cs : ContainerStatus) : Observations :=
  let id := identityFromImage (cs_Image cs) (cs_ImageID cs) in
  if bool_decide (ii_key id = "") then obs
  else
    let obs := ensureObservation id obs in
    let obs := if bool_decide (ii_hash id ≠ "")
               then mergeTagObservation (ii_key id) (normalizeImageRef (cs_Image cs)) obs else obs in
    let obs := if containerStarted cs then alter (mark_started (pod_NodeName pod)) (ii_key id) obs else obs in
    if containerPullFailed cs then alter (mark_failed podKey) (ii_key id) obs else obs.

Definition pod_key (pod : Pod) : string := pod_Namespace pod +:+ "/" +:+ pod_Name pod.

Definition observePodImages (obs : Observations) (pod : Pod) : Observations :=
  let podKey := pod_key pod in
  let declared := pod_Containers pod ++ pod_InitContainers pod ++ pod_EphemeralContainers pod in
  let obs := registerDeclaredImages declared obs in
  let obs := foldl (observeContainerStatus pod podKey) obs (pod_ContainerStatuses pod) in
  let obs := foldl (observeContainerStatus pod podKey) obs (pod_InitContainerStatuses pod) in
  foldl (observeContainerStatus pod podKey) obs (pod_EphemeralContainerStatuses pod).

Definition clear_failure (o : imageObservation) : imageObservation :=
  if io_started o
  then mkObservation (io_key o) (io_displayName o) (io_hash o) true false (io_locations o) []
  else o.

Definition collectImageObservations (pods : list Pod) : Observations :=
  clear_failure <$> foldl observePodImages ∅ pods.

(** ** UUIDs and annotations *)

Section ids.
Context {L : Lib}.

Definition imageArtifactNamespaceUUID : uuid := uuid_MustParse "b4c5d6e7-2345-6789-abcd-ef0123456789".
Definition ArtifactInstanceLocationAnnotation : string := "emeland.io/p8-artifact-instance-location".

Definition artifactIDForImage (key : string) : uuid :=
  uuid_NewSHA1 imageArtifactNamespaceUUID ("artifact:" +:+ key).
Definition artifactInstanceIDForImage (key : string) : uuid :=
  uuid_NewSHA1 imageArtifactNamespaceUUID ("instance:" +:+ key).
Definition isSensorMintedArtifact (id : uuid) (key : string) : bool :=
  bool_decide (id = artifactIDForImage key).

Definition locationAnnotationValue (locations : list string) : string :=
  match locations with
  | [] => "[]"
  | l :: _ => match json_Marshal_strings locations with inl _ => fmt_q l | inr b => b end
  end.
End ids.

(** ** A key determines the hash *)

Definition lower_hex (s : string) : Prop :=
  hex64 s = true ∧ Forall (λ c, lower c = c) (chars s).

Lemma code_ascii z : (0 <= z < 256)%Z → code (ascii_of_N (Z.to_N z)) = z.
Proof. intros H. unfold code. rewrite N_ascii_embedding by lia. lia. Qed.

Lemma lower_upper c : (65 <= code c <= 90)%Z → code (lower c) = (code c + 32)%Z.
Proof.
  intros H. unfold lower. rewrite (proj2 (Z.leb_le 65 _)), (proj2 (Z.leb_le _ 90)) by lia. cbn [andb].
  unfold code in *. rewrite N_ascii_embedding by lia. lia.
Qed.

Lemma lower_other c : ¬ (65 <= code c <= 90)%Z → lower c = c.
Proof.
  intros H. unfold lower. destruct (Z.leb_spec 65 (code c)), (Z.leb_spec (code c) 90); try done. lia.
Qed.

Lemma lower_idemp c : lower (lower c) = lower c.
Proof.
  destruct (decide (65 <= code c <= 90)%Z) as [H|H]; [|by rewrite !(lower_other c)].
  apply lower_other. rewrite lower_upper by done. lia.
Qed.

Lemma is_hex_digit_spec c : is_hex_digit c = true ↔
  (48 <= code c <= 57 ∨ 97 <= code c <= 102 ∨ 65 <= code c <= 70)%Z.
Proof.
  unfold is_hex_digit, is_digit. rewrite !orb_true_iff, !andb_true_iff, !Z.leb_le. lia.
Qed.

Lemma lower_hex_digit c : is_hex_digit c = true → is_hex_digit (lower c) = true.
Proof.
  rewrite !is_hex_digit_spec. intros H. destruct (decide (65 <= code c <= 90)%Z) as [Hu|Hu].
  - rewrite lower_upper by done. lia.
  - rewrite lower_other by done. done.
Qed.

Lemma chars_ToLower s : chars (ToLower s) = lower <$> chars s.
Proof. induction s as [|c s IH]; [done|]. simpl. by rewrite IH. Qed.

Lemma String_length_chars s : String.length s = length (chars s).
Proof. induction s as [|c s IH]; [done|]. simpl. by rewrite IH. Qed.

Lemma ToLower_hex s : hex64 s = true → lower_hex (ToLower s).
Proof.
  unfold hex64, lower_hex. intros [Hl%bool_decide_eq_true Hc]%andb_true_iff. split.
  - unfold hex64. apply andb_true_iff. split.
    + apply bool_decide_eq_true. rewrite String_length_chars, chars_ToLower, length_fmap, <- String_length_chars. done.
    + apply forallb_forall. intros c. rewrite chars_ToLower. intros (d & <- & Hd)%in_map_iff.
      apply lower_hex_digit. by eapply forallb_forall in Hc.
  - rewrite chars_ToLower. apply Forall_fmap, Forall_true. intros c. apply lower_idemp.
Qed.

Lemma ToLower_fixed s : Forall (λ c, lower c = c) (chars s) → ToLower s = s.
Proof. induction s as [|c s IH]; simpl; [done|]. rewrite list.Forall_cons. intros [-> Hs]. by rewrite IH. Qed.

Lemma find_digest_hex s d : find_digest s = Some d → hex64 d = true.
Proof.
  induction s as [|c s IH]; [done|]. cbn [find_digest].
  destruct (hex64 (str_take 64 (String c s))) eqn:E; [by intros [= <-]|apply IH].
Qed.

Lemma hex64_length d : hex64 d = true → String.length d = 64.
Proof. unfold hex64. by intros [H%bool_decide_eq_true _]%andb_true_iff. Qed.

Lemma find_digest_whole d : hex64 d = true → find_digest d = Some d.
Proof.
  intros Hd. assert (str_take 64 d = d) as Ht.
  { pose proof (str_take_app d "") as H. by rewrite string_app_nil_r, (hex64_length d) in H. }
  destruct d as [|c d]; [done|]. cbn [find_digest]. by rewrite Ht, Hd.
Qed.

(** A character that is no digit within the first 64 rules out a match. *)
Lemma find_digest_skip c s : is_hex_digit c = false → find_digest (String c s) = find_digest s.
Proof.
  intros Hc. cbn [find_digest]. unfold hex64. simpl. by rewrite Hc, andb_false_r.
Qed.

Lemma find_digest_prefix d : hex64 d = true → find_digest ("sha256:" +:+ d) = Some d.
Proof.
  intros Hd. rewrite !string_app_cons, string_app_nil_l. cbn [find_digest].
  repeat match goal with |- context [hex64 (str_take 64 (String ?c ?t))] =>
    assert (hex64 (str_take 64 (String c t)) = false) as ->
      by (unfold hex64; simpl; by rewrite ?andb_false_r) end.
  by apply find_digest_whole.
Qed.

Lemma parseImageID_cases s :
  parseImageID s = "" ∨ ∃ hex, lower_hex hex ∧ parseImageID s = "SHA256:" +:+ hex.
Proof.
  unfold parseImageID. case_bool_decide; [by left|]. destruct (find_digest s) as [d|] eqn:E; [|by left].
  right. exists (ToLower d). split; [|done]. eapply ToLower_hex, find_digest_hex, E.
Qed.

Lemma parseImageID_key hex : lower_hex hex → parseImageID ("sha256:" +:+ hex) = "SHA256:" +:+ hex.
Proof.
  intros [Hh Hl]. unfold parseImageID. rewrite bool_decide_eq_false_2 by done.
  rewrite find_digest_prefix by done. by rewrite ToLower_fixed.
Qed.

(** The hash of an identity is the digest its key contains. *)
Lemma identity_hash ref imageID :
  let id := identityFromImage ref imageID in ii_hash id = parseImageID (ii_key id).
Proof.
  intros id. subst id. unfold identityFromImage. set (r := normalizeImageRef ref).
  set (h := if bool_decide (parseImageID imageID = "") then parseImageID r else parseImageID imageID).
  assert (h = "" ∨ ∃ hex, lower_hex hex ∧ h = "SHA256:" +:+ hex) as Hh.
  { unfold h. destruct (bool_decide (parseImageID imageID = "")); apply parseImageID_cases. }
  destruct Hh as [Hh|(hex & Hhex & Hh)].
  - rewrite bool_decide_eq_false_2 by naive_solver. simpl. symmetry. unfold h in Hh.
    case_bool_decide; [done|by rewrite Hh in *].
  - rewrite bool_decide_eq_true_2 by (rewrite Hh; done). simpl. rewrite Hh, TrimPrefix_app.
    by rewrite parseImageID_key.
Qed.

(** ** Well-formed observations *)

(** A list that [addUnique] built. *)
Definition collected (l : list string) : Prop := NoDup l ∧ "" ∉ l.

Record obs_ok (k : string) (o : imageObservation) : Prop := {
  ok_key : io_key o = k;
  ok_hash : io_hash o = parseImageID k;
  ok_locations : collected (io_locations o) ∧ (io_started o = true → io_locations o ≠ []);
  ok_failing : collected (io_failingPods o) ∧ (io_pullFailed o = true → io_failingPods o ≠ [])
}.

Definition obs_wf (obs : Observations) : Prop := map_Forall obs_ok obs.

Lemma elem_of_addUnique l v x : x ∈ addUnique l v ↔ x ∈ l ∨ x = v ∧ v ≠ "".
Proof. unfold addUnique. destruct (decide (v = "")), (decide (v ∈ l)); repeat case_bool_decide; set_solver. Qed.

Lemma addUnique_collected l v : collected l → collected (addUnique l v).
Proof.
  intros [Hn He]. split; [|rewrite elem_of_addUnique; naive_solver].
  unfold addUnique. destruct (bool_decide (v = "")); [done|]. destruct (decide (v ∈ l)) as [Hv|Hv].
  - by rewrite (bool_decide_eq_true_2 _ Hv).
  - rewrite (bool_decide_eq_false_2 _ Hv). apply list.NoDup_app. split_and!; [done| |apply NoDup_singleton].
    set_solver.
Qed.

Lemma elem_of_addUnique_all vs l x : x ∈ foldl addUnique l vs ↔ x ∈ l ∨ x ∈ vs ∧ x ≠ "".
Proof.
  revert l. induction vs as [|v vs IH]; intros l; simpl; [set_solver|].
  rewrite IH, elem_of_addUnique. set_solver.
Qed.

Lemma addUnique_all_collected vs l : collected l → collected (foldl addUnique l vs).
Proof. revert l. induction vs as [|v vs IH]; intros l H; [done|]. apply IH. by apply addUnique_collected. Qed.

Lemma nonempty_elem {A} (l : list A) : l ≠ [] ↔ ∃ x, x ∈ l.
Proof. destruct l; set_solver. Qed.

Lemma mark_started_ok k n o : obs_ok k o → obs_ok k (mark_started n o).
Proof.
  intros [Hk Hh [Hl Hs] Hf]. split; simpl; try done.
  pose proof (addUnique_collected (io_locations o) ("oci://" +:+ io_displayName o) Hl) as H1.
  pose proof (addUnique_collected _ ("node://" +:+ n) H1) as H2.
  destruct (bool_decide (n ≠ "")); (split; [done|]); intros _; apply nonempty_elem;
    exists ("oci://" +:+ io_displayName o); rewrite !elem_of_addUnique; naive_solver.
Qed.

Lemma mark_failed_ok k pod o : obs_ok k o → obs_ok k (mark_failed (pod_key pod) o).
Proof.
  intros [Hk Hh Hl [Hf Hp]]. split; simpl; try done. split; [by apply addUnique_collected|].
  intros _. apply nonempty_elem. exists (pod_key pod). rewrite elem_of_addUnique. right. split; [done|].
  unfold pod_key. by destruct (pod_Namespace pod).
Qed.

Lemma absorb_list vs l : collected vs → vs ≠ [] ∨ l ≠ [] → foldl addUnique l vs ≠ [].
Proof.
  intros [_ Hne] Hor. apply nonempty_elem.
  destruct Hor as [[x Hx]%nonempty_elem|[x Hx]%nonempty_elem]; exists x; rewrite elem_of_addUnique_all;
    [right|by left]. split; [done|]. by intros ->.
Qed.

Lemma absorb_ok k k' prev o : obs_ok k' prev → obs_ok k o → obs_ok k (absorb prev o).
Proof.
  intros [_ _ [Pl Ps] [Pf Pp]] [Hk Hh [Hl Hs] [Hf Hp]]. split; simpl; try done.
  - split; [by apply addUnique_all_collected|]. intros H. apply absorb_list; [done|].
    destruct (io_started prev); auto.
  - split; [by apply addUnique_all_collected|]. intros H. apply absorb_list; [done|].
    destruct (io_pullFailed prev); auto.
Qed.

(** An update that keeps an entry well formed keeps the map well formed. *)
Lemma alter_wf f k obs : (∀ o, obs_ok k o → obs_ok k (f o)) → obs_wf obs → obs_wf (alter f k obs).
Proof.
  intros Hf Hobs k' o'. rewrite lookup_alter. case_decide as H; [|apply Hobs]. subst k'.
  intros (o & Ho & ->)%fmap_Some. apply Hf, Hobs, Ho.
Qed.

(** In a well-formed map the branch that learns a hash later is never taken:
    an entry has the hash its key contains from the start. *)
Lemma ensureObservation_eq ref imageID obs :
  let id := identityFromImage ref imageID in
  obs_wf obs →
  ensureObservation id obs =
    match obs !! ii_key id with
    | None => <[ii_key id := mkObservation (ii_key id) (ii_displayName id) (ii_hash id) false false [] []]> obs
    | Some _ => obs
    end.
Proof.
  intros id Hwf. unfold ensureObservation. destruct (obs !! ii_key id) as [o|] eqn:E; [|done].
  assert (io_hash o = ii_hash id) as ->.
  { rewrite (ok_hash _ _ (Hwf _ _ E)). symmetry. apply identity_hash. }
  destruct (decide (ii_hash id = "")) as [->|Hne]; [done|].
  by rewrite (bool_decide_eq_false_2 _ Hne).
Qed.

Lemma collected_nil : collected [].
Proof. split; [apply NoDup_nil_2|apply not_elem_of_nil]. Qed.

Lemma ensureObservation_wf ref imageID obs :
  obs_wf obs → obs_wf (ensureObservation (identityFromImage ref imageID) obs).
Proof.
  intros Hwf. rewrite ensureObservation_eq by done. case_match; [done|].
  apply map_Forall_insert_2; [|done]. pose proof collected_nil. split; simpl; try done.
  apply identity_hash.
Qed.

Lemma mergeTagObservation_wf k tag obs : obs_wf obs → obs_wf (mergeTagObservation k tag obs).
Proof.
  intros Hwf. unfold mergeTagObservation. destruct (obs !! k) as [o|]; [|done].
  destruct (_ || _); [done|]. destruct (obs !! tag) as [prev|] eqn:E; [|done].
  apply map_Forall_delete. apply alter_wf; [|done]. intros o'. eapply absorb_ok, Hwf, E.
Qed.

(** ** Walking the Pods *)

(** All container statuses of a Pod, in the order they are looked at. *)
Definition pod_statuses (pod : Pod) : list ContainerStatus :=
  pod_ContainerStatuses pod ++ pod_InitContainerStatuses pod ++ pod_EphemeralContainerStatuses pod.

Lemma observePodImages_eq obs pod :
  observePodImages obs pod =
    foldl (observeContainerStatus pod (pod_key pod))
      (registerDeclaredImages (pod_Containers pod ++ pod_InitContainers pod ++ pod_EphemeralContainers pod) obs)
      (pod_statuses pod).
Proof. unfold observePodImages, pod_statuses. by rewrite !foldl_app. Qed.

(** A property of the map that registering an image keeps. *)
Lemma declared_ind (P : Observations → Prop) images obs :
  (∀ image obs, P obs → P (ensureObservation (identityFromImage image "") obs)) →
  P obs → P (registerDeclaredImages images obs).
Proof.
  intros Hreg. unfold registerDeclaredImages. revert obs.
  induction images as [|i images IH]; intros obs H; [done|].
  simpl. apply IH. destruct (bool_decide (i = "")); auto.
Qed.

Lemma statuses_ind (P : Observations → Prop) pod l obs :
  (∀ cs obs, cs ∈ l → P obs → P (observeContainerStatus pod (pod_key pod) obs cs)) →
  P obs → P (foldl (observeContainerStatus pod (pod_key pod)) obs l).
Proof.
  revert obs. induction l as [|cs l IH]; intros obs Hobs H; [done|]. simpl.
  apply IH; [intros; apply Hobs; [by right|done]|]. apply Hobs; [left|done].
Qed.

(** A property that declared images and container statuses keep holds of the
    whole walk. *)
Lemma walk_ind (P : Observations → Prop) pods obs :
  P obs →
  (∀ image obs, P obs → P (ensureObservation (identityFromImage image "") obs)) →
  (∀ pod cs obs, pod ∈ pods → cs ∈ pod_statuses pod → P obs →
    P (observeContainerStatus pod (pod_key pod) obs cs)) →
  P (foldl observePodImages obs pods).
Proof.
  intros H Hreg Hobs. revert obs H. induction pods as [|pod pods IH]; intros obs H; [done|].
  simpl. apply IH; [intros; apply Hobs; [by right|done..]|]. rewrite observePodImages_eq.
  apply statuses_ind; [intros; apply Hobs; [left|done..]|]. by apply declared_ind.
Qed.

Lemma observeContainerStatus_wf pod obs cs :
  obs_wf obs → obs_wf (observeContainerStatus pod (pod_key pod) obs cs).
Proof.
  intros Hwf. unfold observeContainerStatus. destruct (bool_decide _); [done|].
  apply (ensureObservation_wf (cs_Image cs) (cs_ImageID cs)) in Hwf.
  set (id := identityFromImage _ _) in *. set (m1 := ensureObservation id obs) in *.
  set (m2 := if bool_decide (ii_hash id ≠ "") then _ else m1).
  assert (obs_wf m2) as H2.
  { unfold m2. destruct (bool_decide _); [by apply mergeTagObservation_wf|done]. }
  set (m3 := if containerStarted cs then _ else m2).
  assert (obs_wf m3) as H3.
  { unfold m3. destruct (containerStarted cs); [|done]. apply alter_wf; [|done]. intros o. apply mark_started_ok. }
  destruct (containerPullFailed cs); [|done]. apply alter_wf; [|done]. intros o. apply mark_failed_ok.
Qed.

Lemma observations_wf pods : obs_wf (foldl observePodImages ∅ pods).
Proof.
  apply (walk_ind obs_wf).
  - apply map_Forall_empty.
  - intros. by apply ensureObservation_wf.
  - intros. by apply observeContainerStatus_wf.
Qed.

Lemma collect_ok pods k o :
  collectImageObservations pods !! k = Some o →
  obs_ok k o ∧ (io_started o = true → io_pullFailed o = false ∧ io_failingPods o = []).
Proof.
  unfold collectImageObservations. rewrite lookup_fmap. intros (o' & Ho' & ->)%fmap_Some.
  apply observations_wf in Ho'. unfold clear_failure. destruct (io_started o') eqn:E; [|by rewrite E].
  destruct Ho' as [Hk Hh Hl Hf]. pose proof collected_nil. split; [|done].
  split; simpl; try done. destruct Hl as [H1 H2]. auto.
Qed.

(** ** The theorems *)

(** Every observation is stored under its own key; its hash is the digest
    the key contains (none for a plain reference); an image with a started
    container has a location and no failing Pod; one with a failed pull has a
    failing Pod; locations and Pods are listed once. *)
Theorem collectImageObservations_wf pods k o :
  collectImageObservations pods !! k = Some o →
  obs_ok k o ∧ (io_started o = true → io_pullFailed o = false ∧ io_failingPods o = []).
Proof. apply collect_ok. Qed.

(** The entry of [k] has started, on [node] among others. *)
Definition seen_started (k node : string) (obs : Observations) : Prop :=
  ∃ o, obs !! k = Some o ∧ io_started o = true ∧ (node ≠ "" → "node://" +:+ node ∈ io_locations o).

Lemma seen_alter k node f k' obs :
  (∀ o, (io_started o = true → io_started (f o) = true) ∧ io_locations o ⊆ io_locations (f o)) →
  seen_started k node obs → seen_started k node (alter f k' obs).
Proof.
  intros Hf (o & Ho & Hs & Hn). destruct (Hf o) as [Hf1 Hf2]. destruct (decide (k' = k)) as [->|Hne].
  - exists (f o). rewrite lookup_alter_eq, Ho. split_and!; [done|auto|]. intros H. by apply Hf2, Hn.
  - exists o. by rewrite lookup_alter_ne.
Qed.

Lemma seen_ensure k node ref imageID obs :
  seen_started k node obs → seen_started k node (ensureObservation (identityFromImage ref imageID) obs).
Proof.
  intros (o & Ho & Hs & Hn). set (id := identityFromImage ref imageID). unfold ensureObservation.
  destruct (decide (ii_key id = k)) as [<-|Hne].
  - rewrite Ho. destruct (_ && _); [|by exists o]. eexists. rewrite lookup_insert_eq. split; [done|]. done.
  - exists o. split; [|done]. destruct (obs !! ii_key id); [destruct (_ && _)|];
      by rewrite ?lookup_insert_ne.
Qed.

Lemma seen_merge k node k' tag obs :
  tag ≠ k → seen_started k node obs → seen_started k node (mergeTagObservation k' tag obs).
Proof.
  intros Htag Hseen. unfold mergeTagObservation. destruct (obs !! k') as [o|]; [|done].
  destruct (_ || _); [done|]. destruct (obs !! tag) as [prev|]; [|done].
  apply (seen_alter k node (absorb prev) k') in Hseen as (o' & Ho' & H).
  - exists o'. by rewrite lookup_delete_ne.
  - intros o1. split; simpl; [by destruct (io_started prev)|].
    intros x Hx. apply elem_of_addUnique_all. by left.
Qed.

Lemma mark_started_grows n o :
  (io_started o = true → io_started (mark_started n o) = true) ∧
  io_locations o ⊆ io_locations (mark_started n o).
Proof.
  split; [done|]. intros x Hx. simpl. destruct (bool_decide _); rewrite !elem_of_addUnique; auto.
Qed.

Lemma mark_failed_grows p o :
  (io_started o = true → io_started (mark_failed p o) = true) ∧
  io_locations o ⊆ io_locations (mark_failed p o).
Proof. done. Qed.

(** A status may name an image by a reference and give its digest; what was
    observed under the reference is then moved to the digest. *)
Definition retagged (pods : list Pod) (k k' : string) : Prop :=
  ∃ pod cs, pod ∈ pods ∧ cs ∈ pod_statuses pod ∧ normalizeImageRef (cs_Image cs) = k ∧
            ii_key (identityFromImage (cs_Image cs) (cs_ImageID cs)) = k'.

(** Merging the observation of [tag] into that of [key]: a started image is
    still seen, under its own key or, if that is the tag, under [key]. *)
Lemma seen_merged k node key tag obs :
  obs_wf obs → is_Some (obs !! key) → seen_started k node obs →
  ∃ k', (k' = k ∨ tag = k ∧ key = k') ∧ seen_started k' node (mergeTagObservation key tag obs).
Proof.
  intros Hwf [d Hd] Hseen. destruct (decide (tag = k)) as [->|Hne]; [|exists k; split; [by left|by apply seen_merge]].
  unfold mergeTagObservation. rewrite Hd, (ok_key _ _ (Hwf _ _ Hd)).
  destruct (bool_decide (k = "") || bool_decide (k = key)) eqn:E; [exists k; split; [by left|done]|].
  apply orb_false_iff in E as [_ Hk%bool_decide_eq_false]. destruct Hseen as (o & Ho & Hs & Hn). rewrite Ho.
  exists key. split; [by right|]. exists (absorb o d).
  rewrite lookup_delete_ne, lookup_alter_eq, Hd by done. split; [done|]. simpl. rewrite Hs. split; [done|].
  intros Hnode. apply elem_of_addUnique_all. right. split; [by apply Hn|done].
Qed.

(** The last steps of the observation of a status. *)
Lemma seen_marked k node pod cs key obs :
  let obs := if containerStarted cs then alter (mark_started (pod_NodeName pod)) key obs else obs in
  seen_started k node obs →
  seen_started k node (if containerPullFailed cs then alter (mark_failed (pod_key pod)) key obs else obs).
Proof.
  intros obs' Hseen. destruct (containerPullFailed cs); [|done].
  apply seen_alter; [apply mark_failed_grows|done].
Qed.

(** The key of a status has an entry when its observation has begun. *)
Lemma ensure_entry id obs : is_Some (ensureObservation id obs !! ii_key id).
Proof.
  unfold ensureObservation. destruct (obs !! ii_key id) as [o|] eqn:E; [|rewrite lookup_insert_eq; eauto].
  destruct (_ && _); [rewrite lookup_insert_eq|rewrite E]; eauto.
Qed.

Lemma seen_observe pods k node pod cs obs :
  pod ∈ pods → cs ∈ pod_statuses pod → obs_wf obs → seen_started k node obs →
  ∃ k', rtc (retagged pods) k k' ∧ seen_started k' node (observeContainerStatus pod (pod_key pod) obs cs).
Proof.
  intros Hpod Hcs Hwf Hseen. unfold observeContainerStatus.
  destruct (bool_decide _); [by exists k|]. set (id := identityFromImage _ _).
  apply (seen_ensure k node (cs_Image cs) (cs_ImageID cs)) in Hseen.
  apply (ensureObservation_wf (cs_Image cs) (cs_ImageID cs)) in Hwf.
  pose proof (ensure_entry id obs) as Hid. set (m1 := ensureObservation id obs) in *. fold id m1 in Hseen, Hwf.
  assert (∃ k', rtc (retagged pods) k k' ∧ seen_started k' node
    (if bool_decide (ii_hash id ≠ "") then mergeTagObservation (ii_key id) (normalizeImageRef (cs_Image cs)) m1 else m1))
    as (k' & Hk' & H2).
  { destruct (bool_decide (ii_hash id ≠ "")); [|by exists k].
    destruct (seen_merged k node (ii_key id) (normalizeImageRef (cs_Image cs)) m1 Hwf Hid Hseen) as (k' & Hk' & H).
    exists k'. split; [|done]. destruct Hk' as [->|[H1 H2]]; [done|]. apply rtc_once. by exists pod, cs. }
  exists k'. split; [done|]. apply seen_marked. destruct (containerStarted cs); [|done].
  apply seen_alter; [apply mark_started_grows|done].
Qed.

(** Observing a started container records it under its key. *)
Lemma observe_started pod cs obs :
  let k := ii_key (identityFromImage (cs_Image cs) (cs_ImageID cs)) in
  obs_wf obs → k ≠ "" → containerStarted cs = true →
  seen_started k (pod_NodeName pod) (observeContainerStatus pod (pod_key pod) obs cs).
Proof.
  intros k Hwf Hk Hs. unfold observeContainerStatus. fold k. rewrite bool_decide_eq_false_2 by done.
  set (id := identityFromImage _ _) in *. change (ii_key id) with k.
  apply (ensureObservation_wf (cs_Image cs) (cs_ImageID cs)) in Hwf. fold id in Hwf.
  destruct (ensure_entry id obs) as [d Hd]. set (m1 := ensureObservation id obs) in *. change (ii_key id) with k in Hd.
  assert (is_Some ((if bool_decide (ii_hash id ≠ "")
    then mergeTagObservation k (normalizeImageRef (cs_Image cs)) m1 else m1) !! k)) as [o2 H2].
  { destruct (bool_decide (ii_hash id ≠ "")); [|eauto]. unfold mergeTagObservation.
    rewrite Hd, (ok_key _ _ (Hwf _ _ Hd)).
    destruct (_ || _) eqn:E; [eauto|]. apply orb_false_iff in E as [_ Hne%bool_decide_eq_false].
    destruct (m1 !! normalizeImageRef _); [|eauto]. rewrite lookup_delete_ne, lookup_alter_eq, Hd by done. eauto. }
  apply seen_marked. rewrite Hs. exists (mark_started (pod_NodeName pod) o2). rewrite lookup_alter_eq, H2.
  split_and!; [done|done|]. intros Hn. simpl. rewrite bool_decide_eq_true_2 by done.
  apply elem_of_addUnique. by right.
Qed.

(** C29. The image of every started container is observed as started, with the
    node of the Pod among its locations: under its own key or, when container
    statuses name that key together with a digest, under the digest it has been
    merged into, along a chain of such statuses. When none gives the key another
    digest it is its own key, a plain reference included. *)
Theorem started_image_observed pods pod cs :
  pod ∈ pods → cs ∈ pod_statuses pod → containerStarted cs = true →
  let k := ii_key (identityFromImage (cs_Image cs) (cs_ImageID cs)) in
  k ≠ "" →
  (∃ k', rtc (retagged pods) k k' ∧ seen_started k' (pod_NodeName pod) (collectImageObservations pods)) ∧
  ((∀ k', retagged pods k k' → k' = k) → seen_started k (pod_NodeName pod) (collectImageObservations pods)).
Proof.
  intros Hpod Hcs Hstart k Hk.
  set (P := λ obs, obs_wf obs ∧ ∃ k', rtc (retagged pods) k k' ∧ seen_started k' (pod_NodeName pod) obs).
  assert (∀ pod' cs' obs, pod' ∈ pods → cs' ∈ pod_statuses pod' → P obs →
    P (observeContainerStatus pod' (pod_key pod') obs cs')) as Hstep.
  { intros pod' cs' obs Hp' Hc' (Hwf & k' & Hk' & Hseen). split; [by apply observeContainerStatus_wf|].
    destruct (seen_observe pods k' (pod_NodeName pod) pod' cs' obs Hp' Hc' Hwf Hseen) as (k2 & Hk2 & H2).
    exists k2. split; [by etrans|done]. }
  assert (P (foldl observePodImages ∅ pods)) as (_ & k' & Hk' & o & Ho & Hs & Hn).
  { apply list_elem_of_split in Hpod as (l1 & l2 & Hpods). rewrite Hpods at 1. rewrite foldl_app. simpl.
    apply walk_ind.
    - apply list_elem_of_split in Hcs as (c1 & c2 & Hc). rewrite observePodImages_eq, Hc, foldl_app. simpl.
      apply statuses_ind; [intros cs' obs Hin; apply Hstep; [set_solver|rewrite Hc; set_solver]|].
      assert (obs_wf (foldl (observeContainerStatus pod (pod_key pod))
        (registerDeclaredImages (pod_Containers pod ++ pod_InitContainers pod ++ pod_EphemeralContainers pod)
          (foldl observePodImages ∅ l1)) c1)) as Hwf.
      { apply statuses_ind; [intros; by apply observeContainerStatus_wf|].
        apply declared_ind; [intros; by apply ensureObservation_wf|]. apply observations_wf. }
      split; [by apply observeContainerStatus_wf|]. exists k. split; [done|]. by apply observe_started.
    - intros image obs (Hwf & k' & Hk' & Hseen). split; [by apply ensureObservation_wf|].
      exists k'. split; [done|]. by apply seen_ensure.
    - intros pod' cs' obs Hp'. apply Hstep. set_solver. }
  assert (seen_started k' (pod_NodeName pod) (collectImageObservations pods)) as Hseen.
  { exists (clear_failure o). unfold collectImageObservations. rewrite lookup_fmap, Ho.
    assert (io_started (clear_failure o) = true ∧ io_locations (clear_failure o) = io_locations o) as [H1 H2]
      by (unfold clear_failure; by rewrite Hs).
    split_and!; [done|done|by rewrite H2]. }
  split; [by exists k'|]. intros Hown. replace k with k'; [done|].
  clear -Hk' Hown. induction Hk' as [|a b c Hab _ IH]; [done|]. rewrite (Hown _ Hab) in IH. by apply IH.
Qed.

(** Whether a failed pull is reported depends on the order of the Pods:
    with a Pod that runs an image by its digest and another that fails to pull
    the same image by its tag, the failure is forgotten when the failing Pod is
    listed first, and kept, under the tag, when it is listed second, although
    the image has started. *)
Theorem pull_failure_depends_on_order :
  let digest := "docker.io/shop@sha256:" +:+
    "0123456789abcdef0123456789abcdef0123456789abcdef0123456789abcdef" in
  let running := mkPod "ns" "running" "node" ["shop:1"] [] []
    [mkContainerStatus "shop:1" digest true false None] [] [] in
  let failing := mkPod "ns" "failing" "node" ["shop:1"] [] []
    [mkContainerStatus "shop:1" "" false false (Some "ErrImagePull")] [] [] in
  let failures := λ pods, io_key <$> filter (λ o, io_pullFailed o = true)
                            (snd <$> map_to_list (collectImageObservations pods)) in
  failures [failing; running] = [] ∧ failures [running; failing] = ["shop:1"].
Proof. vm_compute. split; reflexivity. Qed.
