(* ===== verification/ImageScan.v ===== *)
(** * ImageScan: [src/internal/controller/image_scan_controller.go]

    The cluster-wide scan: Artifacts, ArtifactInstances and findings for the
    observations of [Image], and the clean-up of images that are gone. The
    observations are visited in the order Go ranges over the map. *)

From S2P Require Import Prelude.
From S2P Require Import Prog.
From S2P Require Import GoStrings.
From S2P Require Import K8s.
From S2P Require Import Lib.
From S2P Require Import Entities.
From S2P Require Import ModelSrv.
From S2P Require Import Registry.
From S2P Require Import RuleRepo.
From S2P Require Import State.
From S2P Require Import Convert.
From S2P Require Import RefFindings.
From S2P Require Import CrdControllers.
From S2P Require Import Image.

Definition ImageNotRetrieved : string := "ImageNotRetrieved".

Section scan.
Context {L : Lib} {S : ModelSrv}.

Definition Model_GetArtifacts (c : Choice) : action (option (list Artifact)) :=
  reading (λ w, GetArtifacts c (w_model w)).

(** The id of the Artifact found by hash, by display name, or by the index. *)
Definition findExistingArtifact (c : Choice) (obs : imageObservation) : action (option uuid) :=
  all <- Model_GetArtifacts c ;;
  match all with
  | None => Ret None
  | Some all =>
      let by_hash := if bool_decide (io_hash obs ≠ "")
                     then list_find (λ a, art_Hash a = io_hash obs) all else None in
      match by_hash with
      | Some (_, a) => Ret (Some (art_Id a))
      | None =>
          match list_find (λ a, art_DisplayName a = io_displayName obs) all with
          | Some (_, a) => Ret (Some (art_Id a))
          | None =>
              id <- Index_Get KindArtifact (io_key obs) ;;
              if bool_decide (id ≠ Nil)
              then a <- Model_Get FArtifact id ;; Ret (id_of <$> a)
              else Ret None
          end
      end
  end.

Definition ensureArtifact (c : Choice) (obs : imageObservation) : action (ModelErr + uuid) :=
  existing <- findExistingArtifact c obs ;;
  match existing with
  | Some id => Index_Put KindArtifact (io_key obs) id ;; Ret (inr id)
  | None =>
      let id := artifactIDForImage (io_key obs) in
      err <- Model_Add (EArtifact (mkArtifact id (io_displayName obs)
               "Container image observed in the Kubernetes cluster"
               (if bool_decide (io_hash obs ≠ "") then io_hash obs else ""))) ;;
      match err with
      | Some err => Ret (inl err)
      | None => Index_Put KindArtifact (io_key obs) id ;; Ret (inr id)
      end
  end.

Definition image_instance (obs : imageObservation) (artID : uuid) : ArtifactInstance :=
  mkArtifactInstance (artifactInstanceIDForImage (io_key obs)) (io_displayName obs)
    "Retrieved and started container image in this cluster" artID
    {[ArtifactInstanceLocationAnnotation := locationAnnotationValue (io_locations obs)]}.

Definition ensureArtifactInstance (obs : imageObservation) (artID : uuid) : action (option ModelErr) :=
  err <- Model_Add (EArtifactInstance (image_instance obs artID)) ;;
  match err with
  | Some err => Ret (Some err)
  | None =>
      Index_Put KindArtifactInstance (io_key obs) (artifactInstanceIDForImage (io_key obs)) ;;
      Ret None
  end.

Definition deleteArtifactInstance (key : string) : action unit :=
  id <- Index_Delete KindArtifactInstance key ;;
  let id := if bool_decide (id = Nil) then artifactInstanceIDForImage key else id in
  _ <- Model_Delete FArtifactInstance id ;; Ret tt.

Definition imageFinding (artID : uuid) (obs : imageObservation) : Finding :=
  mkFinding (referenceFindingID artID ImageNotRetrieved)
    ("Image not retrieved: " +:+ io_displayName obs)
    ("Container image " +:+ io_displayName obs +:+
     " is declared in the cluster but has not been retrieved successfully." +:+
     (if bool_decide (io_failingPods obs = []) then ""
      else " Failing pods: " +:+ Join ", " (io_failingPods obs) +:+ "."))
    (Some (TypeIDForKind ImageNotRetrieved)) [mkResourceRef artID ArtifactResource] ∅.

Definition upsertImageNotRetrieved (artID : uuid) (obs : imageObservation) : action unit :=
  _ <- Model_Add (EFinding (imageFinding artID obs)) ;; Ret tt.

Definition deleteImageNotRetrievedFinding (artID : uuid) : action unit :=
  deleteReferenceFinding artID ImageNotRetrieved.

Definition RegisterImageFindingTypes : action (option ModelErr) :=
  Model_Add (EFindingType (mkFindingType (TypeIDForKind ImageNotRetrieved) "ImageNotRetrieved"
    "A container image is declared in the cluster but has not been retrieved successfully.")).

(** One iteration of the loop over the observations; an error ends the scan. *)
Definition scan_one (c : Choice) (key : string) (obs : imageObservation) : action (option ModelErr) :=
  art <- ensureArtifact c obs ;;
  match art with
  | inl err => Ret (Some err)
  | inr artID =>
      if io_started obs
      then
        err <- ensureArtifactInstance obs artID ;;
        match err with
        | Some err => Ret (Some err)
        | None => deleteImageNotRetrievedFinding artID ;; Ret None
        end
      else
        deleteArtifactInstance key ;;
        (if io_pullFailed obs then upsertImageNotRetrieved artID obs
         else deleteImageNotRetrievedFinding artID) ;;
        Ret None
  end.

Fixpoint scan_all (c : string → Choice) (l : list (string * imageObservation)) : action (option ModelErr) :=
  match l with
  | [] => Ret None
  | (key, obs) :: l =>
      err <- scan_one (c key) key obs ;;
      match err with Some err => Ret (Some err) | None => scan_all c l end
  end.

Definition cleanup_instance (desired : gset string) (key : string) : action unit :=
  if bool_decide (key ∈ desired) then Ret tt
  else
    id <- Index_Delete KindArtifactInstance key ;;
    if bool_decide (id = Nil) then Ret tt
    else _ <- Model_Delete FArtifactInstance id ;; Ret tt.

Definition cleanup_artifact (desired : gset string) (key : string) : action unit :=
  if bool_decide (key ∈ desired) then Ret tt
  else
    id <- Index_Delete KindArtifact key ;;
    if bool_decide (id = Nil) then Ret tt
    else
      deleteImageNotRetrievedFinding id ;;
      if isSensorMintedArtifact id key
      then _ <- Model_Delete FArtifact id ;; Ret tt
      else Ret tt.

(** The choices of one scan: for the range over the observations, for the call
    of [GetArtifacts] for the image of a key, and for the two calls of [Keys]. *)
Record ScanChoices := mkScanChoices {
  sc_observations : Choice;
  sc_artifacts : string → Choice;
  sc_instance_keys : Choice;
  sc_artifact_keys : Choice
}.

(** Errors of the deletes are logged only. *)
Definition cleanupStale (c : ScanChoices) (desired : gset string) : action unit :=
  instances <- Index_Keys (sc_instance_keys c) KindArtifactInstance ;;
  for_each instances (cleanup_instance desired) ;;
  artifacts <- Index_Keys (sc_artifact_keys c) KindArtifact ;;
  for_each artifacts (cleanup_artifact desired).

(** [pods] is what [List] returned. *)
Definition ImageScanReconciler_Reconcile (c : ScanChoices) (pods : string + list Pod) : action Outcome :=
  match pods with
  | inl err => Ret (failed (EGet err))
  | inr pods =>
      let observations := collectImageObservations pods in
      err <- scan_all (sc_artifacts c) (range_map (sc_observations c) observations) ;;
      match err with
      | Some err => Ret (failed (EModel err))
      | None => cleanupStale c (dom observations) ;; Ret done_ok
      end
  end.
End scan.

#[export] Hint Unfold Model_GetArtifacts : sensor.

(** ** What the steps touch *)

Section frame.
Context {L : Lib} {S : ModelSrv} {HL : ModelSrvLaws S}.

(** Only findings, ArtifactInstances and Artifacts the sensor mints change. *)
Definition scan_frame (w w' : World) : Prop :=
  ∀ f i, f ≠ FFinding → f ≠ FArtifactInstance → (f = FArtifact → ∀ key, i ≠ artifactIDForImage key) →
    get f i (w_model w') = get f i (w_model w).

Lemma scan_frame_refl w : scan_frame w w.
Proof. done. Qed.
Lemma scan_frame_trans w1 w2 w3 : scan_frame w1 w2 → scan_frame w2 w3 → scan_frame w1 w3.
Proof. intros H12 H23 f i H1 H2 H3. by rewrite H23, H12. Qed.
Lemma scan_frame_bind {A B} (p : action A) (k : A → action B) w :
  (∀ w, scan_frame w (exec p w)) → (∀ a w, scan_frame w (exec (k a) w)) → scan_frame w (exec (bind p k) w).
Proof. intros Hp Hk. rewrite exec_bind. eapply scan_frame_trans; eauto. Qed.
Lemma scan_frame_model {A} (p : action A) w : w_model (exec p w) = w_model w → scan_frame w (exec p w).
Proof. intros H f i _ _ _. by rewrite H. Qed.
Lemma scan_frame_for_each {X} (l : list X) body w :
  (∀ x w, scan_frame w (exec (body x) w)) → scan_frame w (exec (for_each l body) w).
Proof.
  intros H. apply (exec_for_each_ind scan_frame); [apply scan_frame_refl|apply scan_frame_trans|auto].
Qed.

Lemma scan_frame_add e w :
  family_of e = FFinding ∨ family_of e = FArtifactInstance ∨
    family_of e = FArtifact ∧ (∃ key, id_of e = artifactIDForImage key) →
  scan_frame w (exec (Model_Add e) w).
Proof.
  intros He f i H1 H2 H3. run_ops. destruct (add e (w_model w)) as [m r] eqn:E. simpl.
  eapply add_frame; [done|by left|]. intros [= -> ->].
  destruct He as [He|[He|[He [key Hk]]]]; [done|done|]. by apply (H3 He key).
Qed.
Lemma scan_frame_delete fam id w :
  fam = FFinding ∨ fam = FArtifactInstance ∨ fam = FArtifact ∧ (∃ key, id = artifactIDForImage key) →
  scan_frame w (exec (Model_Delete fam id) w).
Proof.
  intros He f i H1 H2 H3. run_ops. destruct (del fam id (w_model w)) as [m r] eqn:E. simpl.
  eapply del_frame; [done|by left|]. intros [= -> ->].
  destruct He as [He|[He|[He [key Hk]]]]; [done|done|]. by apply (H3 He key).
Qed.

Create HintDb scan.
Hint Resolve scan_frame_refl scan_frame_bind scan_frame_for_each scan_frame_add scan_frame_delete : scan.
Hint Extern 1 (scan_frame _ (exec _ _)) => apply scan_frame_model; reflexivity : scan.

Lemma scan_frame_find c obs w : scan_frame w (exec (findExistingArtifact c obs) w).
Proof.
  unfold findExistingArtifact. apply scan_frame_bind; [auto with scan|]. intros [all|] w1; [|auto with scan].
  destruct (if bool_decide (io_hash obs ≠ "") then _ else _) as [[]|]; [auto with scan|].
  destruct (list_find _ all) as [[]|]; [auto with scan|].
  apply scan_frame_bind; [auto with scan|]. intros id w2. case_bool_decide; auto with scan.
Qed.

Lemma scan_frame_one c key obs w : scan_frame w (exec (scan_one c key obs) w).
Proof.
  unfold scan_one. apply scan_frame_bind.
  - intros w1. unfold ensureArtifact. apply scan_frame_bind; [apply scan_frame_find|].
    intros [id|] w2; [auto with scan|]. apply scan_frame_bind; [|intros [err|] w3; auto with scan].
    intros w3. apply scan_frame_add. right; right. split; [done|]. by eexists.
  - intros [err|artID] w1; [auto with scan|]. destruct (io_started obs).
    + apply scan_frame_bind; [|intros [err|] w2; auto 10 with scan].
      * intros w2. unfold ensureArtifactInstance. apply scan_frame_bind; [auto 10 with scan|].
        intros [err|] w3; auto with scan.
      * unfold deleteImageNotRetrievedFinding, deleteReferenceFinding. auto 10 with scan.
    + apply scan_frame_bind; [|intros _ w2; apply scan_frame_bind; [|auto with scan]].
      * intros w2. unfold deleteArtifactInstance. apply scan_frame_bind; auto 10 with scan.
      * intros w3. unfold upsertImageNotRetrieved, deleteImageNotRetrievedFinding, deleteReferenceFinding.
        destruct (io_pullFailed obs); auto 10 with scan.
Qed.

Lemma scan_frame_all c l w : scan_frame w (exec (scan_all c l) w).
Proof.
  revert w. induction l as [|[key obs] l IH]; intros w; [auto with scan|]. cbn [scan_all].
  apply scan_frame_bind; [apply scan_frame_one|]. intros [err|] w1; auto with scan.
Qed.

Lemma scan_frame_cleanup c desired w : scan_frame w (exec (cleanupStale c desired) w).
Proof.
  unfold cleanupStale. apply scan_frame_bind; [auto with scan|]. intros insts w1.
  apply scan_frame_bind; [|intros _ w2; apply scan_frame_bind; [auto with scan|intros arts w3]].
  - intros w2. apply scan_frame_for_each. intros key w3. unfold cleanup_instance.
    case_bool_decide; [auto with scan|]. apply scan_frame_bind; [auto with scan|].
    intros id w4. case_bool_decide; auto 10 with scan.
  - apply scan_frame_for_each. intros key w4. unfold cleanup_artifact.
    case_bool_decide; [auto with scan|]. apply scan_frame_bind; [auto with scan|].
    intros id w5. case_bool_decide; [auto with scan|].
    unfold deleteImageNotRetrievedFinding, deleteReferenceFinding.
    apply scan_frame_bind; [auto 10 with scan|]. intros _ w6. unfold isSensorMintedArtifact.
    case_bool_decide as Hid; [|auto with scan]. apply scan_frame_bind; [|auto with scan].
    intros w7. apply scan_frame_delete. right; right. split; [done|]. by exists key.
Qed.
End frame.

(** ** The ArtifactInstances of the sensor *)

Section mirror.
Context {L : Lib} {HLib : LibLaws} {S : ModelSrv} {HL : ModelSrvLaws S}.

(** [K] are the images in play, a finite set. The store takes Artifacts and
    their instances, and the ids of the instances of these images (UUID v5
    hashes of the keys) are distinct and not nil. *)
Record scan_env (K : gset string) : Prop := {
  se_accepts : accepts FArtifact ∧ accepts FArtifactInstance;
  se_deletes : deletes FArtifactInstance;
  se_inj k1 k2 :
    k1 ∈ K → k2 ∈ K → artifactInstanceIDForImage k1 = artifactInstanceIDForImage k2 → k1 = k2;
  se_nil k : k ∈ K → artifactInstanceIDForImage k ≠ Nil
}.

(** What is indexed and stored of the instance of the image [k]. *)
Definition inst (w : World) (k : string) : option uuid * option Entity :=
  (at2 (names (w_index w)) KindArtifactInstance k,
   get FArtifactInstance (artifactInstanceIDForImage k) (w_model w)).

(** Only instances of images in play are indexed, and under their own ids. *)
Definition inst_indexed (K : gset string) (w : World) : Prop :=
  ∀ k, at2 (names (w_index w)) KindArtifactInstance k = None ∨
       at2 (names (w_index w)) KindArtifactInstance k = Some (artifactInstanceIDForImage k) ∧ k ∈ K.

(** The state the scan aims at for an image. *)
Definition inst_wanted (o : option imageObservation) (k : string) (before after : option uuid * option Entity) : Prop :=
  match o with
  | Some obs =>
      if io_started obs
      then ∃ artID, after = (Some (artifactInstanceIDForImage k), Some (EArtifactInstance (image_instance obs artID)))
      else after = (None, None)
  | None => match before.1 with Some _ => after = (None, None) | None => after = before end
  end.

Context (K : gset string) (Henv : scan_env K).

Lemma exec_ensureArtifact c obs w :
  ∃ m artID, exec (ensureArtifact c obs) w = set_index (NameIndex_Put KindArtifact (io_key obs) artID (w_index w)) (set_model m w) ∧
    result (ensureArtifact c obs) w = inr artID ∧
    ∀ i, get FArtifactInstance i m = get FArtifactInstance i (w_model w).
Proof.
  assert (exec (findExistingArtifact c obs) w = w) as He.
  { unfold findExistingArtifact. run_ops. destruct (GetArtifacts c (w_model w)) as [all|]; [|done].
    destruct (if bool_decide (io_hash obs ≠ "") then _ else _) as [[]|]; [done|].
    destruct (list_find _ all) as [[]|]; [done|]. run_ops. case_bool_decide; by run_ops. }
  unfold ensureArtifact. run_ops. rewrite He.
  destruct (result (findExistingArtifact c obs) w) as [id|]; run_ops.
  - exists (w_model w), id. split_and!; [by destruct w|done|done].
  - set (a := EArtifact _). pose proof (proj1 (se_accepts K Henv) a (w_model w) eq_refl) as Hr.
    destruct (add a (w_model w)) as [m r] eqn:E. simpl in Hr. subst r. run_ops.
    eexists m, _. split_and!; [done|done|]. intros i. eapply add_frame; [done|by left|done].
Qed.

(** The instance of an image is deleted under the id it was indexed with, which
    is the id the sensor mints. *)
Lemma exec_deleteArtifactInstance k w :
  inst_indexed K w →
  ∃ m, exec (deleteArtifactInstance k) w =
      set_model m (set_index (NameIndex_Delete KindArtifactInstance k (w_index w)).2 w) ∧
    get FArtifactInstance (artifactInstanceIDForImage k) m = None ∧
    ∀ j, j ≠ artifactInstanceIDForImage k → get FArtifactInstance j m = get FArtifactInstance j (w_model w).
Proof.
  intros Hw. unfold deleteArtifactInstance. run_ops.
  assert ((if bool_decide ((NameIndex_Delete KindArtifactInstance k (w_index w)).1 = Nil)
    then artifactInstanceIDForImage k else (NameIndex_Delete KindArtifactInstance k (w_index w)).1) =
    artifactInstanceIDForImage k) as ->.
  { rewrite Delete_fst. unfold NameIndex_Get. rewrite get2_at2.
    destruct (Hw k) as [->|[-> _]]; simpl; [by rewrite bool_decide_eq_true_2|by destruct (bool_decide _)]. }
  set (i := artifactInstanceIDForImage k). exists (del FArtifactInstance i (w_model w)).1.
  split_and!; [done|apply get_deleted, Henv|]. intros j Hj.
  destruct (del FArtifactInstance i (w_model w)) as [m r] eqn:E. simpl.
  eapply del_frame; [done|by left|congruence].
Qed.

(** The finding of an image touches neither the index nor the instances. *)
Lemma exec_image_finding (b : bool) artID obs w :
  ∃ m, exec (if b then upsertImageNotRetrieved artID obs else deleteImageNotRetrievedFinding artID) w = set_model m w ∧
    ∀ j, get FArtifactInstance j m = get FArtifactInstance j (w_model w).
Proof.
  unfold upsertImageNotRetrieved, deleteImageNotRetrievedFinding.
  destruct b; run_ops; eexists; (split; [done|]); intros j; [by apply add_finding_frame|by apply del_finding_frame].
Qed.

Lemma scan_one_inst c k obs w :
  k ∈ K → io_key obs = k → inst_indexed K w →
  result (scan_one c k obs) w = None ∧ inst_indexed K (exec (scan_one c k obs) w) ∧
  (∀ k', k' ∈ K → k' ≠ k → inst (exec (scan_one c k obs) w) k' = inst w k') ∧
  inst_wanted (Some obs) k (inst w k) (inst (exec (scan_one c k obs) w) k).
Proof.
  intros HK Hk Hw. unfold scan_one. run_ops.
  destruct (exec_ensureArtifact c obs w) as (m & artID & -> & -> & Hm). rewrite Hk.
  set (idx := NameIndex_Put KindArtifact k artID (w_index w)). set (w1 := set_index idx _).
  assert (∀ k', at2 (names idx) KindArtifactInstance k' = at2 (names (w_index w)) KindArtifactInstance k') as Hn.
  { intros k'. simpl. rewrite at2_put2. by rewrite decide_False. }
  unfold inst_wanted. destruct (io_started obs) eqn:Hs.
  - unfold ensureArtifactInstance. run_ops.
    set (e := EArtifactInstance (image_instance obs artID)).
    pose proof (proj2 (se_accepts K Henv) e m eq_refl) as Hr.
    destruct (add e m) as [m' r] eqn:E. simpl in Hr. subst r. run_ops. rewrite Hk.
    destruct (exec_image_finding false artID obs (set_index
      (NameIndex_Put KindArtifactInstance k (artifactInstanceIDForImage k) idx) (set_model m' w1))) as (m2 & -> & Hd).
    split_and!; [done| | |].
    + intros k'. simpl. rewrite at2_put2. rewrite Hn. case_decide as H; [by simplify_eq; right|apply Hw].
    + intros k' HK' Hne. unfold inst. simpl. rewrite at2_put2, decide_False by congruence. rewrite Hn, Hd.
      f_equal. rewrite <- Hm. eapply add_frame; [done|by left|]. simpl. rewrite Hk.
      intros [= H]. by apply (se_inj K Henv) in H.
    + exists artID. unfold inst. simpl. rewrite at2_put2, decide_True by done. rewrite Hd. cbn [w_model set_index set_model].
      apply add_ok in E. simpl in E. rewrite Hk in E. by rewrite E.
  - rewrite !exec_bind, !result_bind. destruct (exec_deleteArtifactInstance k w1) as (m1 & -> & Hgone & Hother).
    { intros k'. simpl. rewrite Hn. apply Hw. }
    set (w2 := set_model m1 _).
    destruct (exec_image_finding (io_pullFailed obs) artID obs w2) as (m' & -> & Hm').
    split_and!; [done| | |].
    + intros k'. simpl. rewrite at2_Delete.
      destruct (decide (_ = _)); [by left|]. rewrite Hn. apply Hw.
    + intros k' HK' Hne. unfold inst. simpl. rewrite at2_Delete, decide_False by congruence. rewrite Hn, Hm'.
      f_equal. simpl. rewrite Hother; [apply Hm|]. intros H. by apply (se_inj K Henv) in H.
    + unfold inst. simpl. rewrite at2_Delete, decide_True by done. rewrite Hm'. simpl. by rewrite Hgone.
Qed.

Lemma scan_all_inst c l w :
  NoDup l.*1 → (∀ k o, (k, o) ∈ l → k ∈ K ∧ io_key o = k) → inst_indexed K w →
  let w' := exec (scan_all c l) w in
  result (scan_all c l) w = None ∧ inst_indexed K w' ∧
  (∀ k, k ∈ K → k ∉ l.*1 → inst w' k = inst w k) ∧
  (∀ k o, (k, o) ∈ l → inst_wanted (Some o) k (inst w k) (inst w' k)).
Proof.
  revert w. induction l as [|[k o] l IH]; intros w Hnd Hkeys Hw.
  { split_and!; try done. by intros k o H%not_elem_of_nil. }
  cbn [scan_all]. run_ops.
  destruct (Hkeys k o) as [HK Hk]; [left|].
  destruct (scan_one_inst (c k) k o w HK Hk Hw) as (-> & Hw1 & Hother & Hdone). simpl.
  apply list.NoDup_cons in Hnd as [Hnew Hnd].
  destruct (IH (exec (scan_one (c k) k o) w)) as (Hr & Hw2 & Hout & Hin); [done| |done|].
  { intros k' o' H. apply Hkeys. by right. }
  split_and!; [done|done| |].
  - intros k' HK' [Hne Hk']%not_elem_of_cons. simpl in *. by rewrite Hout, Hother.
  - intros k' o' [[= -> ->]|Hin']%elem_of_cons.
    + by rewrite Hout.
    + apply (Hin _ _ Hin').
Qed.

Lemma inst_wanted_trans k a b c : inst_wanted None k a b → inst_wanted None k b c → inst_wanted None k a c.
Proof. unfold inst_wanted. destruct a as [[]], b as [[]]; simpl; naive_solver. Qed.

Lemma cleanup_instance_inst desired key w :
  inst_indexed K w →
  let w' := exec (cleanup_instance desired key) w in
  inst_indexed K w' ∧
  ∀ k, k ∈ K → if bool_decide (k = key ∧ k ∉ desired) then inst_wanted None k (inst w k) (inst w' k)
       else inst w' k = inst w k.
Proof.
  intros Hw. unfold cleanup_instance. destruct (decide (key ∈ desired)) as [Hd|Hd].
  { rewrite (bool_decide_eq_true_2 _ Hd). split; [done|]. intros k _. rewrite bool_decide_eq_false_2; naive_solver. }
  rewrite (bool_decide_eq_false_2 _ Hd). run_ops. rewrite Delete_fst. unfold NameIndex_Get. rewrite get2_at2.
  set (idx := (NameIndex_Delete KindArtifactInstance key (w_index w)).2).
  assert (∀ k, at2 (names idx) KindArtifactInstance k =
    if decide (key = k) then None else at2 (names (w_index w)) KindArtifactInstance k) as Hidx.
  { intros k. unfold idx. rewrite at2_Delete. destruct (decide (key = k)) as [->|Hne].
    - by rewrite decide_True. - by rewrite decide_False by congruence. }
  destruct (Hw key) as [Hk|[Hk HK]]; rewrite Hk; simpl.
  - rewrite bool_decide_eq_true_2 by done. run_ops. split.
    + intros k. simpl. rewrite Hidx. destruct (decide (key = k)); [by left|apply Hw].
    + intros k _. assert (inst (set_index idx w) k = inst w k) as ->.
      { unfold inst. simpl. rewrite Hidx. destruct (decide (key = k)) as [<-|]; [by rewrite Hk|done]. }
      destruct (bool_decide (k = key ∧ k ∉ desired)) eqn:E; [|done].
      apply bool_decide_eq_true in E as [-> _]. unfold inst_wanted, inst. simpl. by rewrite Hk.
  - rewrite bool_decide_eq_false_2 by by apply (se_nil K Henv). run_ops.
    set (i := artifactInstanceIDForImage key) in *. split.
    + intros k. simpl. rewrite Hidx. destruct (decide (key = k)); [by left|apply Hw].
    + intros k HK'. destruct (bool_decide (k = key ∧ k ∉ desired)) eqn:E.
      * apply bool_decide_eq_true in E as [-> _]. unfold inst_wanted, inst. simpl. rewrite Hk, Hidx, decide_True by done.
        f_equal. apply get_deleted, Henv.
      * apply bool_decide_eq_false in E. assert (key ≠ k) as Hne by naive_solver.
        unfold inst. simpl. rewrite Hidx, decide_False by done. f_equal.
        destruct (del FArtifactInstance i (w_model w)) as [m r] eqn:Hdel. simpl.
        eapply del_frame; [done|by left|]. intros [= H]. by apply (se_inj K Henv) in H.
Qed.

Lemma cleanup_instances_inst desired ks w :
  inst_indexed K w →
  let w' := exec (for_each ks (cleanup_instance desired)) w in
  inst_indexed K w' ∧
  ∀ k, k ∈ K → if bool_decide (k ∈ ks ∧ k ∉ desired) then inst_wanted None k (inst w k) (inst w' k)
       else inst w' k = inst w k.
Proof.
  revert w. induction ks as [|key ks IH]; intros w Hw.
  { split; [done|]. intros k _. rewrite bool_decide_eq_false_2; [done|]. by intros [H%not_elem_of_nil _]. }
  cbv zeta. rewrite exec_for_each_cons. destruct (cleanup_instance_inst desired key w Hw) as [Hw1 H1].
  destruct (IH _ Hw1) as [Hw2 H2]. split; [done|]. intros k HK. specialize (H1 k HK). specialize (H2 k HK).
  destruct (decide (k ∈ desired)) as [Hd|Hd].
  { rewrite bool_decide_eq_false_2 in H1, H2 |- * by naive_solver. by rewrite H2. }
  destruct (decide (k = key)) as [->|Hne].
  - rewrite bool_decide_eq_true_2 in H1 by done. rewrite (bool_decide_eq_true_2 (_ ∈ _ :: _ ∧ _)) by set_solver.
    destruct (decide (key ∈ ks)).
    + rewrite bool_decide_eq_true_2 in H2 by done. by apply (inst_wanted_trans key _ _ _ H1).
    + rewrite bool_decide_eq_false_2 in H2 by naive_solver. by rewrite H2.
  - rewrite bool_decide_eq_false_2 in H1 by naive_solver. rewrite H1 in H2.
    destruct (decide (k ∈ ks)).
    + rewrite bool_decide_eq_true_2 in H2 by done. by rewrite bool_decide_eq_true_2 by set_solver.
    + rewrite bool_decide_eq_false_2 in H2 by naive_solver. by rewrite bool_decide_eq_false_2 by set_solver.
Qed.

Lemma cleanup_artifacts_inst desired ks w :
  inst_indexed K w →
  let w' := exec (for_each ks (cleanup_artifact desired)) w in
  inst_indexed K w' ∧ ∀ k, inst w' k = inst w k.
Proof.
  assert (∀ key w, ∃ i m, exec (cleanup_artifact desired key) w = set_index i (set_model m w) ∧
    (∀ k, at2 (names i) KindArtifactInstance k = at2 (names (w_index w)) KindArtifactInstance k) ∧
    (∀ j, get FArtifactInstance j m = get FArtifactInstance j (w_model w))) as Hstep.
  { clear w. intros key w. unfold cleanup_artifact, deleteImageNotRetrievedFinding.
    destruct (bool_decide (key ∈ desired)); [exists (w_index w), (w_model w); by destruct w|]. run_ops.
    assert (∀ k, at2 (names (NameIndex_Delete KindArtifact key (w_index w)).2) KindArtifactInstance k =
      at2 (names (w_index w)) KindArtifactInstance k) as Hn by (intros; rewrite at2_Delete; by rewrite decide_False).
    set (idx := (NameIndex_Delete KindArtifact key (w_index w)).2) in *.
    destruct (bool_decide _); run_ops; [exists idx, (w_model w); by destruct w|].
    destruct (isSensorMintedArtifact _ _); run_ops; eexists idx, _; (split; [done|]); (split; [done|]); intros j.
    - match goal with |- context [del FArtifact ?i ?m] => destruct (del FArtifact i m) as [m' r] eqn:E end. simpl.
      erewrite del_frame; [|done|by left|done]. by apply del_finding_frame.
    - by apply del_finding_frame. }
  revert w. induction ks as [|key ks IH]; intros w Hw; [done|]. cbv zeta. rewrite exec_for_each_cons.
  destruct (Hstep key w) as (i & m & -> & Hi & Hm).
  destruct (IH (set_index i (set_model m w))) as [H1 H2]; [intros k; simpl; rewrite Hi; apply Hw|].
  split; [done|]. intros k. rewrite H2. unfold inst. simpl. by rewrite Hi, Hm.
Qed.

Lemma range_map_keys {A} c (m : gmap string A) : NoDup (range_map c m).*1.
Proof. rewrite range_map_perm. apply NoDup_fst_map_to_list. Qed.

Lemma cleanup_inst c desired w :
  inst_indexed K w →
  let w' := exec (cleanupStale c desired) w in
  inst_indexed K w' ∧
  ∀ k, k ∈ K → if bool_decide (k ∈ desired) then inst w' k = inst w k else inst_wanted None k (inst w k) (inst w' k).
Proof.
  intros Hw. unfold cleanupStale. run_ops.
  set (ks := NameIndex_Keys (sc_instance_keys c) KindArtifactInstance (w_index w)).
  destruct (cleanup_instances_inst desired ks w Hw) as [H1 H2].
  set (w1 := exec (for_each ks (cleanup_instance desired)) w) in *.
  destruct (cleanup_artifacts_inst desired (NameIndex_Keys (sc_artifact_keys c) KindArtifact (w_index w1)) w1 H1) as [H3 H4].
  split; [done|]. intros k HK. rewrite H4. specialize (H2 k HK). destruct (decide (k ∈ desired)) as [Hd|Hd].
  - rewrite bool_decide_eq_true_2 by done. by rewrite bool_decide_eq_false_2 in H2 by naive_solver.
  - rewrite (bool_decide_eq_false_2 (k ∈ desired)) by done. destruct (decide (k ∈ ks)) as [Hin|Hin].
    + by rewrite bool_decide_eq_true_2 in H2 by done.
    + rewrite bool_decide_eq_false_2 in H2 by naive_solver. rewrite H2.
      unfold ks in Hin. rewrite Keys_spec in Hin. unfold inst_wanted, inst. simpl.
      destruct (at2 _ _ k); [destruct Hin; eauto|done].
Qed.

(** After a scan the ArtifactInstances mirror the images of the cluster
    (of those in play, all observed and all indexed images among them):
    the instance of every started image is stored and indexed, with the
    locations of the image; that of an image that has not started is neither
    stored nor indexed, nor is that of an image that was indexed before and is
    gone; and all other instances are as they were. *)
Theorem ImageScanReconciler_mirrors c pods w :
  dom (collectImageObservations pods) ⊆ K → inst_indexed K w →
  let w' := exec (ImageScanReconciler_Reconcile c (inr pods)) w in
  result (ImageScanReconciler_Reconcile c (inr pods)) w = done_ok ∧ inst_indexed K w' ∧
  ∀ k, k ∈ K → inst_wanted (collectImageObservations pods !! k) k (inst w k) (inst w' k).
Proof.
  intros HK Hw. unfold ImageScanReconciler_Reconcile. set (obs := collectImageObservations pods) in *.
  destruct (scan_all_inst (sc_artifacts c) (range_map (sc_observations c) obs) w) as (Hr & Hw1 & Hout & Hin); [apply range_map_keys| |done|].
  { intros k o Hko. apply elem_of_range_map in Hko. split; [apply HK, elem_of_dom; eauto|]. by destruct (collect_ok _ _ _ Hko) as [[]]. }
  run_ops. rewrite Hr. run_ops.
  destruct (cleanup_inst c (dom obs) _ Hw1) as [Hw2 Hclean]. split_and!; [done|done|].
  intros k Hk. specialize (Hclean k Hk). destruct (obs !! k) as [o|] eqn:Ho.
  - rewrite bool_decide_eq_true_2 in Hclean by (apply elem_of_dom; eauto). rewrite Hclean.
    apply Hin. by apply elem_of_range_map.
  - rewrite bool_decide_eq_false_2 in Hclean by (by apply not_elem_of_dom). rewrite Hout in Hclean; [done|done|].
    intros ([k' o'] & -> & H)%list_elem_of_fmap. apply elem_of_range_map in H. simpl in Ho. congruence.
Qed.
End mirror.

(** A scan, failed or not, leaves every Artifact alone that the sensor
    has not minted for an image, and every resource that is neither an
    Artifact, an ArtifactInstance nor a finding. *)
Theorem ImageScanReconciler_foreign_untouched {L : Lib} {S : ModelSrv} {HL : ModelSrvLaws S} c pods w f i :
  f ≠ FFinding → f ≠ FArtifactInstance → (f = FArtifact → ∀ key, i ≠ artifactIDForImage key) →
  get f i (w_model (exec (ImageScanReconciler_Reconcile c pods) w)) = get f i (w_model w).
Proof.
  assert (scan_frame w (exec (ImageScanReconciler_Reconcile c pods) w)) as H; [|apply H].
  unfold ImageScanReconciler_Reconcile. destruct pods as [err|pods]; [apply scan_frame_refl|].
  apply scan_frame_bind; [apply scan_frame_all|]. intros [err|] w1; [apply scan_frame_refl|].
  apply scan_frame_bind; [apply scan_frame_cleanup|]. intros; apply scan_frame_refl.
Qed.
