(* ===== verification/Sensor.v ===== *)
(** * Sensor: [src/internal/sensor] and [src/cmd/subscribers.go]

    The sensor's own identity in the model, the guard of its REST API, and the
    replication subscribers. *)

From S2P Require Import Prelude.
From S2P Require Import Prog.
From S2P Require Import GoStrings.
From S2P Require Import K8s.
From S2P Require Import Lib.
From S2P Require Import Entities.
From S2P Require Import ModelSrv.
From S2P Require Import State.
From S2P Require Import Convert.

(** ** [identity.go] *)

Section identity.
Context {L : Lib} {S : ModelSrv}.

Definition K8sSensorNodeTypeID : uuid := uuid_MustParse "a1c2d3e4-f5a6-4b7c-8d9e-0f1a2b3c4d5e".

Record Identity := mkSensorIdentity { NodeID : uuid }.

Definition sensorNodeType : NodeType :=
  mkNodeType K8sSensorNodeTypeID "k8s-sensor" "Kubernetes cluster sensor for EmELand".
Definition sensorNode (nodeID : uuid) : Node := mkNode nodeID "k8s-sensor" K8sSensorNodeTypeID.
Definition namespaceContextType : ContextType :=
  mkContextType K8sNamespaceContextTypeID "Kubernetes Namespace" "A Kubernetes namespace mapped as an EmELand context".

(** [nodeID] is the result of [uuid.New()]. *)
Definition Register (nodeID : uuid) : action (ModelErr + Identity) :=
  err <- Model_Add (ENodeType sensorNodeType) ;;
  match err with
  | Some err => Ret (inl err)
  | None =>
      err <- Model_Add (ENode (sensorNode nodeID)) ;;
      match err with
      | Some err => Ret (inl err)
      | None =>
          err <- Model_Add (EContextType namespaceContextType) ;;
          match err with
          | Some err => Ret (inl err)
          | None => Ret (inr (mkSensorIdentity nodeID))
          end
      end
  end.

(** The receiver may be nil. *)
Definition Close (id : option Identity) : action (option ModelErr) :=
  match id with
  | None => Ret None
  | Some id => Model_Delete FNode (NodeID id)
  end.
End identity.

(** ** [replication_guard.go] *)

Definition eventsPushPath : string := "/api/events/push".
Definition inboundBodyLimit : nat := 64 * 1024.

(** What reading a body to its end gives: bytes, then EOF or an error. *)
Record Body := mkBody { body_bytes : string; body_err : option string }.
Record Request := mkRequest { req_Method : string; req_Path : string; req_Body : option Body }.

(** [http.NoBody] *)
Definition NoBody : Body := mkBody "" None.

(** [io.ReadAll(io.LimitReader(body, n))]: an error behind the first [n] bytes
    is not seen (the error comes with a read of its own). *)
Definition read_limited (n : nat) (b : Body) : string * option string :=
  if n <=? String.length (body_bytes b) then (str_take n (body_bytes b), None)
  else (body_bytes b, body_err b).

(** The text to log, and the request with its body restored. *)
Definition readRequestBody (r : Request) (limit : nat) : string * Request :=
  match req_Body r with
  | None => ("", r)
  | Some b =>
      let with_body b := mkRequest (req_Method r) (req_Path r) (Some b) in
      match read_limited (limit + 1) b with
      | (_, Some err) => ("<read error: " +:+ err +:+ ">", with_body NoBody)
      | (data, None) =>
          if limit <? String.length data
          then (str_take limit data +:+ "...<truncated>", with_body (mkBody (str_take limit data) None))
          else (data, with_body (mkBody data None))
      end
  end.

(** What the guard does with a request: answer it, or hand it to the handler
    of modelsrv. *)
Inductive GuardAction := Reject (status : Z) (msg : string) | Forward (r : Request).

Record ReplicationGuard := mkReplicationGuard { AllowInboundPush : bool }.

Definition isPush (r : Request) : bool :=
  bool_decide (req_Method r = "POST") && HasSuffix (req_Path r) eventsPushPath.

Definition ServeHTTP (g : ReplicationGuard) (r : Request) : GuardAction :=
  let push := isPush r in
  let '(_, r) := readRequestBody r inboundBodyLimit in
  if push && negb (AllowInboundPush g)
  then Reject 403 "inbound event push is disabled on the k8s sensor"
  else Forward r.

(** ** [subscribers.go] and [envOrDefault] of [main.go] *)

(** [None] is a nil slice. *)
Definition parseCommaSeparatedList (raw : string) : option (list string) :=
  if bool_decide (TrimSpace raw = "") then None
  else
    let out := filter (λ s, s ≠ "") (TrimSpace <$> Split "," raw) in
    if bool_decide (out = []) then None else Some out.

(** The loop over the URLs; [AddSubscriber] is the event manager's. The probes
    of an URL only log. *)
Fixpoint add_subscribers {M} (AddSubscriber : string → M → M * option string) (urls : list string)
    (m : M) : M * option (string * string) :=
  match urls with
  | [] => (m, None)
  | raw :: urls =>
      match AddSubscriber raw m with
      | (m, Some err) => (m, Some (raw, err))
      | (m, None) => add_subscribers AddSubscriber urls m
      end
  end.

(** The error names the URL and wraps the error of [AddSubscriber]. *)
Definition registerSubscribers {M} (AddSubscriber : string → M → M * option string) (rawFlag : string)
    (m : M) : M * option (string * string) :=
  add_subscribers AddSubscriber (default [] (parseCommaSeparatedList rawFlag)) m.

Definition envOrDefault (LookupEnv : string → option string) (key fallback : string) : string :=
  match LookupEnv key with Some v => v | None => fallback end.

#[global] Opaque inboundBodyLimit.

(** ** Correctness *)

Section identity_facts.
Context {L : Lib} {S : ModelSrv} {HL : ModelSrvLaws S}.

(** What [Register] leaves in the store. *)
Definition registered (nodeID : uuid) (w : World) : Prop :=
  get FNodeType K8sSensorNodeTypeID (w_model w) = Some (ENodeType sensorNodeType) ∧
  get FNode nodeID (w_model w) = Some (ENode (sensorNode nodeID)) ∧
  get FContextType K8sNamespaceContextTypeID (w_model w) = Some (EContextType namespaceContextType).

Lemma Register_stored nodeID id w :
  result (Register nodeID) w = inr id →
  let w1 := exec (Register nodeID) w in
  NodeID id = nodeID ∧ registered nodeID w1 ∧
  w_index w1 = w_index w ∧ w_rules w1 = w_rules w ∧ w_requeue w1 = w_requeue w ∧
  w_latestRevision w1 = w_latestRevision w.
Proof.
  unfold Register, registered. run_ops.
  destruct (add (ENodeType sensorNodeType) (w_model w)) as [m1 [err|]] eqn:E1; run_ops; [done|].
  destruct (add (ENode (sensorNode nodeID)) m1) as [m2 [err|]] eqn:E2; run_ops; [done|].
  destruct (add (EContextType namespaceContextType) m2) as [m3 [err|]] eqn:E3; run_ops; [done|].
  intros [= <-]. simpl.
  pose proof (add_ok _ _ _ E1) as A1. pose proof (add_ok _ _ _ E2) as A2. pose proof (add_ok _ _ _ E3) as A3.
  simpl in *. split_and!; try done.
  - erewrite add_frame; [|exact E3|by left|done]. erewrite add_frame; [|exact E2|by left|done]. done.
  - erewrite add_frame; [|exact E3|by left|done]. done.
Qed.

(** Registering the sensor stores its node type, its Node and the context
    type of namespaces; closing the identity removes the Node and nothing
    else that was registered. *)
Lemma Register_Close nodeID id w :
  result (Register nodeID) w = inr id →
  let w1 := exec (Register nodeID) w in
  let w2 := exec (Close (Some id)) w1 in
  NodeID id = nodeID ∧ registered nodeID w1 ∧
  (result (Close (Some id)) w1 = None → get FNode nodeID (w_model w2) = None) ∧
  ∀ f i, f ≠ FNode → f ≠ FFinding → get f i (w_model w2) = get f i (w_model w1).
Proof.
  intros Hr. destruct (Register_stored _ _ _ Hr) as (Hid & Hreg & _).
  split; [done|split; [done|]]. unfold Close. run_ops. rewrite Hid.
  destruct (del FNode nodeID (w_model (exec (Register nodeID) w))) as [m4 r] eqn:E4. simpl. split.
  - intros ->. eapply del_gone; [done|by left].
  - intros f i Hf Hff. eapply del_frame; [done|by left|congruence].
Qed.
End identity_facts.

Lemma str_take_all n s : String.length s ≤ n → str_take n s = s.
Proof.
  revert s. induction n as [|n IH]; intros [|c s] H; simpl in *; try done; [lia|]. by rewrite IH by lia.
Qed.

Lemma str_take_take n m s : n ≤ m → str_take n (str_take m s) = str_take n s.
Proof.
  revert m s. induction n as [|n IH]; intros [|m] [|c s] H; simpl in *; try done; [lia|]. by rewrite IH by lia.
Qed.

(** The request the guard hands on. *)
Definition forwarded (r : Request) : Request :=
  match req_Body r with
  | None => r
  | Some b =>
      mkRequest (req_Method r) (req_Path r) (Some
        (if bool_decide (inboundBodyLimit < String.length (body_bytes b))
         then mkBody (str_take inboundBodyLimit (body_bytes b)) None
         else match body_err b with Some _ => NoBody | None => mkBody (body_bytes b) None end))
  end.

Lemma readRequestBody_request r : (readRequestBody r inboundBodyLimit).2 = forwarded r.
Proof.
  unfold readRequestBody, forwarded. destruct (req_Body r) as [b|]; [|done].
  unfold read_limited. generalize inboundBodyLimit. intros n.
  destruct (Nat.leb_spec (n + 1) (String.length (body_bytes b))) as [Hle|Hlt].
  - rewrite bool_decide_eq_true_2 by lia. simpl. rewrite str_take_length.
    rewrite (proj2 (Nat.ltb_lt n _)) by lia. simpl. by rewrite str_take_take by lia.
  - rewrite bool_decide_eq_false_2 by lia. destruct (body_err b); [done|].
    rewrite (proj2 (Nat.ltb_ge n _)) by lia. done.
Qed.

(** The guard answers 403 to a POST of the push path, whatever its body,
    unless inbound push is allowed, and hands every other request on with its
    method and path; a body of at most 64 KiB that can be read is unchanged. *)
Theorem ReplicationGuard_spec g r :
  ServeHTTP g r =
    (if isPush r && negb (AllowInboundPush g)
     then Reject 403 "inbound event push is disabled on the k8s sensor" else Forward (forwarded r)) ∧
  (isPush r = true ↔ req_Method r = "POST" ∧ ∃ prefix, req_Path r = prefix +:+ eventsPushPath) ∧
  (∀ data, req_Body r = Some (mkBody data None) → String.length data ≤ inboundBodyLimit → forwarded r = r).
Proof.
  split_and!.
  - unfold ServeHTTP. rewrite <- readRequestBody_request. by destruct (readRequestBody r inboundBodyLimit).
  - unfold isPush. by rewrite andb_true_iff, bool_decide_eq_true, HasSuffix_spec.
  - intros data Hb Hl. unfold forwarded. rewrite Hb. cbn [body_bytes body_err].
    rewrite bool_decide_eq_false_2 by lia. destruct r; simpl in *. by rewrite Hb.
Qed.

(** C39. A request with a longer body reaches the handler cut off after 64 KiB:
    an allowed event push loses the rest of its events. *)
Theorem ReplicationGuard_truncates method path data :
  inboundBodyLimit < String.length data →
  let r := mkRequest method path (Some (mkBody data None)) in
  ∃ r' b, ServeHTTP (mkReplicationGuard true) r = Forward r' ∧ req_Body r' = Some b ∧
    String.length (body_bytes b) = inboundBodyLimit ∧ b ≠ mkBody data None.
Proof.
  intros Hl r. exists (forwarded r), (mkBody (str_take inboundBodyLimit data) None).
  assert (String.length (str_take inboundBodyLimit data) = inboundBodyLimit) as Hlen
    by (rewrite str_take_length; lia).
  split_and!.
  - unfold ServeHTTP. rewrite andb_false_r. rewrite <- readRequestBody_request.
    by destruct (readRequestBody r inboundBodyLimit).
  - unfold forwarded, r. cbn [req_Body body_bytes]. by rewrite bool_decide_eq_true_2.
  - exact Hlen.
  - intros [= H]. rewrite H in Hlen. lia.
Qed.

(** The list of subscriber URLs reads back what was joined with commas:
    any list of trimmed, non-empty URLs without commas; and registration adds
    the URLs in this order, stopping at the first the event manager refuses. *)
Lemma registerSubscribers_list {M} (AddSubscriber : string → M → M * option string) urls m :
  urls ≠ [] → Forall (λ u, TrimSpace u = u ∧ u ≠ "" ∧ free_of "," u) urls → TrimSpace (Join "," urls) ≠ "" →
  parseCommaSeparatedList (Join "," urls) = Some urls ∧
  ((registerSubscribers AddSubscriber (Join "," urls) m).2 = None →
   (registerSubscribers AddSubscriber (Join "," urls) m).1 = foldl (λ m u, (AddSubscriber u m).1) m urls).
Proof.
  intros Hne Hf Ht.
  assert (parseCommaSeparatedList (Join "," urls) = Some urls) as Hp.
  { unfold parseCommaSeparatedList. rewrite bool_decide_eq_false_2 by done.
    rewrite Split_Join; [|done|eapply list.Forall_impl; [exact Hf|intros u Hu; apply Hu]].
    assert (TrimSpace <$> urls = urls) as Hmap.
    { clear -Hf. induction Hf as [|u urls (Hu & _) _ IH]; [done|]. by rewrite fmap_cons, Hu, IH. }
    rewrite Hmap.
    rewrite list_filter_all by (eapply list.Forall_impl; [exact Hf|intros u Hu; apply Hu]).
    by rewrite bool_decide_eq_false_2. }
  split; [done|]. unfold registerSubscribers. rewrite Hp. simpl. clear.
  revert m. induction urls as [|u urls IH]; intros m; simpl; [done|].
  destruct (AddSubscriber u m) as [m' [err|]]; [done|]. apply IH.
Qed.
