(* ===== verification/Subscribers.v ===== *)
(** * Subscribers: the diagnostics of [src/cmd/subscribers.go]

    [registerSubscribers] as it runs: before it registers an URL it inspects
    it, sends a GET to it and logs what it finds. The network, [url.Parse] and
    the event manager are parameters; what the code does is the sequence of its
    calls and its log. [Sensor] has the same function without the diagnostics;
    here is the proof that they make no difference to it. *)

From S2P Require Import Prelude.
From S2P Require Import GoStrings.
From S2P Require Import Log.
From S2P Require Import Sensor.

(** ** [net.SplitHostPort] *)

Definition missingPort : string := "missing port in address".
Definition tooManyColons : string := "too many colons in address".

(** [j] and [k]: where the search for stray brackets starts. *)
Definition host_port (hostport host : string) (i j k : nat) : string + string * string :=
  if ContainsByte (str_drop j hostport) "[" then inl "unexpected '[' in address"
  else if ContainsByte (str_drop k hostport) "]" then inl "unexpected ']' in address"
  else inr (host, str_drop (i + 1) hostport).

Definition SplitHostPort (hostport : string) : string + string * string :=
  let i := LastIndex hostport ":" in
  if (i <? 0)%Z then inl missingPort
  else
    let i := Z.to_nat i in
    if HasPrefix hostport "[" then
      match Cut "]" hostport with
      | None => inl "missing ']' in address"
      | Some (before, behind) =>
          let e := String.length before in
          if bool_decide (behind = "") then inl missingPort
          else if bool_decide (e + 1 = i) then host_port hostport (str_drop 1 before) i 1 (e + 1)
          else if HasPrefix behind ":" then inl tooManyColons
          else inl missingPort
      end
    else
      let host := str_take i hostport in
      if ContainsByte host ":" then inl tooManyColons else host_port hostport host i 0 0.

(** ** URLs, responses and probes *)

Record URL := mkURL {
  u_Scheme : string; u_Opaque : string; u_User : bool; u_Host : string; u_Path : string; u_RawPath : string;
  u_RawQuery : string; u_Fragment : string; u_RequestURI : string
}.

Record Response := mkResponse {
  resp_Status : string; resp_StatusCode : Z; resp_Proto : string; resp_Header : string → string;
  resp_Body : string
}.

(** What a GET comes to: the request cannot be built, it fails, or there is a
    response (and then perhaps an error of closing its body). *)
Inductive Probe :=
| BuildError (err : GoError)
| DoError (host path elapsed : string) (err : GoError)
| Responded (host path elapsed : string) (resp : Response) (closeErr : option GoError).

Record Subscriber := mkSubscriber { sub_Id : string; sub_URL : string; sub_Status : string }.

(** [strings.Contains] *)
Fixpoint Contains (s sub : string) : bool :=
  HasPrefix s sub || match s with EmptyString => false | String _ s => Contains s sub end.

Definition subscriberProbeTimeout : string := "3s".
Definition subscriberProbeBodyLimit : nat := 2048.

(** The host and the port that [inspectSubscriberURL] reports. *)
Definition url_host_port (u : URL) : string * string :=
  match SplitHostPort (u_Host u) with
  | inr (host, port) => (host, port)
  | inl _ =>
      (u_Host u, if bool_decide (u_Scheme u = "https") then "443 (implied)"
                 else if bool_decide (u_Scheme u = "http") then "80 (implied)" else "")
  end.

Section subscribers.
Context (url_Parse : string → GoError + URL) (http_Get : string → Probe).

Definition inspectSubscriberURL (index : nat) (raw : string) : list LogLine :=
  log_Info "inspecting subscriber URL" [("index", LInt (Z.of_nat index)); ("raw", LStr raw); ("rawBytes", LStr raw)] ::
  match url_Parse raw with
  | inl err => [log_Error err "subscriber URL failed to parse" [("index", LInt (Z.of_nat index)); ("raw", LStr raw)]]
  | inr u =>
      let '(host, port) := url_host_port u in
      [log_Info "subscriber URL parsed"
        [("index", LInt (Z.of_nat index)); ("raw", LStr raw); ("scheme", LStr (u_Scheme u)); ("opaque", LStr (u_Opaque u));
         ("userSet", LBool (u_User u)); ("host", LStr host); ("port", LStr port); ("path", LStr (u_Path u));
         ("rawPath", LStr (u_RawPath u)); ("query", LStr (u_RawQuery u)); ("fragment", LStr (u_Fragment u));
         ("requestURI", LStr (u_RequestURI u))]] ++
      (if bool_decide (u_Scheme u ≠ "http" ∧ u_Scheme u ≠ "https") then
         [log_Info "subscriber URL scheme is not http/https; Linkerd/proxy may not treat this as mesh traffic"
           [("index", LInt (Z.of_nat index)); ("scheme", LStr (u_Scheme u)); ("raw", LStr raw)]]
       else if bool_decide (u_Host u = "") then
         [log_Info "subscriber URL has empty host" [("index", LInt (Z.of_nat index)); ("raw", LStr raw)]]
       else []) ++
      (if bool_decide (u_Path u ≠ "") && negb (Contains (u_Path u) "/api") then
         [log_Info "subscriber URL path does not contain /api (modelsrv expects a base API URL like http://host:8080/api)"
           [("index", LInt (Z.of_nat index)); ("path", LStr (u_Path u)); ("raw", LStr raw)]]
       else [])
  end.

(** The log of a probe, in the order of the calls; the body is closed last. *)
Definition probeSubscriber (raw : string) : list LogLine :=
  let get host path := log_Info "subscriber probe: GET"
    [("url", LStr raw); ("method", LStr "GET"); ("host", LStr host); ("path", LStr path);
     ("timeout", LStr subscriberProbeTimeout)] in
  match http_Get raw with
  | BuildError err => [log_Error err "subscriber probe: could not build GET request" [("url", LStr raw)]]
  | DoError host path elapsed err =>
      [get host path;
       log_Error err "subscriber probe: GET failed (proxy/mesh/DNS/TLS often shows up here)"
         [("url", LStr raw); ("elapsed", LStr elapsed); ("errType", LStr (ge_Type err))]]
  | Responded host path elapsed resp closeErr =>
      let body := str_take subscriberProbeBodyLimit (resp_Body resp) in
      let header h := LStr (resp_Header resp h) in
      [get host path;
       log_Info "subscriber probe: GET response"
         [("url", LStr raw); ("elapsed", LStr elapsed); ("status", LStr (resp_Status resp));
          ("statusCode", LInt (resp_StatusCode resp)); ("proto", LStr (resp_Proto resp));
          ("contentType", header "Content-Type"); ("server", header "Server"); ("via", header "Via");
          ("l5dClientId", header "l5d-client-id"); ("payloadBytes", LInt (Z.of_nat (String.length body)))];
       log_V1_Info "subscriber probe: GET response body"
         [("url", LStr raw); ("statusCode", LInt (resp_StatusCode resp)); ("payloadBytes", LInt (Z.of_nat (String.length body)));
          ("payload", LStr body)]] ++
      match closeErr with
      | Some err => [log_Error err "subscriber probe: closing response body" [("url", LStr raw)]]
      | None => []
      end
  end.

(** ** Registration, with its calls and its log *)
Context {M : Type} (AddSubscriber : string → M → M * option GoError).
Context (GetSubscribers : M → list (option Subscriber)) (GetCurrentSequenceId : M → LogValue * option GoError).

Definition snapshotSubscribers (eventMgr : M) : list (gmap string string) :=
  (λ s : option Subscriber,
     match s with
     | None => {["status" := "nil"]}
     | Some s => <["id" := sub_Id s]> (<["url" := sub_URL s]> {["status" := sub_Status s]})
     end) <$> GetSubscribers eventMgr.

(** A call that leaves the process. *)
Inductive Call := CallGet (url : string) | CallAddSubscriber (url : string).

Record Net := mkNet { n_events : M; n_calls : list Call; n_log : list LogLine }.
Definition say (lines : list LogLine) (n : Net) : Net := mkNet (n_events n) (n_calls n) (n_log n ++ lines).

(** A probe sends its request when it can be built. *)
Definition probe_calls (raw : string) : list Call :=
  match http_Get raw with BuildError _ => [] | _ => [CallGet raw] end.
Definition probe (raw : string) (n : Net) : Net :=
  say (probeSubscriber raw) (mkNet (n_events n) (n_calls n ++ probe_calls raw) (n_log n)).

Definition sequence_fields (name : string) (n : Net) : list (string * LogValue) :=
  let '(seq, err) := GetCurrentSequenceId (n_events n) in
  [("sequence" +:+ name, seq); ("sequence" +:+ name +:+ "Err", LStr (errString err))].

(** The body of the loop; the error is that of [AddSubscriber]. *)
Definition register_one (i : nat) (raw : string) (n : Net) : Net * option GoError :=
  let n := probe raw (say (inspectSubscriberURL i raw) n) in
  let n := say [log_Info "AddSubscriber starting"
    ([("index", LInt (Z.of_nat i)); ("url", LStr raw); ("alreadyRegistered", LMaps (snapshotSubscribers (n_events n)))] ++
     sequence_fields "Before" n)] n in
  match AddSubscriber raw (n_events n) with
  | (m, Some err) =>
      (say [log_Error err "AddSubscriber failed"
             [("index", LInt (Z.of_nat i)); ("url", LStr raw); ("errType", LStr (ge_Type err))]]
         (mkNet m (n_calls n ++ [CallAddSubscriber raw]) (n_log n)), Some err)
  | (m, None) =>
      let n := mkNet m (n_calls n ++ [CallAddSubscriber raw]) (n_log n) in
      (say [log_Info "AddSubscriber succeeded (modelsrv also replays current state to this URL)"
             ([("index", LInt (Z.of_nat i)); ("url", LStr raw); ("registered", LMaps (snapshotSubscribers m))] ++
              sequence_fields "After" n)] n, None)
  end.

(** The first error, with its URL. *)
Fixpoint register_each (i : nat) (urls : list string) (n : Net) : Net * option (string * string) :=
  match urls with
  | [] => (n, None)
  | raw :: urls =>
      match register_one i raw n with
      | (n, Some err) => (n, Some (raw, ge_Error err))
      | (n, None) => register_each (Datatypes.S i) urls n
      end
  end.

Definition registerSubscribers_run (env : option string) (rawFlag : string) (n : Net)
    : Net * option (string * string) :=
  let urls := default [] (parseCommaSeparatedList rawFlag) in
  let n := say [log_Info "subscriber configuration"
    [("flagOrResolved", LStr rawFlag); ("envSUBSCRIBER_URLS_set", LBool (bool_decide (is_Some env)));
     ("envSUBSCRIBER_URLS", LStr (default "" env)); ("parsedCount", LLen urls); ("parsedURLs", LStrs urls)]] n in
  if bool_decide (urls = [])
  then (say [log_Info "no replication subscribers configured; landscape events will stay local" []] n, None)
  else
    match register_each 0 urls n with
    | (n, Some err) => (n, Some err)
    | (n, None) =>
        (say [log_Info "all replication subscribers registered"
               [("count", LLen (GetSubscribers (n_events n)));
                ("registered", LMaps (snapshotSubscribers (n_events n)))]] n, None)
    end.

(** ** The diagnostics make no difference *)

(** What reaches the network for the URLs [urls]. *)
Definition subscriber_calls (urls : list string) : list Call :=
  mjoin ((λ url, probe_calls url ++ [CallAddSubscriber url]) <$> urls).

Definition add_error (r : M * option GoError) : M * option string := (r.1, ge_Error <$> r.2).

Lemma register_one_spec i raw n :
  let r := register_one i raw n in
  n_events r.1 = (AddSubscriber raw (n_events n)).1 ∧ r.2 = (AddSubscriber raw (n_events n)).2 ∧
  n_calls r.1 = n_calls n ++ probe_calls raw ++ [CallAddSubscriber raw] ∧
  ∃ lines, n_log r.1 = n_log n ++ lines.
Proof.
  unfold register_one. cbn [n_events n_calls n_log say probe].
  destruct (AddSubscriber raw (n_events n)) as [m [err|]]; cbn [fst snd n_events n_calls n_log say];
    rewrite <- !(assoc_L (++)); (split_and!; [done..|]); by eexists.
Qed.

Lemma register_each_spec i urls n :
  let r := register_each i urls n in
  let added := add_subscribers (λ url m, add_error (AddSubscriber url m)) urls (n_events n) in
  n_events r.1 = added.1 ∧ r.2 = added.2 ∧
  ∃ tried untried, urls = tried ++ untried ∧ n_calls r.1 = n_calls n ++ subscriber_calls tried ∧
    match r.2 with
    | None => untried = []
    | Some (url, _) => list.last tried = Some url
    end.
Proof.
  revert i n. induction urls as [|raw urls IH]; intros i n; cbn [register_each add_subscribers].
  - split_and!; [done..|]. exists [], []. split_and!; [done| |done]. unfold subscriber_calls. by rewrite app_nil_r.
  - pose proof (register_one_spec i raw n) as (He & Hr & Hc & _).
    destruct (register_one i raw n) as [n1 err]. cbn [fst snd] in *.
    assert (add_error (AddSubscriber raw (n_events n)) = (n_events n1, ge_Error <$> err)) as Ha
      by (unfold add_error; congruence).
    rewrite Ha. clear He Hr Ha. destruct err as [err|]; cbn [fst snd fmap option_fmap option_map].
    + split_and!; [done..|]. exists [raw], urls. split_and!; [done| |done].
      rewrite Hc. unfold subscriber_calls. simpl. by rewrite app_nil_r.
    + destruct (IH (Datatypes.S i) n1) as (H1 & H2 & tried & untried & -> & H3 & H4).
      split_and!; [done..|]. exists (raw :: tried), untried. split_and!; [done| |].
      * rewrite H3, Hc. unfold subscriber_calls. rewrite fmap_cons. cbn [mjoin list_join]. by rewrite <- !(assoc_L (++)).
      * destruct (register_each _ _ _).2 as [[url e]|]; [|done]. destruct tried; [done|]. exact H4.
Qed.

(** C40. The diagnostics change nothing: the event manager and the error are those
    of [registerSubscribers], whatever the URLs parse to and the probes return;
    and each URL gets one GET, if the request can be built, and then one
    AddSubscriber, in the order of the list, up to and including the first one
    that is refused. *)
Theorem registerSubscribers_calls env rawFlag n :
  let r := registerSubscribers_run env rawFlag n in
  let bare := registerSubscribers (λ url m, add_error (AddSubscriber url m)) rawFlag (n_events n) in
  n_events r.1 = bare.1 ∧ r.2 = bare.2 ∧
  ∃ tried untried, default [] (parseCommaSeparatedList rawFlag) = tried ++ untried ∧
    n_calls r.1 = n_calls n ++ subscriber_calls tried ∧
    match r.2 with
    | None => untried = []
    | Some (url, _) => list.last tried = Some url
    end.
Proof.
  unfold registerSubscribers_run, registerSubscribers. set (urls := default [] _). case_bool_decide as Hu.
  - rewrite Hu. cbn [fst snd say n_events n_calls add_subscribers]. split_and!; [done..|].
    exists [], []. split_and!; [done| |done]. unfold subscriber_calls. by rewrite app_nil_r.
  - destruct (register_each_spec 0 urls (say [log_Info "subscriber configuration"
      [("flagOrResolved", LStr rawFlag); ("envSUBSCRIBER_URLS_set", LBool (bool_decide (is_Some env)));
       ("envSUBSCRIBER_URLS", LStr (default "" env)); ("parsedCount", LLen urls);
       ("parsedURLs", LStrs urls)]] n)) as (H1 & H2 & H3).
    destruct (register_each _ _ _) as [n1 [err|]]; cbn [fst snd say n_events n_calls] in *; done.
Qed.
End subscribers.

(** ** Hosts and ports *)

Lemma LastIndex_app a c b : free_of c b → LastIndex (a +:+ String c b) c = Z.of_nat (String.length a).
Proof.
  intros Hb. assert (LastIndex b c = -1)%Z as Hnone.
  { revert Hb. unfold free_of. induction b as [|d b IH]; simpl; [done|]. intros Hb.
    rewrite IH by set_solver. simpl. rewrite bool_decide_eq_false_2 by set_solver. done. }
  induction a as [|d a IH].
  - rewrite string_app_nil_l. simpl. rewrite Hnone. simpl. by rewrite bool_decide_eq_true_2.
  - rewrite string_app_cons. cbn [LastIndex String.length]. rewrite IH.
    rewrite (proj2 (Z.leb_le 0 _)) by lia. lia.
Qed.

Lemma ContainsByte_free s c : ContainsByte s c = false ↔ free_of c s.
Proof. unfold ContainsByte, free_of. apply bool_decide_eq_false. Qed.

Lemma free_of_app c a b : free_of c (a +:+ b) ↔ free_of c a ∧ free_of c b.
Proof. unfold free_of. rewrite chars_app. set_solver. Qed.

Lemma free_of_cons c d s : free_of c (String d s) ↔ c ≠ d ∧ free_of c s.
Proof. unfold free_of. simpl. set_solver. Qed.

Lemma str_drop_more n a b : str_drop (String.length a + n) (a +:+ b) = str_drop n b.
Proof. induction a as [|c a IH]; [done|]. rewrite string_app_cons. exact IH. Qed.

Lemma host_port_ok hostport host i j k :
  free_of "[" (str_drop j hostport) → free_of "]" (str_drop k hostport) →
  host_port hostport host i j k = inr (host, str_drop (i + 1) hostport).
Proof. unfold host_port. intros ->%ContainsByte_free ->%ContainsByte_free. done. Qed.

(** A host and a port, joined as in an URL, come apart again; the brackets of
    an IPv6 address are taken off. *)
Lemma SplitHostPort_join host port :
  free_of "[" host → free_of "]" host → free_of "[" port → free_of "]" port → free_of ":" port →
  (free_of ":" host → SplitHostPort (host +:+ String ":" port) = inr (host, port)) ∧
  SplitHostPort (String "[" (host +:+ String "]" (String ":" port))) = inr (host, port).
Proof.
  intros H1 H2 H3 H4 H5. split.
  - intros Hh. unfold SplitHostPort. rewrite LastIndex_app by done.
    rewrite (proj2 (Z.ltb_ge _ 0)), Nat2Z.id by lia.
    destruct (HasPrefix (host +:+ String ":" port) "[") eqn:Hp.
    { apply HasPrefix_spec in Hp as [t Ht]. exfalso. destruct host as [|c host]; [discriminate Ht|].
      rewrite string_app_cons in Ht. injection Ht as -> _. apply free_of_cons in H1 as [H1 _]. done. }
    rewrite str_take_app, (proj2 (ContainsByte_free _ _) Hh). rewrite host_port_ok.
    + by rewrite str_drop_more.
    + apply free_of_app. split; [done|]. by apply free_of_cons.
    + apply free_of_app. split; [done|]. by apply free_of_cons.
  - unfold SplitHostPort.
    set (hp := String "[" _).
    assert (LastIndex hp ":" = Z.of_nat (String.length (String "[" host) + 1)) as Hi.
    { replace hp with ((String "[" host +:+ "]") +:+ String ":" port)
        by (rewrite <- string_app_assoc; reflexivity).
      rewrite LastIndex_app by done. by rewrite string_length_app. }
    rewrite Hi, (proj2 (Z.ltb_ge _ 0)), Nat2Z.id by lia. unfold hp at 1. rewrite HasPrefix_cons.
    rewrite (proj2 (Cut_Some "]" hp (String "[" host) (String ":" port)));
      [|by split; [reflexivity|apply free_of_cons]].
    rewrite bool_decide_eq_false_2, bool_decide_eq_true_2 by done. rewrite host_port_ok.
    + do 2 f_equal. change hp with (String "[" host +:+ String "]" (String ":" port)).
      rewrite <- Nat.add_assoc. by rewrite str_drop_more.
    + change (free_of "[" (host +:+ String "]" (String ":" port))). apply free_of_app. split; [done|].
      by repeat (apply free_of_cons; split; [done|]).
    + change hp with (String "[" host +:+ String "]" (String ":" port)). rewrite str_drop_more.
      by apply free_of_cons.
Qed.
