(* ===== verification/ReplicationLog.v ===== *)
(** * ReplicationLog: [src/internal/sensor/replication_log.go]

    The filter at the end of modelsrv's event chain that logs every event and
    lets it pass. Events and their objects are modelsrv's: what the code prints
    of them is a parameter. *)

From S2P Require Import Prelude.
From S2P Require Import GoStrings.
From S2P Require Import Log.

(** What the code asks of an event and of an object of it. *)
Record EventView (Obj : Type) := mkEventView {
  ev_ResourceType : string;
  ev_ResourceTypeNum : Z;
  ev_WireKind : string;
  ev_Operation : string;
  ev_WireOperation : string;
  ev_ResourceId : string;
  ev_String : string;
  ev_GoSyntax : string;
  (** an object is nil or not *)
  ev_Objects : list (option Obj)
}.
Arguments mkEventView {Obj}.
Arguments ev_ResourceType {Obj}.
Arguments ev_ResourceTypeNum {Obj}.
Arguments ev_WireKind {Obj}.
Arguments ev_Operation {Obj}.
Arguments ev_WireOperation {Obj}.
Arguments ev_ResourceId {Obj}.
Arguments ev_String {Obj}.
Arguments ev_GoSyntax {Obj}.
Arguments ev_Objects {Obj}.

Section filter.
Context {Obj Event : Type} (view : Event → EventView Obj).
(** [%T], [%#v] and [json.Marshal] of an object; [inl] is the error. *)
Context (type_of go_syntax : Obj → string) (json_Marshal : Obj → string + string).

Definition formatReplicationObject (obj : option Obj) : string :=
  match obj with
  | None => "<nil>"
  | Some obj =>
      match json_Marshal obj with
      | inr b =>
          if bool_decide (b ≠ "{}") && bool_decide (b ≠ "null") then type_of obj +:+ " " +:+ b
          else type_of obj +:+ " " +:+ go_syntax obj
      | inl _ => type_of obj +:+ " " +:+ go_syntax obj
      end
  end.

(** [%T] of a nil interface is "<nil>". *)
Definition logReplicationEvent (ev : EventView Obj) : list LogLine :=
  [log_Info "replication event leaving filter chain (will be recorded and pushed to subscribers)"
     [("resourceType", LStr (ev_ResourceType ev)); ("resourceTypeNum", LInt (ev_ResourceTypeNum ev));
      ("wireKind", LStr (ev_WireKind ev)); ("operation", LStr (ev_Operation ev));
      ("wireOperation", LStr (ev_WireOperation ev)); ("resourceId", LStr (ev_ResourceId ev));
      ("objectCount", LLen (ev_Objects ev)); ("objectTypes", LStrs (from_option type_of "<nil>" <$> ev_Objects ev));
      ("summary", LStr (ev_String ev)); ("payload", LStrs (formatReplicationObject <$> ev_Objects ev))];
   log_V1_Info "replication event raw dump"
     [("resourceId", LStr (ev_ResourceId ev)); ("raw", LStr (ev_GoSyntax ev))]].

(** The events the filter lets pass, and what it has logged. *)
Definition ReplicationPayloadFilter (ev : Event) : list Event * list LogLine :=
  ([ev], logReplicationEvent (view ev)).

(** A chain that ends with the filter hands on what it would hand on without
    it, and the log has two lines for every event handed on. *)
Lemma ReplicationPayloadFilter_passes (chain : Event → list Event) ev :
  (ev' ← chain ev; (ReplicationPayloadFilter ev').1) = chain ev ∧
  length (ev' ← chain ev; (ReplicationPayloadFilter ev').2) = 2 * length (chain ev).
Proof. induction (chain ev) as [|e l [IH1 IH2]]; [done|]. cbn. split; [by f_equal|]. cbn in IH2. lia. Qed.

(** The payload tells objects of different types apart, whatever they marshal
    to: when no type name has a blank in it, the type can be read off. *)
Lemma formatReplicationObject_type o1 o2 :
  free_of " " (type_of o1) → free_of " " (type_of o2) →
  formatReplicationObject (Some o1) = formatReplicationObject (Some o2) → type_of o1 = type_of o2.
Proof.
  intros H1 H2. assert (∀ o, ∃ rest, formatReplicationObject (Some o) = type_of o +:+ String " " rest) as Hf.
  { intros o. unfold formatReplicationObject. destruct (json_Marshal o) as [|b]; [by eexists|].
    case_match; by eexists. }
  destruct (Hf o1) as [r1 ->], (Hf o2) as [r2 ->]. intros Heq.
  pose proof (proj2 (Cut_Some " " _ (type_of o1) r1) (conj eq_refl H1)) as C1.
  rewrite Heq, (proj2 (Cut_Some " " _ (type_of o2) r2) (conj eq_refl H2)) in C1. congruence.
Qed.
End filter.
