(* ===== verification/Options.v ===== *)
(** * Options: the command line of [src/cmd/main.go]

    The flags [main] defines, with the environment variables some defaults come
    from, and [flag.Parse] of the standard library as it is used there. Flags
    that other packages define (zap, controller-runtime) are a parameter. *)

From S2P Require Import Prelude.
From S2P Require Import GoStrings.
From S2P Require Import Sensor.

(** ** The variables of [main] *)
Record Options := mkOptions {
  metricsAddr : string;
  apiAddr : string;
  probeAddr : string;
  enableLeaderElection : bool;
  secureMetrics : bool;
  enableHTTP2 : bool;
  allowInboundPush : bool;
  helmReleaseScanning : bool;
  subscriberURLs : string;
  rbacWhitelistPath : string;
  crdChecklistRaw : string
}.

(** What a flag has been set to. *)
Inductive FlagValue := VString (s : string) | VBool (b : bool).

Definition string_flag (given : gmap string FlagValue) (name default : string) : string :=
  match given !! name with Some (VString s) => s | _ => default end.
Definition bool_flag (given : gmap string FlagValue) (name : string) (default : bool) : bool :=
  match given !! name with Some (VBool b) => b | _ => default end.

(** The variables after [flag.Parse] has set the flags [given]. *)
Definition options (LookupEnv : string → option string) (given : gmap string FlagValue) : Options := {|
  metricsAddr := string_flag given "metrics-bind-address" "0";
  apiAddr := string_flag given "api-bind-address" (envOrDefault LookupEnv "API_ADDR" ":8080");
  probeAddr := string_flag given "health-probe-bind-address" ":8081";
  enableLeaderElection := bool_flag given "leader-elect" false;
  secureMetrics := bool_flag given "metrics-secure" true;
  enableHTTP2 := bool_flag given "enable-http2" false;
  allowInboundPush := bool_flag given "allow-inbound-push" false;
  helmReleaseScanning := bool_flag given "helm-release-scanning"
    (bool_decide (envOrDefault LookupEnv "FEATURE_HELM_RELEASE_SCANNING" "true" = "true"));
  subscriberURLs := string_flag given "subscriber-urls" (envOrDefault LookupEnv "SUBSCRIBER_URLS" "");
  rbacWhitelistPath := string_flag given "rbac-whitelist" (envOrDefault LookupEnv "RBAC_WHITELIST" "");
  crdChecklistRaw := string_flag given "crd-checklist" (envOrDefault LookupEnv "CRD_CHECKLIST" "")
|}.

(** The flags of [main]: the boolean ones and the others. *)
Definition bool_flags : list string :=
  ["leader-elect"; "metrics-secure"; "enable-http2"; "allow-inbound-push"; "helm-release-scanning"].
Definition string_flags : list string :=
  ["metrics-bind-address"; "api-bind-address"; "health-probe-bind-address"; "subscriber-urls"; "rbac-whitelist";
   "crd-checklist"].

(** ** [flag.Parse] *)

Definition ParseBool (s : string) : option bool :=
  if bool_decide (s ∈ ["1"; "t"; "T"; "true"; "TRUE"; "True"]) then Some true
  else if bool_decide (s ∈ ["0"; "f"; "F"; "false"; "FALSE"; "False"]) then Some false
  else None.

(** [-x] and [--x] name the flag [x]. [None]: no flag, or the terminator. *)
Definition flag_text (arg : string) : option string :=
  match arg with
  | String "-" (String "-" "") => None
  | String "-" (String "-" name) => Some name
  | String "-" "" => None
  | String "-" name => Some name
  | _ => None
  end.

(** The name and the value behind the first equals sign, which cannot come
    first. *)
Definition flag_parts (text : string) : option (string * option string) :=
  match text with
  | "" => None
  | String c rest =>
      if bool_decide (c = "-"%char) || bool_decide (c = "="%char) then None
      else match Cut "=" text with
           | Some (name, value) => Some (name, Some value)
           | None => Some (text, None)
           end
  end.

Section parse.
(** The flags of other packages: whether they are boolean, and what they accept. *)
Context (foreign : string → option (bool * (string → bool))).

Inductive Parsed := Given (settings : gmap string FlagValue) | UsageExit (status : Z).

(** [Some b]: the flag is defined, and boolean when [b]. *)
Definition is_bool_flag (name : string) : option bool :=
  if bool_decide (name ∈ bool_flags) then Some true
  else if bool_decide (name ∈ string_flags) then Some false
  else fst <$> foreign name.

(** [flag.Value.Set]; [None] is its error. *)
Definition set_flag (name value : string) (given : gmap string FlagValue) : option (gmap string FlagValue) :=
  if bool_decide (name ∈ bool_flags)
  then b ← ParseBool value; Some (<[name := VBool b]> given)
  else if bool_decide (name ∈ string_flags) then Some (<[name := VString value]> given)
  else match foreign name with
       | Some (_, accepts) => if accepts value then Some given else None
       | None => None
       end.

(** [FlagSet.Parse] with [ExitOnError]: an error prints the usage and exits
    with status 2, a request for help with status 0. *)
Fixpoint parse (args : list string) (given : gmap string FlagValue) : Parsed :=
  match args with
  | [] => Given given
  | arg :: args =>
      match flag_text arg with
      | None => Given given
      | Some text =>
          match flag_parts text with
          | None => UsageExit 2
          | Some (name, value) =>
              match is_bool_flag name with
              | None => if bool_decide (name ∈ ["help"; "h"]) then UsageExit 0 else UsageExit 2
              | Some true =>
                  match set_flag name (default "true" value) given with
                  | Some given => parse args given
                  | None => UsageExit 2
                  end
              | Some false =>
                  match value, args with
                  | Some value, _ =>
                      match set_flag name value given with
                      | Some given => parse args given
                      | None => UsageExit 2
                      end
                  | None, value :: args =>
                      match set_flag name value given with
                      | Some given => parse args given
                      | None => UsageExit 2
                      end
                  | None, [] => UsageExit 2
                  end
              end
          end
      end
  end.

(** ** The command line sets what it names *)

(** A setting of one of the flags of [main], as [--name=value]. *)
Definition setting_wf (s : string * FlagValue) : Prop :=
  match s.2 with VBool _ => s.1 ∈ bool_flags | VString _ => s.1 ∈ string_flags end.
Definition print_value (v : FlagValue) : string :=
  match v with VString s => s | VBool true => "true" | VBool false => "false" end.
Definition print_setting (s : string * FlagValue) : string := "--" +:+ s.1 +:+ "=" +:+ print_value s.2.

(** The names of the flags are free of what the parser looks for. *)
Definition name_ok (name : string) : Prop := free_of "=" name ∧ name ≠ "" ∧ HasPrefix name "-" = false.

Lemma flag_names name : name ∈ bool_flags ++ string_flags → name_ok name.
Proof.
  revert name. apply list.Forall_forall. unfold bool_flags, string_flags, app.
  repeat (apply list.Forall_cons; split; [by vm_compute; split; [set_solver|split; [discriminate|reflexivity]]|]).
  apply list.Forall_nil. done.
Qed.

Lemma flag_text_print name rest : name_ok name → flag_text ("--" +:+ name +:+ rest) = Some (name +:+ rest).
Proof.
  intros (_ & Hne & _). destruct name as [|c name]; [done|]. reflexivity.
Qed.

Lemma flag_parts_print name value :
  name_ok name → flag_parts (name +:+ "=" +:+ value) = Some (name, Some value).
Proof.
  intros (Hf & Hne & Hp). destruct name as [|c name]; [done|].
  rewrite string_app_cons. unfold flag_parts.
  assert (c ≠ "-"%char) as Hc1 by (intros ->; by destruct name; vm_compute in Hp).
  assert (c ≠ "="%char) as Hc2 by (intros ->; apply Hf; by left).
  rewrite (bool_decide_eq_false_2 _ Hc1), (bool_decide_eq_false_2 _ Hc2). cbn [orb].
  rewrite (proj2 (Cut_Some "=" _ (String c name) value)); [done|]. split; [reflexivity|done].
Qed.

Lemma set_flag_print s given :
  setting_wf s → is_bool_flag s.1 = Some (match s.2 with VBool _ => true | VString _ => false end) ∧
  set_flag s.1 (print_value s.2) given = Some (<[s.1 := s.2]> given).
Proof.
  destruct s as [name [v|b]]; unfold setting_wf; simpl; intros Hin; unfold is_bool_flag, set_flag.
  - assert (name ∉ bool_flags) as Hno.
    { revert Hin. unfold string_flags. rewrite !elem_of_cons.
      intros Hin Hb. repeat destruct Hin as [->|Hin]; by vm_compute in Hb; set_solver. }
    by rewrite (bool_decide_eq_false_2 _ Hno), (bool_decide_eq_true_2 _ Hin).
  - rewrite (bool_decide_eq_true_2 _ Hin). split; [done|]. by destruct b.
Qed.

(** C26. The command line is read as it is written: any list of settings of the
    flags of [main], each printed as --name=value, parses without an error,
    whatever other packages define, and the variables are those of the last
    setting of each flag, or of the environment and the defaults. *)
Theorem parse_settings LookupEnv settings :
  Forall setting_wf settings →
  ∃ given, parse (print_setting <$> settings) ∅ = Given given ∧
    options LookupEnv given = options LookupEnv (foldl (λ g s, <[s.1 := s.2]> g) ∅ settings).
Proof.
  intros Hwf. eexists. split; [|done]. generalize (∅ : gmap string FlagValue) as given.
  induction Hwf as [|s settings Hs _ IH]; intros given; [done|].
  rewrite fmap_cons. unfold print_setting at 1. cbn [parse foldl].
  assert (name_ok s.1) as Hname.
  { apply flag_names. destruct s as [name []]; apply elem_of_app; [by right|by left]. }
  rewrite flag_text_print, flag_parts_print by done.
  destruct (set_flag_print s given Hs) as [-> Hset].
  destruct s as [name [v|b]]; cbn [fst snd] in *;
    try change (default "true" (Some ?v)) with v; rewrite Hset; apply IH.
Qed.
End parse.
