(* ===== verification/System.v ===== *)
(** * System: the sensor as wired in [src/cmd/main.go]

    The controllers with the resource types, skip functions and binding
    reconcilers [main] gives them; the events that make the manager call them;
    the startup sequence; and what every interleaving of the controllers
    preserves. The manager runs each controller in goroutines of its own: a
    pool of handlers interleaved at the atomic operations of [State] covers
    every order it may choose. *)

From S2P Require Import Prelude.
From S2P Require Import Prog.
From S2P Require Import GoStrings.
From S2P Require Import HelmDecode.
From S2P Require Import K8s.
From S2P Require Import Lib.
From S2P Require Import Entities.
From S2P Require Import ModelSrv.
From S2P Require Import Registry.
From S2P Require Import RuleRepo.
From S2P Require Import CrdCheck.
From S2P Require Import State.
From S2P Require Import Convert.
From S2P Require Import RefFindings.
From S2P Require Import Evaluator.
From S2P Require Import CrdControllers.
From S2P Require Import Whitelist.
From S2P Require Import Rbac.
From S2P Require Import Instances.
From S2P Require Import HelmRelease.
From S2P Require Import CrdReporter.
From S2P Require Import Namespace.
From S2P Require Import Image.
From S2P Require Import ImageScan.
From S2P Require Import Sensor.

(** ** The tables of [main] *)

Inductive WorkloadKind := Deployment | StatefulSet | DaemonSet | CronJob | Job.
Inductive APIKind := Service | Ingress.
Inductive RoleKind := KRole | KClusterRole.
Inductive BindingKind := KRoleBinding | KClusterRoleBinding.

(** The columns [resourceType] and [skipFunc] of [workloads]. *)
Definition workload_row (k : WorkloadKind) : string * option (ObjectMeta → bool) :=
  match k with
  | Deployment => ("apps/deployments", None)
  | StatefulSet => ("apps/statefulsets", None)
  | DaemonSet => ("apps/daemonsets", None)
  | CronJob => ("batch/cronjobs", None)
  | Job => ("batch/jobs", Some IsOwnedByCronJob)
  end.

(** The column [resourceType] of [apiResources]. *)
Definition api_row (k : APIKind) : string :=
  match k with Service => "/services" | Ingress => "networking.k8s.io/ingresses" end.

(** The column [kind] of [rbacRoles] and of [rbacBindings]. *)
Definition role_kind (k : RoleKind) : string :=
  match k with KRole => "Role" | KClusterRole => "ClusterRole" end.
Definition binding_kind (k : BindingKind) : string :=
  match k with KRoleBinding => "RoleBinding" | KClusterRoleBinding => "ClusterRoleBinding" end.

(** What [SetBindingReconciler] registers with both role reconcilers. *)
Definition bindingReconcilers : list string := ["RoleBinding"; "ClusterRoleBinding"].

Section system.
Context {L : Lib} {S : ModelSrv} {C : HelmCodecs}.

(** ** Startup: the model calls of [main] before the manager starts *)

Definition mustRegisterFindingTypes : action (option ModelErr) :=
  err <- RegisterRBACFindingTypes ;;
  match err with
  | Some err => Ret (Some err)
  | None =>
      err <- RegisterReferenceFindingTypes ;;
      match err with
      | Some err => Ret (Some err)
      | None => RegisterImageFindingTypes
      end
  end.

(** [None]: the process has exited. *)
Definition startup (nodeID : uuid) (crdChecklistRaw : string) (discovery : option Discovery)
    : action (option Identity) :=
  sensorID <- Register nodeID ;;
  match sensorID with
  | inl _ => Ret None
  | inr sensorID =>
      match runCRDCheck crdChecklistRaw discovery (NodeID sensorID) with
      | None => Ret None
      | Some crdReporter =>
          writing (set_reporter crdReporter) ;;
          err <- mustRegisterFindingTypes ;;
          match err with
          | Some _ => Ret None
          | None => Ret (Some sensorID)
          end
      end
  end.

(** ** Events *)

(** The next binding of the channel that [WatchesRawSource] drains. *)
Definition Dequeue_op (kind : string) (w : World) : option NamespacedName * World :=
  match queued kind w with
  | [] => (None, w)
  | nn :: rest => (Some nn, set_requeue (<[kind := rest]> (w_requeue w)) w)
  end.
Definition Dequeue (kind : string) : action (option NamespacedName) := atomic (Dequeue_op kind).

Inductive Event :=
| EvSystem (req : NamespacedName) (got : GetResult SystemCR)
| EvAPI (req : NamespacedName) (got : GetResult APICR)
| EvComponent (req : NamespacedName) (got : GetResult ComponentCR)
| EvSystemInstance (req : NamespacedName) (got : GetResult SystemInstanceCR)
| EvWorkload (k : WorkloadKind) (req : NamespacedName) (got : GetResult Object)
| EvAPIResource (k : APIKind) (req : NamespacedName) (got : GetResult Object)
| EvBinding (k : BindingKind) (req : NamespacedName) (got : GetResult BindingObject)
| EvRequeued (k : BindingKind) (Get : NamespacedName → GetResult BindingObject)
| EvRole (k : RoleKind) (c : Choice) (req : NamespacedName) (got : GetResult Object)
| EvNamespace (req : NamespacedName) (got : GetResult Object)
| EvCRDFallback (got : GetResult Object)
| EvPods (c : ScanChoices) (pods : string + list Pod)
| EvRule (ev : InformerEvent)
| EvHelmStartup (secrets : string + list Secret)
| EvHelm (req : NamespacedName) (got : GetResult Secret).

(** The handler of an event; the manager reads its outcome. *)
Definition handle (wl : RBACWhitelist) (ev : Event) : action Outcome :=
  match ev with
  | EvSystem req got => SystemReconciler_Reconcile req got
  | EvAPI req got => APIReconciler_Reconcile req got
  | EvComponent req got => ComponentReconciler_Reconcile req got
  | EvSystemInstance req got => SystemInstanceReconciler_Reconcile req got
  | EvWorkload k req got => WorkloadReconciler_Reconcile (workload_row k).2 (workload_row k).1 req got
  | EvAPIResource k req got => APIInstanceReconciler_Reconcile (api_row k) req got
  | EvBinding k req got => RoleBindingReconciler_Reconcile (Some wl) (binding_kind k) req got
  | EvRequeued k Get =>
      next <- Dequeue (binding_kind k) ;;
      match next with
      | None => Ret done_ok
      | Some req => RoleBindingReconciler_Reconcile (Some wl) (binding_kind k) req (Get req)
      end
  | EvRole k c req got => RoleReconciler_Reconcile (Some wl) (role_kind k) bindingReconcilers c req got
  | EvNamespace req got => NamespaceReconciler_Reconcile req got
  | EvCRDFallback got => crdMissingFallback_Start got ;; Ret done_ok
  | EvPods c pods => ImageScanReconciler_Reconcile c pods
  | EvRule ev => writing (λ w, set_rules (FindingRuleWatcher_step ev (w_rules w)) w) ;; Ret done_ok
  | EvHelmStartup secrets => err <- populateLatestRevisions secrets ;; Ret (mkOutcome 0 err)
  | EvHelm req got => HelmReleaseReconciler_Reconcile req got
  end.
End system.

(** ** What every interleaving preserves *)

Section invariant.
Context {L : Lib} {LL : LibLaws} {S : ModelSrv} {HL : ModelSrvLaws S}.

(** The families only the startup sequence writes. *)
Definition protected (f : Family) : bool :=
  match f with FNode | FNodeType | FContextType => true | _ => false end.

(** The state [w] of a run whose controllers started in [w0]. *)
Record system_inv (w0 w : World) : Prop := {
  (** the sensor's Node, its type and the context type are untouched *)
  inv_identity f i : protected f = true → get f i (w_model w) = get f i (w_model w0);
  (** no role key is kept without a waiting binding *)
  inv_pending : no_empty_pending (w_index w);
  (** no resource type is kept without a rule *)
  inv_rules : no_empty_rules (w_rules w);
  (** a requeue channel never holds more than its capacity ... *)
  inv_capacity kind : length (queued kind w) ≤ requeue_capacity;
  (** ... and only names of the scope of its reconciler *)
  inv_routed kind nn :
    nn ∈ queued kind w → IsClusterScoped kind = bool_decide (nn_Namespace nn = "");
  (** what the CRD reporter has to report does not change *)
  inv_reporter :
    (λ r, (rep_result r, rep_fallback r)) <$> w_reporter w =
    (λ r, (rep_result r, rep_fallback r)) <$> w_reporter w0
}.

Abbreviation preserves w0 := (ops_preserve (system_inv w0)).

(** *** The operations of [State] *)

Lemma preserves_add w0 e : protected (family_of e) = false → preserves w0 (Model_Add e).
Proof.
  intros Hp. apply ops_preserve_atomic. intros w [H1 H2 H3 H4 H5 H6]. split; try done.
  intros f i Hf. rewrite <- (H1 f i Hf). simpl. destruct (add e (w_model w)) as [m r] eqn:E. simpl.
  eapply add_frame; [done|left; by intros ->|intros [= -> ->]; congruence].
Qed.

Lemma preserves_del w0 f id : protected f = false → preserves w0 (Model_Delete f id).
Proof.
  intros Hp. apply ops_preserve_atomic. intros w [H1 H2 H3 H4 H5 H6]. split; try done.
  intros f' i Hf. rewrite <- (H1 f' i Hf). simpl. destruct (del f id (w_model w)) as [m r] eqn:E. simpl.
  eapply del_frame; [done|left; by intros ->|intros [= -> ->]; congruence].
Qed.

Lemma preserves_index {B} w0 (op : World → B * World) iop :
  (∀ w, (op w).2 = set_index (index_step iop (w_index w)).2 w) → preserves w0 (atomic op).
Proof.
  intros Hop. apply ops_preserve_atomic. intros w [H1 H2 H3 H4 H5 H6]. rewrite Hop. split; try done.
  by apply index_step_no_empty.
Qed.

(** A change of what the invariant does not mention. *)
Lemma preserves_other w0 (f : World → World) :
  (∀ w, w_model (f w) = w_model w ∧ w_index (f w) = w_index w ∧ w_rules (f w) = w_rules w ∧
        w_requeue (f w) = w_requeue w ∧
        (λ r, (rep_result r, rep_fallback r)) <$> w_reporter (f w) =
        (λ r, (rep_result r, rep_fallback r)) <$> w_reporter w) →
  ∀ w, system_inv w0 w → system_inv w0 (f w).
Proof.
  intros Hf w [H1 H2 H3 H4 H5 H6]. destruct (Hf w) as (E1 & E2 & E3 & E4 & E5).
  unfold queued in *. split; unfold queued; rewrite ?E1, ?E2, ?E3, ?E4, ?E5; done.
Qed.

(** *** The methods of the index and of the other shared objects *)

Lemma preserves_Index_Put w0 k n id : preserves w0 (Index_Put k n id).
Proof. by apply (preserves_index _ _ (OpPut k n id)). Qed.
Lemma preserves_Index_Delete w0 k n : preserves w0 (Index_Delete k n).
Proof. by apply (preserves_index _ _ (OpDelete k n)). Qed.
Lemma preserves_Index_SetHelmOwner w0 k n si : preserves w0 (Index_SetHelmOwner k n si).
Proof. by apply (preserves_index _ _ (OpSetHelmOwner k n si)). Qed.
Lemma preserves_Index_DeleteHelmOwners w0 si : preserves w0 (Index_DeleteHelmOwnersBySystemInstance si).
Proof. by apply (preserves_index _ _ (OpDeleteHelmOwnersBySystemInstance si)). Qed.
Lemma preserves_Index_AddPending w0 rk b : preserves w0 (Index_AddPendingBinding rk b).
Proof. by apply (preserves_index _ _ (OpAddPendingBinding rk b)). Qed.
Lemma preserves_Index_RemovePending w0 rk b : preserves w0 (Index_RemovePendingBinding rk b).
Proof. by apply (preserves_index _ _ (OpRemovePendingBinding rk b)). Qed.
Lemma preserves_Index_RemovePendingByName w0 b : preserves w0 (Index_RemovePendingBindingByName b).
Proof. by apply (preserves_index _ _ (OpRemovePendingBindingByName b)). Qed.
Lemma preserves_Index_Resolve w0 c rk : preserves w0 (Index_ResolvePendingBindings c rk).
Proof. by apply (preserves_index _ _ (OpResolvePendingBindings c rk)). Qed.

Lemma preserves_set_cluster w0 id : preserves w0 (setClusterContextID id).
Proof. by apply ops_preserve_writing, preserves_other. Qed.

Lemma preserves_Track w0 k rev : preserves w0 (Track_revision k rev).
Proof.
  apply ops_preserve_atomic. apply (preserves_other w0 (λ w, (set_latestRevision _ w))). done.
Qed.
Lemma preserves_Untrack w0 k rev : preserves w0 (Untrack_revision k rev).
Proof.
  apply ops_preserve_atomic. apply (preserves_other w0 (λ w, (set_latestRevision _ w))). done.
Qed.

Lemma preserves_set_reported w0 b : preserves w0 (set_reportedWithContext b).
Proof.
  apply ops_preserve_writing, preserves_other. intros w. split_and!; try done. simpl.
  by destruct (w_reporter w).
Qed.

Lemma preserves_rules w0 ev : preserves w0 (writing (λ w, set_rules (FindingRuleWatcher_step ev (w_rules w)) w)).
Proof.
  apply ops_preserve_writing. intros w [H1 H2 H3 H4 H5 H6]. split; try done. by apply no_empty_step.
Qed.

Lemma preserves_Enqueue w0 kind name :
  IsClusterScoped kind = bool_decide (nn_Namespace (parseNamespacedName name) = "") →
  preserves w0 (EnqueueBinding kind name).
Proof.
  intros Hscope. apply ops_preserve_writing. intros w Hw.
  destruct (decide (length (queued kind w) < requeue_capacity)) as [Hl|Hl];
    [rewrite bool_decide_eq_true_2 by done|by rewrite bool_decide_eq_false_2].
  destruct Hw as [H1 H2 H3 H4 H5 H6]. split; try done.
  - intros kind'. unfold queued at 1. simpl. rewrite lookup_insert. destruct (decide (kind = kind')); [|apply H4].
    simpl. rewrite length_app. simpl. lia.
  - intros kind' nn. unfold queued at 1. simpl. rewrite lookup_insert. destruct (decide (kind = kind')) as [Hk|]; [|apply H5].
    subst kind'. simpl. intros [Hin|Hin]%elem_of_app; [by apply H5|]. apply list_elem_of_singleton in Hin as ->. done.
Qed.

Lemma preserves_Dequeue w0 kind : preserves w0 (Dequeue kind).
Proof.
  apply ops_preserve_atomic. intros w [H1 H2 H3 H4 H5 H6]. unfold Dequeue_op.
  destruct (queued kind w) as [|nn rest] eqn:Eq; [by split|]. split; try done.
  - intros kind'. unfold queued at 1. simpl. rewrite lookup_insert. destruct (decide (kind = kind')) as [Hk|]; [|apply H4].
    subst kind'. pose proof (H4 kind) as Hc. rewrite Eq in Hc. simpl in *. lia.
  - intros kind' nn'. unfold queued at 1. simpl. rewrite lookup_insert. destruct (decide (kind = kind')) as [Hk|]; [|apply H5].
    subst kind'. simpl. intros Hin. apply H5. rewrite Eq. by right.
Qed.
End invariant.

#[export] Hint Resolve preserves_add preserves_del preserves_Index_Put preserves_Index_Delete
  preserves_Index_SetHelmOwner preserves_Index_DeleteHelmOwners preserves_Index_AddPending
  preserves_Index_RemovePending preserves_Index_RemovePendingByName preserves_Index_Resolve
  preserves_set_cluster preserves_Track preserves_Untrack preserves_set_reported preserves_rules
  preserves_Dequeue : preserve.

(** *** The handlers *)

Section handlers.
Context {L : Lib} {LL : LibLaws} {S : ModelSrv} {C : HelmCodecs} {HL : ModelSrvLaws S}.

Abbreviation preserves w0 := (ops_preserve (system_inv w0)).

Lemma preserves_deleteReferenceFinding w0 id kind : preserves w0 (deleteReferenceFinding id kind).
Proof. unfold deleteReferenceFinding. preserve. Qed.
Lemma preserves_upsertNotFound w0 id st t tt n : preserves w0 (upsertReferencedResourceNotFound id st t tt n).
Proof. unfold upsertReferencedResourceNotFound. preserve. Qed.
Lemma preserves_upsertMissing w0 id st n k : preserves w0 (upsertMissingResourceReference id st n k).
Proof. unfold upsertMissingResourceReference. preserve. Qed.
#[local] Hint Resolve preserves_deleteReferenceFinding preserves_upsertNotFound preserves_upsertMissing : preserve.

Lemma preserves_RuleEvaluation w0 key obj : preserves w0 (RuleEvaluation_run key obj).
Proof.
  unfold RuleEvaluation_run, EvaluateRule, buildFinding, ensureFindingType. preserve.
Qed.
#[local] Hint Resolve preserves_RuleEvaluation : preserve.

Lemma preserves_crd w0 {CR} convert f k key robj req (got : GetResult CR) :
  protected f = false → (∀ cr e id, convert cr = Some (e, id) → protected (family_of e) = false) →
  preserves w0 (crd_reconcile convert f k key robj req got).
Proof. intros Hf Hc. unfold crd_reconcile. preserve. apply preserves_add. eauto. Qed.

Lemma preserves_instance w0 k skip key req got :
  protected (ik_family k) = false → (∀ x, protected (family_of (ik_entity k x)) = false) →
  preserves w0 (instance_reconcile k skip key req got).
Proof. intros Hf He. unfold instance_reconcile, with_helm_owner, reconcileReferenceFindings. preserve. Qed.

Lemma preserves_Role w0 wl kind c req got :
  preserves w0 (RoleReconciler_Reconcile wl kind bindingReconcilers c req got).
Proof.
  unfold RoleReconciler_Reconcile, reconcileRoleSpecFinding, requeue_pending. preserve.
  all: apply preserves_Enqueue; by apply eqb_prop.
Qed.

Lemma preserves_Binding w0 wl kind req got : preserves w0 (RoleBindingReconciler_Reconcile wl kind req got).
Proof.
  unfold RoleBindingReconciler_Reconcile, bindingFromRBAC, reconcile_binding, drop_binding, note_role,
    reconcileSubjectFinding. preserve.
Qed.

Lemma preserves_Report w0 res s : preserves w0 (Report res s).
Proof. unfold Report, ensureCRDMissingFindingType, createCRDMissingFinding. preserve. Qed.
#[local] Hint Resolve preserves_Report : preserve.

Lemma preserves_ReportFallback w0 : preserves w0 ReportFallback.
Proof. unfold ReportFallback. preserve. Qed.
Lemma preserves_ReportWithContext w0 id : preserves w0 (ReportWithContext id).
Proof. unfold ReportWithContext. preserve. Qed.
Lemma preserves_ClearContext w0 : preserves w0 ClearContext.
Proof. unfold ClearContext. preserve. apply preserves_ReportFallback. Qed.
#[local] Hint Resolve preserves_ReportFallback preserves_ReportWithContext preserves_ClearContext : preserve.

Lemma preserves_Namespace w0 req got : preserves w0 (NamespaceReconciler_Reconcile req got).
Proof. unfold NamespaceReconciler_Reconcile, clear_cluster, reconcileContextParentFinding. preserve. Qed.

Lemma preserves_scan_all w0 c l : preserves w0 (scan_all c l).
Proof.
  induction l as [|[key obs] l IH]; [done|]. cbn [scan_all].
  unfold scan_one, ensureArtifact, findExistingArtifact, ensureArtifactInstance, deleteArtifactInstance,
    upsertImageNotRetrieved, deleteImageNotRetrievedFinding. preserve.
Qed.
#[local] Hint Resolve preserves_scan_all : preserve.

Lemma preserves_ImageScan w0 c pods : preserves w0 (ImageScanReconciler_Reconcile c pods).
Proof.
  unfold ImageScanReconciler_Reconcile, cleanupStale, cleanup_instance, cleanup_artifact,
    deleteImageNotRetrievedFinding. preserve.
Qed.

Lemma preserves_Helm w0 req got : preserves w0 (HelmReleaseReconciler_Reconcile req got).
Proof.
  unfold HelmReleaseReconciler_Reconcile, correlateResources, correlate_one, reconcileSystemReferenceFindings,
    reconcileReference. preserve.
Qed.

Lemma preserves_populate w0 secrets : preserves w0 (populateLatestRevisions secrets).
Proof.
  unfold populateLatestRevisions. destruct secrets; [done|]. apply ops_preserve_bind; [|done].
  apply ops_preserve_writing, preserves_other. done.
Qed.
#[local] Hint Resolve preserves_crd preserves_instance preserves_Role preserves_Binding preserves_Namespace
  preserves_ImageScan preserves_Helm preserves_populate : preserve.

Lemma handle_preserves w0 wl ev : preserves w0 (handle wl ev).
Proof.
  destruct ev; unfold handle, crdMissingFallback_Start; preserve.
  1-4: apply preserves_crd; [done|intros cr e id E; by destruct (as_entity_inv _ _ _ _ E) as [x ->]].
  all: by apply preserves_instance.
Qed.

(** *** Startup *)

(** The world of a new process; the store may hold resources already. *)
Definition boot (m : Store) : World := mkWorld m NewNameIndex NewRuleRepo ∅ ∅ Nil None.

Lemma preserves_registerFindingTypes w0 types : preserves w0 (registerFindingTypes types).
Proof. induction types as [|t types IH]; [done|]. cbn [registerFindingTypes]. preserve. Qed.
#[local] Hint Resolve preserves_registerFindingTypes : preserve.

Lemma preserves_mustRegister w0 : preserves w0 mustRegisterFindingTypes.
Proof.
  unfold mustRegisterFindingTypes, RegisterRBACFindingTypes, RegisterReferenceFindingTypes,
    RegisterImageFindingTypes. preserve.
Qed.

(** Startup ends in a state that satisfies the invariant and holds what
    [Register] has stored. *)
Lemma startup_spec m nodeID raw disc id :
  result (startup nodeID raw disc) (boot m) = Some id →
  let w0 := exec (startup nodeID raw disc) (boot m) in
  NodeID id = nodeID ∧ system_inv w0 w0 ∧ registered nodeID w0.
Proof.
  unfold startup. rewrite result_bind, exec_bind.
  destruct (result (Register nodeID) (boot m)) as [err|id'] eqn:ER; [done|].
  pose proof (Register_stored nodeID id' (boot m) ER) as (Hid & Hreg & Hsame).
  set (w1 := exec (Register nodeID) (boot m)) in *.
  destruct (runCRDCheck raw disc (NodeID id')) as [rep|]; [|done].
  rewrite !result_bind, !exec_bind, !exec_writing.
  set (w2 := set_reporter rep w1).
  assert (system_inv w2 w2) as Hinv.
  { destruct Hsame as (Ei & Er & Eq & _). split; try done; subst w2; simpl.
    - rewrite Ei. unfold no_empty_pending, boot, NewNameIndex. simpl. intros rk s. by rewrite lookup_empty.
    - rewrite Er. unfold no_empty_rules, boot, NewRuleRepo. simpl. intros k rules. by rewrite lookup_empty.
    - intros kind. unfold queued. simpl. rewrite Eq. unfold boot. simpl. rewrite lookup_empty. simpl. lia.
    - intros kind nn. unfold queued. simpl. rewrite Eq. unfold boot. simpl. rewrite lookup_empty. simpl.
      by intros ?%not_elem_of_nil. }
  destruct (result mustRegisterFindingTypes w2) as [err|] eqn:EM; [done|].
  rewrite exec_Ret, result_Ret. intros [= <-].
  pose proof (exec_preserves _ _ w2 (preserves_mustRegister w2) Hinv) as Hinv'.
  set (w3 := exec mustRegisterFindingTypes w2) in *. cbv zeta. split; [done|split].
  - destruct Hinv'. by split.
  - assert (∀ f i, protected f = true → get f i (w_model w3) = get f i (w_model w1)) as Hf
      by (intros f i Hp; by rewrite (inv_identity _ _ Hinv' f i Hp)).
    destruct Hreg as (R1 & R2 & R3). unfold registered. by rewrite !Hf.
Qed.

(** C1. From startup on, whatever events arrive and however their handlers
    interleave: the sensor's Node, its NodeType and the ContextType of every
    Context stay as registered; the requeue channels stay within their
    capacity and hold only names of the right scope; and the index and the
    rule registry keep no empty entries. *)
Theorem controllers_invariant wl m nodeID raw disc id evs c :
  result (startup nodeID raw disc) (boot m) = Some id →
  let w0 := exec (startup nodeID raw disc) (boot m) in
  rtc pstep (handle wl <$> evs, w0) c →
  system_inv w0 c.2 ∧ registered nodeID c.2.
Proof.
  intros Hs w0 Hsteps. destruct (startup_spec _ _ _ _ _ Hs) as (_ & Hinv & Hreg). fold w0 in Hinv, Hreg.
  assert (system_inv w0 c.2) as Hc.
  { apply (interleaving_preserves _ _ _ Hsteps); [|done]. apply list.Forall_fmap, list.Forall_true.
    intros ev. apply handle_preserves. }
  split; [done|]. destruct Hreg as (R1 & R2 & R3). unfold registered.
  by rewrite !(inv_identity _ _ Hc) by done.
Qed.
End handlers.
