(* ===== verification/Typing.v ===== *)
(** * Typing: the well-formedness of the model

    What the sensor promises about every resource it stores: an id, references
    that name something, dates of the calendar, a subject for a binding, the
    registered type for a Context; and about the name index, which uses the nil
    UUID for "not there": no entry holds it. The proof follows the results of
    the operations ([safe] of [Rely]): what a handler stores can be something
    it has read from the model before. *)

From S2P Require Import Prelude.
From S2P Require Import Prog.
From S2P Require Import Rely.
From S2P Require Import GoStrings.
From S2P Require Import HelmDecode.
From S2P Require Import K8s.
From S2P Require Import Lib.
From S2P Require Import Entities.
From S2P Require Import ModelSrv.
From S2P Require Import Registry.
From S2P Require Import RuleRepo.
From S2P Require Import CrdCheck.
From S2P Require Import State.
From S2P Require Import Convert.
From S2P Require Import RefFindings.
From S2P Require Import Evaluator.
From S2P Require Import CrdControllers.
From S2P Require Import Whitelist.
From S2P Require Import Rbac.
From S2P Require Import Instances.
From S2P Require Import HelmRelease.
From S2P Require Import CrdReporter.
From S2P Require Import Namespace.
From S2P Require Import Image.
From S2P Require Import ImageScan.
From S2P Require Import Sensor.
From S2P Require Import System.

(** ** Well-formed resources *)
Section wf.
Context {L : Lib} {S : ModelSrv}.

(** A reference field is absent or names something. *)
Definition ref_wf (r : option uuid) : Prop := r ≠ Some Nil.

Definition version_wf (v : common_Version) : Prop :=
  ∀ d, d ∈ [cv_AvailableFrom v; cv_DeprecatedFrom v; cv_TerminatedFrom v] → from_option valid_date True d.

(** A reference to an API: by its id, or by name and version. *)
Definition ApiRef_wf (r : ApiRef) : Prop :=
  match ApiRef_ApiRef r with
  | None => ApiRef_ApiID r ≠ Nil
  | Some v => ApiRef_ApiID r = Nil ∧ ev_Name v ≠ "" ∧ ev_Version v ≠ ""
  end.

Definition entity_wf (e : Entity) : Prop :=
  match e with
  | ESystem x => sys_Id x ≠ Nil ∧ version_wf (sys_Version x)
  | EApi x => api_Id x ≠ Nil ∧ version_wf (api_Version x) ∧ ref_wf (api_System x)
  | EComponent x =>
      comp_Id x ≠ Nil ∧ version_wf (comp_Version x) ∧ ref_wf (comp_System x) ∧
      Forall ApiRef_wf (comp_Consumes x) ∧ Forall ApiRef_wf (comp_Provides x)
  | ESystemInstance x => si_Id x ≠ Nil ∧ ref_wf (si_SystemRef x)
  | EContext x => ctx_Id x ≠ Nil ∧ ctx_Type x = K8sNamespaceContextTypeID ∧ ref_wf (ctx_Parent x)
  | EComponentInstance x => ci_Id x ≠ Nil ∧ ref_wf (ci_ComponentRef x) ∧ ref_wf (ci_SystemInstance x)
  | EApiInstance x =>
      ai_Id x ≠ Nil ∧ from_option ApiRef_wf True (ai_ApiRef x) ∧ ref_wf (ai_SystemInstance x)
  | ERole x => role_Id x ≠ Nil ∧ ref_wf (role_RoleSpec x)
  | EBinding x => bind_Id x ≠ Nil ∧ ref_wf (bind_Role x) ∧ EffectiveKind (bind_Subject x) ≠ SubjectNone
  | EArtifact x => art_Id x ≠ Nil
  | EArtifactInstance x => arti_Id x ≠ Nil ∧ arti_ArtifactRef x ≠ Nil
  | ENode x => node_Id x ≠ Nil
  | EFinding _ | EFindingType _ | ENodeType _ | EContextType _ => True
  end.

(** The well-formed states of the sensor. *)
Record world_wf (w : World) : Prop := {
  wf_get f i e : f ≠ FFinding → get f i (w_model w) = Some e → entity_wf e;
  wf_names k n id : at2 (names (w_index w)) k n = Some id → id ≠ Nil;
  wf_owner k n id : at2 (helmOwner (w_index w)) k n = Some id → id ≠ Nil
}.

(** ** The converters build well-formed resources *)

Lemma parseDate_wf s : from_option valid_date True (parseDate s).
Proof. destruct (parseDate s) as [d|] eqn:E; [|done]. by apply parseDate_sound in E as [H _]. Qed.

Lemma parseVersion_wf v : version_wf (parseVersion v).
Proof.
  intros d. unfold parseVersion. simpl. rewrite !elem_of_cons.
  intros [->|[->|[->|[]%not_elem_of_nil]]]; apply parseDate_wf.
Qed.

Lemma parseSystemRef_wf s r : ref_wf (parseSystemRef s r).
Proof.
  unfold ref_wf, parseSystemRef. case_bool_decide; [|done]. destruct (uuid_Parse s); [|done].
  case_bool_decide; congruence.
Qed.

Lemma parseAPIRefs_wf refs : Forall ApiRef_wf (parseAPIRefs refs).
Proof.
  unfold parseAPIRefs. induction refs as [|r refs IH]; [done|]. cbn [omap list_omap]. cbv zeta.
  case_bool_decide; [by constructor|].
  destruct (bool_decide _ && bool_decide _) eqn:E; [|done].
  apply andb_true_iff in E as [E1%bool_decide_eq_true_1 E2%bool_decide_eq_true_1]. by constructor.
Qed.

Lemma known_wf (id : uuid) : ref_wf (if bool_decide (id ≠ Nil) then Some id else None).
Proof. unfold ref_wf. case_bool_decide; congruence. Qed.

Lemma annotated_ref_wf ann key legacy : ref_wf (annotated_ref ann key legacy).
Proof. unfold ref_wf, annotated_ref. repeat case_bool_decide; congruence. Qed.

Lemma annotated_system_instance_wf ann : ref_wf (annotated_system_instance ann).
Proof. apply known_wf. Qed.

(** [crd_wf convert]: what [convert] returns is well-formed and has an id. *)
Definition converts_wf {X} (convert : X → option (Entity * uuid)) : Prop :=
  ∀ x e id, convert x = Some (e, id) → entity_wf e ∧ id ≠ Nil.

Lemma convertSystem_wf : converts_wf (λ s, as_entity ESystem (convertSystem s)).
Proof.
  intros s e id. unfold as_entity, convertSystem. case_bool_decide; [done|]. intros [= <- <-].
  pose proof (parseVersion_wf (SystemSpec_Version (SystemCR_Spec s))). done.
Qed.

Lemma convertAPI_wf : converts_wf (λ a, as_entity EApi (convertAPI a)).
Proof.
  intros a e id. unfold as_entity, convertAPI. case_bool_decide; [done|]. intros [= <- <-].
  split; [|done]. split_and!; [done|apply parseVersion_wf|apply parseSystemRef_wf].
Qed.

Lemma convertComponent_wf : converts_wf (λ c, as_entity EComponent (convertComponent c)).
Proof.
  intros c e id. unfold as_entity, convertComponent. case_bool_decide; [done|]. intros [= <- <-].
  split; [|done]. split_and!;
    [done|apply parseVersion_wf|apply parseSystemRef_wf|apply parseAPIRefs_wf|apply parseAPIRefs_wf].
Qed.

Lemma convertSystemInstance_wf : converts_wf (λ s, as_entity ESystemInstance (convertSystemInstance s)).
Proof.
  intros s e id. unfold as_entity, convertSystemInstance. case_bool_decide; [done|]. intros [= <- <-].
  split; [|done]. split; [done|apply parseSystemRef_wf].
Qed.

Lemma convertNamespace_wf ns cid x id :
  convertNamespaceToContext ns cid = Some (x, id) → entity_wf (EContext x) ∧ id ≠ Nil.
Proof.
  unfold convertNamespaceToContext. case_bool_decide; [done|]. intros [= <- <-]. split; [|done].
  split_and!; [done|done|]. unfold ref_wf. simpl. case_bool_decide; [congruence|].
  destruct (_ && _) eqn:E; [|done]. apply andb_true_iff in E as [_ E%bool_decide_eq_true_1]. congruence.
Qed.

Lemma roleFromRBAC_wf obj x id : roleFromRBAC obj = Some (x, id) → entity_wf (ERole x) ∧ id ≠ Nil.
Proof.
  unfold roleFromRBAC. case_bool_decide; [done|]. intros [= <- <-].
  split; [|done]. split; [done|apply known_wf].
Qed.

(** The operations of an [InstanceOps] keep to well-formed resources. *)
Record InstanceTyped (k : InstanceOps) : Prop := {
  it_from obj x id : ik_from k obj = Some (x, id) → entity_wf (ik_entity k x) ∧ id ≠ Nil;
  it_set x si : entity_wf (ik_entity k x) → si ≠ Nil → entity_wf (ik_entity k (ik_SetSystemInstance k si x));
  it_family x : family_of (ik_entity k x) = ik_family k
}.

Lemma Workload_typed : InstanceTyped WorkloadOps.
Proof.
  split; [| |done].
  - intros obj x id. simpl. unfold componentInstanceFromMeta. case_bool_decide; [done|]. intros [= <- <-].
    split; [|done]. split_and!; [done|apply annotated_ref_wf|apply annotated_system_instance_wf].
  - intros x si (H1 & H2 & _) Hsi. split_and!; [done|done|]. simpl. unfold ref_wf. congruence.
Qed.

Lemma APIInstance_typed : InstanceTyped APIInstanceOps.
Proof.
  split; [| |done].
  - intros obj x id. simpl. unfold apiInstanceFromMeta. case_bool_decide; [done|]. intros [= <- <-].
    split; [|done]. split_and!; [done| |apply annotated_system_instance_wf]. simpl.
    pose proof (annotated_ref_wf (om_Annotations obj) AnnotationAPIReference AnnotationAPIID) as Hr.
    destruct (annotated_ref _ _ _) as [r|]; [|done]. unfold ref_wf in Hr. simpl. unfold ApiRef_wf. simpl. congruence.
  - intros x si (H1 & H2 & _) Hsi. split_and!; [done|done|]. simpl. unfold ref_wf. congruence.
Qed.
End wf.

(** ** The operations of [State] *)
Section operations.
Context {L : Lib} {S : ModelSrv} {HL : ModelSrvLaws S} {HA : ModelSrvAtomic S}.

Abbreviation typed := (safe world_wf).
Abbreviation any := (λ _, True).

Lemma typed_add e : entity_wf e ∨ family_of e = FFinding → typed any (Model_Add e).
Proof.
  intros He w [H1 H2 H3]. split; [|done]. split; [|done|done].
  intros f i e' Hf. simpl. destruct (decide ((f, i) = (family_of e, id_of e))) as [[= -> ->]|Hne].
  - destruct (add_atomic e (w_model w) Hf) as [->| ->]; [by apply H1|]. intros [= <-]. naive_solver.
  - destruct (add e (w_model w)) as [m r] eqn:E. simpl.
    rewrite (add_frame _ _ _ _ _ _ E) by (done || by left). by apply H1.
Qed.

Lemma typed_del f i : typed any (Model_Delete f i).
Proof.
  intros w [H1 H2 H3]. split; [|done]. split; [|done|done].
  intros f' i' e' Hf. simpl. destruct (decide ((f', i') = (f, i))) as [[= -> ->]|Hne].
  - destruct (del_atomic f i (w_model w) Hf) as [->| ->]; [by apply H1|done].
  - destruct (del f i (w_model w)) as [m r] eqn:E. simpl.
    rewrite (del_frame _ _ _ _ _ _ _ E) by (done || by left). by apply H1.
Qed.

Lemma typed_Get f i :
  f ≠ FFinding → typed (λ r, ∀ e, r = Some e → entity_wf e ∧ family_of e = f ∧ id_of e = i) (Model_Get f i).
Proof.
  intros Hf. apply safe_reading. intros w Hw e He. split; [by eapply wf_get|by eapply get_family].
Qed.

Lemma typed_Put k n id : id ≠ Nil → typed any (Index_Put k n id).
Proof.
  intros Hid w [H1 H2 H3]. split; [|done]. split; [done| |done].
  intros k' n' id'. simpl. rewrite at2_put2. case_decide; [by intros [= <-]|apply H2].
Qed.

Lemma typed_IndexDelete k n : typed any (Index_Delete k n).
Proof.
  intros w [H1 H2 H3]. split; [|done]. split; [done| |]; simpl.
  - intros k' n' id'. rewrite at2_Delete. case_decide; [done|apply H2].
  - unfold NameIndex_Delete. by repeat case_match.
Qed.

Lemma typed_SetHelmOwner k n si : si ≠ Nil → typed any (Index_SetHelmOwner k n si).
Proof.
  intros Hid w [H1 H2 H3]. split; [|done]. split; [done|done|].
  intros k' n' id'. simpl. rewrite at2_put2. case_decide; [by intros [= <-]|apply H3].
Qed.

Lemma typed_DeleteHelmOwners si : typed any (Index_DeleteHelmOwnersBySystemInstance si).
Proof.
  intros w [H1 H2 H3]. split; [|done]. split; [done|done|].
  intros k' n' id'. simpl. rewrite at2_filter. destruct (at2 _ k' n') as [o|] eqn:E; [|done]. simpl.
  case_decide; [done|]. intros [= <-]. by eapply H3.
Qed.

(** What touches neither the store nor the two tables. *)
Lemma typed_other {B} (op : World → B * World) :
  (∀ w, w_model (op w).2 = w_model w ∧ names (w_index (op w).2) = names (w_index w) ∧
        helmOwner (w_index (op w).2) = helmOwner (w_index w)) →
  typed any (atomic op).
Proof.
  intros Hop w [H1 H2 H3]. destruct (Hop w) as (E1 & E2 & E3). split; [|done].
  split; rewrite ?E1, ?E2, ?E3; done.
Qed.

Lemma typed_reading {B} (f : World → B) : typed any (reading f).
Proof. by apply safe_reading. Qed.

Ltac other_op := apply typed_other; intros w; simpl; by repeat case_match.

Lemma typed_AddPending rk b : typed any (Index_AddPendingBinding rk b).
Proof. other_op. Qed.
Lemma typed_RemovePending rk b : typed any (Index_RemovePendingBinding rk b).
Proof. other_op. Qed.
Lemma typed_RemovePendingByName b : typed any (Index_RemovePendingBindingByName b).
Proof. other_op. Qed.
Lemma typed_Resolve c rk : typed any (Index_ResolvePendingBindings c rk).
Proof. apply typed_other. intros w. simpl. unfold NameIndex_ResolvePendingBindings. by case_match. Qed.
Lemma typed_Enqueue kind name : typed any (EnqueueBinding kind name).
Proof. other_op. Qed.
Lemma typed_Dequeue kind : typed any (Dequeue kind).
Proof. apply typed_other. intros w. unfold Dequeue_op. by case_match. Qed.
Lemma typed_rules ev : typed any (writing (λ w, set_rules (FindingRuleWatcher_step ev (w_rules w)) w)).
Proof. other_op. Qed.
Lemma typed_Track k rev : typed any (Track_revision k rev).
Proof. other_op. Qed.
Lemma typed_Untrack k rev : typed any (Untrack_revision k rev).
Proof. other_op. Qed.
Lemma typed_cluster id : typed any (setClusterContextID id).
Proof. other_op. Qed.
Lemma typed_reported b : typed any (set_reportedWithContext b).
Proof. other_op. Qed.
Lemma typed_set_reporter r : typed any (writing (set_reporter r)).
Proof. other_op. Qed.
Lemma typed_populate secrets : typed any (populateLatestRevisions secrets).
Proof.
  unfold populateLatestRevisions. destruct secrets; [done|]. eapply (safe_bind _ any); [other_op|done].
Qed.
End operations.

#[export] Hint Resolve typed_del typed_IndexDelete typed_DeleteHelmOwners typed_AddPending typed_RemovePending
  typed_RemovePendingByName typed_Resolve typed_Enqueue typed_Dequeue typed_rules typed_Track typed_Untrack
  typed_cluster typed_reported typed_set_reporter typed_populate typed_reading : safe.
#[export] Hint Extern 1 (safe world_wf _ (Model_Add _)) =>
  apply typed_add; solve [by right | left; exact I | left; tauto | left; eauto with safe] : safe.
#[export] Hint Extern 1 (safe world_wf _ (Model_Get _ _)) => apply typed_Get; done : safe.
#[export] Hint Extern 1 (safe world_wf _ (Index_Put _ _ _)) => apply typed_Put; solve [tauto | eauto with safe] : safe.
#[export] Hint Extern 1 (safe world_wf _ (Index_SetHelmOwner _ _ _)) =>
  apply typed_SetHelmOwner; solve [tauto | eauto with safe] : safe.

(** ** The handlers *)
Section handlers.
Context {L : Lib} {LL : LibLaws} {UL : UuidLaws} {S : ModelSrv} {C : HelmCodecs} {HL : ModelSrvLaws S}
  {HA : ModelSrvAtomic S}.

Abbreviation typed := (safe world_wf).
Abbreviation any := (λ _, True).

Lemma typed_deleteReferenceFinding id kind : typed any (deleteReferenceFinding id kind).
Proof. unfold deleteReferenceFinding. safely. Qed.
Lemma typed_upsertNotFound id st t tt n : typed any (upsertReferencedResourceNotFound id st t tt n).
Proof. unfold upsertReferencedResourceNotFound. safely. Qed.
Lemma typed_upsertMissing id st n k : typed any (upsertMissingResourceReference id st n k).
Proof. unfold upsertMissingResourceReference. safely. Qed.
#[local] Hint Resolve typed_deleteReferenceFinding typed_upsertNotFound typed_upsertMissing : safe.

Lemma typed_RuleEvaluation key obj : typed any (RuleEvaluation_run key obj).
Proof. unfold RuleEvaluation_run, EvaluateRule, buildFinding, ensureFindingType. safely. Qed.
#[local] Hint Resolve typed_RuleEvaluation : safe.

Lemma typed_crd {CR} convert f k key robj req (got : GetResult CR) :
  converts_wf convert → typed any (crd_reconcile convert f k key robj req got).
Proof.
  intros Hc. unfold crd_reconcile. destruct got as [cr| |]; [|safely..].
  destruct (convert cr) as [[e id]|] eqn:E; [destruct (Hc _ _ _ E)|]; safely.
Qed.

(** A resource that has no system instance yet gets the recorded owner. *)
Lemma typed_with_helm_owner k x req :
  InstanceTyped k → entity_wf (ik_entity k x) →
  typed (λ x, entity_wf (ik_entity k x)) (with_helm_owner k x req).
Proof.
  intros Hk Hx. unfold with_helm_owner. destruct (ik_GetSystemInstance k x); [done|].
  eapply safe_bind; [apply typed_reading|]. intros si _. apply safe_Ret. case_bool_decide; [|done].
  by apply it_set.
Qed.

Lemma typed_instance k skip key req got :
  InstanceTyped k → typed any (instance_reconcile k skip key req got).
Proof.
  intros Hk. unfold instance_reconcile, reconcileReferenceFindings. destruct got as [obj| |]; [|safely..].
  destruct (skip _); [done|]. destruct (ik_from k (ob_Meta obj)) as [[x id]|] eqn:E; [|done].
  destruct (it_from k Hk _ _ _ E) as [Hx Hid].
  eapply safe_bind; [by apply typed_with_helm_owner|]. clear x Hx E. intros x Hx. simpl in Hx. safely.
Qed.

Lemma typed_Role wl kind recs c req got : typed any (RoleReconciler_Reconcile wl kind recs c req got).
Proof.
  unfold RoleReconciler_Reconcile, reconcileRoleSpecFinding, requeue_pending. destruct got as [obj| |]; [|safely..].
  destruct (roleFromRBAC (ob_Meta obj)) as [[x id]|] eqn:E; [destruct (roleFromRBAC_wf _ _ _ E)|]; safely.
Qed.

Lemma typed_bindingFromRBAC obj key sk :
  typed (λ r, ∀ b id, r = Some (b, id) → id ≠ Nil ∧
           (bindingHasValidSubject (Some b) = true → entity_wf (EBinding b))) (bindingFromRBAC obj key sk).
Proof.
  unfold bindingFromRBAC. cbv zeta. case_bool_decide as Hid; [done|].
  eapply safe_bind; [apply typed_reading|]. intros roleID _. apply safe_Ret. intros b id [= <- <-].
  split; [done|]. intros Hs%bool_decide_eq_true_1. split_and!; [done|apply known_wf|done].
Qed.

Lemma typed_Binding wl kind req got : typed any (RoleBindingReconciler_Reconcile wl kind req got).
Proof.
  unfold RoleBindingReconciler_Reconcile. destruct got as [obj| |]; [|safely..].
  destruct (extractRoleBindingFields obj) as [[? ?] subjects].
  eapply safe_bind; [apply typed_bindingFromRBAC|]. intros built Hb.
  unfold reconcile_binding, drop_binding, note_role, reconcileSubjectFinding.
  destruct built as [[b id]|]; [|safely]. destruct (Hb b id eq_refl) as [Hid Hwf].
  destruct (bindingHasValidSubject (Some b)) eqn:Hs; cbn [negb]; [specialize (Hwf eq_refl)|]; safely.
Qed.

Lemma typed_Report res s : typed any (Report res s).
Proof. unfold Report, ensureCRDMissingFindingType, createCRDMissingFinding. safely. Qed.
#[local] Hint Resolve typed_Report : safe.
Lemma typed_ReportFallback : typed any ReportFallback.
Proof. unfold ReportFallback. safely. Qed.
Lemma typed_ReportWithContext id : typed any (ReportWithContext id).
Proof. unfold ReportWithContext. safely. Qed.
#[local] Hint Resolve typed_ReportFallback typed_ReportWithContext : safe.

Lemma typed_Namespace req got : typed any (NamespaceReconciler_Reconcile req got).
Proof.
  unfold NamespaceReconciler_Reconcile, clear_cluster, reconcileContextParentFinding, ClearContext.
  destruct got as [ns| |]; [|safely..].
  eapply safe_bind; [apply typed_reading|]. intros cid _. destruct (_ && _); [done|].
  destruct (convertNamespaceToContext ns cid) as [[x id]|] eqn:E; [destruct (convertNamespace_wf _ _ _ _ E)|];
    safely.
Qed.

(** The ids the sensor mints are UUIDs of names: never nil. *)
Lemma minted_ids key : artifactIDForImage key ≠ Nil ∧ artifactInstanceIDForImage key ≠ Nil.
Proof. split; apply uuid_NewSHA1_not_nil. Qed.

(** An Artifact that is found has an id, whichever way it is found. *)
Lemma typed_findExistingArtifact c obs : typed (λ r, ∀ id, r = Some id → id ≠ Nil) (findExistingArtifact c obs).
Proof.
  unfold findExistingArtifact, Model_GetArtifacts.
  eapply (safe_bind _ (λ all, ∀ l a, all = Some l → a ∈ l → art_Id a ≠ Nil)).
  { apply safe_reading. intros w Hw l a Hl Ha. pose proof (GetArtifacts_sound _ l a _ Hl Ha) as Hg.
    by apply (wf_get _ Hw FArtifact) in Hg. }
  intros [all|] Hall; [|done]. cbv zeta.
  assert (∀ P (Pdec : ∀ x, Decision (P x)) j a, list_find P all = Some (j, a) → art_Id a ≠ Nil) as Hfind.
  { intros P Pdec j a (Hj & _)%list_find_Some. eapply Hall; [done|]. by eapply list_elem_of_lookup_2. }
  destruct (if bool_decide _ then _ else _) as [[j a]|] eqn:E.
  { apply safe_Ret. intros id [= <-]. case_bool_decide; [by eapply Hfind|done]. }
  clear E. destruct (list_find _ all) as [[j a]|] eqn:E2; [apply safe_Ret; intros id [= <-]; by eapply Hfind|].
  eapply safe_bind; [apply typed_reading|]. intros id _. case_bool_decide; [|done].
  eapply safe_bind; [by apply typed_Get|]. intros a Ha. apply safe_Ret.
  intros id' (e & -> & ->)%fmap_Some. destruct (Ha e eq_refl) as (_ & _ & ->). done.
Qed.

Lemma typed_ensureArtifact c obs :
  typed (λ r, ∀ id, r = inr id → id ≠ Nil) (ensureArtifact c obs).
Proof.
  destruct (minted_ids (io_key obs)) as [Hid _]. unfold ensureArtifact.
  eapply safe_bind; [apply typed_findExistingArtifact|]. intros [id|] Hex; cbv zeta.
  - specialize (Hex id eq_refl). eapply safe_bind; [by apply typed_Put|].
    intros _ _. apply safe_Ret. congruence.
  - eapply safe_bind; [apply typed_add; by left|]. intros [err|] _; [done|].
    eapply safe_bind; [by apply typed_Put|]. intros _ _. apply safe_Ret. congruence.
Qed.

Lemma typed_scan_one c key obs : typed any (scan_one c key obs).
Proof.
  destruct (minted_ids (io_key obs)) as [_ Hid]. unfold scan_one.
  eapply safe_bind; [apply typed_ensureArtifact|]. intros [err|artID] Hart; [done|].
  specialize (Hart artID eq_refl).
  unfold ensureArtifactInstance, deleteArtifactInstance, upsertImageNotRetrieved, deleteImageNotRetrievedFinding.
  assert (entity_wf (EArtifactInstance (image_instance obs artID))) as Hwf by done. safely.
Qed.

Lemma typed_scan_all c l : typed any (scan_all c l).
Proof.
  pose proof typed_scan_one. induction l as [|[key obs] l IH]; [done|]. cbn [scan_all]. safely.
Qed.

Lemma typed_ImageScan c pods : typed any (ImageScanReconciler_Reconcile c pods).
Proof.
  pose proof typed_scan_all. unfold ImageScanReconciler_Reconcile, cleanupStale, cleanup_instance, cleanup_artifact,
    deleteImageNotRetrievedFinding. safely.
Qed.

(** A resource that is linked to its release is one the model held. *)
Lemma typed_correlate_one ns id res : id ≠ Nil → typed any (correlate_one ns id res).
Proof.
  intros Hid. unfold correlate_one. destruct (helmKindToResourceKind (mr_Kind res)) as [kind|]; [|done]. cbv zeta.
  eapply safe_bind; [by apply typed_SetHelmOwner|]. intros _ _.
  eapply safe_bind; [apply typed_reading|]. intros rid _. case_bool_decide; [done|].
  destruct kind; try done.
  all: eapply safe_bind; [by apply typed_Get|]; intros [[]|] Hr; try done.
  all: destruct (Hr _ eq_refl) as [Hwf _].
  - pose proof (it_set _ APIInstance_typed x id Hwf Hid). safely.
  - pose proof (it_set _ Workload_typed x id Hwf Hid). safely.
Qed.

Lemma typed_Helm req got : typed any (HelmReleaseReconciler_Reconcile req got).
Proof.
  pose proof typed_correlate_one as Hcorr. unfold HelmReleaseReconciler_Reconcile, correlateResources,
    reconcileSystemReferenceFindings, reconcileReference.
  assert (∀ key, release_id key ≠ Nil) as Hid by (intros; apply uuid_NewSHA1_not_nil).
  assert (∀ n key rel, entity_wf (ESystemInstance (release_instance n (release_id key) rel))) as Hsi
    by (intros; split; [apply Hid|done]).
  safely.
Qed.

Lemma handle_typed wl ev : typed any (handle wl ev).
Proof.
  pose proof typed_ReportFallback. destruct ev; cbn [handle].
  - apply typed_crd, convertSystem_wf.
  - apply typed_crd, convertAPI_wf.
  - apply typed_crd, convertComponent_wf.
  - apply typed_crd, convertSystemInstance_wf.
  - apply typed_instance, Workload_typed.
  - apply typed_instance, APIInstance_typed.
  - apply typed_Binding.
  - pose proof typed_Binding. safely.
  - apply typed_Role.
  - apply typed_Namespace.
  - unfold crdMissingFallback_Start. safely.
  - apply typed_ImageScan.
  - safely.
  - safely.
  - apply typed_Helm.
Qed.

Lemma typed_registerFindingTypes types : typed any (registerFindingTypes types).
Proof. induction types as [|t types IH]; [done|]. cbn [registerFindingTypes]. safely. Qed.

Lemma typed_startup nodeID raw disc : nodeID ≠ Nil → typed any (startup nodeID raw disc).
Proof.
  intros Hid. pose proof typed_registerFindingTypes. assert (entity_wf (ENode (sensorNode nodeID))) by done.
  unfold startup, Register, mustRegisterFindingTypes, RegisterRBACFindingTypes, RegisterReferenceFindingTypes,
    RegisterImageFindingTypes. safely.
Qed.

(** C5. Type soundness of the model: from startup on, whatever events arrive
    and however their handlers interleave, every resource of the store except
    the findings is well-formed (it has an id; its references are absent or
    name something, so that an API reference has an id or a name and a version;
    its dates exist; a Binding has a subject; a Context has the registered
    type), and the name index holds no nil UUID, so that the nil UUID it
    answers always means that the name is unknown. *)
Theorem controllers_well_typed wl m nodeID raw disc evs c :
  nodeID ≠ Nil →
  (∀ f i e, f ≠ FFinding → get f i m = Some e → entity_wf e) →
  rtc pstep (handle wl <$> evs, exec (startup nodeID raw disc) (boot m)) c →
  world_wf c.2.
Proof.
  intros Hid Hm Hsteps. apply (safe_interleaving world_wf any _ _ Hsteps).
  - apply list.Forall_fmap, list.Forall_true. intros ev. apply handle_typed.
  - apply (safe_run world_wf any); [by apply typed_startup|]. split; [done| |].
    + intros k n id. simpl. unfold at2. by rewrite lookup_empty.
    + intros k n id. simpl. unfold at2. by rewrite lookup_empty.
Qed.
End handlers.
