(* ===== verification/Footprint.v ===== *)
(** * Footprint: what each controller may write

    The table of which families of resources, which kinds of names and which
    parts of the shared state the handler of each event writes. Nothing in the
    code states it; the proofs that two controllers do not disturb each other
    read it off this table, and [guar_disjoint] turns it into the environment
    relation of [Rely]. Findings are left out: the event pipeline of the store
    may raise or clear one on any call. *)

From S2P Require Import Prelude.
From S2P Require Import Prog.
From S2P Require Import Rely.
From S2P Require Import GoStrings.
From S2P Require Import HelmDecode.
From S2P Require Import K8s.
From S2P Require Import Lib.
From S2P Require Import Entities.
From S2P Require Import ModelSrv.
From S2P Require Import Registry.
From S2P Require Import RuleRepo.
From S2P Require Import CrdCheck.
From S2P Require Import State.
From S2P Require Import Convert.
From S2P Require Import RefFindings.
From S2P Require Import Evaluator.
From S2P Require Import CrdControllers.
From S2P Require Import Whitelist.
From S2P Require Import Rbac.
From S2P Require Import Instances.
From S2P Require Import HelmRelease.
From S2P Require Import CrdReporter.
From S2P Require Import Namespace.
From S2P Require Import Image.
From S2P Require Import ImageScan.
From S2P Require Import System.

(** The parts of the shared state beside the store and the name table. *)
Inductive Part := POwners | PPending | PRequeue | PRules | PRevisions | PCluster | PReporter.

#[export] Instance Part_eq_dec : EqDecision Part.
Proof. solve_decision. Defined.

Record Footprint := mkFootprint {
  fp_families : list Family;
  fp_kinds : list ResourceKind;
  fp_parts : list Part
}.

Section footprint.
Context {L : Lib} {S : ModelSrv}.

(** The table. *)
Definition footprint (ev : Event) : Footprint :=
  match ev with
  | EvSystem _ _ => mkFootprint [FSystem; FFindingType] [KindSystem] []
  | EvAPI _ _ => mkFootprint [FApi; FFindingType] [KindAPI] []
  | EvComponent _ _ => mkFootprint [FComponent; FFindingType] [KindComponent] []
  | EvSystemInstance _ _ => mkFootprint [FSystemInstance; FFindingType] [KindSystemInstance] []
  | EvWorkload _ _ _ => mkFootprint [FComponentInstance; FFindingType] [KindComponentInstance] []
  | EvAPIResource _ _ _ => mkFootprint [FApiInstance; FFindingType] [KindAPIInstance] []
  | EvBinding _ _ _ => mkFootprint [FBinding] [KindBinding] [PPending]
  | EvRequeued _ _ => mkFootprint [FBinding] [KindBinding] [PPending; PRequeue]
  | EvRole _ _ _ _ => mkFootprint [FRole] [KindRole] [PPending; PRequeue]
  | EvNamespace _ _ => mkFootprint [FContext; FFindingType] [KindContext] [PCluster; PReporter]
  | EvCRDFallback _ => mkFootprint [FFindingType] [] []
  | EvPods _ _ => mkFootprint [FArtifact; FArtifactInstance] [KindArtifact; KindArtifactInstance] []
  | EvRule _ => mkFootprint [] [] [PRules]
  | EvHelmStartup _ => mkFootprint [] [] [PRevisions]
  | EvHelm _ _ => mkFootprint [FSystemInstance; FComponentInstance; FApiInstance] [KindSystemInstance]
                    [POwners; PRevisions]
  end.

Definition part_unchanged (p : Part) (w0 w : World) : Prop :=
  match p with
  | POwners => helmOwner (w_index w) = helmOwner (w_index w0)
  | PPending => pendingBindings (w_index w) = pendingBindings (w_index w0)
  | PRequeue => w_requeue w = w_requeue w0
  | PRules => w_rules w = w_rules w0
  | PRevisions => w_latestRevision w = w_latestRevision w0
  | PCluster => w_clusterContextID w = w_clusterContextID w0
  | PReporter => w_reporter w = w_reporter w0
  end.

#[export] Instance part_unchanged_preorder p : PreOrder (part_unchanged p).
Proof. split; [intros w; by destruct p|intros w1 w2 w3; destruct p; simpl; congruence]. Qed.

(** [w] differs from [w0] within [fp] (and in findings) only. *)
Record within (fp : Footprint) (w0 w : World) : Prop := {
  in_get f i : f ∉ fp_families fp → f ≠ FFinding → get f i (w_model w) = get f i (w_model w0);
  in_names k : k ∉ fp_kinds fp → names_at k (w_index w) = names_at k (w_index w0);
  in_part p : p ∉ fp_parts fp → part_unchanged p w0 w
}.

Lemma within_refl fp w : within fp w w.
Proof. split; [done..|]. intros p _. reflexivity. Qed.
End footprint.

(** The other way round: what [fp] lists is the same in [w] as in [w0]. *)
Section spares.
Context {L : Lib} {S : ModelSrv} (fp : Footprint).

Record spares (w0 w : World) : Prop := {
  sp_get f i : f ∈ fp_families fp → get f i (w_model w) = get f i (w_model w0);
  sp_names k : k ∈ fp_kinds fp → names_at k (w_index w) = names_at k (w_index w0);
  sp_part p : p ∈ fp_parts fp → part_unchanged p w0 w
}.

(** A name of a spared kind. *)
Lemma sp_name w0 w k n :
  spares w0 w → k ∈ fp_kinds fp → NameIndex_Get k n (w_index w) = NameIndex_Get k n (w_index w0).
Proof. intros Hs Hk. by rewrite !Get_names_at, (sp_names _ _ Hs). Qed.

#[export] Instance spares_symmetric : Symmetric spares.
Proof. intros w w' [H1 H2 H3]. split; [intros; symmetry; auto..|]. intros p Hp. specialize (H3 p Hp). by destruct p. Qed.

#[export] Instance spares_preorder : PreOrder spares.
Proof.
  split; [by split; [| |intros p _]|]. intros w1 w2 w3 [H1 H2 H3] [H4 H5 H6]. split.
  - intros f i Hf. by rewrite H4, H1.
  - intros k Hk. by rewrite H5, H2.
  - intros p Hp. by etrans; [apply H3|apply H6].
Qed.

(** [fp] and [fp'] have nothing in common, and [fp] no findings. *)
Definition apart (fp' : Footprint) : bool :=
  bool_decide (Forall (λ f, (f ∉ fp_families fp') ∧ f ≠ FFinding) (fp_families fp)) &&
  bool_decide (Forall (λ k, k ∉ fp_kinds fp') (fp_kinds fp)) &&
  bool_decide (Forall (λ p, p ∉ fp_parts fp') (fp_parts fp)).

Lemma within_spares fp' w w' : apart fp' = true → within fp' w w' → spares w w'.
Proof.
  intros [[H1%bool_decide_eq_true_1 H2%bool_decide_eq_true_1]%andb_true_iff H3%bool_decide_eq_true_1]%andb_true_iff.
  rewrite !list.Forall_forall in *. intros [Hg Hn Hp]. split; [intros f i Hf|auto..].
  destruct (H1 f Hf). auto.
Qed.
End spares.

(** Who spares more spares less. *)
Lemma spares_weaken {L : Lib} {S : ModelSrv} fp fp' w w' :
  fp_families fp' ⊆ fp_families fp → fp_kinds fp' ⊆ fp_kinds fp → fp_parts fp' ⊆ fp_parts fp →
  spares fp w w' → spares fp' w w'.
Proof. intros F K P [H1 H2 H3]. split; auto. Qed.

(** ** The operations of [State] *)
Section operations.
Context {L : Lib} {S : ModelSrv} {HL : ModelSrvLaws S} (fp : Footprint).

Abbreviation stays := (λ p, ∀ w0, ops_preserve (within fp w0) p).

Lemma within_add e :
  family_of e = FFinding ∨ family_of e ∈ fp_families fp → stays (Model_Add e).
Proof.
  intros Hf w0. apply ops_preserve_atomic. intros w [H1 H2 H3]. split; [|done|by intros []; apply H3].
  intros f i Hn Hnf. rewrite <- (H1 f i Hn Hnf). simpl. destruct (add e (w_model w)) as [m r] eqn:E. simpl.
  eapply add_frame; [done|by left|]. intros [= -> ->]. by destruct Hf.
Qed.

Lemma within_del f i : f = FFinding ∨ f ∈ fp_families fp → stays (Model_Delete f i).
Proof.
  intros Hf w0. apply ops_preserve_atomic. intros w [H1 H2 H3]. split; [|done|by intros []; apply H3].
  intros f' i' Hn Hnf. rewrite <- (H1 f' i' Hn Hnf). simpl. destruct (del f i (w_model w)) as [m r] eqn:E.
  simpl. eapply del_frame; [done|by left|]. intros [= -> ->]. by destruct Hf.
Qed.

(** A change of the name table at kind [k]. *)
Lemma within_names {B} (op : World → B * World) iop k :
  (∀ w, (op w).2 = set_index (iop (w_index w)) w) →
  (∀ idx, helmOwner (iop idx) = helmOwner idx ∧ pendingBindings (iop idx) = pendingBindings idx ∧
     ∀ k', k' ≠ k → names_at k' (iop idx) = names_at k' idx) →
  k ∈ fp_kinds fp → stays (atomic op).
Proof.
  intros Hop Hi Hk w0. apply ops_preserve_atomic. intros w [H1 H2 H3]. rewrite Hop.
  destruct (Hi (w_index w)) as (E1 & E2 & E3). split; [done|..]; simpl.
  - intros k' Hk'. rewrite E3; [by apply H2|congruence].
  - intros p Hp. specialize (H3 p Hp). destruct p; simpl in *; congruence.
Qed.

Lemma within_Put k n id : k ∈ fp_kinds fp → stays (Index_Put k n id).
Proof.
  refine (within_names _ (NameIndex_Put k n id) k _ _); [done|]. intros idx. split_and!; [done..|].
  intros k' Hk. by rewrite names_at_Put, decide_False by congruence.
Qed.
Lemma within_Delete k n : k ∈ fp_kinds fp → stays (Index_Delete k n).
Proof.
  refine (within_names _ (λ idx, (NameIndex_Delete k n idx).2) k _ _); [done|]. intros idx.
  split_and!; [unfold NameIndex_Delete; by repeat case_match..|].
  intros k' Hk. by rewrite names_at_Delete, decide_False by congruence.
Qed.

Lemma within_owners (g : NameIndex → NameIndex) :
  (∀ idx, names (g idx) = names idx ∧ pendingBindings (g idx) = pendingBindings idx) →
  POwners ∈ fp_parts fp → stays (writing (λ w, set_index (g (w_index w)) w)).
Proof.
  intros Hg Hp w0. apply ops_preserve_writing. intros w [H1 H2 H3].
  destruct (Hg (w_index w)) as [E1 E2]. split; [done|..]; simpl.
  - intros k Hk. rewrite <- H2 by done. unfold names_at. by rewrite E1.
  - intros p Hn. specialize (H3 p Hn). destruct p; simpl in *; congruence.
Qed.
Lemma within_SetHelmOwner k n si : POwners ∈ fp_parts fp → stays (Index_SetHelmOwner k n si).
Proof. by refine (within_owners (NameIndex_SetHelmOwner k n si) _). Qed.
Lemma within_DeleteHelmOwners si : POwners ∈ fp_parts fp → stays (Index_DeleteHelmOwnersBySystemInstance si).
Proof. by refine (within_owners (NameIndex_DeleteHelmOwnersBySystemInstance si) _). Qed.

Lemma within_pending {B} (op : World → B * World) iop :
  (∀ w, (op w).2 = set_index (iop (w_index w)) w) →
  (∀ idx, names (iop idx) = names idx ∧ helmOwner (iop idx) = helmOwner idx) →
  PPending ∈ fp_parts fp → stays (atomic op).
Proof.
  intros Hop Hi Hp w0. apply ops_preserve_atomic. intros w [H1 H2 H3]. rewrite Hop.
  destruct (Hi (w_index w)) as [E1 E2]. split; [done|..]; simpl.
  - intros k Hk. rewrite <- H2 by done. unfold names_at. by rewrite E1.
  - intros p Hn. specialize (H3 p Hn). destruct p; simpl in *; congruence.
Qed.
Lemma within_AddPending rk b : PPending ∈ fp_parts fp → stays (Index_AddPendingBinding rk b).
Proof. by refine (within_pending _ (NameIndex_AddPendingBinding rk b) _ _). Qed.
Lemma within_RemovePending rk b : PPending ∈ fp_parts fp → stays (Index_RemovePendingBinding rk b).
Proof. by refine (within_pending _ (NameIndex_RemovePendingBinding rk b) _ _). Qed.
Lemma within_RemovePendingByName b : PPending ∈ fp_parts fp → stays (Index_RemovePendingBindingByName b).
Proof. by refine (within_pending _ (NameIndex_RemovePendingBindingByName b) _ _). Qed.
Lemma within_Resolve c rk : PPending ∈ fp_parts fp → stays (Index_ResolvePendingBindings c rk).
Proof.
  refine (within_pending _ (λ idx, (NameIndex_ResolvePendingBindings c rk idx).2) _ _); [done|].
  intros idx. unfold NameIndex_ResolvePendingBindings. by case_match.
Qed.

(** An operation on one of the other parts. *)
Ltac other_part := intros Hp w0; apply ops_preserve_atomic; intros w [H1 H2 H3];
  split; [by repeat case_match..|]; intros p Hn; specialize (H3 p Hn); destruct p; simpl in *;
  repeat case_match; done.

Lemma within_Enqueue kind name : PRequeue ∈ fp_parts fp → stays (EnqueueBinding kind name).
Proof. other_part. Qed.
Lemma within_Dequeue kind : PRequeue ∈ fp_parts fp → stays (Dequeue kind).
Proof. unfold Dequeue, Dequeue_op. other_part. Qed.
Lemma within_rules ev : PRules ∈ fp_parts fp → stays (writing (λ w, set_rules (FindingRuleWatcher_step ev (w_rules w)) w)).
Proof. other_part. Qed.
Lemma within_Track k rev : PRevisions ∈ fp_parts fp → stays (Track_revision k rev).
Proof. other_part. Qed.
Lemma within_Untrack k rev : PRevisions ∈ fp_parts fp → stays (Untrack_revision k rev).
Proof. other_part. Qed.
Lemma within_populate secrets : PRevisions ∈ fp_parts fp → stays (populateLatestRevisions secrets).
Proof.
  intros Hp w0. unfold populateLatestRevisions. destruct secrets; [done|].
  apply ops_preserve_bind; [revert w0; revert Hp; other_part|done].
Qed.
Lemma within_cluster id : PCluster ∈ fp_parts fp → stays (setClusterContextID id).
Proof. other_part. Qed.
Lemma within_reported b : PReporter ∈ fp_parts fp → stays (set_reportedWithContext b).
Proof. other_part. Qed.
End operations.

#[export] Hint Resolve within_add within_del within_Put within_Delete within_SetHelmOwner
  within_DeleteHelmOwners within_AddPending within_RemovePending within_RemovePendingByName within_Resolve
  within_Enqueue within_Dequeue within_rules within_Track within_Untrack within_populate within_cluster
  within_reported : preserve.

(** Membership in a list that is written out. *)
#[export] Hint Extern 1 (_ ∈ _) => apply (bool_decide_unpack _); vm_compute; exact I : preserve.
#[export] Hint Extern 1 (_ = FFinding ∨ _) => first [left; reflexivity | right; solve [auto with preserve]] : preserve.

(** ** The handlers *)
Section handlers.
Context {L : Lib} {LL : LibLaws} {S : ModelSrv} {C : HelmCodecs} {HL : ModelSrvLaws S}.
Section parts.
Variable fp : Footprint.
Abbreviation stays := (λ p, ∀ w0, ops_preserve (within fp w0) p).

Lemma within_deleteReferenceFinding id kind : stays (deleteReferenceFinding id kind).
Proof. intros w0. unfold deleteReferenceFinding. preserve. Qed.
Lemma within_upsertNotFound id st t tt n : stays (upsertReferencedResourceNotFound id st t tt n).
Proof. intros w0. unfold upsertReferencedResourceNotFound. preserve. Qed.
Lemma within_upsertMissing id st n k : stays (upsertMissingResourceReference id st n k).
Proof. intros w0. unfold upsertMissingResourceReference. preserve. Qed.
#[local] Hint Resolve within_deleteReferenceFinding within_upsertNotFound within_upsertMissing : preserve.

Lemma within_RuleEvaluation key obj :
  FFindingType ∈ fp_families fp → stays (RuleEvaluation_run key obj).
Proof. intros Hft w0. unfold RuleEvaluation_run, EvaluateRule, buildFinding, ensureFindingType. preserve. Qed.
#[local] Hint Resolve within_RuleEvaluation : preserve.

Lemma within_crd {CR} convert f k key robj req (got : GetResult CR) :
  (∀ cr e id, convert cr = Some (e, id) → family_of e = f) →
  f ∈ fp_families fp → FFindingType ∈ fp_families fp → k ∈ fp_kinds fp →
  stays (crd_reconcile convert f k key robj req got).
Proof.
  intros Hc Hf Hft Hk w0. unfold crd_reconcile. preserve. apply within_add. right. by erewrite Hc.
Qed.

Lemma within_instance k skip key req got :
  (∀ x, family_of (ik_entity k x) = ik_family k) →
  ik_family k ∈ fp_families fp → FFindingType ∈ fp_families fp → ik_kind k ∈ fp_kinds fp →
  stays (instance_reconcile k skip key req got).
Proof.
  intros He Hf Hft Hk w0. unfold instance_reconcile, with_helm_owner, reconcileReferenceFindings. preserve.
  apply within_add. right. by rewrite He.
Qed.

Lemma within_Report res s : FFindingType ∈ fp_families fp → stays (Report res s).
Proof. intros Hft w0. unfold Report, ensureCRDMissingFindingType, createCRDMissingFinding. preserve. Qed.
End parts.
#[local] Hint Resolve within_deleteReferenceFinding within_upsertNotFound within_upsertMissing
  within_RuleEvaluation within_Report : preserve.

Lemma within_CRDFallback got w0 :
  ops_preserve (within (footprint (EvCRDFallback got)) w0) (crdMissingFallback_Start got).
Proof. unfold crdMissingFallback_Start, ReportFallback. preserve. Qed.

Lemma within_scan fp c l w0 :
  FArtifact ∈ fp_families fp → FArtifactInstance ∈ fp_families fp →
  KindArtifact ∈ fp_kinds fp → KindArtifactInstance ∈ fp_kinds fp →
  ops_preserve (within fp w0) (scan_all c l).
Proof.
  intros Ha Hi Hka Hki. induction l as [|[key obs] l IH]; [done|]. cbn [scan_all].
  unfold scan_one, ensureArtifact, findExistingArtifact, ensureArtifactInstance, deleteArtifactInstance,
    upsertImageNotRetrieved, deleteImageNotRetrievedFinding. preserve.
Qed.
#[local] Hint Resolve within_scan : preserve.

(** The footprint of every handler. *)
Lemma handle_within wl ev w0 : ops_preserve (within (footprint ev) w0) (handle wl ev).
Proof.
  destruct ev; cbn [handle].
  1-4: apply within_crd; [|auto with preserve..]; intros cr e id E;
    by destruct (as_entity_inv _ _ _ _ E) as [x ->].
  1-2: apply within_instance; auto with preserve.
  1-2: unfold RoleBindingReconciler_Reconcile, bindingFromRBAC, reconcile_binding, drop_binding, note_role,
    reconcileSubjectFinding; preserve.
  - unfold RoleReconciler_Reconcile, reconcileRoleSpecFinding, requeue_pending. preserve.
  - unfold NamespaceReconciler_Reconcile, clear_cluster, reconcileContextParentFinding, ClearContext,
      ReportFallback, ReportWithContext. preserve.
  - pose proof (within_CRDFallback got w0). preserve.
  - unfold ImageScanReconciler_Reconcile, cleanupStale, cleanup_instance, cleanup_artifact,
      deleteImageNotRetrievedFinding. preserve.
  - preserve.
  - preserve.
  - unfold HelmReleaseReconciler_Reconcile, correlateResources, correlate_one, reconcileSystemReferenceFindings,
      reconcileReference. preserve.
Qed.

Lemma handle_guar wl ev : guar (within (footprint ev)) (handle wl ev).
Proof. apply guar_ops; [apply within_refl|apply handle_within]. Qed.

(** A handler whose footprint is apart from [fp] spares it. *)
Lemma handle_spares fp wl ev : apart fp (footprint ev) = true → guar (spares fp) (handle wl ev).
Proof. intros Ha. eapply guar_mono; [|apply handle_guar]. intros w w'. by apply within_spares. Qed.

(** C9. Controllers do not disturb each other: along any interleaving, a
    family of resources that no running handler has in its footprint is
    unchanged, resource by resource; so is a kind of names; and so is every
    other part of the shared state. *)
Theorem handlers_stay_within wl evs w0 c :
  rtc pstep (handle wl <$> evs, w0) c →
  (∀ f i, f ≠ FFinding → (∀ ev, ev ∈ evs → f ∉ fp_families (footprint ev)) →
     get f i (w_model c.2) = get f i (w_model w0)) ∧
  (∀ k n, (∀ ev, ev ∈ evs → k ∉ fp_kinds (footprint ev)) →
     NameIndex_Get k n (w_index c.2) = NameIndex_Get k n (w_index w0)) ∧
  (∀ p, (∀ ev, ev ∈ evs → p ∉ fp_parts (footprint ev)) → part_unchanged p w0 c.2).
Proof.
  intros Hsteps.
  assert (∀ R : relation World, PreOrder R →
    (∀ ev, ev ∈ evs → ∀ w w', within (footprint ev) w w' → R w w') → R w0 c.2) as Hrtc.
  { intros R Hpre HR. apply (rtc_preorder R _ _ Hpre), (guar_interleaving R _ _ Hsteps). apply list.Forall_fmap, list.Forall_forall.
    intros ev Hev. eapply guar_mono; [|apply handle_guar]. eauto. }
  split_and!.
  - intros f i Hf Hn. apply (Hrtc (λ w w', get f i (w_model w') = get f i (w_model w))).
    + split; [done|]. intros w1 w2 w3. congruence.
    + intros ev Hev w w' Hw. apply (in_get _ _ _ Hw); auto.
  - intros k n Hn. rewrite !Get_names_at. f_equal. f_equal.
    apply (Hrtc (λ w w', names_at k (w_index w') = names_at k (w_index w))).
    + split; [done|]. intros w1 w2 w3. congruence.
    + intros ev Hev w w' Hw. apply (in_names _ _ _ Hw); auto.
  - intros p Hn. apply (Hrtc (part_unchanged p)); [apply _|].
    intros ev Hev w w' Hw. apply (in_part _ _ _ Hw); auto.
Qed.
End handlers.
