(* ===== verification/Isolation.v ===== *)
(** * Isolation: what runs concurrently ends as if it ran alone

    A controller reads and writes a part of the shared state ([group_part]); the
    controllers whose parts overlap form a [Group]. [isolated fp p]: [p] depends
    on nothing but [fp], so that among threads that leave [fp] alone it returns
    the result, and ends in the [fp], of a run by itself. The handlers of a group
    are isolated in its part, so one worker per group makes a concurrent sensor
    that is serializable: it ends, up to the findings, in the state in which the
    workers end one after the other. With this, the theorems about a handler that
    runs alone hold of the concurrent sensor, group by group. *)

From S2P Require Import Prelude.
From S2P Require Import Prog.
From S2P Require Import Rely.
From S2P Require Import GoStrings.
From S2P Require Import HelmDecode.
From S2P Require Import K8s.
From S2P Require Import Lib.
From S2P Require Import Entities.
From S2P Require Import ModelSrv.
From S2P Require Import Registry.
From S2P Require Import RuleRepo.
From S2P Require Import CrdCheck.
From S2P Require Import State.
From S2P Require Import Convert.
From S2P Require Import RefFindings.
From S2P Require Import Evaluator.
From S2P Require Import CrdControllers.
From S2P Require Import Whitelist.
From S2P Require Import Rbac.
From S2P Require Import Instances.
From S2P Require Import HelmRelease.
From S2P Require Import CrdReporter.
From S2P Require Import Namespace.
From S2P Require Import Image.
From S2P Require Import ImageScan.
From S2P Require Import System.
From S2P Require Import Footprint.

(** ** Programs that depend on a part of the state *)
Section isolated.
Context {L : Lib} {S : ModelSrv} (fp : Footprint).

Abbreviation same := (spares fp).

Definition isolated {A} (p : action A) : Prop :=
  ∀ w w', same w w' → wp same (λ a w2, a = result p w ∧ same (exec p w) w2) p w'.

Lemma same_rtc w1 w2 w3 : same w1 w2 → rtc same w2 w3 → same w1 w3.
Proof. intros H12 H23. etrans; [exact H12|]. by apply rtc_preorder; [apply _|]. Qed.

Lemma iso_Ret {A} (a : A) : isolated (Ret a).
Proof. intros w w' Hw w2 Hw2. split; [done|]. by eapply same_rtc. Qed.

Lemma iso_bind {A B} (p : action A) (f : A → action B) :
  isolated p → (∀ a, isolated (f a)) → isolated (bind p f).
Proof.
  intros Hp Hf w w' Hw. apply wp_bind. eapply wp_mono; [by apply Hp|].
  intros a w2 [-> Hw2]. rewrite result_bind, exec_bind. by apply Hf.
Qed.

Lemma guar_exec {A} (p : action A) w : guar same p → same w (exec p w).
Proof.
  revert w. induction p as [a|B op k IH]; intros w; [done|]. intros [Hop Hk].
  etrans; [apply Hop|]. apply IH, Hk.
Qed.

(** A program that leaves the part alone, and whose result nothing looks at. *)
Lemma iso_skip {A B} (p : action A) (q : action B) : guar same p → isolated q → isolated (bind p (λ _, q)).
Proof.
  intros Hp Hq w w' Hw. apply wp_bind.
  apply (wp_mono same (λ _, same w)).
  - apply wp_guar; [by intros w1 w2; etrans|done|done].
  - intros a w2 Hw2. rewrite result_bind, exec_bind. apply Hq. etrans; [|exact Hw2].
    symmetry. by apply guar_exec.
Qed.

Lemma iso_silent (p : action unit) : guar same p → isolated p.
Proof.
  intros Hp w w' Hw. apply (wp_mono same (λ _, same w)).
  - apply wp_guar; [by intros w1 w2; etrans|done|done].
  - intros [] w2 Hw2. split; [by destruct (result p w)|]. etrans; [|exact Hw2]. symmetry. by apply guar_exec.
Qed.

Lemma iso_atomic {B} (op : World → B * World) :
  (∀ w w', same w w' → (op w).1 = (op w').1 ∧ same (op w).2 (op w').2) → isolated (atomic op).
Proof.
  intros Hop w w' Hw w1 Hw1 w2 Hw2. destruct (Hop w w1) as [E Hs]; [by eapply same_rtc|].
  split; [done|]. by eapply same_rtc.
Qed.

Lemma iso_reading {B} (f : World → B) : (∀ w w', same w w' → f w = f w') → isolated (reading f).
Proof. intros Hf. apply (iso_atomic (λ w, (f w, w))). intros w w' Hw. simpl. auto. Qed.

Lemma iso_writing (f : World → World) : (∀ w w', same w w' → same (f w) (f w')) → isolated (writing f).
Proof. intros Hf. apply (iso_atomic (λ w, (tt, f w))). intros w w' Hw. simpl. auto. Qed.

(** Alone, in two states that agree. *)
Lemma iso_run {A} (p : action A) w w' :
  isolated p → same w w' → result p w = result p w' ∧ same (exec p w) (exec p w').
Proof. intros Hp Hw. destruct (wp_run _ _ _ _ (Hp w w' Hw)). done. Qed.

Lemma iso_critical {A} (p : action A) : isolated p → isolated (critical p).
Proof. intros Hp. apply (iso_atomic (run p)). intros w w' Hw. by apply iso_run. Qed.

Lemma iso_for_each {X} (l : list X) (body : X → action unit) :
  (∀ x, isolated (body x)) → isolated (for_each l body).
Proof.
  intros Hb. induction l as [|x l IH]; [apply iso_Ret|].
  change (isolated (bind (body x) (λ _, for_each l body))). apply iso_bind; [done|by intros _].
Qed.
End isolated.

(** ** The operations *)
Section operations.
Context {L : Lib} {LL : LibLaws} {S : ModelSrv} {HL : ModelSrvLaws S} {SL : StoreLocal S} (fp : Footprint).
Hypothesis no_findings : FFinding ∉ fp_families fp.

Abbreviation same := (spares fp).

(** Two states that agree stay so when the store, the names or one of the parts
    changes in the same way in both. *)
Lemma same_model m m' w w' :
  same w w' → (∀ f i, f ∈ fp_families fp → get f i m' = get f i m) → same (set_model m w) (set_model m' w').
Proof. intros [H1 H2 H3] Hm. split; [done|done|]. intros p Hp. specialize (H3 p Hp). by destruct p. Qed.

Lemma same_index (g : NameIndex → NameIndex) w w' :
  same w w' →
  (∀ k, k ∈ fp_kinds fp → names_at k (w_index w') = names_at k (w_index w) →
     names_at k (g (w_index w')) = names_at k (g (w_index w))) →
  (helmOwner (w_index w') = helmOwner (w_index w) → helmOwner (g (w_index w')) = helmOwner (g (w_index w))) →
  (pendingBindings (w_index w') = pendingBindings (w_index w) →
     pendingBindings (g (w_index w')) = pendingBindings (g (w_index w))) →
  same (set_index (g (w_index w)) w) (set_index (g (w_index w')) w').
Proof.
  intros [H1 H2 H3] Hn Ho Hp. split; [done| |].
  - intros k Hk. simpl. auto.
  - intros p Hpp. specialize (H3 p Hpp). destruct p; simpl in *; auto.
Qed.

Lemma iso_add e : family_of e ∈ fp_families fp → isolated fp (Model_Add e).
Proof.
  intros Hf. assert (family_of e ≠ FFinding) as He by by intros Hx; rewrite Hx in Hf.
  apply iso_atomic. intros w w' Hw. simpl.
  destruct (add_local e (w_model w) (w_model w') He) as [Hr Hg]; [by apply (sp_get _ _ _ Hw)|].
  split; [done|]. apply same_model; [done|]. intros f i Hfi.
  assert (f ≠ FFinding) as Hnf by by intros ->.
  destruct (decide ((f, i) = (family_of e, id_of e))) as [[= -> ->]|Hne]; [done|].
  - destruct (add e (w_model w)) as [m1 r1] eqn:E1, (add e (w_model w')) as [m2 r2] eqn:E2. simpl.
    rewrite (add_frame _ _ _ _ _ _ E1), (add_frame _ _ _ _ _ _ E2) by (done || by left).
    by apply (sp_get _ _ _ Hw).
Qed.

Lemma iso_del f i : f ∈ fp_families fp → isolated fp (Model_Delete f i).
Proof.
  intros Hf. assert (f ≠ FFinding) as Hnf by by intros ->.
  apply iso_atomic. intros w w' Hw. simpl.
  destruct (del_local f i (w_model w) (w_model w') Hnf) as [Hr Hg]; [by apply (sp_get _ _ _ Hw)|]. split; [done|].
  apply same_model; [done|]. intros f' i' Hfi. assert (f' ≠ FFinding) as Hnf' by by intros ->.
  destruct (decide ((f', i') = (f, i))) as [[= -> ->]|Hne]; [done|].
  destruct (del f i (w_model w)) as [m1 r1] eqn:E1, (del f i (w_model w')) as [m2 r2] eqn:E2. simpl.
  rewrite (del_frame _ _ _ _ _ _ _ E1), (del_frame _ _ _ _ _ _ _ E2) by (done || by left).
  by apply (sp_get _ _ _ Hw).
Qed.

Lemma iso_get f i : f ∈ fp_families fp → isolated fp (Model_Get f i).
Proof. intros Hf. apply iso_reading. intros w w' Hw. symmetry. by apply (sp_get _ _ _ Hw). Qed.

Lemma iso_GetArtifacts c : FArtifact ∈ fp_families fp → isolated fp (Model_GetArtifacts c).
Proof.
  intros Hf. apply iso_reading. intros w w' Hw. symmetry. apply GetArtifacts_local.
  intros i. by apply (sp_get _ _ _ Hw).
Qed.

Lemma iso_Put k n id : isolated fp (Index_Put k n id).
Proof.
  apply iso_writing. intros w w' Hw. apply same_index; [done| |done|done].
  intros k' Hk Hn. rewrite !names_at_Put. case_decide as Hd; [|done]. subst. by rewrite Hn.
Qed.

Lemma iso_Get k n : k ∈ fp_kinds fp → isolated fp (Index_Get k n).
Proof. intros Hk. apply iso_reading. intros w w' Hw. symmetry. by apply (sp_name fp). Qed.

Lemma iso_Delete k n : k ∈ fp_kinds fp → isolated fp (Index_Delete k n).
Proof.
  intros Hk. apply iso_atomic. intros w w' Hw. simpl. rewrite !Delete_fst, (sp_name _ _ _ _ _ Hw Hk).
  split; [done|]. apply (same_index (λ idx, (NameIndex_Delete k n idx).2)); [done|..].
  - intros k' Hk' Hn. rewrite !names_at_Delete. case_decide as Hd; [|done]. subst. by rewrite Hn.
  - unfold NameIndex_Delete. by repeat case_match.
  - unfold NameIndex_Delete. by repeat case_match.
Qed.

Lemma Keys_names_at c k idx : NameIndex_Keys c k idx = fst <$> range_map c (names_at k idx).
Proof.
  unfold NameIndex_Keys, names_at. destruct (names idx !! k) as [m|]; [done|]. simpl.
  pose proof (range_map_perm c (∅ : gmap string uuid)) as Hp. rewrite map_to_list_empty in Hp.
  by apply Permutation_nil_r in Hp as ->.
Qed.

Lemma iso_Keys c k : k ∈ fp_kinds fp → isolated fp (Index_Keys c k).
Proof.
  intros Hk. apply iso_reading. intros w w' Hw. by rewrite !Keys_names_at, (sp_names _ _ _ Hw).
Qed.

(** The other parts: an operation that looks at one part and changes one. *)
Lemma iso_GetHelmOwner k n : POwners ∈ fp_parts fp → isolated fp (Index_GetHelmOwner k n).
Proof.
  intros Hp. apply iso_reading. intros w w' Hw. pose proof (sp_part _ _ _ Hw POwners Hp) as E. simpl in E.
  unfold NameIndex_GetHelmOwner. by rewrite E.
Qed.

Lemma iso_SetHelmOwner k n si : isolated fp (Index_SetHelmOwner k n si).
Proof.
  apply iso_writing. intros w w' Hw. apply same_index; [done|done| |done]. intros E. simpl. by rewrite E.
Qed.

Lemma iso_DeleteHelmOwners si : isolated fp (Index_DeleteHelmOwnersBySystemInstance si).
Proof.
  apply iso_writing. intros w w' Hw. apply same_index; [done|done| |done]. intros E. simpl. by rewrite E.
Qed.

Lemma iso_AddPending rk b : isolated fp (Index_AddPendingBinding rk b).
Proof. apply iso_writing. intros w w' Hw. apply same_index; [done|done|done|]. intros E. simpl. by rewrite E. Qed.
Lemma iso_RemovePending rk b : isolated fp (Index_RemovePendingBinding rk b).
Proof. apply iso_writing. intros w w' Hw. apply same_index; [done|done|done|]. intros E. simpl. by rewrite E. Qed.
Lemma iso_RemovePendingByName b : isolated fp (Index_RemovePendingBindingByName b).
Proof. apply iso_writing. intros w w' Hw. apply same_index; [done|done|done|]. intros E. simpl. by rewrite E. Qed.

Lemma iso_Resolve c rk : PPending ∈ fp_parts fp → isolated fp (Index_ResolvePendingBindings c rk).
Proof.
  intros Hp. apply iso_atomic. intros w w' Hw. pose proof (sp_part _ _ _ Hw PPending Hp) as E. simpl in E |- *.
  split; [unfold NameIndex_ResolvePendingBindings; rewrite E; by case_match|].
  apply (same_index (λ idx, (NameIndex_ResolvePendingBindings c rk idx).2)); [done|..];
    unfold NameIndex_ResolvePendingBindings; rewrite E; case_match; simpl; try done.
  intros _. by rewrite E.
Qed.

(** A step of one of the parts outside store and index. *)
Ltac iso_part := let Hp := fresh in intros Hp; apply iso_atomic; intros w w' Hw;
  pose proof (sp_part _ _ _ Hw _ Hp) as E; simpl in E.
Ltac other_parts Hw E := destruct Hw as [H1 H2 H3]; split; [done|done|];
  let p := fresh "p" in let Hp := fresh in intros p Hp; specialize (H3 p Hp);
  destruct p; simpl in *; rewrite ?E; congruence.

Lemma iso_Enqueue kind name : PRequeue ∈ fp_parts fp → isolated fp (EnqueueBinding kind name).
Proof.
  iso_part. split; [done|]. unfold queued. rewrite E. simpl. case_bool_decide; [|done]. other_parts Hw E.
Qed.
Lemma iso_Dequeue kind : PRequeue ∈ fp_parts fp → isolated fp (Dequeue kind).
Proof.
  iso_part. unfold Dequeue_op, queued. rewrite E. case_match; [done|]. split; [done|]. simpl. other_parts Hw E.
Qed.
Lemma iso_Track k rev : PRevisions ∈ fp_parts fp → isolated fp (Track_revision k rev).
Proof. iso_part. simpl. rewrite E. split; [done|]. other_parts Hw E. Qed.
Lemma iso_Untrack k rev : PRevisions ∈ fp_parts fp → isolated fp (Untrack_revision k rev).
Proof. iso_part. simpl. rewrite E. split; [done|]. other_parts Hw E. Qed.
Lemma iso_populate secrets : PRevisions ∈ fp_parts fp → isolated fp (populateLatestRevisions secrets).
Proof.
  intros Hp. destruct secrets as [err|secrets]; [apply iso_Ret|]. apply iso_bind; [|intros; apply iso_Ret].
  revert Hp. iso_part. simpl. rewrite E. split; [done|]. other_parts Hw E.
Qed.
Lemma iso_rules ev : PRules ∈ fp_parts fp → isolated fp (writing (λ w, set_rules (FindingRuleWatcher_step ev (w_rules w)) w)).
Proof. iso_part. split; [done|]. simpl. rewrite E. other_parts Hw E. Qed.
Lemma iso_getCluster : PCluster ∈ fp_parts fp → isolated fp getClusterContextID.
Proof. iso_part. split; [done|]. simpl. other_parts Hw E. Qed.
Lemma iso_setCluster id : isolated fp (setClusterContextID id).
Proof. apply iso_writing. intros w w' Hw. other_parts Hw Hw. Qed.
Lemma iso_reporter : PReporter ∈ fp_parts fp → isolated fp (reading w_reporter).
Proof. iso_part. split; [done|]. simpl. done. Qed.
Lemma iso_reported b : PReporter ∈ fp_parts fp → isolated fp (set_reportedWithContext b).
Proof. iso_part. split; [done|]. simpl. rewrite E. other_parts Hw E. Qed.
End operations.

Create HintDb isolated.
#[export] Hint Resolve iso_Ret iso_add iso_del iso_get iso_GetArtifacts iso_Put iso_Get iso_Delete iso_Keys
  iso_GetHelmOwner iso_SetHelmOwner iso_DeleteHelmOwners iso_AddPending iso_RemovePending
  iso_RemovePendingByName iso_Resolve iso_Enqueue iso_Dequeue iso_Track iso_Untrack iso_populate iso_rules
  iso_getCluster iso_setCluster iso_reporter iso_reported : isolated.
#[export] Hint Extern 1 (_ ∈ _) => apply (bool_decide_unpack _); vm_compute; exact I : isolated.
#[export] Hint Extern 1 (_ ∉ _) => apply (bool_decide_unpack _); vm_compute; exact I : isolated.

(** ** What only raises and clears findings *)
Section silent.
Context {L : Lib} {LL : LibLaws} {S : ModelSrv} {HL : ModelSrvLaws S} {SL : StoreLocal S} (fp : Footprint).
Hypothesis no_findings : FFinding ∉ fp_families fp.
Hypothesis no_types : FFindingType ∉ fp_families fp.

(** Where the findings are: outside every part. *)
Definition finding_part : Footprint := mkFootprint [FFindingType] [] [].

Lemma outside_spares w w' : within finding_part w w' → spares fp w w'.
Proof.
  intros [H1 H2 H3]. split; [|intros; apply H2; set_solver|intros; apply H3; set_solver].
  intros f i Hf. apply H1; [|by intros ->]. simpl. intros ->%list_elem_of_singleton. done.
Qed.

Lemma silent_ops {A} (p : action A) : (∀ w0, ops_preserve (within finding_part w0) p) → guar (spares fp) p.
Proof.
  intros Hp. apply (guar_mono (within finding_part)); [apply outside_spares|].
  apply guar_ops; [apply within_refl|done].
Qed.

Lemma silent_del_finding i : guar (spares fp) (Model_Delete FFinding i).
Proof. apply silent_ops. intros w0. apply within_del. by left. Qed.
Lemma silent_add_finding f : guar (spares fp) (Model_Add (EFinding f)).
Proof. apply silent_ops. intros w0. apply within_add. by left. Qed.

Lemma iso_deleteReferenceFinding id kind : isolated fp (deleteReferenceFinding id kind).
Proof. apply iso_silent, silent_ops, within_deleteReferenceFinding. Qed.
Lemma iso_RuleEvaluation key obj : isolated fp (RuleEvaluation_run key obj).
Proof. apply iso_silent, silent_ops, within_RuleEvaluation. set_solver. Qed.
Lemma iso_Report res s : isolated fp (Report res s).
Proof. apply iso_silent, silent_ops, within_Report. set_solver. Qed.

#[local] Hint Resolve within_deleteReferenceFinding within_upsertNotFound within_upsertMissing : preserve.

(** Findings about references: the other resource is only looked up. *)
Lemma iso_reconcileReference id st name key refID tf tt' : isolated fp (reconcileReference id st name key refID tf tt').
Proof. apply iso_silent, silent_ops. intros w0. unfold reconcileReference. preserve. Qed.
Lemma iso_reconcileReferenceFindings k id obj : isolated fp (reconcileReferenceFindings k id obj).
Proof. apply iso_silent, silent_ops. intros w0. unfold reconcileReferenceFindings. preserve. Qed.
Lemma iso_reconcileContextParentFinding id ns : isolated fp (reconcileContextParentFinding id ns).
Proof. apply iso_silent, silent_ops. intros w0. unfold reconcileContextParentFinding. preserve. Qed.
Lemma iso_reconcileRoleSpecFinding wl kind id obj : isolated fp (reconcileRoleSpecFinding wl kind id obj).
Proof. apply iso_silent, silent_ops. intros w0. unfold reconcileRoleSpecFinding. preserve. Qed.
Lemma iso_reconcileSubjectFinding wl kind id obj : isolated fp (reconcileSubjectFinding wl kind id obj).
Proof. apply iso_silent, silent_ops. intros w0. unfold reconcileSubjectFinding. preserve. Qed.
Lemma iso_upsertImageNotRetrieved id obs : isolated fp (upsertImageNotRetrieved id obs).
Proof. apply iso_silent, silent_ops. intros w0. unfold upsertImageNotRetrieved. preserve. Qed.
Lemma iso_ReportFallback : isolated fp ReportFallback.
Proof. apply iso_silent, silent_ops. intros w0. unfold ReportFallback. pose proof within_Report. preserve. Qed.
End silent.

#[export] Hint Resolve silent_del_finding silent_add_finding iso_deleteReferenceFinding iso_RuleEvaluation iso_Report
  iso_reconcileReference iso_reconcileReferenceFindings iso_reconcileContextParentFinding
  iso_reconcileRoleSpecFinding iso_reconcileSubjectFinding iso_upsertImageNotRetrieved iso_ReportFallback : isolated.

(** Go through a handler: operations by the hints, discarded results of calls
    about findings skipped, the rest by structure. *)
Ltac isolate :=
  repeat first
    [ match goal with |- ∀ _, _ => intro end
    | progress cbv zeta
    | solve [eauto with isolated]
    | match goal with
      | |- isolated _ (bind _ _) => apply iso_bind; [solve [eauto with isolated]|]
      | |- isolated _ (bind _ _) => apply iso_skip; [solve [eauto with isolated]|]
      | |- isolated _ (bind _ _) => apply iso_bind
      | |- isolated _ (for_each _ _) => apply iso_for_each
      | |- isolated _ (critical _) => apply iso_critical
      | |- isolated _ (match ?x with _ => _ end) => destruct x eqn:?
      end ].

(** ** Groups of controllers *)
Inductive Group :=
| GSystems | GAPIs | GComponents | GInstances | GRBAC | GNamespaces | GImages | GRules
| GStartup.   (* what only the startup writes: no controller belongs here *)

#[export] Instance Group_eq_dec : EqDecision Group.
Proof. solve_decision. Defined.

Definition groups : list Group :=
  [GSystems; GAPIs; GComponents; GInstances; GRBAC; GNamespaces; GImages; GRules; GStartup].

(** What a group reads and writes, findings and finding types apart. *)
Definition group_part (g : Group) : Footprint :=
  match g with
  | GSystems => mkFootprint [FSystem] [KindSystem] []
  | GAPIs => mkFootprint [FApi] [KindAPI] []
  | GComponents => mkFootprint [FComponent] [KindComponent] []
  | GInstances => mkFootprint [FSystemInstance; FComponentInstance; FApiInstance]
      [KindSystemInstance; KindComponentInstance; KindAPIInstance] [POwners; PRevisions]
  | GRBAC => mkFootprint [FRole; FBinding] [KindRole; KindBinding] [PPending; PRequeue]
  | GNamespaces => mkFootprint [FContext] [KindContext] [PCluster; PReporter]
  | GImages => mkFootprint [FArtifact; FArtifactInstance] [KindArtifact; KindArtifactInstance] []
  | GRules => mkFootprint [] [] [PRules]
  | GStartup => mkFootprint [FNode; FNodeType; FContextType] [] []
  end.

Section groups.
Context {L : Lib} {LL : LibLaws} {S : ModelSrv} {C : HelmCodecs} {HL : ModelSrvLaws S} {SL : StoreLocal S}.

(** The group of an event; the fallback of the CRD reporter writes findings only. *)
Definition group_of (ev : Event) : option Group :=
  match ev with
  | EvSystem _ _ => Some GSystems
  | EvAPI _ _ => Some GAPIs
  | EvComponent _ _ => Some GComponents
  | EvSystemInstance _ _ | EvWorkload _ _ _ | EvAPIResource _ _ _ | EvHelmStartup _ | EvHelm _ _ => Some GInstances
  | EvBinding _ _ _ | EvRequeued _ _ | EvRole _ _ _ _ => Some GRBAC
  | EvNamespace _ _ => Some GNamespaces
  | EvPods _ _ => Some GImages
  | EvRule _ => Some GRules
  | EvCRDFallback _ => None
  end.

Lemma iso_crd fp {CR} convert f k key robj req (got : GetResult CR) :
  FFinding ∉ fp_families fp → FFindingType ∉ fp_families fp →
  (∀ cr e id, convert cr = Some (e, id) → family_of e = f) → f ∈ fp_families fp → k ∈ fp_kinds fp →
  isolated fp (crd_reconcile convert f k key robj req got).
Proof.
  intros Hnf Hnt Hc Hf Hk. unfold crd_reconcile. isolate.
  apply iso_add; [done|]. by erewrite Hc by done.
Qed.

Lemma iso_instance fp k skip key req got :
  FFinding ∉ fp_families fp → FFindingType ∉ fp_families fp →
  (∀ x, family_of (ik_entity k x) = ik_family k) → ik_family k ∈ fp_families fp → ik_kind k ∈ fp_kinds fp →
  POwners ∈ fp_parts fp → isolated fp (instance_reconcile k skip key req got).
Proof.
  intros Hnf Hnt He Hf Hk Hp. unfold instance_reconcile, with_helm_owner. isolate.
  apply iso_add; [done|]. by rewrite He.
Qed.

Lemma iso_scan_all c l : isolated (group_part GImages) (scan_all c l).
Proof.
  induction l as [|[key obs] l IH]; [apply iso_Ret|]. cbn [scan_all].
  unfold scan_one, ensureArtifact, findExistingArtifact, ensureArtifactInstance, deleteArtifactInstance,
    deleteImageNotRetrievedFinding. isolate.
Qed.

(** A manifest names workloads and API resources only. *)
Lemma iso_correlate_one ns si res : isolated (group_part GInstances) (correlate_one ns si res).
Proof.
  unfold correlate_one, helmKindToResourceKind. case_bool_decide; [isolate|]. case_bool_decide; isolate.
Qed.
#[local] Hint Resolve iso_scan_all iso_correlate_one : isolated.

Lemma handle_isolated wl ev g : group_of ev = Some g → isolated (group_part g) (handle wl ev).
Proof.
  destruct ev; simpl; intros [= <-].
  1-4: apply iso_crd; [auto with isolated|auto with isolated| |auto with isolated..];
    intros cr e id E; by destruct (as_entity_inv _ _ _ _ E) as [x ->].
  1-2: apply iso_instance; auto with isolated.
  1-2: unfold RoleBindingReconciler_Reconcile, bindingFromRBAC, reconcile_binding, drop_binding, note_role; isolate.
  - unfold RoleReconciler_Reconcile, requeue_pending. isolate.
  - unfold NamespaceReconciler_Reconcile, clear_cluster, ReportWithContext, ClearContext. isolate.
  - unfold ImageScanReconciler_Reconcile, cleanupStale, cleanup_instance, cleanup_artifact,
      deleteImageNotRetrievedFinding. isolate.
  - isolate.
  - isolate.
  - unfold HelmReleaseReconciler_Reconcile, correlateResources, reconcileSystemReferenceFindings. isolate.
Qed.

(** The handlers of the other groups leave a group's part alone. *)
Lemma handle_foreign wl ev g : group_of ev ≠ Some g → guar (spares (group_part g)) (handle wl ev).
Proof. intros Hg. apply handle_spares. destruct ev, g; done. Qed.

(** *** Workers *)

(** A worker handles its events one after the other. *)
Fixpoint worker (wl : RBACWhitelist) (evs : list Event) : action (list Outcome) :=
  match evs with
  | [] => Ret []
  | ev :: evs => out <- handle wl ev ;; outs <- worker wl evs ;; Ret (out :: outs)
  end.

Lemma worker_isolated wl evs g : Forall (λ ev, group_of ev = Some g) evs → isolated (group_part g) (worker wl evs).
Proof.
  induction 1 as [|ev evs Hev _ IH]; [apply iso_Ret|]. cbn [worker].
  apply iso_bind; [by apply handle_isolated|]. intros out. apply iso_bind; [done|]. intros outs. apply iso_Ret.
Qed.

Lemma worker_foreign wl evs g : Forall (λ ev, group_of ev ≠ Some g) evs → guar (spares (group_part g)) (worker wl evs).
Proof.
  induction 1 as [|ev evs Hev _ IH]; [done|]. cbn [worker].
  apply guar_bind; [by apply handle_foreign|]. intros out. by apply guar_bind.
Qed.

(** The workers one after the other, in the given order. *)
Definition serial (wl : RBACWhitelist) (evs : Group → list Event) (order : list Group) (w : World) : World :=
  foldl (λ w g, exec (worker wl (evs g)) w) w order.

Section theorem.
Context (wl : RBACWhitelist) (evs : Group → list Event).
Hypothesis sorted : ∀ g, Forall (λ ev, group_of ev = Some g) (evs g).

Lemma worker_elsewhere g g' : g ≠ g' → guar (spares (group_part g)) (worker wl (evs g')).
Proof.
  intros Hne. apply worker_foreign. eapply list.Forall_impl; [apply (sorted g')|]. intros ev ->. congruence.
Qed.

Lemma serial_elsewhere g order w : g ∉ order → spares (group_part g) w (serial wl evs order w).
Proof.
  revert w. induction order as [|g' order IH]; intros w Hg; [done|]. simpl.
  apply not_elem_of_cons in Hg as [Hne Hg]. etrans; [by apply guar_exec, worker_elsewhere|by apply IH].
Qed.

(** In a serial run a group ends where its worker ends alone. *)
Lemma serial_alone g order w :
  NoDup order → g ∈ order → spares (group_part g) (exec (worker wl (evs g)) w) (serial wl evs order w).
Proof.
  revert w. induction order as [|g' order IH]; intros w Hnd Hg; [by apply not_elem_of_nil in Hg|].
  apply list.NoDup_cons in Hnd as [Hn Hnd]. simpl. destruct (decide (g = g')) as [<-|Hne].
  - by apply serial_elsewhere.
  - apply elem_of_cons in Hg as [|Hg]; [done|]. etrans; [|by apply IH].
    apply (iso_run (group_part g) (worker wl (evs g))); [by apply worker_isolated|].
    by apply guar_exec, worker_elsewhere.
Qed.

(** Every family but those of the findings, every kind and every part is in
    the part of some group. *)
Lemma family_grouped f : f ≠ FFinding → f ≠ FFindingType → ∃ g, g ∈ groups ∧ f ∈ fp_families (group_part g).
Proof.
  intros H1 H2.
  assert (Exists (λ g, f ∈ fp_families (group_part g)) groups) as Hex.
  { destruct f; try done; apply (bool_decide_unpack _); vm_compute; exact I. }
  apply list.Exists_exists in Hex. done.
Qed.
Lemma kind_grouped k : ∃ g, g ∈ groups ∧ k ∈ fp_kinds (group_part g).
Proof.
  assert (Exists (λ g, k ∈ fp_kinds (group_part g)) groups) as Hex.
  { destruct k; apply (bool_decide_unpack _); vm_compute; exact I. }
  apply list.Exists_exists in Hex. done.
Qed.
Lemma part_grouped p : ∃ g, g ∈ groups ∧ p ∈ fp_parts (group_part g).
Proof.
  assert (Exists (λ g, p ∈ fp_parts (group_part g)) groups) as Hex.
  { destruct p; apply (bool_decide_unpack _); vm_compute; exact I. }
  apply list.Exists_exists in Hex. done.
Qed.

(** The pool: a worker per group, and any number of fallback threads. *)
Definition pool (fallbacks : list (GetResult Object)) : list (action (list Outcome)) :=
  ((λ g, worker wl (evs g)) <$> groups) ++ ((λ got, worker wl [EvCRDFallback got]) <$> fallbacks).

Lemma worker_ends fallbacks i g w0 :
  groups !! i = Some g →
  thread_ends i (λ outs w, outs = result (worker wl (evs g)) w0 ∧ spares (group_part g) (exec (worker wl (evs g)) w0) w)
    (pool fallbacks, w0).
Proof.
  intros Hi. apply (wp_thread_ends (spares (group_part g)) _ i (worker wl (evs g))).
  - unfold pool. rewrite lookup_app_l by (rewrite length_fmap; by eapply lookup_lt_Some).
    by rewrite list_lookup_fmap, Hi.
  - by apply (worker_isolated wl (evs g) g).
  - intros j t Hj [Ht|[_ Ht]]%lookup_app_Some.
    + apply list_lookup_fmap_Some in Ht as (g' & -> & Hg'). apply worker_elsewhere. intros <-.
      assert (NoDup groups) as Hnd by (apply (bool_decide_unpack _); vm_compute; exact I).
      by apply Hj, (NoDup_lookup _ _ _ _ Hnd Hg' Hi).
    + apply list_lookup_fmap_Some in Ht as (got & -> & _). apply worker_foreign. by repeat constructor.
Qed.

(** C4. The concurrent sensor is serializable: let every group of controllers
    that share state have one worker. Then, in every run, however the atomic
    operations of the workers interleave, every worker ends, with the outcomes
    it has when it runs alone, and the state they end in is the one in which
    they end one after the other, in any order (no run is infinite): the same resources of every
    family (findings and finding types apart), the same names, and the same
    owners, waiting bindings, queues, rules, revisions, cluster and reporter.
    The store is local ([StoreLocal]): it may refuse a resource, but for reasons
    that lie in that resource. The orders in which Go visits maps are part of
    the events, a choice for each range: the serial run that a concurrent run is
    compared with handles the same events with the same choices. *)
Theorem workers_serializable fallbacks order w0 :
  order ≡ₚ groups →
  sn pstep (pool fallbacks, w0) ∧
  ∀ c, rtc pstep (pool fallbacks, w0) c → nf pstep c →
  (∀ i g, groups !! i = Some g → c.1 !! i = Some (Ret (result (worker wl (evs g)) w0))) ∧
  (∀ f i, f ≠ FFinding → f ≠ FFindingType →
     get f i (w_model c.2) = get f i (w_model (serial wl evs order w0))) ∧
  (∀ k n, NameIndex_Get k n (w_index c.2) = NameIndex_Get k n (w_index (serial wl evs order w0))) ∧
  (∀ p, part_unchanged p (serial wl evs order w0) c.2).
Proof.
  intros Horder. split; [apply pstep_sn|]. intros c Hsteps Hnf.
  assert (∀ i g, groups !! i = Some g →
    c.1 !! i = Some (Ret (result (worker wl (evs g)) w0)) ∧ spares (group_part g) (exec (worker wl (evs g)) w0) c.2)
    as Hends.
  { intros i g Hi. destruct (worker_ends fallbacks i g w0 Hi) as [_ Hc]. destruct (Hc c Hsteps) as [Hret HQ].
    destruct (Hret Hnf) as [outs Ho]. destruct (HQ outs Ho) as [-> Hs]. done. }
  assert (∀ g, g ∈ groups → spares (group_part g) (serial wl evs order w0) c.2) as Hg.
  { intros g Hin. assert (NoDup order) as Hnd.
    { rewrite Horder. apply (bool_decide_unpack _); vm_compute; exact I. }
    apply list_elem_of_lookup in Hin as [i Hi]. destruct (Hends i g Hi) as [_ Hs].
    etrans; [|exact Hs]. symmetry. apply serial_alone; [done|]. rewrite Horder. by eapply list_elem_of_lookup_2. }
  split_and!.
  - intros i g Hi. by apply Hends.
  - intros f i H1 H2. destruct (family_grouped f H1 H2) as (g & Hin & Hf). by apply (sp_get _ _ _ (Hg g Hin)).
  - intros k n. destruct (kind_grouped k) as (g & Hin & Hk). by apply (sp_name _ _ _ _ _ (Hg g Hin)).
  - intros p. destruct (part_grouped p) as (g & Hin & Hp). by apply (sp_part _ _ _ (Hg g Hin)).
Qed.
End theorem.

(** *** What is proved of a handler alone holds of it among others *)
Lemma handler_ends_alone wl ev g others w0 :
  group_of ev = Some g → Forall (λ ev, group_of ev ≠ Some g) others →
  thread_ends 0 (λ out w, out = result (handle wl ev) w0 ∧ spares (group_part g) (exec (handle wl ev) w0) w)
    (handle wl ev :: (handle wl <$> others), w0).
Proof.
  intros Hg Ho. apply (wp_thread_ends (spares (group_part g)) _ 0 (handle wl ev)); [done|by apply handle_isolated|].
  intros [|j] t Hj; [done|]. simpl. rewrite list_lookup_fmap_Some. intros (ev' & -> & Hev').
  apply handle_foreign. by eapply (Forall_lookup_1 _ _ _ _ Ho).
Qed.

(** A worker among handlers of other groups: what it establishes alone and its
    group alone decides holds at the end of every run. *)
Lemma worker_among_others wl evs g others (Q : World → Prop) w0 :
  Forall (λ ev, group_of ev = Some g) evs → Forall (λ ev, group_of ev ≠ Some g) others →
  (∀ w, spares (group_part g) (exec (worker wl evs) w0) w → Q w) →
  thread_ends 0 (λ _, Q) (worker wl evs :: ((λ ev, worker wl [ev]) <$> others), w0).
Proof.
  intros Hg Ho HQ. apply (wp_thread_ends (spares (group_part g)) _ 0 (worker wl evs)); [done| |].
  - eapply wp_mono; [by apply (worker_isolated wl evs g Hg w0)|]. intros outs w [_ Hs]. by apply HQ.
  - intros [|j] t Hj; [done|]. intros (ev & -> & Hev)%(list_lookup_fmap_Some (λ ev, worker wl [ev]) others j).
    apply worker_foreign. repeat constructor. by apply (Forall_lookup_1 _ _ _ _ Ho Hev).
Qed.

Lemma inst_spared w w' k : spares (group_part GImages) w w' → inst w' k = inst w k.
Proof.
  intros Hs. unfold inst. f_equal.
  - pose proof (sp_names _ _ _ Hs KindArtifactInstance ltac:(set_solver)) as Hn. unfold names_at in Hn.
    unfold at2. destruct (names (w_index w') !! _), (names (w_index w) !! _); simpl in *; subst; done.
  - apply (sp_get _ _ _ Hs). set_solver.
Qed.

(** C11. While all other controllers run, in any interleaving with it, a scan of
    the Pods leaves the ArtifactInstances as the mirror of the images of the
    cluster, in whatever orders Go visits its maps: the instance of every started image is stored and indexed, with
    the locations of the image; that of an image that has not started is neither
    stored nor indexed, nor is that of an image that was indexed before and is
    gone; and all other instances are as they were before the scan. This holds
    of any finite set [K] of images that has the observed and the indexed ones
    among them and whose instances have distinct ids; the store accepts Artifacts
    and their instances, deletes instances it has, and is local ([StoreLocal]). *)
Theorem scan_mirrors_among_others wl c pods others K w0 :
  scan_env K → dom (collectImageObservations pods) ⊆ K → inst_indexed K w0 →
  Forall (λ ev, group_of ev ≠ Some GImages) others →
  thread_ends 0 (λ out w, out = done_ok ∧ inst_indexed K w ∧
      ∀ k, k ∈ K → inst_wanted (collectImageObservations pods !! k) k (inst w0 k) (inst w k))
    (handle wl (EvPods c (inr pods)) :: (handle wl <$> others), w0).
Proof.
  intros Henv HK Hw Ho. destruct (ImageScanReconciler_mirrors K Henv c pods w0 HK Hw) as (Hr & Hi & Hm).
  destruct (handler_ends_alone wl (EvPods c (inr pods)) GImages others w0 eq_refl Ho) as [Hsn Hc].
  split; [done|]. intros c' Hsteps. destruct (Hc c' Hsteps) as [Hret HQ]. split; [done|].
  intros out Hout. destruct (HQ out Hout) as [-> Hs]. split; [done|]. split.
  - intros k. pose proof (Hi k) as Hk. pose proof (inst_spared _ _ k Hs) as E. unfold inst in E.
    injection E as E _. simpl in E. by rewrite E.
  - intros k Hk. rewrite (inst_spared _ _ k Hs). by apply Hm.
Qed.
End groups.
