(* ===== verification/Bindings.v ===== *)
(** * Bindings: no binding is forgotten

    What the controllers of roles and bindings owe a binding when they take
    turns ([binding_role_race] shows what may happen when they do not): along
    any sequence of their events a binding with a subject is stored with its
    role, or waits for it, or is in a requeue channel. *)

From S2P Require Import Prelude.
From S2P Require Import Prog.
From S2P Require Import Rely.
From S2P Require Import GoStrings.
From S2P Require Import HelmDecode.
From S2P Require Import K8s.
From S2P Require Import Lib.
From S2P Require Import Entities.
From S2P Require Import ModelSrv.
From S2P Require Import Registry.
From S2P Require Import State.
From S2P Require Import Convert.
From S2P Require Import RefFindings.
From S2P Require Import CrdControllers.
From S2P Require Import Whitelist.
From S2P Require Import Rbac.
From S2P Require Import System.
From S2P Require Import Footprint.
From S2P Require Import Isolation.

(** ** What the reconcile of one binding leaves alone *)
Section frame.
Context {L : Lib} {LL : LibLaws} {S : ModelSrv} {HL : ModelSrvLaws S}.
(** Another name, and another binding. *)
Context (n : string) (i x : uuid) (v : option Entity).

Definition keeps (w : World) : Prop :=
  NameIndex_Get KindBinding n (w_index w) = x ∧ get FBinding i (w_model w) = v.
Abbreviation any := (λ _, True).

Lemma keeps_add e : family_of e = FFinding ∨ family_of e = FBinding ∧ id_of e ≠ i → safe keeps any (Model_Add e).
Proof.
  intros He w [H1 H2]. split; [|done]. split; [done|]. simpl. destruct (add e (w_model w)) as [m r] eqn:E. simpl.
  rewrite (add_frame _ _ _ _ _ _ E); [done|by left|]. destruct He as [He|[_ He]]; congruence.
Qed.

Lemma keeps_del f j : f = FFinding ∨ j ≠ i → safe keeps any (Model_Delete f j).
Proof.
  intros Hf w [H1 H2]. split; [|done]. split; [done|]. simpl. destruct (del f j (w_model w)) as [m r] eqn:E. simpl.
  rewrite (del_frame _ _ _ _ _ _ _ E); [done|by left|]. intros [= <- <-]. by destruct Hf.
Qed.

Lemma keeps_reading {B} (f : World → B) : safe keeps any (reading f).
Proof. by apply safe_reading. Qed.

Lemma keeps_Put m j : m ≠ n → safe keeps any (Index_Put KindBinding m j).
Proof. intros Hm w [H1 H2]. split; [|done]. split; [|done]. simpl. by rewrite Get_Put, decide_False by congruence. Qed.

Lemma keeps_index (f : NameIndex → NameIndex) :
  (∀ idx, names (f idx) = names idx) → safe keeps any (writing (λ w, set_index (f (w_index w)) w)).
Proof.
  intros Hf w [H1 H2]. split; [|done]. split; [|done]. simpl. unfold NameIndex_Get in *. by rewrite Hf.
Qed.
Lemma keeps_AddPending rk b : safe keeps any (Index_AddPendingBinding rk b).
Proof. by apply keeps_index. Qed.
Lemma keeps_RemovePending rk b : safe keeps any (Index_RemovePendingBinding rk b).
Proof. by apply keeps_index. Qed.
#[local] Hint Resolve keeps_reading keeps_AddPending keeps_RemovePending : safe.
#[local] Hint Extern 1 (safe _ _ (Model_Add _)) => apply keeps_add; simpl; tauto : safe.
#[local] Hint Extern 1 (safe _ _ (Model_Delete _ _)) => apply keeps_del; tauto : safe.

Lemma keeps_finding wl kind j o : safe keeps any (reconcileSubjectFinding wl kind j o).
Proof. unfold reconcileSubjectFinding. safely. Qed.
#[local] Hint Resolve keeps_finding : safe.

Lemma keeps_found wl kind req obj :
  nn_String req ≠ n → uuidFromMeta (bo_Meta obj) ≠ i →
  safe keeps any (RoleBindingReconciler_Reconcile wl kind req (GetOk obj)).
Proof.
  intros Hn Hi. unfold RoleBindingReconciler_Reconcile, extractRoleBindingFields, bindingFromRBAC. cbv zeta.
  change (parseOptionalUUID _) with (uuidFromMeta (bo_Meta obj)).
  set (id := uuidFromMeta (bo_Meta obj)) in *. case_bool_decide; [safely|].
  eapply safe_bind.
  { eapply safe_bind; [apply keeps_reading|]. intros r _.
    by apply (safe_Ret _ (λ b, ∃ y, b = Some (y, id) ∧ bind_Id y = id)); eexists. }
  intros b (y & -> & Hy). assert (bind_Id y ≠ i) by congruence.
  unfold reconcile_binding, drop_binding, note_role.
  eapply safe_bind; [by apply keeps_Put|]. intros _ _. safely.
Qed.
End frame.

Section bindings.
Context {L : Lib} {LL : LibLaws} {S : ModelSrv} {C : HelmCodecs} {HL : ModelSrvLaws S} {HR : FindingsReliable S}.
Context {SE : StoreExact S}.
Context (wl : RBACWhitelist).
(** The ids of the roles: a role that appears again under its name has the id
    it had before. *)
Context (role_id : string → uuid).

Lemma drop_binding_ok id w : result (drop_binding id) w = done_ok.
Proof.
  unfold drop_binding. run_ops. destruct (get FBinding id (w_model w)); run_ops; [|done].
  destruct (deleted FBinding ltac:(done) id (w_model w)) as [-> | ->]; done.
Qed.

Lemma binding_found_ok kind req obj w :
  uuidFromMeta (bo_Meta obj) ≠ Nil → result (RoleBindingReconciler_Reconcile (Some wl) kind req (GetOk obj)) w = done_ok.
Proof.
  intros Hid. unfold result. rewrite (binding_found_eq _ _ _ _ _ _ eq_refl Hid).
  match goal with |- (run ?p w).1 = _ => change (result p w = done_ok) end.
  destruct (decide (annotationUUID (om_Annotations (bo_Meta obj)) AnnotationSubjectID = Nil)) as [Hs|Hs].
  - unfold reconcile_binding. rewrite bindingHasValidSubject_spec.
    rewrite (bool_decide_eq_false_2 (_ ≠ Nil)) by naive_solver. run_ops. rewrite drop_binding_ok. by run_ops.
  - apply binding_rest_ok; [split; by apply accepted|done].
Qed.

(** ** What a binding is owed *)

Abbreviation uid obj := (uuidFromMeta (bo_Meta obj)).

(** The binding as it is stored once its role is known. *)
Definition with_its_role (obj : BindingObject) : Binding :=
  binding_with_role (bo_Meta obj) (firstSubjectKind (bo_SubjectKinds obj)) (uid obj) (role_id (bindingRoleKey obj)).

Definition in_channel (n : string) (w : World) : Prop :=
  ∃ k nn, nn ∈ queued (binding_kind k) w ∧ nn_String nn = n.

(** The binding [obj], known under the name [n]. *)
Definition remembered (n : string) (obj : BindingObject) (w : World) : Prop :=
  annotationUUID (om_Annotations (bo_Meta obj)) AnnotationSubjectID ≠ Nil →
  get FBinding (uid obj) (w_model w) = Some (EBinding (with_its_role obj)) ∨
  waits (w_index w) (bindingRoleKey obj) n ∧ NameIndex_Get KindRole (bindingRoleKey obj) (w_index w) = Nil ∨
  in_channel n w.

(** *** The bindings of the cluster, as far as the sensor has seen them *)

Definition note (nn : NamespacedName) (got : GetResult BindingObject) (seen : gmap string BindingObject)
    : gmap string BindingObject :=
  match got with
  | GetOk obj => if bool_decide (uid obj = Nil) then seen else <[nn_String nn := obj]> seen
  | GetNotFound => delete (nn_String nn) seen
  | GetErr _ => seen
  end.

Definition observe (ev : Event) (w : World) (seen : gmap string BindingObject) : gmap string BindingObject :=
  match ev with
  | EvBinding _ nn got => note nn got seen
  | EvRequeued k Get => match queued (binding_kind k) w with nn :: _ => note nn (Get nn) seen | [] => seen end
  | _ => seen
  end.

(** What Kubernetes guarantees of an answer: no two objects share a UID. *)
Definition unique (nn : NamespacedName) (got : GetResult BindingObject) (seen : gmap string BindingObject) : Prop :=
  free_of "/" (nn_Namespace nn) ∧
  match got with
  | GetOk obj => ∀ n obj', n ≠ nn_String nn → seen !! n = Some obj' → uid obj' ≠ uid obj
  | _ => True
  end.

(** An answer that needs no retry. *)
Definition definite (got : GetResult BindingObject) : Prop :=
  match got with GetOk obj => uid obj ≠ Nil | GetNotFound => True | GetErr _ => False end.

Definition admissible (ev : Event) (w : World) (seen : gmap string BindingObject) : Prop :=
  match ev with
  | EvBinding _ nn got => unique nn got seen
  | EvRequeued k Get =>
      match queued (binding_kind k) w with nn :: _ => unique nn (Get nn) seen ∧ definite (Get nn) | [] => True end
  | EvRole _ _ nn (GetOk obj) => ∀ role id, roleFromRBAC (ob_Meta obj) = Some (role, id) → id = role_id (roleIndexKey nn)
  | _ => True
  end.

(** A run of a worker in which every event is admissible and no channel is ever
    full; and the bindings seen at its end. *)
Fixpoint orderly (evs : list Event) (seen : gmap string BindingObject) (w : World) : Prop :=
  match evs with
  | [] => True
  | ev :: evs =>
      let w' := exec (handle wl ev) w in
      admissible ev w seen ∧ (∀ k, length (queued (binding_kind k) w') < requeue_capacity) ∧
      orderly evs (observe ev w seen) w'
  end.

Fixpoint last_seen (evs : list Event) (seen : gmap string BindingObject) (w : World) : gmap string BindingObject :=
  match evs with
  | [] => seen
  | ev :: evs => last_seen evs (observe ev w seen) (exec (handle wl ev) w)
  end.

(** *** The invariant *)

(** [gap]: the one binding whose reconcile is under way. *)
Record tracked (gap : option string) (seen : gmap string BindingObject) (w : World) : Prop := {
  tr_remembered n obj : gap ≠ Some n → seen !! n = Some obj → remembered n obj w;
  tr_index n : NameIndex_Get KindBinding n (w_index w) = from_option (λ obj, uid obj) Nil (seen !! n);
  tr_uid n obj : seen !! n = Some obj → uid obj ≠ Nil;
  tr_unique n n' obj obj' : seen !! n = Some obj → seen !! n' = Some obj' → uid obj = uid obj' → n = n';
  tr_waits key n : waits (w_index w) key n →
    NameIndex_Get KindRole key (w_index w) = Nil ∧ ∃ nn, n = nn_String nn ∧ free_of "/" (nn_Namespace nn);
  tr_roles key : NameIndex_Get KindRole key (w_index w) = Nil ∨
    NameIndex_Get KindRole key (w_index w) = role_id key ∧ role_id key ≠ Nil
}.

(** The reconcile of a binding that exists closes its gap. *)
Lemma tracked_found gap seen w kind nn obj :
  (∀ n, gap = Some n → n = nn_String nn) → tracked gap seen w → unique nn (GetOk obj) seen → uid obj ≠ Nil →
  tracked None (<[nn_String nn := obj]> seen) (exec (RoleBindingReconciler_Reconcile (Some wl) kind nn (GetOk obj)) w).
Proof.
  intros Hgap [H1 H2 H3 H4 H5 H6] [Hfree Huniq] Hid.
  pose proof (binding_found_spec (Some wl) kind nn obj (uid obj) w eq_refl Hid) as B.
  rewrite binding_found_ok in B by done. specialize (B eq_refl).
  pose proof (λ n i Hn Hi, proj1 (safe_run _ _ _ w (keeps_found n i _ _ (Some wl) kind nn obj Hn Hi) (conj eq_refl eq_refl))) as Hkeep.
  set (w' := exec _ w) in *.
  assert (∀ k, queued k w' = queued k w) as Hq by (intros; unfold queued; by rewrite (bs_queues _ _ _ _ _ _ _ _ B)).
  split.
  - intros n obj' _ Hn. destruct (decide (n = nn_String nn)) as [->|Hne].
    + rewrite lookup_insert_eq in Hn. injection Hn as <-. intros Hs.
      destruct (H6 (bindingRoleKey obj)) as [Hr|[Hr Hr0]].
      * right. left. rewrite (bs_roles _ _ _ _ _ _ _ _ B), (bs_waits _ _ _ _ _ _ _ _ B). split; [by right|done].
      * left. rewrite (bs_stored _ _ _ _ _ _ _ _ B), bool_decide_eq_false_2 by done. by rewrite Hr.
    + rewrite lookup_insert_ne in Hn by done. intros Hs.
      assert (gap ≠ Some n) as Hg by (intros Hg; by apply Hgap in Hg).
      destruct (H1 n obj' Hg Hn Hs) as [Hst|[[Hw Hr]|(k & m & Hm & Hmn)]].
      * left. destruct (Hkeep n (uid obj')) as [_ Hk]; [done|by apply not_eq_sym, (Huniq n)|]. by rewrite Hk.
      * right. left. rewrite (bs_roles _ _ _ _ _ _ _ _ B), (bs_waits _ _ _ _ _ _ _ _ B).
        split; [left; split; [done|congruence]|done].
      * right. right. exists k, m. by rewrite Hq.
  - intros n. destruct (decide (n = nn_String nn)) as [->|Hne].
    + rewrite lookup_insert_eq. apply (bs_indexed _ _ _ _ _ _ _ _ B).
    + rewrite lookup_insert_ne by done. rewrite <- H2.
      destruct (Hkeep n Nil) as [Hk _]; done.
  - intros n obj' [[<- <-]|[_ Hn]]%lookup_insert_Some; eauto.
  - intros n n' o o' [[<- <-]|[Hn Ho]]%lookup_insert_Some [[<- <-]|[Hn' Ho']]%lookup_insert_Some Hu; try done; eauto.
    + by destruct (Huniq n' o').
    + by destruct (Huniq n o).
  - intros key n. rewrite (bs_waits _ _ _ _ _ _ _ _ B), (bs_roles _ _ _ _ _ _ _ _ B).
    intros [[Hw _]|([= -> ->] & _ & Hr)]; [auto|]. split; [done|]. by exists nn.
  - intros key. rewrite (bs_roles _ _ _ _ _ _ _ _ B). auto.
Qed.

(** The reconcile of a binding that is gone. *)
Lemma binding_gone_spec kind nn w :
  let n := nn_String nn in let w' := exec (RoleBindingReconciler_Reconcile (Some wl) kind nn GetNotFound) w in
  (∀ k m, NameIndex_Get k m (w_index w') =
     if decide ((KindBinding, n) = (k, m)) then Nil else NameIndex_Get k m (w_index w)) ∧
  (∀ rk b, waits (w_index w') rk b → waits (w_index w) rk b) ∧
  (∀ rk b, b ≠ n → waits (w_index w) rk b → waits (w_index w') rk b) ∧
  (∀ k, queued k w' = queued k w) ∧
  (∀ i, i ≠ NameIndex_Get KindBinding n (w_index w) → get FBinding i (w_model w') = get FBinding i (w_model w)).
Proof.
  intros n w'. subst w'. simpl. run_ops. rewrite Delete_fst. fold n.
  set (id := NameIndex_Get KindBinding n (w_index w)). set (idx := (NameIndex_Delete KindBinding n (w_index w)).2).
  assert (∀ k m, NameIndex_Get k m idx = if decide ((KindBinding, n) = (k, m)) then Nil else NameIndex_Get k m (w_index w))
    as Hget by (intros; apply Get_Delete).
  assert (∀ rk b, waits idx rk b ↔ waits (w_index w) rk b) as Hwaits by (intros; apply waits_delete).
  case_bool_decide; run_ops.
  - split_and!; [done|intros; by apply Hwaits|intros; by apply Hwaits|done|done].
  - split_and!; [done| | |done|].
    + intros rk b [Hw _]%waits_remove_by_name. by apply Hwaits.
    + intros rk b Hb Hw. apply waits_remove_by_name. split; [by apply Hwaits|done].
    + intros i Hi. destruct (del FBinding _ _) as [m r] eqn:E. simpl.
      rewrite (del_frame _ _ _ _ _ _ _ E); [|by left|congruence]. by rewrite del_finding_frame.
Qed.

Lemma tracked_gone gap seen w kind nn :
  (∀ n, gap = Some n → n = nn_String nn) → tracked gap seen w →
  tracked None (delete (nn_String nn) seen) (exec (RoleBindingReconciler_Reconcile (Some wl) kind nn GetNotFound) w).
Proof.
  intros Hgap [H1 H2 H3 H4 H5 H6]. destruct (binding_gone_spec kind nn w) as (B1 & B2 & B3 & B4 & B5).
  set (w' := exec _ w) in *. split.
  - intros n obj _ [Hne Hn]%lookup_delete_Some Hs.
    assert (gap ≠ Some n) as Hg by (intros Hg; by apply Hgap in Hg).
    destruct (H1 n obj Hg Hn Hs) as [Hst|[[Hw Hr]|(k & m & Hm & Hmn)]].
    + left. rewrite B5; [done|]. rewrite H2. destruct (seen !! nn_String nn) as [o|] eqn:Ho; simpl; [|by eapply H3].
      intros Hu. by apply Hne, (H4 _ _ o obj).
    + right. left. rewrite B1, decide_False by done. split; [apply B3; [congruence|done]|done].
    + right. right. exists k, m. by rewrite B4.
  - intros n. rewrite B1, H2. case_decide as Hd; [injection Hd as <-; by rewrite lookup_delete_eq|].
    rewrite lookup_delete_ne by congruence. done.
  - intros n obj [_ Hn]%lookup_delete_Some. eauto.
  - intros n n' o o' [_ Hn]%lookup_delete_Some [_ Hn']%lookup_delete_Some. eauto.
  - intros key n Hw%B2. rewrite B1, decide_False by done. eauto.
  - intros key. rewrite B1, decide_False by done. auto.
Qed.

(** *** The reconcile of a role *)

Lemma role_found_index kind recs c req obj role id w :
  roleFromRBAC (ob_Meta obj) = Some (role, id) →
  let w' := exec (RoleReconciler_Reconcile (Some wl) kind recs c req (GetOk obj)) w in
  (∀ k m, NameIndex_Get k m (w_index w') =
     if decide ((KindRole, roleIndexKey req) = (k, m)) then id else NameIndex_Get k m (w_index w)) ∧
  (∀ k, queued k w `prefix_of` queued k w').
Proof.
  intros Hrole w'. subst w'. simpl. rewrite Hrole. run_ops. rewrite (accepted FRole ltac:(done) (ERole role)) by done.
  run_ops. rewrite exec_reconcileRoleSpecFinding. simpl.
  match goal with |- context [exec (for_each ?bs _) ?w1] => destruct (requeue_all_grow recs bs w1) as [_ Hi _ Hq] end.
  split; [|exact Hq]. intros k m. rewrite Hi. simpl. by rewrite Get_Resolve, Get_Put.
Qed.

(** The bindings are none of a role's business. *)
Definition bindings_part : Footprint := mkFootprint [FBinding] [KindBinding] [].

Lemma role_spares k c nn got w : spares bindings_part w (exec (handle wl (EvRole k c nn got)) w).
Proof. apply guar_exec, handle_spares. done. Qed.

Lemma binding_scope nn : ∃ k, IsClusterScoped (binding_kind k) = bool_decide (nn_Namespace nn = "") ∧
  binding_kind k ∈ bindingReconcilers.
Proof.
  destruct (decide (nn_Namespace nn = "")) as [Hn|Hn].
  - exists KClusterRoleBinding. rewrite bool_decide_eq_true_2 by done. split; [done|set_solver].
  - exists KRoleBinding. rewrite bool_decide_eq_false_2 by done. split; [done|set_solver].
Qed.

Lemma tracked_role_found seen w k c nn obj role :
  let w' := exec (handle wl (EvRole k c nn (GetOk obj))) w in
  roleFromRBAC (ob_Meta obj) = Some (role, role_id (roleIndexKey nn)) →
  (∀ k, length (queued (binding_kind k) w') < requeue_capacity) →
  tracked None seen w → tracked None seen w'.
Proof.
  intros w' Hrole Hroom [H1 H2 H3 H4 H5 H6]. pose proof (role_spares k c nn (GetOk obj) w) as Hsp. fold w' in Hsp.
  destruct (role_found_index (role_kind k) bindingReconcilers c nn obj role _ w Hrole) as [Hidx Hq].
  pose proof (role_found_spec (Some wl) (role_kind k) bindingReconcilers c nn obj role _ w Hrole) as R.
  rewrite role_found_ok in R by (split; by apply accepted). specialize (R eq_refl).
  change (exec (RoleReconciler_Reconcile _ _ _ _ _ _) w) with w' in *. destruct (roleFromRBAC_id _ _ _ Hrole) as [_ Hid].
  split; try done.
  - intros n o _ Hn Hs. destruct (H1 n o ltac:(done) Hn Hs) as [Hst|[[Hw Hr]|(b & m & Hm & Hmn)]].
    + left. by rewrite (sp_get _ _ _ Hsp) by set_solver.
    + destruct (decide (bindingRoleKey o = roleIndexKey nn)) as [Hk|Hk].
      * right. right. rewrite Hk in Hw. destruct (H5 _ _ Hw) as (_ & nm & -> & Hfree).
        destruct (binding_scope nm) as (b & Hb & Hrec). exists b, nm. split; [|done].
        pose proof (rs_requeued _ _ _ _ _ _ _ _ _ R _ (binding_kind b) Hw Hrec) as Hin.
        rewrite parseNamespacedName_String in Hin by done. destruct (Hin Hb) as [|Hfull]; [done|].
        specialize (Hroom b). lia.
      * right. left. rewrite (rs_waits _ _ _ _ _ _ _ _ _ R), Hidx, decide_False by congruence. done.
    + right. right. exists b, m. split; [|done]. destruct (Hq (binding_kind b)) as [l ->]. set_solver.
  - intros n. rewrite (sp_name _ _ _ _ _ Hsp) by set_solver. done.
  - intros key n. rewrite (rs_waits _ _ _ _ _ _ _ _ _ R), Hidx. intros [Hw Hk]. rewrite decide_False by congruence. auto.
  - intros key. rewrite Hidx. case_decide as Hd; [injection Hd as <-; by right|auto].
Qed.

Lemma role_gone_spec k c nn w :
  let w' := exec (handle wl (EvRole k c nn GetNotFound)) w in
  w_requeue w' = w_requeue w ∧ (∀ rk b, waits (w_index w') rk b ↔ waits (w_index w) rk b) ∧
  ∀ key, NameIndex_Get KindRole key (w_index w') = Nil ∨
    NameIndex_Get KindRole key (w_index w') = NameIndex_Get KindRole key (w_index w).
Proof.
  cbn [handle]. unfold RoleReconciler_Reconcile. cbv zeta. run_ops. rewrite Delete_fst.
  assert (∀ rk b, waits (NameIndex_Delete KindRole (roleIndexKey nn) (w_index w)).2 rk b ↔ waits (w_index w) rk b)
    as Hwd by (intros; apply waits_delete).
  case_bool_decide; run_ops; (split_and!; [done|done|intros key; simpl; rewrite Get_Delete; case_decide; auto]).
Qed.

Lemma tracked_role_gone seen w k c nn :
  tracked None seen w → tracked None seen (exec (handle wl (EvRole k c nn GetNotFound)) w).
Proof.
  intros [H1 H2 H3 H4 H5 H6]. pose proof (role_spares k c nn GetNotFound w) as Hsp.
  destruct (role_gone_spec k c nn w) as (Hq & Hw & Hr).
  set (w' := exec _ w) in *. split; try done.
  - intros n o _ Hn Hs. destruct (H1 n o ltac:(done) Hn Hs) as [Hst|[[Hwt Hrt]|(b & m & Hm & Hmn)]].
    + left. by rewrite (sp_get _ _ _ Hsp) by set_solver.
    + right. left. rewrite Hw. split; [done|]. destruct (Hr (bindingRoleKey o)) as [->| ->]; done.
    + right. right. exists b, m. unfold queued. by rewrite Hq.
  - intros n. rewrite (sp_name _ _ _ _ _ Hsp) by set_solver. done.
  - intros key n. rewrite Hw. intros Hwt. destruct (H5 _ _ Hwt) as [Hr0 Hn]. split; [|done].
    destruct (Hr key) as [->| ->]; done.
  - intros key. destruct (Hr key) as [->| ->]; auto.
Qed.

(** *** A step, and a run *)

Lemma tracked_gap seen w k nn rest :
  queued (binding_kind k) w = nn :: rest → tracked None seen w →
  tracked (Some (nn_String nn)) seen (set_requeue (<[binding_kind k := rest]> (w_requeue w)) w).
Proof.
  intros Hq [H1 H2 H3 H4 H5 H6]. split; try done. intros n obj Hn Ho Hs.
  destruct (H1 n obj ltac:(done) Ho Hs) as [?|[?|(k' & m & Hm & <-)]]; [by left|right; by left|].
  right. right. exists k', m. split; [|done]. rewrite queued_set_requeue, lookup_insert.
  case_decide as Hk; [|done]. rewrite <- Hk, Hq in Hm. apply elem_of_cons in Hm as [->|Hm]; done.
Qed.

(** The reconcile that an answer of the client brings about. *)
Lemma tracked_answer gap seen w k nn got :
  (∀ n, gap = Some n → n = nn_String nn) → gap = None ∨ definite got → unique nn got seen → tracked gap seen w →
  tracked None (note nn got seen) (exec (handle wl (EvBinding k nn got)) w).
Proof.
  intros Hgap Hdef Hu Hw. destruct got as [obj| |err]; simpl in Hdef.
  - simpl note. case_bool_decide as Hid; [|by eapply tracked_found].
    destruct Hdef as [->|]; [|done]. cbn [handle]. unfold RoleBindingReconciler_Reconcile, bindingFromRBAC. simpl.
    change (parseOptionalUUID _) with (uid obj). by rewrite bool_decide_eq_true_2.
  - by eapply tracked_gone.
  - destruct Hdef as [->|]; done.
Qed.

Lemma tracked_step ev seen w :
  group_of ev = Some GRBAC → admissible ev w seen →
  (∀ k, length (queued (binding_kind k) (exec (handle wl ev) w)) < requeue_capacity) →
  tracked None seen w → tracked None (observe ev w seen) (exec (handle wl ev) w).
Proof.
  intros Hg Ha Hroom Hw. destruct ev; try discriminate Hg.
  - apply (tracked_answer None); [done|by left|done..].
  - simpl in Ha |- *. unfold Dequeue. run_ops. unfold Dequeue_op. destruct (queued (binding_kind k) w) as [|nn rest] eqn:Hq; [done|].
    destruct Ha as [Hu Hd]. cbn [fst snd].
    apply (tracked_answer (Some (nn_String nn)) seen _ k nn (Get nn)); [by intros n [= <-]|by right|done|].
    by eapply tracked_gap.
  - destruct got as [obj| |err]; [|by apply tracked_role_gone|done]. simpl observe.
    destruct (roleFromRBAC (ob_Meta obj)) as [[role id]|] eqn:Hrole.
    + eapply tracked_role_found; [|done|done]. rewrite Hrole. by rewrite (Ha role id Hrole).
    + cbn [handle]. unfold RoleReconciler_Reconcile. by rewrite Hrole.
Qed.

Lemma tracked_run evs seen w :
  Forall (λ ev, group_of ev = Some GRBAC) evs → orderly evs seen w → tracked None seen w →
  tracked None (last_seen evs seen w) (exec (worker wl evs) w).
Proof.
  intros Hg. revert seen w. induction Hg as [|ev evs Hev _ IH]; intros seen w; [done|].
  intros (Ha & Hroom & Ho) Hw. cbn [last_seen worker]. run_ops. by apply IH, tracked_step.
Qed.

(** A state without roles and bindings. *)
Definition no_rbac (w : World) : Prop :=
  (∀ n, NameIndex_Get KindBinding n (w_index w) = Nil) ∧ (∀ n, NameIndex_Get KindRole n (w_index w) = Nil) ∧
  (∀ rk b, ¬ waits (w_index w) rk b).

Lemma remembered_spared n obj w w' :
  spares (group_part GRBAC) w w' → remembered n obj w → remembered n obj w'.
Proof.
  intros Hs Hr Hsub. unfold in_channel. rewrite (sp_get _ _ _ Hs), (sp_name _ _ _ _ _ Hs) by set_solver.
  pose proof (sp_part _ _ _ Hs PPending ltac:(set_solver)) as Hp. simpl in Hp.
  pose proof (sp_part _ _ _ Hs PRequeue ltac:(set_solver)) as Hq. simpl in Hq.
  unfold waits, queued in *. rewrite Hp, Hq. by apply Hr.
Qed.

(** A role that is deleted and created again gets a new id, and the bindings
    stored with the old one are not told: they are neither changed nor waiting
    nor requeued. This is why [no_binding_forgotten] asks that roles keep their
    ids. *)
Theorem recreated_role_not_relinked k c c' req obj role rid b i w :
  get FBinding i (w_model w) = Some (EBinding b) → (∀ n, ¬ waits (w_index w) (roleIndexKey req) n) →
  roleFromRBAC (ob_Meta obj) = Some (role, rid) →
  let w' := exec (worker wl [EvRole k c req GetNotFound; EvRole k c' req (GetOk obj)]) w in
  get FBinding i (w_model w') = Some (EBinding b) ∧ NameIndex_Get KindRole (roleIndexKey req) (w_index w') = rid ∧
  (∀ n, ¬ waits (w_index w') (roleIndexKey req) n) ∧ w_requeue w' = w_requeue w.
Proof.
  intros Hb Hw Hrole w'. subst w'. cbn [worker]. run_ops.
  destruct (role_gone_spec k c req w) as (Hq & Hwaits & _). set (w1 := exec (handle wl (EvRole k c req GetNotFound)) w) in *.
  assert (∀ n, ¬ waits (w_index w1) (roleIndexKey req) n) as Hw1 by (intros n; rewrite Hwaits; apply Hw).
  pose proof (role_spares k c req GetNotFound w) as Hs1. pose proof (role_spares k c' req (GetOk obj) w1) as Hs2.
  destruct (role_found_index (role_kind k) bindingReconcilers c' req obj role rid w1 Hrole) as [Hidx _].
  pose proof (role_found_spec (Some wl) (role_kind k) bindingReconcilers c' req obj role rid w1 Hrole) as R.
  rewrite role_found_ok in R by (split; by apply accepted). specialize (R eq_refl).
  change (exec (RoleReconciler_Reconcile _ _ _ _ _ (GetOk obj)) w1) with (exec (handle wl (EvRole k c' req (GetOk obj))) w1) in *.
  split_and!.
  - by rewrite (sp_get _ _ _ Hs2), (sp_get _ _ _ Hs1) by set_solver.
  - rewrite Hidx. by rewrite decide_True.
  - intros n Hn. by apply (rs_waits _ _ _ _ _ _ _ _ _ R) in Hn as [_ []].
  - rewrite <- Hq. by apply role_found_queues.
Qed.

(** C7. No binding is forgotten: let one worker handle the events of roles and
    bindings, requeued ones included, one after the other, from a state without
    any, while all other controllers run in any interleaving with it. At the
    end of every run, every binding the worker has seen last with a subject
    (and not found deleted since) is stored with its role, or its role is
    unknown and it waits for it, or it is in a requeue channel; provided that
    no channel ran full, roles keep their ids, as Kubernetes guarantees no two
    objects share a UID, the client answers with the object or with NotFound,
    and the store accepts every resource and refuses only to delete what it does
    not have ([StoreExact]). In particular, when the channels are empty every binding whose role is
    known is stored with it. *)
Theorem no_binding_forgotten evs others w0 :
  Forall (λ ev, group_of ev = Some GRBAC) evs → Forall (λ ev, group_of ev ≠ Some GRBAC) others →
  no_rbac w0 → orderly evs ∅ w0 →
  thread_ends 0 (λ _ w, ∀ n obj, last_seen evs ∅ w0 !! n = Some obj → remembered n obj w)
    (worker wl evs :: ((λ ev, worker wl [ev]) <$> others), w0).
Proof.
  intros Hevs Hothers (Hb & Hr & Hw) Ho.
  assert (tracked None (last_seen evs ∅ w0) (exec (worker wl evs) w0)) as [H1 _ _ _ _ _].
  { apply tracked_run; [done|done|]. split; try (by intros *; rewrite lookup_empty).
    - intros key n Hkn. by destruct (Hw key n).
    - intros key. left. apply Hr. }
  apply (worker_among_others wl evs GRBAC others); [done..|]. intros w Hs n obj Hn.
  eapply remembered_spared; [exact Hs|]. by apply H1.
Qed.
End bindings.
