(* ===== verification/Owners.v ===== *)
(** * Owners: an instance whose Helm release is known is linked

    What the controllers of workloads, API resources and Helm releases owe the
    instances when they take turns ([helm_workload_race] shows what may happen
    when they do not): along any sequence of their events, an indexed instance
    whose name has an owner in the index has a SystemInstance. *)

From S2P Require Import Prelude.
From S2P Require Import Prog.
From S2P Require Import Rely.
From S2P Require Import GoStrings.
From S2P Require Import HelmDecode.
From S2P Require Import K8s.
From S2P Require Import Lib.
From S2P Require Import Entities.
From S2P Require Import ModelSrv.
From S2P Require Import Registry.
From S2P Require Import State.
From S2P Require Import Convert.
From S2P Require Import RefFindings.
From S2P Require Import Evaluator.
From S2P Require Import CrdControllers.
From S2P Require Import Instances.
From S2P Require Import HelmRelease.
From S2P Require Import Whitelist.
From S2P Require Import System.
From S2P Require Import Footprint.
From S2P Require Import Isolation.

Section owners.
Context {L : Lib} {LL : LibLaws} {S : ModelSrv} {C : HelmCodecs} {HL : ModelSrvLaws S} {SE : StoreExact S}.
Context (wl : RBACWhitelist).

Definition linked (e : Entity) : Prop :=
  match e with
  | EComponentInstance ci => is_Some (ci_SystemInstance ci)
  | EApiInstance ai => is_Some (ai_SystemInstance ai)
  | _ => True
  end.

Definition instance_kinds : list ResourceKind := [KindComponentInstance; KindAPIInstance].

Definition owned_linked (w : World) : Prop :=
  ∀ k n e, k ∈ instance_kinds → NameIndex_GetHelmOwner k n (w_index w) ≠ Nil →
    NameIndex_Get k n (w_index w) ≠ Nil →
    get (instance_family k) (NameIndex_Get k n (w_index w)) (w_model w) = Some e → linked e.

(** ** Programs that keep it *)
Definition keeping {A} (p : action A) : Prop := ∀ w, owned_linked w → owned_linked (exec p w).

Lemma keeping_bind {A B} (p : action A) (f : A → action B) :
  keeping p → (∀ a, keeping (f a)) → keeping (bind p f).
Proof. intros Hp Hf w Hw. rewrite exec_bind. by apply Hf, Hp. Qed.

Lemma keeping_Ret {A} (a : A) : keeping (Ret a).
Proof. by intros w. Qed.

(** What matters of a state. *)
Definition owners_part : Footprint :=
  mkFootprint [FComponentInstance; FApiInstance] instance_kinds [POwners].

Lemma owned_linked_spared w w' : spares owners_part w w' → owned_linked w → owned_linked w'.
Proof.
  intros Hs Hw k n e Hk. assert (instance_family k ∈ fp_families owners_part) as Hf.
  { unfold instance_kinds in Hk. repeat (apply elem_of_cons in Hk as [->|Hk]; [set_solver|]). by apply not_elem_of_nil in Hk. }
  rewrite (sp_name _ _ _ _ _ Hs), (sp_get _ _ _ Hs) by done.
  pose proof (sp_part _ _ _ Hs POwners ltac:(set_solver)) as Ho. simpl in Ho.
  unfold NameIndex_GetHelmOwner. rewrite Ho. by apply Hw.
Qed.

Lemma keeping_guar {A} (p : action A) : guar (spares owners_part) p → keeping p.
Proof. intros Hp w. apply owned_linked_spared. by apply guar_exec. Qed.

Lemma linked_link si e : linked (link si e).
Proof. by destruct e; simpl; eauto. Qed.

(** An instance is replaced by a linked one, at most one name gets an owner. *)
Lemma keeping_correlate_one ns si res : keeping (correlate_one ns si res).
Proof.
  intros w Hw. destruct (helmKindToResourceKind (mr_Kind res)) as [k|] eqn:Hk; [|unfold correlate_one; by rewrite Hk].
  rewrite (correlate_one_eq ns si) with (k := k) by done. cbv zeta. set (n := helm_nameKey ns res).
  assert (∀ k' n' e, k' ∈ instance_kinds → (k', n') ≠ (k, n) →
    NameIndex_GetHelmOwner k' n' (NameIndex_SetHelmOwner k n si (w_index w)) ≠ Nil →
    NameIndex_Get k' n' (w_index w) ≠ Nil →
    get (instance_family k') (NameIndex_Get k' n' (w_index w)) (w_model w) = Some e → linked e) as Hother.
  { intros k' n' e Hk' Hne. rewrite GetHelmOwner_Set, decide_False by congruence. by apply Hw. }
  case_bool_decide as Hnil; [|destruct (get (instance_family k) _ (w_model w)) as [e0|] eqn:Hget].
  - intros k' n' e Hk' Ho Hid. destruct (decide ((k', n') = (k, n))) as [[= -> ->]|Hne]; [done|by apply Hother].
  - intros k' n' e Hk' Ho Hid He. change (get (instance_family k') (NameIndex_Get k' n' (w_index w))
      (add (link si e0) (w_model w)).1 = Some e) in He.
    destruct (get_family _ _ _ _ Hget) as [Hf Hi].
    destruct (decide ((instance_family k', NameIndex_Get k' n' (w_index w)) = (instance_family k, NameIndex_Get k n (w_index w))))
      as [[= Ef Ei]|Hne].
    + rewrite Ef, Ei, <- Hi, <- Hf, <- (link_id si), <- (link_family si) in He.
      rewrite get_accepted in He; [injection He as <-; apply linked_link|].
      apply accepted. rewrite link_family, Hf. by destruct k.
    + destruct (add (link si e0) (w_model w)) as [m r] eqn:E. simpl in He.
      rewrite (add_frame _ _ _ _ _ _ E) in He; [|left; by destruct k'|by rewrite link_family, link_id, Hf, Hi].
      apply (Hother k' n'); [done|congruence|done..].
  - intros k' n' e Hk' Ho Hid He. destruct (decide ((k', n') = (k, n))) as [[= -> ->]|Hne]; [|by apply (Hother k' n')].
    change (get (instance_family k) (NameIndex_Get k n (w_index w)) (w_model w) = Some e) in He. congruence.
Qed.

Lemma keeping_correlate resources ns si : keeping (correlateResources resources ns si).
Proof.
  unfold correlateResources. induction resources as [|res l IH]; [by intros w|].
  change (keeping (bind (correlate_one ns si res) (λ _, for_each l (correlate_one ns si)))).
  apply keeping_bind; [apply keeping_correlate_one|by intros _].
Qed.

(** Fewer owners. *)
Lemma keeping_DeleteOwners si : keeping (Index_DeleteHelmOwnersBySystemInstance si).
Proof.
  intros w Hw k n e Hk. unfold Index_DeleteHelmOwnersBySystemInstance. run_ops. rewrite GetHelmOwner_DeleteBySI. cbv zeta.
  case_decide; [done|]. intros Ho. by apply Hw.
Qed.

(** ** The handlers *)

(** What the release controller touches beside instances and owners. *)
Definition release_part : Footprint := mkFootprint [FSystemInstance] [KindSystemInstance] [PRevisions].

Lemma keeping_release {A} (p : action A) : (∀ w0, ops_preserve (within release_part w0) p) → keeping p.
Proof.
  intros Hp. apply keeping_guar, (guar_mono (within release_part)); [intros w w'; by apply within_spares|].
  apply guar_ops; [apply within_refl|done].
Qed.

#[local] Hint Resolve within_deleteReferenceFinding within_upsertNotFound within_upsertMissing : preserve.

Lemma keeping_Helm req got : keeping (HelmReleaseReconciler_Reconcile req got).
Proof.
  unfold HelmReleaseReconciler_Reconcile. destruct got as [secret| |err]; [| |by intros w].
  - case_bool_decide; [by intros w|]. destruct (SecretNameParts _) as [[name rev] ok]. destruct (negb ok); [by intros w|].
    apply keeping_bind; [apply keeping_release; intros w0; preserve|]. intros latest.
    destruct (negb latest); [by intros w|]. destruct (DecodeReleaseData _) as [|rel]; [by intros w|].
    case_bool_decide; [by intros w|]. destruct (HasSystemInstance _); [by intros w|]. cbv zeta.
    apply keeping_bind; [apply keeping_release; intros w0; preserve|]. intros [err|]; [by intros w|].
    apply keeping_bind; [apply keeping_release; intros w0; preserve|]. intros _.
    apply keeping_bind; [apply keeping_correlate|]. intros _.
    apply keeping_bind; [|by intros _ w]. apply keeping_release. intros w0.
    unfold reconcileSystemReferenceFindings, reconcileReference. preserve.
  - destruct (SecretNameParts _) as [[name rev] ok]. destruct (negb ok); [by intros w|].
    apply keeping_bind; [apply keeping_release; intros w0; preserve|]. intros latest.
    destruct (negb latest); [by intros w|].
    apply keeping_bind; [apply keeping_release; intros w0; preserve|]. intros id. case_bool_decide; [by intros w|].
    apply keeping_bind; [apply keeping_DeleteOwners|]. intros _.
    apply keeping_release. intros w0. preserve.
Qed.

(** *** The instances *)

(** The two controllers of instances. *)
Inductive instance_ops : InstanceOps → Prop :=
| ops_workload : instance_ops WorkloadOps
| ops_api : instance_ops APIInstanceOps.

Section instance.
Context {HR : FindingsReliable S} (k : InstanceOps) (Hk : instance_ops k).

Lemma stored_instance_linked x req w :
  NameIndex_GetHelmOwner (ik_kind k) (nn_String req) (w_index w) ≠ Nil →
  linked (ik_entity k (stored_instance k x req w)).
Proof.
  intros Ho. unfold stored_instance. destruct (ik_GetSystemInstance k x) as [si|] eqn:E.
  - destruct Hk; simpl in *; by rewrite E.
  - rewrite (bool_decide_eq_true_2 _ Ho). destruct Hk; simpl; by eexists.
Qed.

Lemma instance_found_exec skip key req obj x id w :
  skip (ob_Meta obj) = false → ik_from k (ob_Meta obj) = Some (x, id) →
  let w' := exec (instance_reconcile k skip key req (GetOk obj)) w in
  let m := (add (ik_entity k (stored_instance k x req w)) (w_model w)).1 in
  w_index w' = NameIndex_Put (ik_kind k) (nn_String req) id (w_index w) ∧
  ∀ f i, f ≠ FFinding → f ≠ FFindingType → get f i (w_model w') = get f i m.
Proof.
  intros Hskip Hfrom. assert (InstanceLaws k) as HI by (destruct Hk; apply _).
  cbv zeta. unfold instance_reconcile. rewrite Hskip, Hfrom. run_ops.
  rewrite with_helm_owner_result, with_helm_owner_exec.
  rewrite add_accepted by (destruct Hk; done). run_ops. rewrite reconcileReferenceFindings_eq.
  set (w1 := set_index _ _). set (p := reconcileReference _ _ _ _ _ _ _).
  destruct (sbf_run key (RObject obj) (exec p w1)) as [Hget Hidx _ _ _ _ _]. split.
  - rewrite Hidx. unfold p. by rewrite reconcileReference_index.
  - intros f i H1 H2. rewrite Hget by done. unfold p. by rewrite reconcileReference_frame by congruence.
Qed.

(** No other name is indexed under the UID of the object. *)
Definition own_uid (req : NamespacedName) (got : GetResult Object) (w : World) : Prop :=
  ∀ obj n, got = GetOk obj → n ≠ nn_String req → NameIndex_Get (ik_kind k) n (w_index w) ≠ uuidFromMeta (ob_Meta obj).

Lemma ik_from_uid o x id : ik_from k o = Some (x, id) → id = uuidFromMeta o ∧ id ≠ Nil.
Proof.
  destruct Hk; simpl; unfold componentInstanceFromMeta, apiInstanceFromMeta;
    case_bool_decide; [done| |done|]; by intros [= _ <-].
Qed.

Lemma instance_kind : ik_kind k ∈ instance_kinds ∧ instance_family (ik_kind k) = ik_family k.
Proof. unfold instance_kinds. destruct Hk; simpl; split; [set_solver|done|set_solver|done]. Qed.

Lemma kinds_families k1 k2 :
  k1 ∈ instance_kinds → k2 ∈ instance_kinds → k1 ≠ k2 → instance_family k1 ≠ instance_family k2.
Proof. unfold instance_kinds. intros H1 H2. repeat (apply elem_of_cons in H1 as [->|H1]; [|try by apply not_elem_of_nil in H1]);
  repeat (apply elem_of_cons in H2 as [->|H2]; [|try by apply not_elem_of_nil in H2]); done. Qed.

Lemma keeping_found skip key req obj w :
  own_uid req (GetOk obj) w → owned_linked w → owned_linked (exec (instance_reconcile k skip key req (GetOk obj)) w).
Proof.
  intros Hown Hw. destruct instance_kind as [Hkind Hfam].
  destruct (skip (ob_Meta obj)) eqn:Hskip; [unfold instance_reconcile; by rewrite Hskip|].
  destruct (ik_from k (ob_Meta obj)) as [[x id]|] eqn:Hfrom; [|unfold instance_reconcile; by rewrite Hskip, Hfrom].
  assert (InstanceLaws k) as HI by (destruct Hk; apply _).
  destruct (instance_found_exec skip key req obj x id w Hskip Hfrom) as [Hidx Hget].
  set (w' := exec _ w) in *. destruct (ik_from_uid _ _ _ Hfrom) as [Hid Hnil]. destruct (ik_from_id _ _ _ Hfrom) as [Hx _].
  set (y := ik_entity k (stored_instance k x req w)) in *.
  assert (family_of y = ik_family k ∧ id_of y = id) as [Hyf Hyi].
  { unfold y. by rewrite ik_entity_family, stored_instance_id. }
  intros k' n' e Hk'. rewrite Hidx, Get_Put.
  change (NameIndex_GetHelmOwner k' n' (NameIndex_Put (ik_kind k) (nn_String req) id (w_index w)))
    with (NameIndex_GetHelmOwner k' n' (w_index w)). intros Ho.
  rewrite Hget by (unfold instance_family; by destruct k'). case_decide as Hd.
  - injection Hd as <- <-. intros _. rewrite Hfam, <- Hyf, <- Hyi, get_accepted by (rewrite Hyf; by destruct Hk; apply accepted).
    intros [= <-]. by apply stored_instance_linked.
  - intros Hn. destruct (add y (w_model w)) as [m r] eqn:E. simpl.
    rewrite (add_frame _ _ _ _ _ _ E); [by apply Hw|left; by destruct k'|].
    rewrite Hyf, Hyi, <- Hfam. intros [= Hf Hi]. destruct (decide (k' = ik_kind k)) as [->|Hne].
    + apply (Hown obj n'); [done|congruence|congruence].
    + by apply (kinds_families k' (ik_kind k)).
Qed.

Lemma keeping_gone skip key req w :
  owned_linked w → owned_linked (exec (instance_reconcile k skip key req GetNotFound) w).
Proof.
  intros Hw. unfold instance_reconcile. run_ops. rewrite Delete_fst.
  set (id := NameIndex_Get (ik_kind k) (nn_String req) (w_index w)).
  set (idx := (NameIndex_Delete (ik_kind k) (nn_String req) (w_index w)).2).
  assert (∀ k' n', NameIndex_GetHelmOwner k' n' idx = NameIndex_GetHelmOwner k' n' (w_index w)) as Howner.
  { intros k' n'. unfold idx, NameIndex_Delete. by repeat case_match. }
  assert (∀ k' n', NameIndex_Get k' n' idx ≠ Nil → NameIndex_Get k' n' idx = NameIndex_Get k' n' (w_index w)) as Hget.
  { intros k' n'. unfold idx. rewrite Get_Delete. by case_decide. }
  case_bool_decide as Hnil; run_ops.
  - intros k' n' e Hk'. simpl. rewrite Howner. intros Ho Hid. rewrite (Hget _ _ Hid). apply Hw; [done|done|by rewrite <- (Hget _ _ Hid)].
  - intros k' n' e Hk'. simpl. rewrite Howner. intros Ho Hid.
    assert (NameIndex_Get k' n' (w_index w) ≠ Nil) as Hid' by (by rewrite <- (Hget _ _ Hid)). rewrite (Hget _ _ Hid).
    set (m := (del FFinding _ (del FFinding _ (w_model w)).1).1).
    assert (∀ i, get (instance_family k') i m = get (instance_family k') i (w_model w)) as Hm.
    { intros i. unfold m. rewrite !del_finding_frame; [done|by destruct k'..]. }
    destruct (del (ik_family k) id m) as [m' r] eqn:E. simpl.
    destruct (decide ((instance_family k', NameIndex_Get k' n' (w_index w)) = (ik_family k, id))) as [Hd|Hd].
    + injection Hd as Hf Hi. rewrite Hf, Hi.
      assert (deletes (ik_family k)) as Hdel by (destruct Hk; by apply deleted).
      pose proof (get_deleted (ik_family k) id m Hdel) as Hgone. rewrite E in Hgone. simpl in Hgone. by rewrite Hgone.
    + rewrite (del_frame _ _ _ _ _ _ _ E); [|left; by destruct k'|done]. rewrite Hm. by apply Hw.
Qed.

Lemma keeping_instance skip key req got w :
  own_uid req got w → owned_linked w → owned_linked (exec (instance_reconcile k skip key req got) w).
Proof. destruct got as [obj| |err]; [apply keeping_found|intros _; apply keeping_gone|done]. Qed.
End instance.

(** ** A run *)
Context {HR : FindingsReliable S}.

(** What Kubernetes guarantees of the UID of an object. *)
Definition uids_distinct (ev : Event) (w : World) : Prop :=
  match ev with
  | EvWorkload _ req got => own_uid WorkloadOps req got w
  | EvAPIResource _ req got => own_uid APIInstanceOps req got w
  | _ => True
  end.

Fixpoint uids_distinct_along (evs : list Event) (w : World) : Prop :=
  match evs with
  | [] => True
  | ev :: evs => uids_distinct ev w ∧ uids_distinct_along evs (exec (handle wl ev) w)
  end.

Lemma keeping_handle ev w :
  group_of ev = Some GInstances → uids_distinct ev w → owned_linked w → owned_linked (exec (handle wl ev) w).
Proof.
  destruct ev; try discriminate; intros _ Hu.
  - apply keeping_guar, handle_spares. done.
  - cbn [handle]. by apply keeping_instance; [constructor|].
  - by apply keeping_instance; [constructor|].
  - apply keeping_guar, handle_spares. done.
  - apply keeping_Helm.
Qed.

(** C8. A known owner is a linked owner: let one worker handle the events of
    workloads, Services and Ingresses, Helm releases and SystemInstance objects
    one after the other, in whatever order, while all other controllers run in
    any interleaving with it. At the end of every run every instance that is
    indexed under a name for which the index has an owner has a SystemInstance,
    if that was so at the start; as Kubernetes guarantees, no two objects share a
    UID, and the store accepts every resource and refuses only to delete what it
    does not have ([StoreExact]). *)
Theorem owned_instances_linked evs others w0 :
  Forall (λ ev, group_of ev = Some GInstances) evs → Forall (λ ev, group_of ev ≠ Some GInstances) others →
  owned_linked w0 → uids_distinct_along evs w0 →
  thread_ends 0 (λ _, owned_linked) (worker wl evs :: ((λ ev, worker wl [ev]) <$> others), w0).
Proof.
  intros Hevs Hothers H0 Hu.
  assert (owned_linked (exec (worker wl evs) w0)) as Hend.
  { clear Hothers others. revert w0 H0 Hu. induction Hevs as [|ev evs Hev _ IH]; intros w0 H0; [done|].
    intros [Hu Hus]. cbn [worker]. run_ops. by apply IH; [apply keeping_handle|]. }
  apply (worker_among_others wl evs GInstances others); [done..|]. intros w Hs.
  eapply owned_linked_spared; [|exact Hend]. apply (spares_weaken (group_part GInstances)); [set_solver..|done].
Qed.
End owners.
