(* ===== verification/Main.v ===== *)
(** * Main: the process of [src/cmd/main.go]

    [main] from the command line to its exit: the steps before the manager
    starts, each of which may end the process, the set of controllers that are
    set up and what each of them watches, the run of the manager, and the
    deregistration of the sensor. The manager, the backend, the network and the
    API server are third-party: the record [Externals] has their answers. *)

From S2P Require Import Prelude.
From S2P Require Import Prog.
From S2P Require Import Rely.
From S2P Require Import GoStrings.
From S2P Require Import HelmDecode.
From S2P Require Import K8s.
From S2P Require Import Lib.
From S2P Require Import Entities.
From S2P Require Import ModelSrv.
From S2P Require Import Registry.
From S2P Require Import CrdCheck.
From S2P Require Import State.
From S2P Require Import Convert.
From S2P Require Import RefFindings.
From S2P Require Import Whitelist.
From S2P Require Import HelmRelease.
From S2P Require Import CrdReporter.
From S2P Require Import Sensor.
From S2P Require Import Options.
From S2P Require Import System.
From S2P Require Import Footprint.

(** ** The controllers *)
Inductive Controller :=
| CSystem | CAPI | CComponent | CSystemInstance
| CWorkload (k : WorkloadKind) | CAPIResource (k : APIKind)
| CBinding (k : BindingKind) | CRole (k : RoleKind)
| CNamespace | CFallback | CImageScan | CFindingRule | CHelmRelease.

(** In the order of [main], up to the finding types and behind them. *)
Definition early_controllers : list Controller :=
  [CSystem; CAPI; CComponent; CSystemInstance;
   CWorkload Deployment; CWorkload StatefulSet; CWorkload DaemonSet; CWorkload CronJob; CWorkload Job;
   CAPIResource Service; CAPIResource Ingress].
Definition late_controllers (has_reporter helmReleaseScanning : bool) : list Controller :=
  [CBinding KRoleBinding; CBinding KClusterRoleBinding; CRole KRole; CRole KClusterRole; CNamespace] ++
  (if has_reporter then [CFallback] else []) ++
  [CImageScan; CFindingRule] ++
  (if helmReleaseScanning then [CHelmRelease] else []).

(** *** What a controller watches: the [SetupWithManager] methods *)

(** An object of an event: its type, its name, and the type of a Secret. *)
Record ClientObject := mkClientObject { co_Type : string; co_Name : NamespacedName; co_SecretType : string }.

Definition helmSecretPredicate (obj : ClientObject) : bool :=
  bool_decide (co_Type obj = "Secret") && bool_decide (co_SecretType obj = helmSecretType).

Definition clusterImageScanRequest : NamespacedName := mkNN "" "cluster".
Definition mapToClusterScan (_ : ClientObject) : list NamespacedName := [clusterImageScanRequest].

Inductive Source :=
| For (type : string) (predicate : ClientObject → bool)
| Watches (type : string) (map : ClientObject → list NamespacedName)
| RequeueChannel
| Runnable
| Informer (type : string).

Definition any_object (_ : ClientObject) : bool := true.

Definition workload_type (k : WorkloadKind) : string :=
  match k with
  | Deployment => "Deployment" | StatefulSet => "StatefulSet" | DaemonSet => "DaemonSet"
  | CronJob => "CronJob" | Job => "Job"
  end.
Definition api_type (k : APIKind) : string := match k with Service => "Service" | Ingress => "Ingress" end.

Definition SystemReconciler_SetupWithManager : list Source := [For "structure.emeland.io/System" any_object].
Definition APIReconciler_SetupWithManager : list Source := [For "structure.emeland.io/API" any_object].
Definition ComponentReconciler_SetupWithManager : list Source := [For "structure.emeland.io/Component" any_object].
Definition SystemInstanceReconciler_SetupWithManager : list Source :=
  [For "structure.emeland.io/SystemInstance" any_object].
Definition WorkloadReconciler_SetupWithManager (k : WorkloadKind) : list Source := [For (workload_type k) any_object].
Definition APIInstanceReconciler_SetupWithManager (k : APIKind) : list Source := [For (api_type k) any_object].
Definition RoleBindingReconciler_SetupWithManager (k : BindingKind) : list Source :=
  [For (binding_kind k) any_object; RequeueChannel].
Definition RoleReconciler_SetupWithManager (k : RoleKind) : list Source := [For (role_kind k) any_object].
Definition NamespaceReconciler_SetupWithManager : list Source := [For "Namespace" any_object].
Definition SetupCRDMissingFallback : list Source := [Runnable].
Definition ImageScanReconciler_SetupWithManager : list Source := [Watches "Pod" mapToClusterScan].
Definition FindingRuleWatcher_SetupWithManager : list Source := [Informer "structure.emeland.io/FindingRule"].
Definition HelmReleaseReconciler_SetupWithManager : list Source := [Runnable; For "Secret" helmSecretPredicate].

Definition SetupWithManager (c : Controller) : list Source :=
  match c with
  | CSystem => SystemReconciler_SetupWithManager
  | CAPI => APIReconciler_SetupWithManager
  | CComponent => ComponentReconciler_SetupWithManager
  | CSystemInstance => SystemInstanceReconciler_SetupWithManager
  | CWorkload k => WorkloadReconciler_SetupWithManager k
  | CAPIResource k => APIInstanceReconciler_SetupWithManager k
  | CBinding k => RoleBindingReconciler_SetupWithManager k
  | CRole k => RoleReconciler_SetupWithManager k
  | CNamespace => NamespaceReconciler_SetupWithManager
  | CFallback => SetupCRDMissingFallback
  | CImageScan => ImageScanReconciler_SetupWithManager
  | CFindingRule => FindingRuleWatcher_SetupWithManager
  | CHelmRelease => HelmReleaseReconciler_SetupWithManager
  end.

Create HintDb wiring.
#[local] Hint Unfold SystemReconciler_SetupWithManager APIReconciler_SetupWithManager
  ComponentReconciler_SetupWithManager SystemInstanceReconciler_SetupWithManager WorkloadReconciler_SetupWithManager
  APIInstanceReconciler_SetupWithManager RoleBindingReconciler_SetupWithManager RoleReconciler_SetupWithManager
  NamespaceReconciler_SetupWithManager SetupCRDMissingFallback ImageScanReconciler_SetupWithManager
  FindingRuleWatcher_SetupWithManager HelmReleaseReconciler_SetupWithManager : wiring.

(** The requests an event about [obj] puts into the queue of a controller. *)
Definition source_requests (s : Source) (obj : ClientObject) : list NamespacedName :=
  match s with
  | For type predicate => if bool_decide (co_Type obj = type) && predicate obj then [co_Name obj] else []
  | Watches type map => if bool_decide (co_Type obj = type) then map obj else []
  | RequeueChannel | Runnable | Informer _ => []
  end.
Definition requests (c : Controller) (obj : ClientObject) : list NamespacedName :=
  mjoin ((λ s, source_requests s obj) <$> SetupWithManager c).

(** *** Routing *)

(** The type of the objects a source reacts to. *)
Definition source_type (s : Source) : option string :=
  match s with For t _ | Watches t _ => Some t | RequeueChannel | Runnable | Informer _ => None end.
Definition watched_types (c : Controller) : list string := omap source_type (SetupWithManager c).

Lemma requests_watched c obj : requests c obj ≠ [] → co_Type obj ∈ watched_types c.
Proof.
  unfold requests, watched_types. induction (SetupWithManager c) as [|s l IH]; [done|].
  rewrite fmap_cons. cbn [mjoin list_join]. intros Hne.
  destruct (source_requests s obj) as [|r rs] eqn:E.
  - apply IH in Hne. simpl. destruct (source_type s); [by right|done].
  - destruct s; simpl in E; try done; (case_bool_decide; [subst; by left|done]).
Qed.

Lemma watched_one c t : t ∈ watched_types c → watched_types c = [t].
Proof. destruct c as [| | | |[]|[]|[]|[]| | | | |]; vm_compute; set_solver. Qed.

Lemma watched_inj c1 c2 : watched_types c1 = watched_types c2 → watched_types c1 ≠ [] → c1 = c2.
Proof.
  destruct c1 as [| | | |[]|[]|[]|[]| | | | |], c2 as [| | | |[]|[]|[]|[]| | | | |]; vm_compute; done.
Qed.

(** The one request of an object. *)
Definition request_of (obj : ClientObject) : NamespacedName :=
  if bool_decide (co_Type obj = "Pod") then clusterImageScanRequest else co_Name obj.

Lemma source_requests_one s obj :
  match s with
  | For t _ => t ≠ "Pod"
  | Watches t map => t = "Pod" ∧ map = mapToClusterScan
  | _ => True
  end →
  source_requests s obj ≠ [] → source_requests s obj = [request_of obj].
Proof.
  unfold request_of. destruct s as [t p|t f| | |t]; simpl; try done.
  - intros Ht. destruct (decide (co_Type obj = t)) as [<-|Hne].
    + rewrite (bool_decide_eq_true_2 (_ = _)), (bool_decide_eq_false_2 _ Ht) by done. by destruct (p obj).
    + by rewrite bool_decide_eq_false_2.
  - intros [-> ->]. by destruct (decide (co_Type obj = "Pod")); [rewrite bool_decide_eq_true_2|rewrite bool_decide_eq_false_2].
Qed.

Lemma requests_one c obj : requests c obj ≠ [] → requests c obj = [request_of obj].
Proof.
  unfold requests.
  destruct c as [| | | |[]|[]|[]|[]| | | | |]; cbn [SetupWithManager]; autounfold with wiring;
    cbn [fmap list_fmap mjoin list_join source_requests]; rewrite ?app_nil_r; try done.
  all: by apply (source_requests_one (For _ _)) || by apply (source_requests_one (Watches _ _)).
Qed.

(** Every object has one reconciler: the queues of two controllers never
    receive a request for the same object, and what they receive is the name of
    the object, except for Pods, whose events all become the one request of the
    cluster-wide scan. *)
Theorem one_reconciler_per_object c1 c2 obj :
  requests c1 obj ≠ [] → requests c2 obj ≠ [] →
  c1 = c2 ∧ requests c1 obj = [if bool_decide (co_Type obj = "Pod") then clusterImageScanRequest else co_Name obj].
Proof.
  intros H1 H2. split; [|by apply requests_one].
  apply requests_watched, watched_one in H1, H2. apply watched_inj; congruence.
Qed.

(** ** The process *)

Inductive MainExit := Exited (status : Z) | Returned.

Section main.
Context {L : Lib} {S : ModelSrv} {C : HelmCodecs}.

Record Externals := mkExternals {
  x_foreign_flag : string → option (bool * (string → bool));
  x_NewManager : option string;
  x_NewBackend : option string;
  x_EventManager : Type;
  x_events : x_EventManager;
  x_AddSubscriber : string → x_EventManager → x_EventManager * option string;
  x_ReadFile : string → string + string;
  x_Unmarshal : string → string + RBACWhitelist;
  x_NewUUID : uuid;
  x_discovery : option Discovery;
  x_Setup : Controller → option string;
  x_AddHealthzCheck : option string;
  x_AddReadyzCheck : option string;
  x_Listen : string → string + string;
  (** the error of [mgr.Start], which blocks until a signal comes *)
  x_Start : World → option string
}.
Context (x : Externals).

(** [if err != nil { os.Exit(1) }] *)
Definition check {E} (err : option E) (k : action MainExit) : action MainExit :=
  match err with Some _ => Ret (Exited 1) | None => k end.

(** The first controller that cannot be set up. *)
Fixpoint setup_all (cs : list Controller) : option string :=
  match cs with
  | [] => None
  | c :: cs => match x_Setup x c with Some err => Some err | None => setup_all cs end
  end.

(** The handler of the API server and the address it listens at. *)
Definition startAPIServer (addr : string) (allowInboundPush : bool) : string + ReplicationGuard * string :=
  match x_Listen x addr with
  | inl err => inl ("listen " +:+ addr +:+ ": " +:+ err)
  | inr apiListenAddr => inr (mkReplicationGuard allowInboundPush, apiListenAddr)
  end.

(** From the start of the manager on. *)
Definition run_manager (sensorID : Identity) : action MainExit :=
  err <- reading (x_Start x) ;;
  check err (_ <- Close (Some sensorID) ;; Ret Returned).

(** Behind the registration of the finding types. *)
Definition setup_rest (o : Options) (crdReporter : option Reporter) (sensorID : Identity) : action MainExit :=
  check (setup_all (late_controllers (bool_decide (is_Some crdReporter)) (helmReleaseScanning o)))
    (check (x_AddHealthzCheck x)
      (check (x_AddReadyzCheck x)
        (match startAPIServer (apiAddr o) (allowInboundPush o) with
         | inl _ => Ret (Exited 1)
         | inr _ => run_manager sensorID
         end))).

(** Behind the loading of the whitelist. *)
Definition register_sensor (o : Options) : action MainExit :=
  sensorID <- Register (x_NewUUID x) ;;
  match sensorID with
  | inl _ => Ret (Exited 1)
  | inr sensorID =>
      match runCRDCheck (crdChecklistRaw o) (x_discovery x) (NodeID sensorID) with
      | None => Ret (Exited 1)
      | Some crdReporter =>
          writing (set_reporter crdReporter) ;;
          check (setup_all early_controllers)
            (err <- mustRegisterFindingTypes ;; check err (setup_rest o crdReporter sensorID))
      end
  end.

(** [None]: the process has exited with status 1. *)
Definition mustLoadRBACWhitelist (path : string) : option RBACWhitelist :=
  match LoadRBACWhitelist (x_ReadFile x) (x_Unmarshal x) path with inl _ => None | inr wl => Some wl end.

Definition main (LookupEnv : string → option string) (args : list string) : action MainExit :=
  match parse (x_foreign_flag x) args ∅ with
  | UsageExit status => Ret (Exited status)
  | Given given =>
      let o := options LookupEnv given in
      check (x_NewManager x)
        (check (x_NewBackend x)
          (check (registerSubscribers (x_AddSubscriber x) (subscriberURLs o) (x_events x)).2
            (match mustLoadRBACWhitelist (rbacWhitelistPath o) with
             | None => Ret (Exited 1)
             | Some _ => register_sensor o
             end)))
  end.
End main.

(** ** What becomes of the process *)
Section facts.
Context {L : Lib} {LL : LibLaws} {S : ModelSrv} {C : HelmCodecs} {HL : ModelSrvLaws S}.
Context (x : Externals) (LookupEnv : string → option string) (args : list string) (o : Options) (wl : RBACWhitelist).

(** Everything third-party that [main] calls before the manager starts works. *)
Record externals_ok : Prop := {
  ok_args : ∃ given, parse (x_foreign_flag x) args ∅ = Given given ∧ options LookupEnv given = o;
  ok_manager : x_NewManager x = None;
  ok_backend : x_NewBackend x = None;
  ok_subscribers : (registerSubscribers (x_AddSubscriber x) (subscriberURLs o) (x_events x)).2 = None;
  ok_whitelist : LoadRBACWhitelist (x_ReadFile x) (x_Unmarshal x) (rbacWhitelistPath o) = inr wl;
  ok_setup c : x_Setup x c = None;
  ok_healthz : x_AddHealthzCheck x = None;
  ok_readyz : x_AddReadyzCheck x = None;
  ok_listen : ∃ addr, x_Listen x (apiAddr o) = inr addr
}.

Lemma setup_all_ok cs : (∀ c, x_Setup x c = None) → setup_all x cs = None.
Proof. intros Hc. induction cs as [|c cs IH]; simpl; [done|]. by rewrite Hc. Qed.

Lemma main_ok : externals_ok → main x LookupEnv args = register_sensor x o.
Proof.
  intros [(given & Hp & Ho) H1 H2 H3 H4 _ _ _ _]. unfold main. rewrite Hp, Ho, H1, H2. unfold mustLoadRBACWhitelist. simpl. by rewrite H3, H4.
Qed.

Lemma setup_rest_ok rep id : externals_ok → setup_rest x o rep id = run_manager x id.
Proof.
  intros [_ _ _ _ _ H1 H2 H3 (addr & H4)]. unfold setup_rest, startAPIServer. by rewrite setup_all_ok, H2, H3, H4.
Qed.

(** C24. [main] is its startup, the manager and the deregistration: when the
    third-party calls before the manager succeed, the process exits with status
    1 if the startup (registration, checklist, finding types) fails; otherwise
    the manager starts in the state the startup has reached, an error of the
    manager ends the process with status 1 in that state, and a stop by a
    signal removes the sensor's Node before [main] returns. *)
Theorem main_runs m :
  externals_ok →
  let p := startup (x_NewUUID x) (crdChecklistRaw o) (x_discovery x) in
  let w := exec p (boot m) in
  match result p (boot m) with
  | None => result (main x LookupEnv args) (boot m) = Exited 1
  | Some id =>
      match x_Start x w with
      | Some _ => run (main x LookupEnv args) (boot m) = (Exited 1, w)
      | None => run (main x LookupEnv args) (boot m) = (Returned, exec (Close (Some id)) w)
      end
  end.
Proof.
  intros Hok p w. subst w p. rewrite (main_ok Hok). unfold register_sensor, startup.
  rewrite !result_bind, !exec_bind.
  set (w1 := exec (Register (x_NewUUID x)) (boot m)).
  destruct (result (Register (x_NewUUID x)) (boot m)) as [err|id] eqn:E1; [done|].
  destruct (runCRDCheck (crdChecklistRaw o) (x_discovery x) (NodeID id)) as [rep|] eqn:E2; [|done].
  rewrite setup_all_ok by apply Hok. cbn [check].
  rewrite !result_bind, !exec_bind, !exec_writing. set (w2 := set_reporter rep w1).
  destruct (result mustRegisterFindingTypes w2) as [err|] eqn:E; [done|].
  rewrite result_Ret, exec_Ret. cbv zeta. set (w3 := exec mustRegisterFindingTypes w2).
  rewrite !run_bind, E1, E2. fold w1.
  rewrite !run_bind, exec_writing. fold w2. rewrite E. fold w3. cbn [check]. rewrite (setup_rest_ok rep id Hok).
  unfold run_manager. rewrite !run_bind, result_reading, exec_reading.
  destruct (x_Start x w3) as [err|]; [done|]. cbn [check]. by rewrite !run_bind.
Qed.

(** *** The sensor's Node while the controllers run *)

Abbreviation nodeID := (x_NewUUID x).

(** No controller writes Nodes. *)
Definition node_part : Footprint := mkFootprint [FNode] [] [].
Abbreviation R := (spares node_part).

Definition node_is (e : option Entity) (w : World) : Prop := get FNode nodeID (w_model w) = e.

Abbreviation node_present := (node_is (Some (ENode (sensorNode nodeID)))).

Lemma node_stable e w w' : node_is e w → R w w' → node_is e w'.
Proof. intros Hw [Hg _ _]. unfold node_is. by rewrite Hg by left. Qed.

(** An operation on another family keeps the Node; the store accepts it. *)
Lemma node_add e e' :
  family_of e' ≠ FNode → accepts (family_of e') → safe (node_is e) (λ r, r = None) (Model_Add e').
Proof.
  intros Hf Ha w Hw. split; [|by apply Ha]. unfold node_is in *. simpl.
  destruct (add e' (w_model w)) as [m r] eqn:E. simpl.
  rewrite (add_frame _ _ _ _ _ _ E); [done|by left|congruence].
Qed.

Lemma node_registerFindingTypes e types :
  accepts FFindingType → safe (node_is e) (λ r, r = None) (registerFindingTypes types).
Proof.
  intros Ha. induction types as [|t types IH]; [done|]. cbn [registerFindingTypes].
  eapply safe_bind; [by apply node_add|]. by intros r ->.
Qed.

Lemma node_mustRegister e : accepts FFindingType → safe (node_is e) (λ r, r = None) mustRegisterFindingTypes.
Proof.
  intros Ha. unfold mustRegisterFindingTypes.
  eapply safe_bind; [by apply node_registerFindingTypes|]. intros r ->.
  eapply safe_bind; [by apply node_registerFindingTypes|]. intros r ->. by apply node_add.
Qed.

Lemma node_Register w :
  accepts FNodeType → accepts FNode → accepts FContextType →
  wp R (λ r w, r = inr (mkSensorIdentity nodeID) ∧ node_present w) (Register nodeID) w.
Proof.
  intros H1 H2 H3. unfold Register. apply wp_bind, (wp_atomic R (λ _, True)); [done|done|]. intros w1 _ w2 _.
  simpl. rewrite (H1 (ENodeType _) _ eq_refl).
  apply wp_bind, (wp_atomic R (λ _, True)); [done|done|]. intros w3 _ w4 Hw4.
  apply (stable_rtc R node_present) in Hw4; [|apply node_stable|].
  2: { apply (get_accepted (ENode (sensorNode nodeID)) (w_model w3)), H2. }
  simpl. rewrite (H2 (ENode _) _ eq_refl). apply wp_bind.
  eapply wp_mono; [apply (wp_safe R node_present (λ r, r = None)); [apply node_stable|by apply node_add|exact Hw4]|].
  intros r w5 [-> Hw5]. intros w6 Hw6. split; [done|]. by eapply (stable_rtc R); [apply node_stable|..].
Qed.

(** The exit of the process and the Node. *)
Definition node_at_exit (r : MainExit) : World → Prop :=
  node_is (match r with Returned => None | Exited _ => Some (ENode (sensorNode nodeID)) end).

Lemma node_run_manager id w :
  deletes FNode → NodeID id = nodeID → node_present w →
  wp R node_at_exit (run_manager x id) w.
Proof.
  intros Hd Hid Hw. unfold run_manager. apply wp_bind.
  apply (wp_atomic R node_present _ (λ w, (x_Start x w, w))); [apply node_stable|done|].
  intros w1 Hw1 w2 Hw2. apply (stable_rtc R _ _ _ (node_stable _) Hw1) in Hw2. cbn [fst].
  destruct (x_Start x w1) as [err|]; cbn [check].
  - intros w3 Hw3. by eapply (stable_rtc R); [apply node_stable|..].
  - apply wp_bind. unfold Close. rewrite Hid.
    apply (wp_atomic R (λ _, True)); [done|done|]. intros w3 _ w4 Hw4 w5 Hw5.
    apply (stable_rtc R (node_at_exit Returned) (set_model (del FNode nodeID (w_model w3)).1 w3));
      [apply node_stable|by apply (get_deleted FNode nodeID (w_model w3))|by etrans].
Qed.

Lemma node_main w :
  externals_ok → is_Some (runCRDCheck (crdChecklistRaw o) (x_discovery x) nodeID) →
  accepts FNodeType → accepts FNode → accepts FContextType → accepts FFindingType → deletes FNode →
  wp R node_at_exit (main x LookupEnv args) w.
Proof.
  intros Hok [rep Hrep] H1 H2 H3 H4 Hd. rewrite (main_ok Hok). unfold register_sensor. apply wp_bind.
  eapply wp_mono; [by apply node_Register|]. intros r w1 [-> Hw1]. cbn [NodeID]. rewrite Hrep.
  apply wp_bind. eapply wp_mono; [apply (wp_safe R node_present (λ _, True)); [apply node_stable|by apply safe_writing|exact Hw1]|].
  intros u w2 [_ Hw2]. rewrite setup_all_ok by apply Hok. cbn [check]. apply wp_bind.
  eapply wp_mono; [apply (wp_safe R node_present (λ r, r = None)); [apply node_stable|by apply node_mustRegister|exact Hw2]|].
  intros r w3 [-> Hw3]. cbn [check]. rewrite setup_rest_ok by done. by apply node_run_manager.
Qed.

(** The threads of the process: [main] and the handlers the manager calls. *)
Definition main_thread : action (MainExit + Outcome) := r <- main x LookupEnv args ;; Ret (inl r).
Definition handler_thread (ev : Event) : action (MainExit + Outcome) := r <- handle wl ev ;; Ret (inr r).

(** C19. The sensor's Node lives exactly as long as a process that is stopped
    by a signal: whatever the controllers do meanwhile, the Node is gone from
    the model when [main] returns; but when the manager fails, the process
    exits without deregistering it, and the Node is left behind. In every run
    [main] comes to its end. *)
Theorem main_node_lifecycle m evs :
  externals_ok → is_Some (runCRDCheck (crdChecklistRaw o) (x_discovery x) nodeID) →
  accepts FNodeType → accepts FNode → accepts FContextType → accepts FFindingType → deletes FNode →
  thread_ends 0
    (λ r w, get FNode nodeID (w_model w) =
       match r with inl Returned => None | _ => Some (ENode (sensorNode nodeID)) end)
    (main_thread :: (handler_thread <$> evs), boot m).
Proof.
  intros Hok Hcrd H1 H2 H3 H4 Hd. apply (wp_thread_ends R _ 0 main_thread); [done| |].
  - apply wp_bind. eapply wp_mono; [by apply node_main|]. intros r w1 Hr w2 Hw2.
    apply (stable_rtc R (node_at_exit r)) in Hw2; [by destruct r|apply node_stable|exact Hr].
  - intros [|j] t Hj; [done|]. simpl. rewrite list_lookup_fmap_Some. intros (ev & -> & _).
    apply guar_bind; [|done]. apply handle_spares. by destruct ev.
Qed.
End facts.
