(* ===== verification/Wiring.v ===== *)
(** * Wiring: the objects [main] builds

    The structs of the reconcilers of [src/internal/controller] with their
    constructors, and the part of [main] in [src/cmd/main.go] that allocates
    them and connects them through pointers: one name index, one rule registry,
    one evaluator, one CRD reporter, a requeue channel for each binding
    reconciler. The other files know the result only: [System.handle] calls the
    methods with the values the fields have, on one [World]. Here the fields are
    read from the memory [main] leaves, and the two are proved to agree. *)

From S2P Require Import Prelude.
From S2P Require Import Prog.
From S2P Require Import GoHeap.
From S2P Require Import HelmDecode.
From S2P Require Import K8s.
From S2P Require Import Lib.
From S2P Require Import Entities.
From S2P Require Import ModelSrv.
From S2P Require Import Registry.
From S2P Require Import RuleRepo.
From S2P Require Import State.
From S2P Require Import Convert.
From S2P Require Import Evaluator.
From S2P Require Import CrdControllers.
From S2P Require Import Whitelist.
From S2P Require Import Rbac.
From S2P Require Import Instances.
From S2P Require Import HelmRelease.
From S2P Require Import Namespace.
From S2P Require Import ImageScan.
From S2P Require Import System.
From S2P Require Import Main.

(** ** The structs

    A pointer, or an interface value that holds one, is a location or nil. A
    prototype is an empty object, which is only copied: it is named by its type.
    A mutex has no content: what it protects is one atomic step of [State]. *)
Abbreviation Pointer := (option loc).

Record Evaluator := mkEvaluator { ev_Model : Pointer }.
Record RuleEvaluation := mkRuleEvaluation {
  re_Rules : Pointer;
  re_Evaluator : Pointer;
  re_ResourceType : string
}.

Record SystemReconciler := mkSystemReconciler {
  sr_Client : Pointer; sr_Scheme : Pointer; sr_Model : Pointer; sr_Index : Pointer; sr_RuleEval : Pointer
}.
Record APIReconciler := mkAPIReconciler {
  ar_Client : Pointer; ar_Scheme : Pointer; ar_Model : Pointer; ar_Index : Pointer; ar_RuleEval : Pointer
}.
Record ComponentReconciler := mkComponentReconciler {
  cr_Client : Pointer; cr_Scheme : Pointer; cr_Model : Pointer; cr_Index : Pointer; cr_RuleEval : Pointer
}.
Record SystemInstanceReconciler := mkSystemInstanceReconciler {
  ir_Client : Pointer; ir_Scheme : Pointer; ir_Model : Pointer; ir_Index : Pointer; ir_RuleEval : Pointer
}.
Record WorkloadReconciler := mkWorkloadReconciler {
  wr_Client : Pointer; wr_Scheme : Pointer; wr_Model : Pointer; wr_Index : Pointer; wr_RuleEval : Pointer;
  wr_prototype : string; wr_kind : string; wr_skipFunc : option (ObjectMeta → bool)
}.
Record APIInstanceReconciler := mkAPIInstanceReconciler {
  nr_Client : Pointer; nr_Scheme : Pointer; nr_Model : Pointer; nr_Index : Pointer; nr_RuleEval : Pointer;
  nr_prototype : string; nr_kind : string
}.
Record RoleBindingReconciler := mkRoleBindingReconciler {
  br_Client : Pointer; br_Scheme : Pointer; br_Model : Pointer; br_Index : Pointer;
  br_Whitelist : option RBACWhitelist;
  br_prototype : string; br_kind : string; br_requeue : Pointer
}.
Record RoleReconciler := mkRoleReconciler {
  rr_Client : Pointer; rr_Scheme : Pointer; rr_Model : Pointer; rr_Index : Pointer;
  rr_Whitelist : option RBACWhitelist;
  rr_prototype : string; rr_kind : string; rr_bindingReconcilers : list loc
}.
Record crdMissingFallback := mkCrdMissingFallback { cf_Client : Pointer; cf_Reporter : Pointer }.
Record ImageScanReconciler := mkImageScanReconciler {
  is_Client : Pointer; is_Scheme : Pointer; is_Model : Pointer; is_Index : Pointer
}.
Record FindingRuleWatcher := mkFindingRuleWatcher { fw_Repo : Pointer }.
Record HelmReleaseReconciler := mkHelmReleaseReconciler {
  hr_Client : Pointer; hr_Scheme : Pointer; hr_Model : Pointer; hr_Index : Pointer;
  hr_latestRevision : gmap string Z
}.

Section wiring.
Context {L : Lib} {S : ModelSrv} {C : HelmCodecs}.

Record NamespaceReconciler := mkNamespaceReconciler {
  kr_Client : Pointer; kr_Scheme : Pointer; kr_Model : Pointer; kr_Index : Pointer; kr_RuleEval : Pointer;
  kr_CRDReporter : Pointer; kr_clusterContextID : uuid
}.

(** ** Memory *)
Inductive Cell :=
| CellClient | CellScheme | CellModel
| CellNameIndex (x : NameIndex)
| CellRuleRepo (x : RuleRepo)
| CellEvaluator (x : Evaluator)
| CellRuleEvaluation (x : RuleEvaluation)
| CellReporter (x : Reporter)
| CellChan (capacity : nat) (x : list NamespacedName)
| CellSystem (x : SystemReconciler)
| CellAPI (x : APIReconciler)
| CellComponent (x : ComponentReconciler)
| CellSystemInstance (x : SystemInstanceReconciler)
| CellWorkload (x : WorkloadReconciler)
| CellAPIInstance (x : APIInstanceReconciler)
| CellBinding (x : RoleBindingReconciler)
| CellRole (x : RoleReconciler)
| CellNamespace (x : NamespaceReconciler)
| CellFallback (x : crdMissingFallback)
| CellImageScan (x : ImageScanReconciler)
| CellFindingRule (x : FindingRuleWatcher)
| CellHelmRelease (x : HelmReleaseReconciler).

(** The structs with a field or a method that is assigned later. *)
#[local] Instance type_Workload : GoType Cell WorkloadReconciler := {|
  box := CellWorkload;
  unbox c := match c with CellWorkload x => Some x | _ => None end;
  zero := mkWorkloadReconciler None None None None None "" "" None
|}.
#[local] Instance type_APIInstance : GoType Cell APIInstanceReconciler := {|
  box := CellAPIInstance;
  unbox c := match c with CellAPIInstance x => Some x | _ => None end;
  zero := mkAPIInstanceReconciler None None None None None "" ""
|}.
#[local] Instance type_Role : GoType Cell RoleReconciler := {|
  box := CellRole;
  unbox c := match c with CellRole x => Some x | _ => None end;
  zero := mkRoleReconciler None None None None None "" "" []
|}.

Definition WorkloadReconciler_RuleEval : Lens WorkloadReconciler Pointer :=
  mkLens wr_RuleEval (λ e r, mkWorkloadReconciler (wr_Client r) (wr_Scheme r) (wr_Model r) (wr_Index r) e
                               (wr_prototype r) (wr_kind r) (wr_skipFunc r)).
Definition APIInstanceReconciler_RuleEval : Lens APIInstanceReconciler Pointer :=
  mkLens nr_RuleEval (λ e r, mkAPIInstanceReconciler (nr_Client r) (nr_Scheme r) (nr_Model r) (nr_Index r) e
                               (nr_prototype r) (nr_kind r)).
Definition RoleReconciler_bindingReconcilers : Lens RoleReconciler (list loc) :=
  mkLens rr_bindingReconcilers (λ l r, mkRoleReconciler (rr_Client r) (rr_Scheme r) (rr_Model r) (rr_Index r)
                                         (rr_Whitelist r) (rr_prototype r) (rr_kind r) l).

(** ** The constructors *)
Section constructors.
(** What most of them are called with: the client and the scheme of the
    manager, the model, and the index. *)
Context (c s m idx : Pointer).

Definition new_NameIndex : Mem Cell loc := alloc (CellNameIndex NewNameIndex).
Definition new_RuleRepo : Mem Cell loc := alloc (CellRuleRepo NewRuleRepo).
Definition NewEvaluator : Mem Cell loc := alloc (CellEvaluator (mkEvaluator m)).
Definition NewRuleEvaluation (repo eval : Pointer) (resourceType : string) : Mem Cell loc :=
  alloc (CellRuleEvaluation (mkRuleEvaluation repo eval resourceType)).

Definition NewWorkloadReconciler (prototype kind : string) (skipFunc : option (ObjectMeta → bool)) : Mem Cell loc :=
  alloc (CellWorkload (mkWorkloadReconciler c s m idx None prototype kind skipFunc)).
Definition NewAPIInstanceReconciler (prototype kind : string) : Mem Cell loc :=
  alloc (CellAPIInstance (mkAPIInstanceReconciler c s m idx None prototype kind)).
Definition NewRoleBindingReconciler (prototype kind : string) (wl : option RBACWhitelist) : Mem Cell loc :=
  requeue ← alloc (CellChan requeue_capacity []);
  alloc (CellBinding (mkRoleBindingReconciler c s m idx wl prototype kind (Some requeue))).
Definition NewRoleReconciler (prototype kind : string) (wl : option RBACWhitelist) : Mem Cell loc :=
  alloc (CellRole (mkRoleReconciler c s m idx wl prototype kind [])).

Definition SetBindingReconciler (r rbc : loc) : Mem Cell unit :=
  let field := block r ⇢ RoleReconciler_bindingReconcilers in
  rbcs ← load field; store field (rbcs ++ [rbc]).

(** ** [main]: the objects *)

(** The reconciler a constructor returns is set up with the manager at once. *)
Section tables.
Context (ruleRepo evaluator : Pointer).

Definition crdControllers : Mem Cell (list loc) :=
  e1 ← NewRuleEvaluation ruleRepo evaluator "structure.emeland.io/systems";
  r1 ← alloc (CellSystem (mkSystemReconciler c s m idx (Some e1)));
  e2 ← NewRuleEvaluation ruleRepo evaluator "structure.emeland.io/apis";
  r2 ← alloc (CellAPI (mkAPIReconciler c s m idx (Some e2)));
  e3 ← NewRuleEvaluation ruleRepo evaluator "structure.emeland.io/components";
  r3 ← alloc (CellComponent (mkComponentReconciler c s m idx (Some e3)));
  e4 ← NewRuleEvaluation ruleRepo evaluator "structure.emeland.io/systeminstances";
  r4 ← alloc (CellSystemInstance (mkSystemInstanceReconciler c s m idx (Some e4)));
  mret [r1; r2; r3; r4].

Record WorkloadRow := mkWorkloadRow {
  w_kind : string; w_resourceType : string; w_prototype : string; w_skipFunc : option (ObjectMeta → bool)
}.
Definition workloads : list WorkloadRow := [
  mkWorkloadRow "Deployment" "apps/deployments" "Deployment" None;
  mkWorkloadRow "StatefulSet" "apps/statefulsets" "StatefulSet" None;
  mkWorkloadRow "DaemonSet" "apps/daemonsets" "DaemonSet" None;
  mkWorkloadRow "CronJob" "batch/cronjobs" "CronJob" None;
  mkWorkloadRow "Job" "batch/jobs" "Job" (Some IsOwnedByCronJob)].
Definition setup_workload (w : WorkloadRow) : Mem Cell loc :=
  r ← NewWorkloadReconciler (w_prototype w) (w_kind w) (w_skipFunc w);
  e ← NewRuleEvaluation ruleRepo evaluator (w_resourceType w);
  _ ← store (block r ⇢ WorkloadReconciler_RuleEval) (Some e);
  mret r.

Record APIRow := mkAPIRow { a_kind : string; a_resourceType : string; a_prototype : string }.
Definition apiResources : list APIRow := [
  mkAPIRow "Service" "/services" "Service";
  mkAPIRow "Ingress" "networking.k8s.io/ingresses" "Ingress"].
Definition setup_apiResource (a : APIRow) : Mem Cell loc :=
  r ← NewAPIInstanceReconciler (a_prototype a) (a_kind a);
  e ← NewRuleEvaluation ruleRepo evaluator (a_resourceType a);
  _ ← store (block r ⇢ APIInstanceReconciler_RuleEval) (Some e);
  mret r.
End tables.

Record RBACRow := mkRBACRow { rb_kind : string; rb_prototype : string }.
Definition rbacBindings : list RBACRow :=
  [mkRBACRow "RoleBinding" "RoleBinding"; mkRBACRow "ClusterRoleBinding" "ClusterRoleBinding"].
Definition rbacRoles : list RBACRow := [mkRBACRow "Role" "Role"; mkRBACRow "ClusterRole" "ClusterRole"].

Definition setup_role (wl : option RBACWhitelist) (bindingReconcilers : list loc) (rr : RBACRow) : Mem Cell loc :=
  rc ← NewRoleReconciler (rb_prototype rr) (rb_kind rr) wl;
  _ ← mapM (SetBindingReconciler rc) bindingReconcilers;
  mret rc.

(** [SetupCRDMissingFallback]: no runnable without a reporter. *)
Definition setup_fallback (reporter : Pointer) : Mem Cell (list loc) :=
  match reporter with
  | None => mret []
  | Some _ => f ← alloc (CellFallback (mkCrdMissingFallback c reporter)); mret [f]
  end.

(** [mustSetupImageScan] *)
Definition mustSetupImageScan : Mem Cell loc := alloc (CellImageScan (mkImageScanReconciler c s m idx)).

(** [inl]: the error for a missing registry. *)
Definition NewFindingRuleWatcher (repo : Pointer) : Mem Cell (string + loc) :=
  match repo with
  | None => mret (inl "rule repo is required")
  | Some _ => w ← alloc (CellFindingRule (mkFindingRuleWatcher repo)); mret (inr w)
  end.
End constructors.

(** The shared objects, and the binding reconcilers that are set up: the
    manager drains their channels. *)
Record Objects := mkObjects {
  o_Client : loc; o_Model : loc; o_Index : loc; o_Rules : loc; o_Reporter : Pointer;
  o_Bindings : list loc
}.

(** All that [main] builds when every setup succeeds, the controllers in the
    order of their setup; [inl]: it exits. *)
Definition build (rep : option Reporter) (helmReleaseScanning : bool) (rbacWhitelist : option RBACWhitelist)
    : Mem Cell (string + Objects * list loc) :=
  c ← alloc CellClient;
  s ← alloc CellScheme;
  emModel ← alloc CellModel;
  nameIndex ← new_NameIndex;
  ruleRepo ← new_RuleRepo;
  evaluator ← NewEvaluator (Some emModel);
  crdReporter ← match rep with
                | None => mret None
                | Some r => l ← alloc (CellReporter r); mret (Some l)
                end;
  let c' := Some c in let s' := Some s in let m' := Some emModel in let idx := Some nameIndex in
  let repo := Some ruleRepo in let eval := Some evaluator in
  crds ← crdControllers c' s' m' idx repo eval;
  works ← mapM (setup_workload c' s' m' idx repo eval) workloads;
  apis ← mapM (setup_apiResource c' s' m' idx repo eval) apiResources;
  bindingReconcilers ←
    mapM (λ rb, NewRoleBindingReconciler c' s' m' idx (rb_prototype rb) (rb_kind rb) rbacWhitelist) rbacBindings;
  roles ← mapM (setup_role c' s' m' idx rbacWhitelist bindingReconcilers) rbacRoles;
  e ← NewRuleEvaluation repo eval "/namespaces";
  ns ← alloc (CellNamespace (mkNamespaceReconciler c' s' m' idx (Some e) crdReporter Nil));
  fallback ← setup_fallback c' crdReporter;
  scan ← mustSetupImageScan c' s' m' idx;
  watcher ← NewFindingRuleWatcher repo;
  match watcher with
  | inl err => mret (inl err)
  | inr w =>
      helm ← (if helmReleaseScanning
              then h ← alloc (CellHelmRelease (mkHelmReleaseReconciler c' s' m' idx ∅)); mret [h]
              else mret []);
      mret (inr (mkObjects c emModel nameIndex ruleRepo crdReporter bindingReconcilers,
                 crds ++ works ++ apis ++ bindingReconcilers ++ roles ++ [ns] ++ fallback ++ [scan; w] ++ helm))
  end.

(** ** What the objects do *)

(** The sources of the [SetupWithManager] methods, from the fields. *)
Definition sources_of (x : Cell) : option (list Source) :=
  match x with
  | CellSystem _ => Some SystemReconciler_SetupWithManager
  | CellAPI _ => Some APIReconciler_SetupWithManager
  | CellComponent _ => Some ComponentReconciler_SetupWithManager
  | CellSystemInstance _ => Some SystemInstanceReconciler_SetupWithManager
  | CellWorkload r => Some [For (wr_prototype r) any_object]
  | CellAPIInstance r => Some [For (nr_prototype r) any_object]
  | CellBinding r => Some [For (br_prototype r) any_object; RequeueChannel]
  | CellRole r => Some [For (rr_prototype r) any_object]
  | CellNamespace _ => Some NamespaceReconciler_SetupWithManager
  | CellFallback _ => Some SetupCRDMissingFallback
  | CellImageScan _ => Some ImageScanReconciler_SetupWithManager
  | CellFindingRule _ => Some FindingRuleWatcher_SetupWithManager
  | CellHelmRelease _ => Some HelmReleaseReconciler_SetupWithManager
  | _ => None
  end.

Section behaviour.
Context (o : Objects) (h : heap Cell).

(** A reconciler works on the shared objects. *)
Definition shares (client model idx : Pointer) : bool :=
  bool_decide (client = Some (o_Client o)) && bool_decide (model = Some (o_Model o)) &&
  bool_decide (idx = Some (o_Index o)).

(** The resource type of a rule evaluation that reads the shared registry and
    whose evaluator writes into the shared model. *)
Definition evaluates (e : Pointer) : option string :=
  match e ≫= (h !!.) with
  | Some (CellRuleEvaluation x) =>
      match re_Evaluator x ≫= (h !!.) with
      | Some (CellEvaluator v) =>
          if bool_decide (re_Rules x = Some (o_Rules o)) && bool_decide (ev_Model v = Some (o_Model o))
          then Some (re_ResourceType x) else None
      | _ => None
      end
  | _ => None
  end.

(** The channel the manager drains for the binding reconciler [kind]. *)
Definition channel_of (kind : string) : Pointer :=
  head (omap (λ l, match h !! l with
                   | Some (CellBinding b) => if bool_decide (br_kind b = kind) then br_requeue b else None
                   | _ => None
                   end) (o_Bindings o)).

(** The kind of a binding reconciler whose channel is drained under it. *)
Definition binding_target (l : loc) : option string :=
  match h !! l with
  | Some (CellBinding b) =>
      if bool_decide (is_Some (br_requeue b)) && bool_decide (channel_of (br_kind b) = br_requeue b)
      then Some (br_kind b) else None
  | _ => None
  end.

(** What the manager runs when it hands the event [ev] to the object [x]: the
    method with the fields of [x]. [None]: the event is not one of [x], or [x]
    reaches other objects than the shared ones, of which the actions on [World]
    speak. *)
Definition call (x : Cell) (ev : Event) : option (action Outcome) :=
  match x, ev with
  | CellSystem r, EvSystem req got =>
      key ← evaluates (sr_RuleEval r);
      if shares (sr_Client r) (sr_Model r) (sr_Index r)
      then Some (crd_reconcile (λ s, as_entity ESystem (convertSystem s)) FSystem KindSystem key RSystem req got)
      else None
  | CellAPI r, EvAPI req got =>
      key ← evaluates (ar_RuleEval r);
      if shares (ar_Client r) (ar_Model r) (ar_Index r)
      then Some (crd_reconcile (λ a, as_entity EApi (convertAPI a)) FApi KindAPI key RAPI req got)
      else None
  | CellComponent r, EvComponent req got =>
      key ← evaluates (cr_RuleEval r);
      if shares (cr_Client r) (cr_Model r) (cr_Index r)
      then Some (crd_reconcile (λ a, as_entity EComponent (convertComponent a)) FComponent KindComponent
                   key RComponent req got)
      else None
  | CellSystemInstance r, EvSystemInstance req got =>
      key ← evaluates (ir_RuleEval r);
      if shares (ir_Client r) (ir_Model r) (ir_Index r)
      then Some (crd_reconcile (λ a, as_entity ESystemInstance (convertSystemInstance a)) FSystemInstance
                   KindSystemInstance key RSystemInstance req got)
      else None
  | CellWorkload r, EvWorkload k req got =>
      key ← evaluates (wr_RuleEval r);
      if bool_decide (wr_prototype r = workload_type k) && shares (wr_Client r) (wr_Model r) (wr_Index r)
      then Some (WorkloadReconciler_Reconcile (wr_skipFunc r) key req got) else None
  | CellAPIInstance r, EvAPIResource k req got =>
      key ← evaluates (nr_RuleEval r);
      if bool_decide (nr_prototype r = api_type k) && shares (nr_Client r) (nr_Model r) (nr_Index r)
      then Some (APIInstanceReconciler_Reconcile key req got) else None
  | CellBinding r, EvBinding k req got =>
      if bool_decide (br_prototype r = binding_kind k) && shares (br_Client r) (br_Model r) (br_Index r)
      then Some (RoleBindingReconciler_Reconcile (br_Whitelist r) (br_kind r) req got) else None
  | CellBinding r, EvRequeued k Get =>
      if bool_decide (br_prototype r = binding_kind k) && shares (br_Client r) (br_Model r) (br_Index r) &&
         bool_decide (is_Some (br_requeue r)) && bool_decide (channel_of (br_kind r) = br_requeue r)
      then Some (next <- Dequeue (br_kind r) ;;
                 match next with
                 | None => Ret done_ok
                 | Some req => RoleBindingReconciler_Reconcile (br_Whitelist r) (br_kind r) req (Get req)
                 end)
      else None
  | CellRole r, EvRole k c req got =>
      targets ← mapM binding_target (rr_bindingReconcilers r);
      if bool_decide (rr_prototype r = role_kind k) && shares (rr_Client r) (rr_Model r) (rr_Index r)
      then Some (RoleReconciler_Reconcile (rr_Whitelist r) (rr_kind r) targets c req got) else None
  | CellNamespace r, EvNamespace req got =>
      key ← evaluates (kr_RuleEval r);
      if bool_decide (key = "/namespaces") && shares (kr_Client r) (kr_Model r) (kr_Index r) &&
         bool_decide (kr_CRDReporter r = o_Reporter o)
      then Some (NamespaceReconciler_Reconcile req got) else None
  | CellFallback f, EvCRDFallback got =>
      if bool_decide (cf_Client f = Some (o_Client o)) && bool_decide (cf_Reporter f = o_Reporter o)
      then Some (crdMissingFallback_Start got ;; Ret done_ok) else None
  | CellImageScan r, EvPods c pods =>
      if shares (is_Client r) (is_Model r) (is_Index r) then Some (ImageScanReconciler_Reconcile c pods) else None
  | CellFindingRule w, EvRule ev =>
      if bool_decide (fw_Repo w = Some (o_Rules o))
      then Some (writing (λ w, set_rules (FindingRuleWatcher_step ev (w_rules w)) w) ;; Ret done_ok) else None
  | CellHelmRelease r, EvHelmStartup secrets =>
      if shares (hr_Client r) (hr_Model r) (hr_Index r)
      then Some (err <- populateLatestRevisions secrets ;; Ret (mkOutcome 0 err)) else None
  | CellHelmRelease r, EvHelm req got =>
      if shares (hr_Client r) (hr_Model r) (hr_Index r) then Some (HelmReleaseReconciler_Reconcile req got) else None
  | _, _ => None
  end.

(** All controllers that take the event. *)
Definition calls (ctrls : list loc) (ev : Event) : list (action Outcome) :=
  omap (λ l, x ← h !! l; call x ev) ctrls.

(** The [World] that the shared objects and the private fields make up, with
    [m] in the store. *)
Definition gather (ctrls : list loc) (m : Store) : option World :=
  match h !! o_Index o, h !! o_Rules o with
  | Some (CellNameIndex idx), Some (CellRuleRepo rules) =>
      let waiting := omap (λ l,
        match h !! l with
        | Some (CellBinding b) =>
            match br_requeue b ≫= (h !!.) with
            | Some (CellChan _ (nn :: q)) => Some (br_kind b, nn :: q)
            | _ => None
            end
        | _ => None
        end) (o_Bindings o) in
      let latest := omap (λ l, match h !! l with Some (CellHelmRelease r) => Some (hr_latestRevision r) | _ => None end) ctrls in
      let cluster := omap (λ l, match h !! l with Some (CellNamespace r) => Some (kr_clusterContextID r) | _ => None end) ctrls in
      let rep := match o_Reporter o ≫= (h !!.) with Some (CellReporter r) => Some r | _ => None end in
      Some (mkWorld m idx rules (list_to_map waiting) (default ∅ (head latest)) (default Nil (head cluster)) rep)
  | _, _ => None
  end.
End behaviour.

(** ** The wiring is the one of [System] *)

(** Two of the controllers are optional. *)
Definition is_set_up (rep : option Reporter) (helmReleaseScanning : bool) (ev : Event) : bool :=
  match ev with
  | EvCRDFallback _ => bool_decide (is_Some rep)
  | EvHelmStartup _ | EvHelm _ _ => helmReleaseScanning
  | _ => true
  end.

(** The channel of a binding reconciler, as [EnqueueBinding] knows it. *)
Definition is_channel (o : Objects) (h : heap Cell) (kind : string) (ch : loc) : Prop :=
  channel_of o h kind = Some ch ∧ h !! ch = Some (CellChan requeue_capacity []).

(** Execute [build]; its result depends on which parts are there, not on what
    they are. *)
Ltac build_all :=
  match goal with
  | |- context [build ?rep ?scan ?wl ∅] =>
      let x := eval vm_compute in (build rep scan wl ∅) in
      replace (build rep scan wl ∅) with x by (vm_compute; reflexivity)
  end.

(** C10. The objects that [main] connects behave as one sensor: no panic and no
    exit comes from building them; they watch what the controllers watch, in
    their order; the state they start with is that of the model of the process;
    every event has one controller among them (none, if it is not set up),
    whose method, called with the fields and working on the shared objects, is
    the handler; and the two requeue channels are two, empty and of the
    capacity the handlers assume. *)
Theorem main_builds_sensor rep scan wl m :
  match build rep scan (Some wl) ∅ with
  | Some (inr (o, ctrls), h) =>
      mapM (λ l, h !! l ≫= sources_of) ctrls =
        Some (SetupWithManager <$> early_controllers ++ late_controllers (bool_decide (is_Some rep)) scan) ∧
      gather o h ctrls m = Some (set_reporter rep (boot m)) ∧
      (∀ ev, calls o h ctrls ev = if is_set_up rep scan ev then [handle wl ev] else []) ∧
      ∃ ch1 ch2, is_channel o h (binding_kind KRoleBinding) ch1 ∧
        is_channel o h (binding_kind KClusterRoleBinding) ch2 ∧ ch1 ≠ ch2
  | _ => False
  end.
Proof.
  destruct rep as [rep|], scan; build_all.
  all: split; [reflexivity|split; [reflexivity|split]];
    [intros [| | | |[]|[]|[]|[]|[]| | | | | |]; reflexivity|].
  all: eexists _, _; split; [split; reflexivity|split; [split; reflexivity|done]].
Qed.
End wiring.
