(* ===== verification/Scheme.v ===== *)
(** * Scheme: the registration of the types with apimachinery

    [src/api/k8s/v1alpha1/groupversion_info.go], the [init] functions of the
    [*_types.go] files, and the [init] of [src/cmd/main.go]. [runtime.Scheme] and
    controller-runtime's [scheme.Builder] are third-party ([SchemeLib]). *)

From S2P Require Import Prelude.
From S2P Require Import K8s.
From S2P Require Import System.
From S2P Require Import Main.

Record GroupVersion := mkGroupVersion { gv_Group : string; gv_Version : string }.

(** A builder collects types; [AddToScheme] puts what it has collected by then
    into a scheme. Types are named by their kind. *)
Class SchemeLib := {
  GoScheme : Type;
  NewScheme : GoScheme;
  Builder : Type;
  NewBuilder : GroupVersion → Builder;
  Builder_Register : list string → Builder → Builder;
  Builder_AddToScheme : Builder → GoScheme → option string * GoScheme;
  clientgo_AddToScheme : GoScheme → option string * GoScheme;
  Recognizes : GroupVersion → string → GoScheme → bool
}.

Class SchemeLaws {SL : SchemeLib} := {
  collected : Builder → GroupVersion * list string;
  collected_new gv : collected (NewBuilder gv) = (gv, []);
  collected_Register ks b : collected (Builder_Register ks b) = ((collected b).1, (collected b).2 ++ ks);
  AddToScheme_known b s k :
    (Builder_AddToScheme b s).1 = None → k ∈ (collected b).2 →
    Recognizes (collected b).1 k (Builder_AddToScheme b s).2 = true;
  AddToScheme_keeps b s gv k :
    (Builder_AddToScheme b s).1 = None → Recognizes gv k s = true → Recognizes gv k (Builder_AddToScheme b s).2 = true
}.

Definition structureGroupVersion : GroupVersion := mkGroupVersion "structure.emeland.io" "v1alpha1".

Section scheme.
Context {SL : SchemeLib}.

(** The package variable [SchemeBuilder] holds a pointer: the state of the
    package is the builder it points to. *)
Definition SchemeBuilder : Builder := NewBuilder structureGroupVersion.

(** The [init] functions, in the order of the files. *)
Definition api_init : Builder → Builder := Builder_Register ["API"; "APIList"].
Definition component_init : Builder → Builder := Builder_Register ["Component"; "ComponentList"].
Definition findingrule_init : Builder → Builder := Builder_Register ["FindingRule"; "FindingRuleList"].
Definition system_init : Builder → Builder := Builder_Register ["System"; "SystemList"].
Definition systeminstance_init : Builder → Builder := Builder_Register ["SystemInstance"; "SystemInstanceList"].
Definition package_init : Builder :=
  systeminstance_init (system_init (findingrule_init (component_init (api_init SchemeBuilder)))).

(** [AddToScheme = SchemeBuilder.AddToScheme]: the method of the pointer, so it
    sees what has been registered when it is called. *)
Definition AddToScheme (builder : Builder) (s : GoScheme) : option string * GoScheme := Builder_AddToScheme builder s.

(** [utilruntime.Must] panics on an error. *)
Definition Must (r : option string * GoScheme) : option GoScheme :=
  match r.1 with None => Some r.2 | Some _ => None end.

(** [init] of the main package, which runs after those of its imports. *)
Definition main_init : option GoScheme :=
  s ← Must (clientgo_AddToScheme NewScheme);
  Must (AddToScheme package_init s).

Context {SW : SchemeLaws}.

Lemma package_collected :
  collected package_init =
    (structureGroupVersion,
     ["API"; "APIList"; "Component"; "ComponentList"; "FindingRule"; "FindingRuleList";
      "System"; "SystemList"; "SystemInstance"; "SystemInstanceList"]).
Proof.
  unfold package_init, systeminstance_init, system_init, findingrule_init, component_init, api_init, SchemeBuilder.
  by rewrite !collected_Register, collected_new.
Qed.

(** The type of the objects of a source, informers included. *)
Definition object_type (s : Source) : option string :=
  match s with For t _ | Watches t _ | Informer t => Some t | RequeueChannel | Runnable => None end.
Definition object_types (c : Controller) : list string := omap object_type (SetupWithManager c).

(** A process that gets past its [init] knows every type of the sensor's group
    that one of its controllers watches, and the list of it, which the client
    asks for; and it still knows the types of client-go. *)
Theorem scheme_knows_watched s c k :
  main_init = Some s →
  "structure.emeland.io/" +:+ k ∈ object_types c →
  Recognizes structureGroupVersion k s = true ∧ Recognizes structureGroupVersion (k +:+ "List") s = true ∧
  ∀ gv k', Recognizes gv k' (clientgo_AddToScheme NewScheme).2 = true → Recognizes gv k' s = true.
Proof.
  unfold main_init, Must, AddToScheme. intros (s0 & Hs0 & Hs)%bind_Some Hk.
  destruct (clientgo_AddToScheme NewScheme).1; [done|]. injection Hs0 as <-. set (s0 := (clientgo_AddToScheme NewScheme).2) in *.
  destruct (Builder_AddToScheme package_init s0).1 eqn:E; [done|]. injection Hs as <-.
  assert (k ∈ (collected package_init).2 ∧ k +:+ "List" ∈ (collected package_init).2) as [H1 H2].
  { rewrite package_collected. simpl.
    assert (k ∈ ["System"; "API"; "Component"; "SystemInstance"; "FindingRule"]) as Hin.
    { destruct c as [| | | |[]|[]|[]|[]| | | | |]; vm_compute in Hk;
        repeat (apply elem_of_cons in Hk as [Hk|Hk]; [|]); try by apply not_elem_of_nil in Hk.
      all: injection Hk as ->; set_solver. }
    set_unfold. destruct_or! Hin; subst; split; auto 12. }
  pose proof (AddToScheme_known package_init s0 k E H1) as R1.
  pose proof (AddToScheme_known package_init s0 (k +:+ "List") E H2) as R2.
  rewrite package_collected in R1, R2. split_and!; [done|done|]. intros gv k'. by apply AddToScheme_keeps.
Qed.
End scheme.
