(* ===== verification/Mirror.v ===== *)
(** * Mirror: the CRD controllers maintain a mirror of the cluster

    The contract of the reconcilers of System, API and Component objects, as a
    refinement. The specification is a map from object names to the converted
    object, updated by what the API server says about a name. The refinement
    holds while every other controller of the sensor runs: their steps may come
    between any two atomic operations of the reconciler. Its side condition,
    [well_identified], is what Kubernetes promises about UIDs: an id belongs to
    one name, and an object keeps its id until its deletion has been seen. *)

From S2P Require Import Prelude.
From S2P Require Import Prog.
From S2P Require Import Rely.
From S2P Require Import GoStrings.
From S2P Require Import HelmDecode.
From S2P Require Import K8s.
From S2P Require Import Lib.
From S2P Require Import Entities.
From S2P Require Import ModelSrv.
From S2P Require Import Registry.
From S2P Require Import RuleRepo.
From S2P Require Import State.
From S2P Require Import Convert.
From S2P Require Import RefFindings.
From S2P Require Import Evaluator.
From S2P Require Import CrdControllers.
From S2P Require Import Whitelist.
From S2P Require Import System.
From S2P Require Import Footprint.

(** ** The specification *)
Section spec.
Context {L : Lib} {CR : Type} (convert : CR → option (Entity * uuid)).

(** The name of an object -> its id and its conversion. *)
Abbreviation Mirror := (gmap string (uuid * Entity)).

Definition mirror_step (m : Mirror) (ev : NamespacedName * GetResult CR) : Mirror :=
  match ev.2 with
  | GetOk cr => match convert cr with
                | Some (e, id) => <[nn_String ev.1 := (id, e)]> m
                | None => m
                end
  | GetNotFound => delete (nn_String ev.1) m
  | GetErr _ => m
  end.

(** The id of an object is no other object's, and has not changed. *)
Definition identified (m : Mirror) (ev : NamespacedName * GetResult CR) : Prop :=
  ∀ cr e id n x, ev.2 = GetOk cr → convert cr = Some (e, id) → m !! n = Some x →
    (x.1 = id ↔ n = nn_String ev.1).

Fixpoint well_identified (m : Mirror) (evs : list (NamespacedName * GetResult CR)) : Prop :=
  match evs with
  | [] => True
  | ev :: evs => identified m ev ∧ well_identified (mirror_step m ev) evs
  end.
End spec.

(** ** The refinement relation *)
Section relation.
Context {L : Lib} {S : ModelSrv} (family : Family) (kind : ResourceKind).

(** The resource that the mirror has under an id. *)
Record mirrored (m : gmap string (uuid * Entity)) (w : World) : Prop := {
  mi_index n : NameIndex_Get kind n (w_index w) = default Nil (fst <$> m !! n);
  mi_stored n id e : m !! n = Some (id, e) → id ≠ Nil ∧ get family id (w_model w) = Some e;
  mi_only id e : get family id (w_model w) = Some e → ∃ n, m !! n = Some (id, e);
  mi_inj n1 n2 x1 x2 : m !! n1 = Some x1 → m !! n2 = Some x2 → x1.1 = x2.1 → n1 = n2
}.

(** The steps of the environment leave the family and the names alone. *)
Definition mirror_part : Footprint := mkFootprint [family] [kind] [].
Definition undisturbed : relation World := spares mirror_part.

Lemma undisturbed_get w w' i : undisturbed w w' → get family i (w_model w') = get family i (w_model w).
Proof. intros [Hg _ _]. apply Hg. by left. Qed.
Lemma undisturbed_name w w' n :
  undisturbed w w' → NameIndex_Get kind n (w_index w') = NameIndex_Get kind n (w_index w).
Proof. intros Hu. by apply (sp_name _ _ _ _ _ Hu); left. Qed.

Lemma mirrored_undisturbed m w w' : mirrored m w → undisturbed w w' → mirrored m w'.
Proof.
  intros [H1 H2 H3 H4] Hu. split; [by intros; rewrite (undisturbed_name _ _ _ Hu)| | |done].
  - intros. rewrite (undisturbed_get _ _ _ Hu). eauto.
  - intros id e. rewrite (undisturbed_get _ _ _ Hu). apply H3.
Qed.

#[export] Instance undisturbed_preorder : PreOrder undisturbed.
Proof. apply spares_preorder. Qed.
End relation.

(** ** How the mirror moves *)
Section moves.
Context {L : Lib} {S : ModelSrv} {HL : ModelSrvLaws S} (family : Family) (kind : ResourceKind).
Hypothesis family_ok : family ≠ FFinding ∧ family ≠ FFindingType.

Abbreviation R := (undisturbed family kind).
Abbreviation rep := (mirrored family kind).

(** The id of the object named [n], as far as the mirror knows. *)
Definition owned (m : gmap string (uuid * Entity)) (n : string) (id : uuid) : Prop :=
  ∀ n' x, m !! n' = Some x → (x.1 = id ↔ n' = n).

(** Storing the object and then its name moves the mirror one step; in
    between only the store has moved. *)
Lemma rep_add m name e id w :
  accepts family → rep m w → family_of e = family → id_of e = id → id ≠ Nil → owned m name id →
  get family id (add e (w_model w)).1 = Some e ∧
  ∀ w', R (set_model (add e (w_model w)).1 w) w' →
    rep (<[name := (id, e)]> m) (set_index (NameIndex_Put kind name id (w_index w')) w').
Proof.
  intros store_accepts [H1 H2 H3 H4] Hf Hi Hnil Hown.
  pose proof (get_accepted e (w_model w)) as Hget. rewrite Hf, Hi in Hget. specialize (Hget store_accepts).
  assert (∀ i, i ≠ id → get family i (add e (w_model w)).1 = get family i (w_model w)) as Hframe.
  { intros i Hne. destruct (add e (w_model w)) as [m' r] eqn:E. simpl.
    eapply add_frame; [done|left; by destruct family_ok|]. rewrite Hf, Hi. congruence. }
  split; [done|]. intros w' Hu. pose proof (λ i, undisturbed_get _ _ _ _ i Hu) as Hg.
  pose proof (λ n, undisturbed_name _ _ _ _ n Hu) as Hn. simpl in Hg, Hn. split; simpl.
  - intros n. rewrite Get_Put, Hn, H1, lookup_insert. repeat case_decide; simplify_eq; done.
  - intros n id' e'. rewrite lookup_insert, Hg. case_decide as Hd; [by intros [= <- <-]|].
    intros Hm. destruct (H2 _ _ _ Hm) as [Hnn Hst]. split; [done|]. rewrite Hframe; [done|].
    intros ->. by apply (Hown n (id, e')) in Hm as [Hm _]; specialize (Hm eq_refl).
  - intros id' e'. rewrite Hg. destruct (decide (id' = id)) as [->|Hne].
    + rewrite Hget. intros [= <-]. exists name. by rewrite lookup_insert_eq.
    + rewrite Hframe by done. intros Hst. destruct (H3 _ _ Hst) as [n Hm]. exists n.
      rewrite lookup_insert_ne; [done|]. intros <-. by apply Hne, (Hown _ _ Hm).
  - intros n1 n2 x1 x2. rewrite !lookup_insert. repeat case_decide; subst; intros; simplify_eq; try done.
    + symmetry. eapply Hown; [done|]. done.
    + eapply Hown; [done|]. done.
    + eauto.
Qed.

(** Forgetting the name and then deleting the resource does too. *)
Lemma rep_del m name w w' :
  deletes family → rep m w → R (set_index (NameIndex_Delete kind name (w_index w)).2 w) w' →
  let id := NameIndex_Get kind name (w_index w) in
  (id = Nil → rep (delete name m) w') ∧
  (id ≠ Nil → rep (delete name m) (set_model (del family id (w_model w')).1 w')).
Proof.
  intros store_deletes [H1 H2 H3 H4] Hu id. pose proof (λ i, undisturbed_get _ _ _ _ i Hu) as Hg.
  pose proof (λ n, undisturbed_name _ _ _ _ n Hu) as Hn. simpl in Hg, Hn.
  assert (∀ n, NameIndex_Get kind n (w_index w') = default Nil (fst <$> delete name m !! n)) as Hidx.
  { intros n. rewrite Hn, Get_Delete, H1, lookup_delete. by repeat case_decide; simplify_eq. }
  assert (∀ n1 n2 x1 x2, delete name m !! n1 = Some x1 → delete name m !! n2 = Some x2 →
    x1.1 = x2.1 → n1 = n2) as Hinj.
  { intros n1 n2 x1 x2 [_ Hm1]%lookup_delete_Some [_ Hm2]%lookup_delete_Some. eauto. }
  unfold id. rewrite H1. split; intros Hid.
  - assert (m !! name = None) as Hnone.
    { destruct (m !! name) as [[i e]|] eqn:E; [|done]. by destruct (H2 _ _ _ E). }
    split; [done| | |done].
    + intros n i e [_ Hm]%lookup_delete_Some. rewrite Hg. eauto.
    + intros i e. rewrite Hg. intros [n Hm]%H3. exists n. by rewrite delete_id.
  - destruct (m !! name) as [[i e]|] eqn:E; [|done]. simpl in *.
    assert (∀ i', i' ≠ i → get family i' (del family i (w_model w')).1 = get family i' (w_model w)) as Hframe.
    { intros i' Hne. rewrite <- Hg. destruct (del family i (w_model w')) as [m' r] eqn:Ed. simpl.
      eapply del_frame; [done|left; by destruct family_ok|congruence]. }
    split; [done| | |done]; simpl.
    + intros n i' e' [Hne Hm]%lookup_delete_Some. destruct (H2 _ _ _ Hm) as [Hnil Hst]. split; [done|].
      rewrite Hframe; [done|]. intros ->. by apply Hne, (H4 _ _ _ _ E Hm).
    + intros i' e'. destruct (decide (i' = i)) as [->|Hne]; [by rewrite (get_deleted family i) by done|].
      rewrite Hframe by done. intros [n Hm]%H3. exists n. rewrite lookup_delete_ne; [done|].
      intros <-. congruence.
Qed.

End moves.

(** ** One reconcile *)
Section reconcile.
Context {L : Lib} {S : ModelSrv} {HL : ModelSrvLaws S}.
Context {CR : Type} (convert : CR → option (Entity * uuid)) (family : Family)
  (kind : ResourceKind) (ruleKey : string) (robj : CR → RObj).
Hypothesis convert_ok : ∀ cr e id, convert cr = Some (e, id) →
  family_of e = family ∧ id_of e = id ∧ id ≠ Nil.
Hypothesis family_ok : family ≠ FFinding ∧ family ≠ FFindingType.
Hypothesis store_accepts : accepts family.
Hypothesis store_deletes : deletes family.

Abbreviation R := (undisturbed family kind).
Abbreviation rep := (mirrored family kind).

Lemma guar_RuleEvaluation key obj : guar R (RuleEvaluation_run key obj).
Proof.
  pose (fp := mkFootprint [FFindingType] [] []).
  apply (guar_mono (within fp)); [|apply guar_ops; [apply within_refl|]].
  - intros w w'. apply within_spares. destruct family_ok. unfold apart, mirror_part. simpl.
    rewrite !bool_decide_eq_true_2; [done|..]; repeat constructor; set_solver.
  - apply within_RuleEvaluation. set_solver.
Qed.

(** The refinement of one reconcile, in the environment [R]. *)
Lemma reconcile_refines m req got w :
  rep m w → identified convert m (req, got) →
  wp R (λ _, rep (mirror_step convert m (req, got))) (crd_reconcile convert family kind ruleKey robj req got) w.
Proof.
  intros Hrep Hid.
  assert (∀ m w w', rep m w → R w w' → rep m w') as Hstable by (intros; by eapply mirrored_undisturbed).
  assert (∀ {A} (p : action A) m w, guar R p → rep m w → wp R (λ _, rep m) p w) as Hguar.
  { intros A p m' w' Hp Hw. apply wp_guar; [by apply Hstable|done|done]. }
  unfold crd_reconcile, mirror_step. destruct got as [cr| |err]; cbn [fst snd]; [| |by apply Hguar].
  - destruct (convert cr) as [[e id]|] eqn:Hc; [|by apply Hguar].
    destruct (convert_ok _ _ _ Hc) as (Hf & Hi & Hnil).
    apply wp_bind, (wp_atomic R (rep m)); [by apply Hstable|done|]. intros w1 Hw1 w2 Hw2.
    destruct (rep_add family kind family_ok m (nn_String req) e id w1) as [_ Hnext]; [done..| |].
    { intros n x Hx. by apply (Hid cr e id n x). } apply (rtc_preorder R) in Hw2; [|apply _].
    cbn in Hw2 |- *. rewrite (store_accepts e (w_model w1) Hf). apply wp_bind.
    apply (wp_atomic R (R (set_model (add e (w_model w1)).1 w1)) _ (λ w, (tt, _))); [by etrans|done|].
    intros w3 Hw3 w4 Hw4. apply (rtc_preorder R) in Hw4; [|apply _].
    apply wp_bind. apply (wp_mono R (λ _, rep (<[nn_String req := (id, e)]> m))); [apply Hguar; [apply guar_RuleEvaluation|]|intros a w5 Hw5; by apply (Hguar _ (Ret done_ok))].
    eapply Hstable; [by apply Hnext|]. done.
  - apply wp_bind, (wp_atomic R (rep m)); [by apply Hstable|done|]. intros w1 Hw1 w2 Hw2.
    apply (rtc_preorder R) in Hw2; [|apply _]. simpl in Hw2 |- *. rewrite Delete_fst.
    case_bool_decide as Hnil; [by apply Hguar; [|eapply rep_del]|].
    apply wp_bind, (wp_atomic R (R (set_index (NameIndex_Delete kind (nn_String req) (w_index w1)).2 w1)));
      [by intros; etrans|done|].
    intros w3 Hw3 w4 Hw4. apply (rtc_preorder R) in Hw4; [|apply _]. apply Hguar; [done|].
    eapply Hstable; [|exact Hw4]. by eapply rep_del.
Qed.
End reconcile.

(** ** The three controllers *)

(** The CRDs whose resources and names no other controller writes; those of
    SystemInstances are shared with the Helm release controller. *)
Inductive MirroredKind := MSystem | MAPI | MComponent.

Section controllers.
Context {L : Lib} {LL : LibLaws} {S : ModelSrv} {C : HelmCodecs} {HL : ModelSrvLaws S}.

Definition mk_CR (k : MirroredKind) : Type :=
  match k with MSystem => SystemCR | MAPI => APICR | MComponent => ComponentCR end.
Definition mk_convert (k : MirroredKind) : mk_CR k → option (Entity * uuid) :=
  match k with
  | MSystem => λ s, as_entity ESystem (convertSystem s)
  | MAPI => λ a, as_entity EApi (convertAPI a)
  | MComponent => λ c, as_entity EComponent (convertComponent c)
  end.
Definition mk_family (k : MirroredKind) : Family :=
  match k with MSystem => FSystem | MAPI => FApi | MComponent => FComponent end.
Definition mk_kind (k : MirroredKind) : ResourceKind :=
  match k with MSystem => KindSystem | MAPI => KindAPI | MComponent => KindComponent end.
Definition mk_event (k : MirroredKind) : NamespacedName → GetResult (mk_CR k) → Event :=
  match k with MSystem => EvSystem | MAPI => EvAPI | MComponent => EvComponent end.

(** The worker of the controller: one reconcile after the other, each with
    what the client returned for the name. *)
Fixpoint controller wl k (evs : list (NamespacedName * GetResult (mk_CR k))) : action Outcome :=
  match evs with
  | [] => Ret done_ok
  | (req, got) :: evs => _ <- handle wl (mk_event k req got) ;; controller wl k evs
  end.

(** The events whose handlers leave the controller's resources alone. *)
Definition elsewhere (k : MirroredKind) (ev : Event) : bool :=
  apart (mirror_part (mk_family k) (mk_kind k)) (footprint ev).

Lemma handle_refines wl k m req got w :
  accepts (mk_family k) → deletes (mk_family k) →
  mirrored (mk_family k) (mk_kind k) m w → identified (mk_convert k) m (req, got) →
  wp (undisturbed (mk_family k) (mk_kind k))
    (λ _, mirrored (mk_family k) (mk_kind k) (mirror_step (mk_convert k) m (req, got)))
    (handle wl (mk_event k req got)) w.
Proof.
  intros Ha Hd Hm Hid. destruct k; apply reconcile_refines; try done.
  - apply convertSystem_ok.
  - apply convertAPI_ok.
  - apply convertComponent_ok.
Qed.

Lemma controller_refines wl k evs m w :
  accepts (mk_family k) → deletes (mk_family k) →
  mirrored (mk_family k) (mk_kind k) m w → well_identified (mk_convert k) m evs →
  wp (undisturbed (mk_family k) (mk_kind k))
    (λ _, mirrored (mk_family k) (mk_kind k) (foldl (mirror_step (mk_convert k)) m evs))
    (controller wl k evs) w.
Proof.
  intros Ha Hd. revert m w. induction evs as [|[req got] evs IH]; intros m w Hm Hids.
  - intros w' Hw'. eapply mirrored_undisturbed; [exact Hm|]. by apply rtc_preorder; [apply _|].
  - destruct Hids as [Hid Hids]. cbn [controller]. apply wp_bind.
    eapply wp_mono; [by apply handle_refines|]. intros out w1 Hm1. by apply IH.
Qed.

(** C2. Refinement: while every other controller of the sensor runs in any
    interleaving with it, the controller of the Systems (of the APIs, of the
    Components) ends with exactly the mirror of its events: under every name
    the index has the id of the object (no id for a deleted one), the store
    has that object as converted, and it has no other resource of the family.
    The store starts without resources of the family and accepts its calls. *)
Theorem crd_controllers_refine_mirror wl k evs others w :
  accepts (mk_family k) → deletes (mk_family k) →
  (∀ i, get (mk_family k) i (w_model w) = None) →
  (∀ n, NameIndex_Get (mk_kind k) n (w_index w) = Nil) →
  well_identified (mk_convert k) ∅ evs →
  Forall (λ ev, elsewhere k ev = true) others →
  thread_ends 0 (λ _, mirrored (mk_family k) (mk_kind k) (foldl (mirror_step (mk_convert k)) ∅ evs))
    (controller wl k evs :: (handle wl <$> others), w).
Proof.
  intros Ha Hd Hg Hn Hids Ho.
  apply (wp_thread_ends (undisturbed (mk_family k) (mk_kind k)) _ 0 (controller wl k evs)); [done| |].
  - apply controller_refines; [done..| |done]. split.
    + intros n. by rewrite Hn, lookup_empty.
    + intros n id e. by rewrite lookup_empty.
    + intros id e. by rewrite Hg.
    + intros n1 n2 x1 x2. by rewrite lookup_empty.
  - intros [|j] t Hj; [done|]. simpl. rewrite list_lookup_fmap_Some. intros (ev & -> & Hev).
    apply handle_spares. by eapply (Forall_lookup_1 _ _ _ _ Ho).
Qed.

(** C37. A delete that the store refuses is never repeated: the first reconcile
    of the deleted object takes its id off the index before it deletes the
    resource, and reports the error; the retry that the error asks for finds no
    id, reports success and changes nothing; the resource stays for good. *)
Theorem failed_delete_is_lost wl k req id e err w :
  NameIndex_Get (mk_kind k) (nn_String req) (w_index w) = id → id ≠ Nil →
  (del (mk_family k) id (w_model w)).2 = Some err → err ≠ ErrNotFound (mk_family k) →
  get (mk_family k) id (del (mk_family k) id (w_model w)).1 = Some e →
  let p := handle wl (mk_event k req GetNotFound) in
  let w1 := exec p w in
  result p w = failed (EModel err) ∧
  get (mk_family k) id (w_model w1) = Some e ∧
  result p w1 = done_ok ∧
  w_model (exec p w1) = w_model w1.
Proof.
  intros Hid Hnil Hdel Herr Hget. destruct k; by apply crd_delete_lost.
Qed.
End controllers.
