(* ===== verification/NamespaceMirror.v ===== *)
(** * NamespaceMirror: the Namespace reconciler mirrors the namespaces

    Its contract as a refinement, like that of the CRD controllers in [Mirror],
    with one more thing to know: the cluster. A namespace counts once
    kube-system has been seen, and is converted with the id of the cluster of
    that moment. *)

From S2P Require Import Prelude.
From S2P Require Import Prog.
From S2P Require Import Rely.
From S2P Require Import GoStrings.
From S2P Require Import HelmDecode.
From S2P Require Import K8s.
From S2P Require Import Lib.
From S2P Require Import Entities.
From S2P Require Import ModelSrv.
From S2P Require Import Registry.
From S2P Require Import State.
From S2P Require Import Convert.
From S2P Require Import RefFindings.
From S2P Require Import Evaluator.
From S2P Require Import CrdControllers.
From S2P Require Import CrdReporter.
From S2P Require Import Namespace.
From S2P Require Import Whitelist.
From S2P Require Import System.
From S2P Require Import Footprint.
From S2P Require Import Isolation.
From S2P Require Import Mirror.

(** ** The specification *)
Section spec.
Context {L : Lib}.

Record Cluster := mkCluster { cl_id : uuid; cl_contexts : gmap string (uuid * Entity) }.

Definition no_cluster : Cluster := mkCluster Nil ∅.

Definition is_kube_system (name : string) : bool := bool_decide (name = "kube-system").

Definition cluster_step (c : Cluster) (ev : NamespacedName * GetResult Object) : Cluster :=
  let '(req, got) := ev in
  match got with
  | GetOk ns =>
      let kube_system := is_kube_system (om_Name (ob_Meta ns)) in
      match convertNamespaceToContext ns (cl_id c) with
      | Some (ctx, id) =>
          if kube_system || bool_decide (cl_id c ≠ Nil)
          then mkCluster (if kube_system then id else cl_id c) (<[nn_Name req := (id, EContext ctx)]> (cl_contexts c))
          else c
      | None => c
      end
  | GetNotFound =>
      mkCluster (if is_kube_system (nn_Name req) then Nil else cl_id c) (delete (nn_Name req) (cl_contexts c))
  | GetErr _ => c
  end.

(** The UID of a namespace is no other's, and has not changed since the last
    time it was seen. *)
Definition ns_identified (c : Cluster) (ev : NamespacedName * GetResult Object) : Prop :=
  ∀ ns, ev.2 = GetOk ns → owned (cl_contexts c) (nn_Name ev.1) (uuidFromMeta (ob_Meta ns)).

Fixpoint ns_well_identified (c : Cluster) (evs : list (NamespacedName * GetResult Object)) : Prop :=
  match evs with
  | [] => True
  | ev :: evs => ns_identified c ev ∧ ns_well_identified (cluster_step c ev) evs
  end.
End spec.

(** ** The refinement *)
Section refinement.
Context {L : Lib} {LL : LibLaws} {S : ModelSrv} {C : HelmCodecs} {HL : ModelSrvLaws S} {HR : FindingsReliable S}.
Context {SE : StoreExact S}.
Context (wl : RBACWhitelist).

Record clustered (c : Cluster) (w : World) : Prop := {
  cl_mirrored : mirrored FContext KindContext (cl_contexts c) w;
  cl_known : w_clusterContextID w = cl_id c
}.

Abbreviation R := (undisturbed FContext KindContext).

Lemma same_undisturbed w w' : w_model w' = w_model w → w_index w' = w_index w → R w w'.
Proof. intros Hm Hi. split; [intros; by rewrite Hm|intros; by rewrite Hi|by intros p ?%not_elem_of_nil]. Qed.

Lemma sr_undisturbed w w' : same_but_report w w' → R w w'.
Proof.
  intros [G I _ _]. split.
  - intros f i ->%list_elem_of_singleton. by apply G.
  - intros k _. by rewrite I.
  - by intros p ?%not_elem_of_nil.
Qed.

Lemma parent_finding_sr id ns w : same_but_report w (exec (reconcileContextParentFinding id ns) w).
Proof.
  destruct (exec_reconcileContextParentFinding id ns w) as (m & -> & Hf & _).
  split; try done. intros f i H1 _. simpl. apply Hf. congruence.
Qed.

Lemma convertNamespace_uid ns c ctx id : convertNamespaceToContext ns c = Some (ctx, id) → id = uuidFromMeta (ob_Meta ns).
Proof. unfold convertNamespaceToContext. destruct (bool_decide (_ = Nil)); [done|]. by intros [= _ <-]. Qed.

(** Storing and indexing the Context moves the specification. *)
Lemma context_added_refines c req ns ctx id w :
  clustered c w → ns_identified c (req, GetOk ns) → convertNamespaceToContext ns (cl_id c) = Some (ctx, id) →
  clustered (mkCluster (if is_kube_system (om_Name (ob_Meta ns)) then id else cl_id c)
               (<[nn_Name req := (id, EContext ctx)]> (cl_contexts c)))
    (context_added req ns id (add (EContext ctx) (w_model w)).1 w).
Proof.
  intros [Hm Hc] Hid Hconv. destruct (convertNamespace_id _ _ _ _ Hconv) as [Hi Hnil].
  pose proof (convertNamespace_uid _ _ _ _ Hconv) as Hu. set (m := (add (EContext ctx) (w_model w)).1).
  split; [|destruct (context_added_sr req ns id m w) as (_ & _ & _ & ->); simpl; by rewrite Hc].
  destruct (rep_add FContext KindContext ltac:(done) (cl_contexts c) (nn_Name req) (EContext ctx) id w)
    as [_ Hnext]; [by apply accepted|done|done|done|done| |].
  { rewrite Hu. by apply Hid. }
  unfold context_added. case_bool_decide.
  - eapply mirrored_undisturbed; [|apply sr_undisturbed, sr_ReportWithContext].
    apply (Hnext (set_model m (set_clusterContextID id w))). by apply same_undisturbed.
  - by apply (Hnext (set_model m w)), same_undisturbed.
Qed.

Lemma namespace_found_refines c req ns w :
  clustered c w → ns_identified c (req, GetOk ns) →
  clustered (cluster_step c (req, GetOk ns)) (exec (NamespaceReconciler_Reconcile req (GetOk ns)) w).
Proof.
  intros [Hm Hc] Hid. unfold cluster_step, is_kube_system.
  destruct (convertNamespaceToContext ns (cl_id c)) as [[ctx id]|] eqn:Hconv.
  - destruct (_ || _) eqn:Hready.
    + assert (om_Name (ob_Meta ns) = "kube-system" ∨ w_clusterContextID w ≠ Nil) as Hr.
      { rewrite Hc. apply orb_true_iff in Hready. by rewrite !bool_decide_eq_true in Hready. }
      destruct (namespace_found_eq req ns ctx id w Hr) as [_ He]; [by rewrite Hc|].
      rewrite He by (by apply add_accepted). set (m := (add (EContext ctx) (w_model w)).1).
      set (w1 := context_added req ns id m w).
      destruct (context_added_refines c req ns ctx id w) as [Hm1 Hc1]; [done|done|done|]. fold m w1 in Hm1, Hc1.
      assert (same_but_report w1 (exec (RuleEvaluation_run "/namespaces" (RObject ns))
        (exec (reconcileContextParentFinding id ns) w1))) as Hsr.
      { eapply sr_trans; [apply parent_finding_sr|apply sr_sbf, sbf_run]. }
      split; [eapply mirrored_undisturbed; [exact Hm1|by apply sr_undisturbed]|].
      by rewrite (sr_cluster _ _ Hsr).
    + assert (exec (NamespaceReconciler_Reconcile req (GetOk ns)) w = w) as ->; [|done].
      apply orb_false_iff in Hready as [H1 H2]. unfold NamespaceReconciler_Reconcile, getClusterContextID. run_ops.
      rewrite Hc, H1. apply bool_decide_eq_false in H2. rewrite bool_decide_eq_true_2; [done|].
      destruct (decide (cl_id c = Nil)); [done|by destruct H2].
  - assert (exec (NamespaceReconciler_Reconcile req (GetOk ns)) w = w) as ->; [|done].
    unfold NamespaceReconciler_Reconcile, getClusterContextID. run_ops. rewrite Hc, Hconv. by destruct (_ && _).
Qed.

Lemma namespace_gone_refines c req w :
  clustered c w →
  clustered (cluster_step c (req, GetNotFound)) (exec (NamespaceReconciler_Reconcile req GetNotFound) w).
Proof.
  intros [Hm Hc]. unfold NamespaceReconciler_Reconcile. run_ops. simpl. set (w1 := exec (clear_cluster (nn_Name req)) w).
  assert (R w w1 ∧ w_clusterContextID w1 = if is_kube_system (nn_Name req) then Nil else cl_id c) as [Hu Hc1].
  { unfold w1, clear_cluster, is_kube_system, setClusterContextID. case_bool_decide; run_ops; [|done].
    pose proof (sr_ClearContext (set_clusterContextID Nil w)) as Hsr. split; [|by rewrite (sr_cluster _ _ Hsr)].
    etrans; [|by apply sr_undisturbed]. by apply same_undisturbed. }
  apply (mirrored_undisturbed _ _ _ _ _ Hm) in Hu.
  set (w2 := set_index (NameIndex_Delete KindContext (nn_Name req) (w_index w1)).2 w1).
  rewrite Delete_fst. set (id := NameIndex_Get KindContext (nn_Name req) (w_index w1)).
  pose proof (deleted FContext ltac:(done)) as Hdel.
  case_bool_decide as Hnil; run_ops.
  - set (w3 := exec (deleteReferenceFinding id ReferencedResourceNotFound) w2).
    assert (R w2 w3) as Hu3.
    { unfold w3, deleteReferenceFinding. run_ops. split; [|done|by intros p ?%not_elem_of_nil].
      intros f i ->%list_elem_of_singleton. simpl. by apply del_finding_frame. }
    destruct (rep_del FContext KindContext ltac:(done) (cl_contexts c) (nn_Name req) w1 w3 Hdel Hu Hu3) as [_ H].
    split; [by apply H|done].
  - destruct (rep_del FContext KindContext ltac:(done) (cl_contexts c) (nn_Name req) w1 w2 Hdel Hu) as [H _]; [done|].
    split; [|done]. apply H. by destruct (decide (id = Nil)).
Qed.

Definition namespace_event (ev : NamespacedName * GetResult Object) : Event := EvNamespace ev.1 ev.2.

Lemma namespaces_run evs c w :
  clustered c w → ns_well_identified c evs →
  clustered (foldl cluster_step c evs) (exec (worker wl (namespace_event <$> evs)) w).
Proof.
  revert c w. induction evs as [|[req got] evs IH]; intros c w Hc; [done|]. intros [Hid Hids].
  cbn [fmap list_fmap worker foldl]. run_ops. apply IH; [|done].
  destruct got as [ns| |err]; [by apply namespace_found_refines|by apply namespace_gone_refines|done].
Qed.

(** C3. Refinement: while all other controllers of the sensor run in any
    interleaving with it, the worker of the Namespace controller ends, in every
    run, where the specification of the cluster ends: the cluster is the one
    the specification knows, and the Contexts of the index and of the model are
    exactly the namespaces it has, each as it was converted when it was last
    seen, with the cluster of that moment as its parent; namespaces that came
    before kube-system do not count until they come again. Namespaces keep
    their UIDs, which are their own, and the store accepts every Context and
    refuses only to delete what it does not have ([StoreExact]). *)
Theorem namespaces_refine_cluster evs others w0 :
  (∀ i, get FContext i (w_model w0) = None) → (∀ n, NameIndex_Get KindContext n (w_index w0) = Nil) →
  w_clusterContextID w0 = Nil →
  ns_well_identified no_cluster evs → Forall (λ ev, group_of ev ≠ Some GNamespaces) others →
  thread_ends 0 (λ _, clustered (foldl cluster_step no_cluster evs))
    (worker wl (namespace_event <$> evs) :: ((λ ev, worker wl [ev]) <$> others), w0).
Proof.
  intros Hg Hn Hc Hids Ho.
  assert (clustered (foldl cluster_step no_cluster evs) (exec (worker wl (namespace_event <$> evs)) w0)) as [Hm Hk].
  { apply namespaces_run; [|done]. split; [|done]. split; simpl; intros *; rewrite ?lookup_empty, ?Hg; done. }
  apply (worker_among_others wl (namespace_event <$> evs) GNamespaces others); [|done|].
  - apply list.Forall_fmap, list.Forall_true. done.
  - intros w Hs. split.
    + eapply mirrored_undisturbed; [exact Hm|]. apply (spares_weaken (group_part GNamespaces)); [set_solver..|done].
    + by rewrite <- Hk; apply (sp_part _ _ _ Hs PCluster); set_solver.
Qed.
End refinement.
