(* ===== verification/Requeue.v ===== *)
(** * Requeue: every binding that waits for a role gets it

    The path of a waiting binding through three controllers: the pending table
    of the index, the role controller that empties it into the channel of the
    binding reconciler, and the worker that drains the channel. Draining ends
    after as many steps as the channel holds, and the channel never holds more
    than its capacity. The steps of the other controllers may come between any
    two operations. *)

From S2P Require Import Prelude.
From S2P Require Import Prog.
From S2P Require Import Rely.
From S2P Require Import GoStrings.
From S2P Require Import HelmDecode.
From S2P Require Import K8s.
From S2P Require Import Lib.
From S2P Require Import Entities.
From S2P Require Import ModelSrv.
From S2P Require Import Registry.
From S2P Require Import RuleRepo.
From S2P Require Import State.
From S2P Require Import Convert.
From S2P Require Import RefFindings.
From S2P Require Import CrdControllers.
From S2P Require Import Whitelist.
From S2P Require Import Rbac.
From S2P Require Import System.
From S2P Require Import Footprint.

Section drain.
Context {L : Lib} {LL : LibLaws} {S : ModelSrv} {C : HelmCodecs} {HL : ModelSrvLaws S}.
Context (wl : RBACWhitelist) (k : BindingKind) (Get : NamespacedName → GetResult BindingObject).

(** The worker of the binding controller takes [n] requests of the channel;
    [Get] is the client. *)
Fixpoint drain (n : nat) : action Outcome :=
  match n with
  | O => Ret done_ok
  | Datatypes.S n => _ <- handle wl (EvRequeued k Get) ;; drain n
  end.

(** What the environment must leave alone for the channel to stay as it is. *)
Definition channel_part : Footprint := mkFootprint [] [] [PRequeue].

Lemma queued_spared fp k' w w' :
  PRequeue ∈ fp_parts fp → spares fp w w' → queued k' w' = queued k' w.
Proof. intros Hp [_ _ H]. unfold queued. by rewrite (H PRequeue Hp). Qed.


(** The reconcile of the head of the channel, if there is one. *)
Lemma handle_requeued :
  handle wl (EvRequeued k Get) = bind (Dequeue (binding_kind k)) (λ next,
    match next with
    | None => Ret done_ok
    | Some req => handle wl (EvBinding k req (Get req))
    end).
Proof. done. Qed.

Lemma Dequeue_queued w k' :
  queued k' ((Dequeue_op (binding_kind k) w)).2 =
    if decide (k' = binding_kind k) then tail (queued k' w) else queued k' w.
Proof.
  unfold Dequeue_op. destruct (queued (binding_kind k) w) as [|nn rest] eqn:E; simpl.
  - case_decide; [by subst; rewrite E|done].
  - unfold queued at 1. simpl. rewrite lookup_insert.
    repeat case_decide; subst; try done. by rewrite E.
Qed.

(** One request: the channel is one shorter, and its head is reconciled. *)
Lemma requeued_step fp (P : World → Prop) (Q : Outcome → World → Prop) q w :
  PRequeue ∈ fp_parts fp → (∀ w w', P w → spares fp w w' → P w') →
  (∀ w, P w → P (Dequeue_op (binding_kind k) w).2) →
  (q = [] → ∀ w, P w → Q done_ok w) →
  (∀ nn w, head q = Some nn → P w → wp (spares fp) Q (handle wl (EvBinding k nn (Get nn))) w) →
  queued (binding_kind k) w = q → P w →
  wp (spares fp) (λ out w, Q out w ∧ queued (binding_kind k) w = tail q) (handle wl (EvRequeued k Get)) w.
Proof.
  intros Hfp HP Hpop Hempty Hhead Hq Hw.
  assert (∀ q w w', queued (binding_kind k) w = q → spares fp w w' → queued (binding_kind k) w' = q)
    as Hqueue by (intros q' w1 w2 <- Hs; by apply (queued_spared fp)).
  rewrite handle_requeued. apply wp_bind.
  apply (wp_atomic _ (λ w, queued (binding_kind k) w = q ∧ P w)); [by intros w1 w2 [H1 H2] Hs; eauto|done|].
  intros w1 [Hq1 Hw1] w2 Hw2.
  assert (P w2) as HP2 by (eapply stable_rtc; [exact HP| |exact Hw2]; auto).
  assert (queued (binding_kind k) w2 = tail q) as Hq2.
  { eapply (stable_rtc (spares fp) (λ w, queued (binding_kind k) w = tail q)); [by apply Hqueue| |exact Hw2].
    rewrite Dequeue_queued, decide_True by done. by rewrite Hq1. }
  apply wp_conj; [|apply (wp_keeps _ (spares channel_part)); [by apply Hqueue| | |done]].
  - unfold Dequeue_op. rewrite Hq1. destruct q as [|nn q]; simpl; [|by apply Hhead].
    intros w' Hw'. apply Hempty; [done|]. by eapply stable_rtc.
  - intros w3 w4 <- Hs. apply (queued_spared channel_part); [by left|done].
  - destruct (Dequeue_op (binding_kind k) w1).1 as [req|]; [by apply handle_spares|exact I].
Qed.

(** C15. Termination of the drain: a worker that takes the requests of a
    channel while other controllers run (any of them that do not send to the
    channels) returns in every run, no run is infinite, and it has emptied the
    channel with as many requests as that held, at most its capacity; no
    reconcile of a binding sends a new one. *)
Theorem drain_empties_channel n others w :
  length (queued (binding_kind k) w) ≤ n →
  Forall (λ ev, apart channel_part (footprint ev) = true) others →
  thread_ends 0 (λ _ w, queued (binding_kind k) w = []) (drain n :: (handle wl <$> others), w).
Proof.
  intros Hn Ho.
  assert (∀ n q w, queued (binding_kind k) w = q → length q ≤ n →
    wp (spares channel_part) (λ _ w, queued (binding_kind k) w = []) (drain n) w) as Hdrain.
  { clear - HL. intros n. induction n as [|n IH]; intros q w Hq Hn.
    - intros w' Hw'. apply (rtc_preorder (spares channel_part)) in Hw'; [|apply _].
      rewrite (queued_spared channel_part _ w) by (done || by left). destruct q; [done|simpl in Hn; lia].
    - cbn [drain]. apply wp_bind.
      eapply wp_mono; [apply (requeued_step channel_part (λ _, True) (λ _ _, True) q); try done; [by left|]|].
      { intros nn w1 _ _. apply wp_True. }
      intros out w' [_ Hw']. eapply IH; [exact Hw'|]. destruct q; simpl in *; lia. }
  apply (wp_thread_ends (spares channel_part) _ 0 (drain n)); [done|by eapply Hdrain|].
  intros [|j] t Hj; [done|]. simpl. rewrite list_lookup_fmap_Some. intros (ev & -> & Hev).
  apply handle_spares. by eapply (Forall_lookup_1 _ _ _ _ Ho).
Qed.
End drain.

(** ** One binding on its way *)
Section target.
Context {L : Lib} {LL : LibLaws} {S : ModelSrv} {C : HelmCodecs} {HL : ModelSrvLaws S}.
Context (wl : RBACWhitelist) (k : BindingKind) (Get : NamespacedName → GetResult BindingObject).
(** The binding [obj], known as [name], with the role [rid]. *)
Context (obj : BindingObject) (id rid : uuid) (name : string).
Hypothesis obj_id : uuidFromMeta (bo_Meta obj) = id.
Hypothesis id_known : id ≠ Nil.
Hypothesis role_known : rid ≠ Nil.
Hypothesis has_subject : annotationUUID (om_Annotations (bo_Meta obj)) AnnotationSubjectID ≠ Nil.
(** The client finds it under its name, and its UID under no other. *)
Hypothesis Get_name : ∀ nn, nn_String nn = name → Get nn = GetOk obj.
Hypothesis Get_uid : ∀ nn obj', Get nn = GetOk obj' → uuidFromMeta (bo_Meta obj') = id → nn_String nn = name.
Hypothesis store_accepts : accepts FBinding.

Definition resolved_binding : Binding :=
  binding_with_role (bo_Meta obj) (firstSubjectKind (bo_SubjectKinds obj)) id rid.

(** The role is indexed, no other name is indexed under the id of the binding,
    and the binding is stored with its role once [stored] holds. *)
Record on_its_way (stored : Prop) (w : World) : Prop := {
  ow_role : NameIndex_Get KindRole (bindingRoleKey obj) (w_index w) = rid;
  ow_name n : NameIndex_Get KindBinding n (w_index w) = id → n = name;
  ow_stored : stored → get FBinding id (w_model w) = Some (EBinding resolved_binding)
}.

Section invariant.
Variable stored : Prop.
Abbreviation I := (on_its_way stored).
Abbreviation any := (λ _, True).

Lemma way_add e :
  family_of e = FFinding ∨ (family_of e = FBinding ∧ id_of e ≠ id) ∨ e = EBinding resolved_binding →
  safe I any (Model_Add e).
Proof.
  intros He w [H1 H2 H3]. split; [|done]. split; [done|done|]. simpl. intros Hs. specialize (H3 Hs).
  destruct (decide ((FBinding, id) = (family_of e, id_of e))) as [Heq|Hne].
  - destruct He as [He|[[_ He]| ->]]; [congruence..|].
    apply (get_accepted (EBinding resolved_binding) (w_model w)), store_accepts.
  - destruct (add e (w_model w)) as [m r] eqn:E. simpl. rewrite (add_frame _ _ _ _ _ _ E); [done|by left|done].
Qed.

Lemma way_del f i : f = FFinding ∨ i ≠ id → safe I any (Model_Delete f i).
Proof.
  intros Hf w [H1 H2 H3]. split; [|done]. split; [done|done|]. simpl. intros Hs. specialize (H3 Hs).
  destruct (del f i (w_model w)) as [m r] eqn:E. simpl.
  rewrite (del_frame _ _ _ _ _ _ _ E); [done|by left|]. intros [= <- <-]. by destruct Hf.
Qed.

Lemma way_Put n i : (i = id → n = name) → safe I any (Index_Put KindBinding n i).
Proof.
  intros Hi w [H1 H2 H3]. split; [|done]. split; [|intros n'|done]; simpl; rewrite Get_Put.
  - by rewrite decide_False.
  - case_decide as Hd; [|apply H2]. injection Hd as <-. done.
Qed.

Lemma way_Delete n : safe I (λ i, i = id → n = name) (Index_Delete KindBinding n).
Proof.
  intros w [H1 H2 H3]. split; [|by simpl; rewrite Delete_fst; apply H2].
  split; [|intros n'|done]; simpl; rewrite Get_Delete; [by rewrite decide_False|].
  case_decide; [by intros <-|apply H2].
Qed.

Lemma way_role : safe I (λ r, r = rid) (Index_Get KindRole (bindingRoleKey obj)).
Proof. apply safe_reading. by intros w []. Qed.

Lemma way_reading {B} (f : World → B) : safe I any (reading f).
Proof. by apply safe_reading. Qed.

Lemma way_pending {B} (op : World → B * World) iop :
  (∀ w, (op w).2 = set_index (iop (w_index w)) w) → (∀ idx, names (iop idx) = names idx) →
  safe I any (atomic op).
Proof.
  intros Hop Hi w [H1 H2 H3]. rewrite Hop. split; [|done].
  split; simpl; unfold NameIndex_Get in *; rewrite ?Hi; done.
Qed.
Lemma way_AddPending rk b : safe I any (Index_AddPendingBinding rk b).
Proof. by refine (way_pending _ (NameIndex_AddPendingBinding rk b) _ _). Qed.
Lemma way_RemovePending rk b : safe I any (Index_RemovePendingBinding rk b).
Proof. by refine (way_pending _ (NameIndex_RemovePendingBinding rk b) _ _). Qed.
Lemma way_RemovePendingByName b : safe I any (Index_RemovePendingBindingByName b).
Proof. by refine (way_pending _ (NameIndex_RemovePendingBindingByName b) _ _). Qed.

#[local] Hint Resolve way_reading way_AddPending way_RemovePending way_RemovePendingByName : safe.
#[local] Hint Extern 1 (safe _ _ (Model_Add _)) => apply way_add; simpl; tauto : safe.
#[local] Hint Extern 1 (safe _ _ (Model_Delete _ _)) => apply way_del; tauto : safe.

Lemma way_finding kind i o : safe I any (reconcileSubjectFinding (Some wl) kind i o).
Proof. unfold reconcileSubjectFinding. safely. Qed.
#[local] Hint Resolve way_finding : safe.

(** Every reconcile of a binding keeps the target on its way. *)
Lemma way_Binding kind nn : safe I any (RoleBindingReconciler_Reconcile (Some wl) kind nn (Get nn)).
Proof.
  unfold RoleBindingReconciler_Reconcile. destruct (Get nn) as [obj'| |err] eqn:EG; [| |done].
  - unfold extractRoleBindingFields, bindingFromRBAC. cbv zeta.
    case_bool_decide as Hnil; [by safely|]. change (parseOptionalUUID _) with (uuidFromMeta (bo_Meta obj')) in *.
    set (id' := uuidFromMeta (bo_Meta obj')) in *.
    assert (id' = id → nn_String nn = name ∧ obj' = obj) as Htarget.
    { intros Hid. pose proof (Get_uid nn obj' EG Hid) as Hn. split; [done|].
      rewrite (Get_name nn Hn) in EG. congruence. }
    unfold reconcile_binding, drop_binding, note_role.
    destruct (decide (id' = id)) as [Hid|Hid].
    + destruct (Htarget Hid) as [Hn ->]. eapply safe_bind.
      { eapply safe_bind; [apply way_role|]. intros r ->. apply (safe_Ret _ (λ b, b = Some (resolved_binding, id))).
        by rewrite Hid. }
      intros b ->. eapply safe_bind; [by apply way_Put|]. intros _ _. unfold resolved_binding.
      rewrite bindingHasValidSubject_spec, bool_decide_eq_true_2 by done. cbn [negb]. safely.
    + eapply safe_bind.
      { eapply safe_bind; [apply way_reading|]. intros r _.
        by apply (safe_Ret _ (λ b, ∃ x, b = Some (x, id') ∧ bind_Id x = id')); eexists. }
      intros b (x & -> & Hx). assert (bind_Id x ≠ id) by congruence.
      eapply safe_bind; [by apply way_Put|]. intros _ _.
      safely.
  - assert (nn_String nn ≠ name) as Hn by (intros Hn; by rewrite (Get_name nn Hn) in EG).
    eapply safe_bind; [apply way_Delete|]. intros i Hi. assert (i ≠ id) by (intros Hii; by apply Hn, Hi). safely.
Qed.
End invariant.

(** What the environment must leave alone. *)
Definition way_part : Footprint := mkFootprint [FBinding] [KindBinding; KindRole] [PRequeue; PPending].
Abbreviation R := (spares way_part).

Lemma way_stable stored w w' : on_its_way stored w → R w w' → on_its_way stored w'.
Proof.
  intros [H1 H2 H3] Hs. split; [|intros n|].
  1-2: rewrite (sp_name _ _ _ _ _ Hs) by set_solver; auto.
  rewrite (sp_get _ _ _ Hs) by set_solver. auto.
Qed.

(** The reconcile of the target stores it with its role. *)
Lemma target_resolves nn w :
  nn_String nn = name → on_its_way False w →
  wp R (λ _, on_its_way True) (handle wl (EvBinding k nn (GetOk obj))) w.
Proof.
  intros Hn Hw. change (handle _ _) with (RoleBindingReconciler_Reconcile (Some wl) (binding_kind k) nn (GetOk obj)).
  assert (∀ A st Q (p : action A) w, safe (on_its_way st) Q p → on_its_way st w →
    wp R (λ a w, Q a ∧ on_its_way st w) p w) as Hsafe
    by (intros; apply wp_safe; [by apply way_stable|done|done]).
  unfold RoleBindingReconciler_Reconcile, extractRoleBindingFields, bindingFromRBAC.
  change (parseOptionalUUID (om_UID _)) with (uuidFromMeta (bo_Meta obj)).
  rewrite obj_id, bool_decide_eq_false_2 by done.
  apply wp_bind, wp_bind. eapply wp_mono; [by apply Hsafe; [apply way_role|]|]. intros r w1 [-> Hw1].
  apply wp_Ret. intros w2 Hw2. apply (stable_rtc R _ _ _ (way_stable _) Hw1) in Hw2 as Hw2'.
  unfold reconcile_binding. apply wp_bind.
  eapply wp_mono; [by apply Hsafe; [apply way_Put|]|]. intros _ w3 [_ Hw3].
  rewrite bindingHasValidSubject_spec, bool_decide_eq_true_2 by done. cbn [negb].
  apply wp_bind. eapply wp_mono; [by apply Hsafe; [apply way_role|]|]. intros r w4 [-> Hw4].
  apply wp_bind. unfold note_role. rewrite bool_decide_eq_false_2 by done.
  eapply wp_mono; [by apply Hsafe; [apply way_RemovePending|]|]. intros _ w5 [_ Hw5].
  apply wp_bind, (wp_atomic R (on_its_way False)); [by apply way_stable|done|]. intros w6 [H1 H2 _] w7 Hw7.
  assert (on_its_way True w7) as Hdone.
  { eapply (stable_rtc R _ _ _ (way_stable _)); [|exact Hw7]. split; [done|done|]. intros _.
    apply (get_accepted (EBinding resolved_binding) (w_model w6)), store_accepts. }
  simpl. rewrite (store_accepts (EBinding _) _ eq_refl).
  apply (wp_mono R (λ _ w, True ∧ on_its_way True w)); [|tauto]. apply Hsafe; [|done].
  eapply safe_bind; [apply way_finding|done].
Qed.

Lemma way_weaken (st st' : Prop) w : (st' → st) → on_its_way st w → on_its_way st' w.
Proof. intros Hst [H1 H2 H3]. split; auto. Qed.

Lemma way_pop st k' w : on_its_way st w → on_its_way st (Dequeue_op k' w).2.
Proof. intros [H1 H2 H3]. unfold Dequeue_op. case_match; [done|]. by split. Qed.

(** The target is at [st]: stored, or still in the list of requests [q]. *)
Definition coming (q : list NamespacedName) : Prop := ∃ nn, nn ∈ q ∧ nn_String nn = name.

Lemma drain_resolves n q st w :
  queued (binding_kind k) w = q → length q ≤ n → on_its_way st w → st ∨ coming q →
  wp R (λ _, on_its_way True) (drain wl k Get n) w.
Proof.
  revert q st w. induction n as [|n IH]; intros q st w Hq Hn Hw Hc.
  - intros w' Hw'. apply (stable_rtc R _ _ _ (way_stable _) Hw) in Hw'.
    eapply way_weaken; [|exact Hw']. intros _. destruct Hc as [Hc|(nn & Hin & _)]; [done|].
    destruct q; [by apply not_elem_of_nil in Hin|simpl in Hn; lia].
  - cbn [drain]. apply wp_bind.
    set (next := st ∨ ∃ nn, head q = Some nn ∧ nn_String nn = name).
    eapply wp_mono; [apply (requeued_step wl k Get way_part (on_its_way st) (λ _, on_its_way next) q)|]; try done.
    + by left.
    + apply way_stable.
    + intros. by apply way_pop.
    + intros Hq0 w'. apply way_weaken. intros [Hst|(nn & Hh & _)]; [done|by rewrite Hq0 in Hh].
    + intros nn w' Hhead Hw'. destruct (decide (nn_String nn = name)) as [Hnn|Hnn].
      * rewrite (Get_name nn Hnn). eapply wp_mono; [apply target_resolves; [done|]|].
        { eapply way_weaken; [|exact Hw']. done. }
        intros out w''. by apply way_weaken.
      * eapply wp_mono; [eapply (wp_safe R (on_its_way st)); [apply way_stable|apply way_Binding|done]|].
        intros out w'' [_ Hw'']. eapply way_weaken; [|exact Hw'']. intros [Hst|(nn' & ? & ?)]; [done|congruence].
    + intros out w' [Hw' Hq']. eapply IH; [exact Hq'| |exact Hw'|].
      * destruct q; simpl in *; lia.
      * destruct Hc as [Hc|(nn & Hin & Hnn)]; [by left; left|]. destruct q as [|nn' q]; [by apply not_elem_of_nil in Hin|].
        apply elem_of_cons in Hin as [->|Hin]; [left; right; by exists nn'|right; by exists nn].
Qed.

(** *** From the pending table to the channel *)

(** The binding [b] of the pending table goes to the channel of its scope. *)
Lemma requeue_one b q w :
  queued (binding_kind k) w = q → length q < requeue_capacity → on_its_way False w →
  wp R (λ _ w, on_its_way False w ∧ queued (binding_kind k) w =
        if eqb (IsClusterScoped (binding_kind k)) (bool_decide (nn_Namespace (parseNamespacedName b) = ""))
        then q ++ [parseNamespacedName b] else q)
    (requeue_pending bindingReconcilers b) w.
Proof.
  intros Hq Hlen Hw. set (P := λ w, queued (binding_kind k) w = q ∧ on_its_way False w).
  assert (∀ w w', P w → R w w' → P w') as HP.
  { intros w1 w2 [<- Hw1] Hs. split; [by apply (queued_spared way_part); [left|]|by eapply way_stable]. }
  assert (∀ q' w w', on_its_way False w → queued (binding_kind k) w = q' → rtc R w w' →
    on_its_way False w' ∧ queued (binding_kind k) w' = q') as Hend.
  { intros q' w1 w2 H1 H2. apply (stable_rtc R (λ w, on_its_way False w ∧ queued (binding_kind k) w = q')); [|done].
    intros w3 w4 [H3 <-] Hs. split; [by eapply way_stable|by apply (queued_spared way_part); [left|]]. }
  unfold requeue_pending, bindingReconcilers. set (sc := bool_decide (nn_Namespace _ = "")).
  clearbody sc. destruct k, sc; intros w1 Hw1 w2 Hw2.
  all: destruct (stable_rtc R P w w1 HP (conj Hq Hw) Hw1) as [Hq1 Hw1'].
  all: eapply Hend; [| |exact Hw2]; [by simpl; case_match; [destruct Hw1'|]|]; simpl.
  all: first [ rewrite bool_decide_eq_true_2 by (simpl in Hq1; by rewrite Hq1)
             | case_match; [|exact Hq1] ].
  all: rewrite queued_set_requeue, lookup_insert; simpl; try rewrite <- Hq1; done.
Qed.

(** All of a list of waiting bindings, the target among them, while there is
    room. *)
Lemma requeue_all bs q w :
  queued (binding_kind k) w = q → length q + length bs ≤ requeue_capacity → on_its_way False w →
  name ∈ bs → nn_String (parseNamespacedName name) = name →
  IsClusterScoped (binding_kind k) = bool_decide (nn_Namespace (parseNamespacedName name) = "") →
  wp R (λ _ w, on_its_way False w ∧
        ∃ q, queued (binding_kind k) w = q ∧ length q ≤ requeue_capacity ∧ coming q)
    (for_each bs (requeue_pending bindingReconcilers)) w.
Proof.
  intros Hq Hlen Hw Hin Hname Hscope.
  set (J := λ bs w, on_its_way False w ∧ length (queued (binding_kind k) w) + length bs ≤ requeue_capacity ∧
    (name ∈ bs ∨ coming (queued (binding_kind k) w))).
  apply (wp_mono R (λ _, J [])).
  - apply wp_for_each.
    + intros l w1 w2 (H1 & H2 & H3) Hs. unfold J. rewrite (queued_spared way_part _ w1 w2) by (done || by left).
      split; [by eapply way_stable|done].
    + intros b l w1 (H1 & H2 & H3). simpl in H2.
      eapply wp_mono; [apply requeue_one; [done|lia|done]|]. intros u w2 [Hw2 Hq2].
      split; [done|]. rewrite Hq2. destruct H3 as [[<-|H3]%elem_of_cons|(nn & Hnn & Hs)].
      * rewrite Hscope, eqb_reflx, length_app. simpl. split; [lia|]. right.
        exists (parseNamespacedName name). split; [set_solver|done].
      * split; [case_match; rewrite ?length_app; simpl; lia|by left].
      * split; [case_match; rewrite ?length_app; simpl; lia|]. right. exists nn.
        split; [case_match; set_solver|done].
    + split; [done|]. rewrite Hq. split; [done|by left].
  - intros u w1 (H1 & H2 & [H3|H3]); [by apply not_elem_of_nil in H3|]. simpl in H2.
    split; [done|]. eexists. split; [done|]. split; [lia|done].
Qed.

Lemma guar_finding kind i o : guar R (reconcileRoleSpecFinding (Some wl) kind i o).
Proof.
  pose (fp := mkFootprint [] [] []).
  apply (guar_mono (within fp)); [intros w w'; by apply within_spares|].
  apply guar_ops; [apply within_refl|]. intros w0. unfold reconcileRoleSpecFinding. preserve.
Qed.

(** What the role controller starts from. *)
Record waiting (s : gset string) (q : list NamespacedName) (w : World) : Prop := {
  wa_pending : pendingBindings (w_index w) !! bindingRoleKey obj = Some s;
  wa_queue : queued (binding_kind k) w = q;
  wa_name n : NameIndex_Get KindBinding n (w_index w) = id → n = name
}.

Lemma waiting_stable s q w w' : waiting s q w → R w w' → waiting s q w'.
Proof.
  intros [H1 <- H3] Hs. split.
  - destruct Hs as [_ _ Hp]. rewrite (Hp PPending); [done|]. by right; left.
  - apply (queued_spared way_part); [by left|done].
  - intros n. rewrite (sp_name _ _ _ _ _ Hs) by set_solver. auto.
Qed.

Lemma role_resolves rk c rreq robj role s q w :
  accepts FRole → roleFromRBAC (ob_Meta robj) = Some (role, rid) → roleIndexKey rreq = bindingRoleKey obj →
  waiting s q w → name ∈ s → length q + size s ≤ requeue_capacity →
  nn_String (parseNamespacedName name) = name →
  IsClusterScoped (binding_kind k) = bool_decide (nn_Namespace (parseNamespacedName name) = "") →
  wp R (λ _ w, on_its_way False w ∧
        ∃ q, queued (binding_kind k) w = q ∧ length q ≤ requeue_capacity ∧ coming q)
    (handle wl (EvRole rk c rreq (GetOk robj))) w.
Proof.
  intros Hacc Hrole Hkey Hw Hin Hlen Hname Hscope. cbn [handle]. unfold RoleReconciler_Reconcile. rewrite Hrole, Hkey.
  assert (∀ {A} (p : action A) J w, (∀ w w', J w → R w w' → J w') → guar R p → J w → wp R (λ _, J) p w) as Hguar
    by (intros; by apply wp_guar).
  apply wp_bind, (wp_atomic R (waiting s q)); [apply waiting_stable|done|]. intros w1 Hw1 w2 Hw2.
  apply (stable_rtc R (waiting s q)) in Hw2; [|apply waiting_stable|by destruct Hw1].
  simpl. rewrite (Hacc (ERole role) _ eq_refl). cbv zeta. apply wp_bind.
  set (P := λ w, waiting s q w ∧ NameIndex_Get KindRole (bindingRoleKey obj) (w_index w) = rid).
  assert (∀ w w', P w → R w w' → P w') as HP.
  { intros w3 w4 [H1 H2] Hs. split; [by eapply waiting_stable|]. by rewrite (sp_name _ _ _ _ _ Hs) by set_solver. }
  apply (wp_atomic R (waiting s q) _ (λ w, (tt, _))); [apply waiting_stable|done|]. intros w3 [H1 H2 H3] w4 Hw4.
  apply (stable_rtc R P) in Hw4; [|exact HP|].
  2: { split; [split; [done|done|intros n]|]; simpl; rewrite Get_Put; [|by rewrite decide_True].
       rewrite decide_False by done. auto. }
  apply wp_bind, (wp_mono R (λ _, P)); [apply Hguar; [exact HP|apply guar_finding|exact Hw4]|].
  intros u w5 Hw5. apply wp_bind, (wp_atomic R P); [exact HP|exact Hw5|]. intros w6 [[H4 H5 H6] H7] w7 Hw7.
  unfold NameIndex_ResolvePendingBindings in Hw7 |- *. rewrite H4 in Hw7 |- *. cbn [fst snd] in Hw7 |- *.
  assert (on_its_way False w7 ∧ queued (binding_kind k) w7 = q) as [Hway Hq].
  { apply (stable_rtc R (λ w, on_its_way False w ∧ queued (binding_kind k) w = q)) in Hw7; [done| |by split].
    intros w8 w9 [? <-] Hs. split; [by eapply way_stable|by apply (queued_spared way_part); [left|]]. }
  apply wp_bind. eapply wp_mono; [apply (requeue_all _ q); try done|].
  - rewrite range_set_perm. change (length (elements s)) with (size s). done.
  - by apply elem_of_range_set.
  - intros v w8 Hw8. apply Hguar; [|exact I|exact Hw8]. intros w9 w10 [? (q' & <- & Hq')] Hs.
    split; [by eapply way_stable|]. eexists. split; [done|].
    by rewrite (queued_spared way_part _ w9) by (done || by left).
Qed.
End target.

Section theorem.
Context {L : Lib} {LL : LibLaws} {S : ModelSrv} {C : HelmCodecs} {HL : ModelSrvLaws S}.

(** C6. A binding that waits for its role gets it: when the Role (or
    ClusterRole) it refers to is reconciled and the worker of its reconciler
    then takes as many requests as the channel has room for, every run ends
    with the binding in the model with the id of the role, whatever the
    controllers that write no roles and no bindings do in between, and whatever
    else is in the channel.
    The bindings that wait for the role fit into the channel, and the client
    returns the binding under its name and its UID under no other. *)
Theorem waiting_binding_gets_role wl k rk c rreq robj role rid req obj id Get s others w :
  accepts FRole → accepts FBinding →
  roleFromRBAC (ob_Meta robj) = Some (role, rid) → roleIndexKey rreq = bindingRoleKey obj →
  uuidFromMeta (bo_Meta obj) = id → id ≠ Nil →
  annotationUUID (om_Annotations (bo_Meta obj)) AnnotationSubjectID ≠ Nil →
  free_of "/" (nn_Namespace req) → IsClusterScoped (binding_kind k) = bool_decide (nn_Namespace req = "") →
  (∀ nn, nn_String nn = nn_String req → Get nn = GetOk obj) →
  (∀ nn obj', Get nn = GetOk obj' → uuidFromMeta (bo_Meta obj') = id → nn_String nn = nn_String req) →
  pendingBindings (w_index w) !! bindingRoleKey obj = Some s → nn_String req ∈ s →
  length (queued (binding_kind k) w) + size s ≤ requeue_capacity →
  (∀ n, NameIndex_Get KindBinding n (w_index w) = id → n = nn_String req) →
  Forall (λ ev, apart way_part (footprint ev) = true) others →
  let worker := (_ <- handle wl (EvRole rk c rreq (GetOk robj)) ;; drain wl k Get requeue_capacity) in
  thread_ends 0
    (λ _ w, get FBinding id (w_model w) =
       Some (EBinding (binding_with_role (bo_Meta obj) (firstSubjectKind (bo_SubjectKinds obj)) id rid)))
    (worker :: (handle wl <$> others), w).
Proof.
  intros Har Hab Hrole Hkey Hid Hnil Hsub Hfree Hscope Hget Huid Hpend Hin Hlen Hname Ho worker.
  destruct (roleFromRBAC_id _ _ _ Hrole) as [_ Hrid]. rewrite <- (parseNamespacedName_String req Hfree) in Hscope.
  apply (wp_thread_ends (spares way_part) _ 0 worker); [done| |].
  - eapply (wp_mono _ (λ _, on_its_way obj id rid (nn_String req) True)); [|by intros _ w' Hw'; apply Hw'].
    apply wp_bind. eapply wp_mono.
    + eapply (role_resolves wl k Get obj id rid (nn_String req)); try done.
      by rewrite parseNamespacedName_String.
    + intros o w1 [Hw1 (q & Hq & Hq' & Hc)]. eapply (drain_resolves wl k Get obj id rid (nn_String req)); eauto.
  - intros [|j] t Hj; [done|]. simpl. rewrite list_lookup_fmap_Some. intros (ev & -> & Hev).
    apply handle_spares. by eapply (Forall_lookup_1 _ _ _ _ Ho).
Qed.
End theorem.
