(* ===== verification/Concrete.v ===== *)
(** * Concrete: sample instances of the interfaces

    One instance of [Lib] and one of [ModelSrv] (a finite map), with proofs of
    their laws. They show that the hypotheses of the client theorems can hold,
    and are what the concrete examples and witnesses run on. A UUID is a string
    here; the texts that start with "u-" are the valid ones. *)

From S2P Require Import Prelude.
From S2P Require Import GoStrings.
From S2P Require Import K8s.
From S2P Require Import Lib.
From S2P Require Import Entities.
From S2P Require Import ModelSrv.

Definition robj_meta (o : RObj) : ObjectMeta :=
  match o with
  | RSystem s => SystemCR_Meta s
  | RAPI a => APICR_Meta a
  | RComponent c => ComponentCR_Meta c
  | RSystemInstance s => SystemInstanceCR_Meta s
  | RObject o => ob_Meta o
  end.

#[export] Instance lib0 : Lib := {|
  uuid := string;
  Nil := "";
  uuid_Parse s := if HasPrefix s "u-" then Some s else None;
  uuid_MustParse s := s;
  uuid_String u := u;
  uuid_bytes u := u;
  uuid_NewSHA1 ns key := "u-sha1:" +:+ ns +:+ ":" +:+ key;
  ApiType := string;
  ParseApiType s := if bool_decide (s = "") then None else Some s;
  TypeIDForKind k := "u-type:" +:+ k;
  nn_String nn := nn_Namespace nn +:+ "/" +:+ nn_Name nn;
  Unstructured := RObj;
  ToUnstructured := inr;
  u_GetUID o := om_UID (robj_meta o);
  u_GetName o := om_Name (robj_meta o);
  u_GetNamespace o := om_Namespace (robj_meta o);
  u_GetKind _ := "";
  Program := string;
  cel_compile s := if bool_decide (s = "") then inl "empty" else inr s;
  cel_Eval p _ := if bool_decide (p = "true") then CelBool true
                  else if bool_decide (p = "false") then CelBool false else CelErr p;
  fmt_q s := s;
  json_Marshal_strings l := inr ("[" +:+ Join "," l +:+ "]");
  Choice := bool;
  range_set c s := if c : bool then reverse (elements s) else elements s;
  range_map _ c m := if c : bool then reverse (map_to_list m) else map_to_list m
|}.

#[export] Instance lib0_laws : LibLaws (H := lib0).
Proof. split; [done|intros [] s|intros A [] m]; simpl; by rewrite ?reverse_Permutation. Qed.

#[export] Instance lib0_uuids : UuidLaws (H := lib0).
Proof. by split. Qed.

(** The resource stored under a key, if it has that key. *)
Definition entry (f : Family) (id : string) (m : gmap (Family * string) Entity) : option Entity :=
  e ← m !! (f, id); if bool_decide ((family_of e, id_of e) = (f, id)) then Some e else None.

(** The artifacts of a store. *)
Definition artifact_at (k : Family * string) (e : Entity) : option Artifact :=
  match e with EArtifact a => if bool_decide (k = (FArtifact, art_Id a)) then Some a else None | _ => None end.
Definition artifacts_of (m : gmap (Family * string) Entity) : gmap (Family * string) Artifact :=
  map_imap artifact_at m.

#[export] Instance store0 : ModelSrv (L := lib0) := {|
  Store := gmap (Family * string) Entity;
  add e m := (<[(family_of e, id_of e) := e]> m, None);
  del f id m := match entry f id m with
                | Some _ => (delete (f, id) m, None)
                | None => (m, Some (ErrNotFound f))
                end;
  get := entry;
  GetArtifacts c m := Some (if c : bool then reverse (snd <$> map_to_list (artifacts_of m))
                            else snd <$> map_to_list (artifacts_of m));
  EffectiveKind s := match s with
                     | Some (mkSubjectRef (Some _) None) => SubjectIdentity
                     | Some (mkSubjectRef None (Some _)) => SubjectGroup
                     | _ => SubjectNone
                     end
|}.

#[export] Instance store0_laws : ModelSrvLaws store0.
Proof.
  split; try done; simpl; unfold entry.
  - intros f id m e. destruct (m !! (f, id)); simpl; [|done].
    case_bool_decide; [|done]. intros [= ->]. by simplify_eq.
  - intros e m m' [= <-]. rewrite lookup_insert_eq. simpl. by rewrite bool_decide_eq_true_2.
  - intros e m m' r f id [= <- <-] _ Hne. by rewrite lookup_insert_ne by done.
  - intros f id m m' r. destruct (m !! (f, id) ≫= _) eqn:E; intros [= <- <-] _; [|done].
    by rewrite lookup_delete_eq.
  - intros f id m m' r f' id'. destruct (m !! (f, id) ≫= _) eqn:E; intros [= <- <-] _ Hne; [|done].
    by rewrite lookup_delete_ne by done.
Qed.

#[export] Instance store0_reliable : FindingsReliable store0.
Proof. split; [done|]. intros id m. simpl. case_match; [by left|by right]. Qed.

#[export] Instance store0_atomic : ModelSrvAtomic store0.
Proof.
  split; simpl.
  - intros e m _. right. unfold entry. rewrite lookup_insert_eq. simpl. by rewrite bool_decide_eq_true_2.
  - intros f i m _. destruct (entry f i m) eqn:E; simpl; [right|by left].
    unfold entry. by rewrite lookup_delete_eq.
  - intros c l a m [= <-] Hin0. assert (a ∈ snd <$> map_to_list (artifacts_of m)) as ([k e] & -> & Hin)%list_elem_of_fmap
      by (destruct c; [by apply elem_of_reverse|done]). simpl. apply elem_of_map_to_list in Hin.
    unfold artifacts_of in Hin. rewrite map_lookup_imap in Hin. apply bind_Some in Hin as (x & Hx & Ha).
    destruct x; try done. simpl in Ha. case_bool_decide as Hk; [|done]. simplify_eq. unfold entry. rewrite Hx. simpl.
    by rewrite bool_decide_eq_true_2.
Qed.

Lemma artifacts_of_lookup m f i :
  artifacts_of m !! (f, i) =
    match f with FArtifact => e ← entry FArtifact i m; match e with EArtifact a => Some a | _ => None end | _ => None end.
Proof.
  unfold artifacts_of, entry. rewrite map_lookup_imap.
  destruct f, (m !! _) as [e|]; simpl; try (by destruct e); try done.
  destruct e; simpl; repeat case_bool_decide; simplify_eq; done.
Qed.

#[export] Instance store0_local : StoreLocal store0.
Proof.
  split; simpl.
  - intros e m m' _ _. split; [done|]. unfold entry. by rewrite !lookup_insert_eq.
  - intros f id m m' _ Hm. rewrite Hm. destruct (entry f id m) eqn:E; simpl; [|by rewrite Hm, E].
    split; [done|]. unfold entry. by rewrite !lookup_delete_eq.
  - intros c m m' Hm. assert (artifacts_of m' = artifacts_of m) as ->; [|done].
    apply map_eq. intros [f i]. rewrite !artifacts_of_lookup. destruct f; try done. by rewrite Hm.
Qed.

#[export] Instance store0_exact : StoreExact store0.
Proof. split; [apply _|done|]. intros f id m _. simpl. by destruct (entry f id m). Qed.
