(* ===== verification/Witnesses.v ===== *)
(** * Witnesses: the theorems at concrete inputs

    For every property with hypotheses, an application of the theorem to the
    sample instances of [Concrete], with the hypotheses evaluated. *)

From S2P Require Import Prelude.
From S2P Require Import Prog.
From S2P Require Import GoStrings.
From S2P Require Import HelmDecode.
From S2P Require Import K8s.
From S2P Require Import Lib.
From S2P Require Import Entities.
From S2P Require Import ModelSrv.
From S2P Require Import Registry.
From S2P Require Import RuleRepo.
From S2P Require Import CrdCheck.
From S2P Require Import State.
From S2P Require Import Convert.
From S2P Require Import RefFindings.
From S2P Require Import Evaluator.
From S2P Require Import CrdControllers.
From S2P Require Import Instances.
From S2P Require Import Glob.
From S2P Require Import GlobLanguage.
From S2P Require Import Whitelist.
From S2P Require Import Rbac.
From S2P Require Import HelmRelease.
From S2P Require Import CrdReporter.
From S2P Require Import Namespace.
From S2P Require Import Image.
From S2P Require Import ImageScan.
From S2P Require Import Sensor.
From S2P Require Import System.
From S2P Require Import Concrete.

(** ** Sample data *)

(** A UUID of the sample library. *)
Definition U (s : string) : @uuid lib0 := s.

Definition w0 : World (S := store0) := mkWorld (∅ : Store) NewNameIndex ∅ ∅ ∅ Nil None.

Definition meta (name uid : string) (ann : gmap string string) : ObjectMeta :=
  mkMeta name "shop" uid ann [].

Definition web : NamespacedName := mkNN "shop" "web".

Definition svc : Object := mkObject (meta "web" "u-svc" ∅) "".
Definition ing : Object := mkObject (meta "web" "u-ing" {[AnnotationAPIReference := "u-api"]}) "".
Definition deploy : Object := mkObject (meta "web" "u-dep" ∅) "".

Definition sys_no_id : SystemCR :=
  mkSystemCR (meta "web" "u-meta" ∅)
    (mkSystemSpec "Web" "" "" (mkVersion "1.0" "2024-02-29" "" "") false None).
Definition sys_with_id : SystemCR :=
  mkSystemCR (meta "web" "u-meta" ∅)
    (mkSystemSpec "Web" "" "u-spec" (mkVersion "1.0" "2024-02-29" "" "") false None).

(** Codecs that only prepend a tag. *)
#[export] Instance codecs0 : HelmCodecs := {|
  b64_DecodeString s := if HasPrefix s "b" then inr (TrimPrefix s "b") else inl "not base64";
  b64_EncodeToString s := String "b" s;
  gzip_Reader := string;
  gzip_NewReader s := if HasPrefix s magicGzip then inr (TrimPrefix s magicGzip) else inl "not gzip";
  io_ReadAll := inr;
  gzip_Writer := string;
  gzip_Write := inr;
  gzip_Close s := inr (magicGzip +:+ s);
  json_Unmarshal s := inr (mkRelease s "" 0 (mkInfo "") (mkChart (mkChartMetadata "" "")) "");
  json_Marshal r := if bool_decide (Release_Namespace r = "" ∧ Release_Version r = 0%Z ∧
                        Info_Status (Release_Info r) = "" ∧ ChartMetadata_Name (Chart_Metadata (Release_Chart r)) = "" ∧
                        ChartMetadata_Version (Chart_Metadata (Release_Chart r)) = "" ∧ Release_Manifest r = "")
                    then inr (Release_Name r) else inl "unsupported";
  yaml_docs _ := []
|}.

#[export] Instance codecs0_laws : HelmCodecsLaws.
Proof.
  split; simpl.
  - intros x. by rewrite HasPrefix_cons, TrimPrefix_cons.
  - done.
  - intros x z y [= <-] [= <-]. exists x. by rewrite HasPrefix_app, TrimPrefix_app.
  - intros x z y [= <-] [= <-]. apply HasPrefix_app.
  - intros r x. case_bool_decide as H; [|done]. intros [= <-].
    destruct r as [n ns v [st] [[cn cv]] m]; simpl in *. by destruct_and!; subst.
Qed.

(** ** Applications *)

(** The order in which a range visits a map: the other way round. *)
Definition choice0 : Choice (Lib := lib0) := true.

Lemma DecodeReleaseData_EncodeRelease_witness :
  let rel := mkRelease "shop" "" 0 (mkInfo "") (mkChart (mkChartMetadata "" "")) "" in
  ∃ data, EncodeRelease rel = inr data ∧ DecodeReleaseData data = inr rel.
Proof.
  eexists. split; [reflexivity|].
  apply DecodeReleaseData_EncodeRelease. reflexivity.
Defined.

Lemma NameIndex_refines_tables_witness :
  (index_run [OpPut KindRole "shop/r" (U "u-1"); OpAddPendingBinding "shop/r" "shop/b";
              OpResolvePendingBindings choice0 "shop/r"; OpDelete KindRole "shop/r"; OpKeys choice0 KindRole] NewNameIndex).1 =
  (spec_run [OpPut KindRole "shop/r" (U "u-1"); OpAddPendingBinding "shop/r" "shop/b";
              OpResolvePendingBindings choice0 "shop/r"; OpDelete KindRole "shop/r"; OpKeys choice0 KindRole]
     (mkIndexSpec ∅ ∅ ∅)).1.
Proof. apply (proj1 (NameIndex_refines_tables _)). Defined.

Lemma crd_reconcilers_mirror_witness :
  mirrors (S := store0) (λ s, as_entity ESystem (convertSystem s)) FSystem KindSystem SystemReconciler_Reconcile.
Proof. exact (proj1 crd_reconcilers_mirror). Defined.

Lemma SystemReconciler_id_change_leaks_witness :
  let w1 := exec (SystemReconciler_Reconcile web (GetOk sys_no_id)) w0 in
  let w2 := exec (SystemReconciler_Reconcile web (GetOk sys_with_id)) w1 in
  let w3 := exec (SystemReconciler_Reconcile web GetNotFound) w2 in
  is_Some (get FSystem (U "u-meta") (w_model w3)).
Proof.
  intros w1 w2 w3. eexists.
  eapply (SystemReconciler_id_change_leaks web sys_no_id) with (id1 := U "u-meta") (id2 := U "u-spec").
  - reflexivity.
  - reflexivity.
  - done.
  - vm_compute. reflexivity.
  - vm_compute. reflexivity.
Defined.

Lemma WorkloadReconciler_found_witness :
  ∃ ci, instance_synced WorkloadOps web (ob_Meta deploy) ci (U "u-dep") w0
    (exec (WorkloadReconciler_Reconcile None "apps/deployments" web (GetOk deploy)) w0).
Proof.
  eexists. apply WorkloadReconciler_found.
  - reflexivity.
  - reflexivity.
  - done.
  - by apply no_rules_avoid_refs.
  - vm_compute. reflexivity.
Defined.

Lemma APIInstanceReconciler_found_witness :
  ∃ ai, instance_synced APIInstanceOps web (ob_Meta ing) ai (U "u-ing") w0
    (exec (APIInstanceReconciler_Reconcile "networking.k8s.io/ingresses" web (GetOk ing)) w0).
Proof.
  eexists. apply APIInstanceReconciler_found.
  - reflexivity.
  - done.
  - by apply no_rules_avoid_refs.
  - vm_compute. reflexivity.
Defined.

Lemma WorkloadReconciler_deleted_witness :
  let w1 := exec (WorkloadReconciler_Reconcile None "apps/deployments" web (GetOk deploy)) w0 in
  instance_removed WorkloadOps web (U "u-dep")
    (exec (WorkloadReconciler_Reconcile None "apps/deployments" web GetNotFound) w1).
Proof.
  intros w1. apply WorkloadReconciler_deleted.
  - vm_compute. reflexivity.
  - done.
  - done.
  - intros m i H. simpl in *. case_match; simpl; [|done].
    unfold entry in *. by rewrite lookup_delete_ne.
  - vm_compute. reflexivity.
Defined.

Lemma APIInstance_name_clash_witness :
  let r1 := APIInstanceReconciler_Reconcile "/services" web (GetOk svc) in
  let r2 := APIInstanceReconciler_Reconcile "networking.k8s.io/ingresses" web (GetOk ing) in
  let r3 := APIInstanceReconciler_Reconcile "/services" web GetNotFound in
  get FApiInstance (U "u-ing") (w_model (exec r3 (exec r2 (exec r1 w0)))) = None.
Proof.
  intros r1 r2 r3.
  destruct (APIInstance_name_clash (S := store0) web svc _ (U "u-svc") ing _ (U "u-ing") w0 eq_refl eq_refl)
    as [H _].
  - done.
  - vm_compute. reflexivity.
  - vm_compute. reflexivity.
  - vm_compute. reflexivity.
  - exact H.
Defined.

(** ** RBAC *)

Definition whitelist : RBACWhitelist := mkRBACWhitelist ["system:*"; "admin"] [] [] [].

Lemma IsWhitelisted_plain_witness :
  IsWhitelisted (Some whitelist) "Role" "system:node" = true.
Proof.
  rewrite (IsWhitelisted_plain whitelist "Role" [("system:", true); ("admin", false)] "system:node").
  - vm_compute. reflexivity.
  - reflexivity.
  - repeat constructor; vm_compute; set_solver.
  - vm_compute. reflexivity.
Defined.

Lemma IsWhitelisted_language_witness :
  (∀ p, p ∈ ["system:*"; "admin"] → ∃ ts, tokens p ts ∧ ∀ ts', tokens p ts' → ts' = ts) ∧
  ∃ p ts, p ∈ ["system:*"; "admin"] ∧ tokens p ts ∧ language ts "system:node".
Proof.
  destruct (IsWhitelisted_language (λ _, inr "data") (λ _, inr whitelist) "whitelist.yaml" whitelist "Role"
    ["system:*"; "admin"] "system:node") as [H1 H2].
  - reflexivity.
  - reflexivity.
  - unfold ascii_name. simpl. repeat constructor; done.
  - apply (bool_decide_unpack _). vm_compute. exact I.
  - split; [exact H1|]. apply H2. reflexivity.
Defined.

Definition role_obj : Object := mkObject (meta "reader" "u-role" ∅) "".
Definition role_req : NamespacedName := mkNN "shop" "reader".
Definition binding_req : NamespacedName := mkNN "shop" "bind".
Definition binding_obj : BindingObject :=
  mkBindingObject (meta "bind" "u-bind" {[AnnotationSubjectID := "u-subject"]}) "Role" "reader" ["User"].

Lemma accepts0 f : accepts (S := store0) f.
Proof. done. Qed.

Lemma deletes0 f : deletes (S := store0) f.
Proof. intros id m. simpl. case_match; [by left|by right]. Qed.

Lemma delete_silent0 f id : f ≠ FFinding → delete_silent (S := store0) f id.
Proof.
  intros Hf m i H. simpl in *. case_match; simpl; [|done].
  unfold entry in *. by rewrite lookup_delete_ne by congruence.
Qed.

Lemma RoleReconciler_found_witness :
  ∃ role, role_synced (Some whitelist) "Role" bindingReconcilers role_req (ob_Meta role_obj) role (U "u-role") w0
    (exec (RoleReconciler_Reconcile (Some whitelist) "Role" bindingReconcilers choice0 role_req (GetOk role_obj)) w0).
Proof.
  eexists. apply RoleReconciler_found.
  - reflexivity.
  - vm_compute. reflexivity.
Defined.

Lemma RoleBindingReconciler_found_witness :
  binding_synced None "RoleBinding" binding_req binding_obj (U "u-bind") Nil w0
    (exec (RoleBindingReconciler_Reconcile None "RoleBinding" binding_req (GetOk binding_obj)) w0).
Proof.
  apply (RoleBindingReconciler_found None "RoleBinding" binding_req binding_obj (U "u-bind") w0).
  - reflexivity.
  - done.
  - vm_compute. reflexivity.
Defined.

Lemma RoleBindingReconciler_deleted_witness :
  let w1 := exec (RoleBindingReconciler_Reconcile None "RoleBinding" binding_req (GetOk binding_obj)) w0 in
  get FBinding (U "u-bind") (w_model (exec (RoleBindingReconciler_Reconcile None "RoleBinding" binding_req GetNotFound) w1))
    = None.
Proof.
  intros w1. apply (RoleBindingReconciler_deleted None "RoleBinding" binding_req (U "u-bind") w1).
  - vm_compute. reflexivity.
  - done.
  - by apply delete_silent0.
  - vm_compute. reflexivity.
Defined.

Lemma late_role_resolves_witness :
  let bind := RoleBindingReconciler_Reconcile None "RoleBinding" binding_req (GetOk binding_obj) in
  let role := RoleReconciler_Reconcile None "Role" bindingReconcilers choice0 role_req (GetOk role_obj) in
  binding_req ∈ queued "RoleBinding" (exec role (exec bind w0)).
Proof.
  intros bind role. destruct (roleFromRBAC (ob_Meta role_obj)) as [[r rid]|] eqn:E; [|discriminate].
  apply (late_role_resolves None "RoleBinding" "Role" bindingReconcilers choice0 binding_req role_req binding_obj
           role_obj (U "u-bind") r rid w0).
  - reflexivity.
  - done.
  - done.
  - exact E.
  - reflexivity.
  - reflexivity.
  - vm_compute. set_solver.
  - reflexivity.
  - left.
  - vm_compute. reflexivity.
  - vm_compute. reflexivity.
  - vm_compute. reflexivity.
  - apply Nat.ltb_lt. vm_compute. reflexivity.
Defined.

Lemma binding_role_race_witness :
  ∃ w', rtc pstep ([RoleBindingReconciler_Reconcile None "RoleBinding" binding_req (GetOk binding_obj);
                    RoleReconciler_Reconcile None "Role" bindingReconcilers choice0 role_req (GetOk role_obj)], w0)
                  ([Ret done_ok; Ret done_ok], w').
Proof.
  destruct (roleFromRBAC (ob_Meta role_obj)) as [[r rid]|] eqn:E; [|discriminate].
  destruct (binding_role_race None "RoleBinding" "Role" bindingReconcilers choice0 binding_req role_req binding_obj
              role_obj (U "u-bind") r rid w0) as (w' & Hsteps & _).
  - reflexivity.
  - done.
  - done.
  - exact E.
  - reflexivity.
  - reflexivity.
  - intros b (x & Hx & _). vm_compute in Hx. discriminate.
  - done.
  - exists w'. exact Hsteps.
Defined.

(** ** Helm releases *)

(** Codecs that read every payload as a deployed release of chart web-1. *)
Definition deployed_web : Release :=
  mkRelease "web" "shop" 3 (mkInfo "deployed") (mkChart (mkChartMetadata "web" "1")) "manifest".
Definition codecs1 : HelmCodecs := {|
  b64_DecodeString := inr;
  b64_EncodeToString s := s;
  gzip_Reader := string;
  gzip_NewReader := inr;
  io_ReadAll := inr;
  gzip_Writer := string;
  gzip_Write := inr;
  gzip_Close := inr;
  json_Unmarshal _ := inr deployed_web;
  json_Marshal _ := inl "unsupported";
  yaml_docs _ := [mkManifestDoc "Deployment" "web" ""; mkManifestDoc "Service" "web" "shop"]
|}.

Definition helm_req : NamespacedName := mkNN "shop" "sh.helm.release.v1.web.v3".
Definition helm_secret : Secret :=
  mkSecret (meta "sh.helm.release.v1.web.v3" "u-secret" ∅) helmSecretType {["release" := "payload"]}.

Abbreviation helm_reconcile := (HelmReleaseReconciler_Reconcile (S := store0) (C := codecs1)).

Lemma helm_deployed0 : deployed_release (C := codecs1) helm_secret "web" 3 deployed_web.
Proof. split; vm_compute; reflexivity. Qed.

Lemma helm_latest0 : is_latest (S := store0) "shop/web" 3 w0.
Proof. intros e He. vm_compute in He. discriminate. Qed.

Lemma release_ready0 : release_ready (S := store0) (C := codecs1) helm_req helm_secret "web" 3 deployed_web w0.
Proof.
  split; [apply helm_deployed0|apply helm_latest0|by split_and!; intros e m|].
  split; vm_compute; discriminate.
Qed.

Lemma HelmReleaseReconciler_deployed_witness :
  release_synced (S := store0) (C := codecs1) "shop" helm_secret "web" 3 deployed_web w0
    (exec (helm_reconcile helm_req (GetOk helm_secret)) w0).
Proof.
  apply (HelmReleaseReconciler_deployed (S := store0) (C := codecs1) helm_req).
  - apply helm_deployed0.
  - apply helm_latest0.
  - apply accepts0.
  - apply accepts0.
  - apply accepts0.
  - vm_compute. discriminate.
Defined.

Lemma HelmReleaseReconciler_revisions_witness :
  run (helm_reconcile helm_req (GetOk helm_secret)) (set_latestRevision {["shop/web" := 4%Z]} w0) =
    (done_ok, set_latestRevision {["shop/web" := 4%Z]} w0).
Proof.
  destruct (HelmReleaseReconciler_revisions (S := store0) (C := codecs1)) as (_ & H & _).
  apply (H helm_req helm_secret "web" 3%Z _ 4%Z).
  - vm_compute. reflexivity.
  - vm_compute. reflexivity.
  - reflexivity.
Defined.

Lemma HelmReleaseReconciler_deleted_witness :
  let w1 := exec (helm_reconcile helm_req (GetOk helm_secret)) w0 in
  get FSystemInstance (release_id (L := lib0) "shop/web") (w_model (exec (helm_reconcile helm_req GetNotFound) w1)) = None.
Proof.
  intros w1.
  apply (HelmReleaseReconciler_deleted (S := store0) (C := codecs1) helm_req "web" 3 (release_id (L := lib0) "shop/web") w1).
  - vm_compute. reflexivity.
  - vm_compute. reflexivity.
  - vm_compute. reflexivity.
  - vm_compute. discriminate.
  - vm_compute. discriminate.
  - by apply delete_silent0.
  - vm_compute. reflexivity.
Defined.

Definition annotated_deploy : Object :=
  mkObject (meta "web" "u-dep" {[AnnotationSystemInstanceID := "u-si"]}) "".

Lemma web_deployed0 :
  owned (ParseManifestResources (H := codecs1) (Release_Manifest deployed_web)) "shop"
    KindComponentInstance (nn_String (Lib := lib0) web).
Proof. exists (mkManifestResource "Deployment" "web" ""). split; [left|done]. Qed.

Lemma helm_workload_orders_witness :
  ∃ ci, get FComponentInstance (U "u-dep")
    (w_model (exec (helm_reconcile helm_req (GetOk helm_secret))
                (exec (WorkloadReconciler_Reconcile None "apps/deployments" web (GetOk deploy)) w0))) =
    Some (EComponentInstance ci).
Proof.
  destruct (componentInstanceFromMeta (L := lib0) (ob_Meta deploy)) as [[ci cid]|] eqn:E; [|discriminate].
  eexists. refine (proj2 (helm_workload_orders (S := store0) (C := codecs1) helm_req helm_secret "web" 3
    deployed_web "apps/deployments" web deploy ci (U "u-dep") w0 _ _ _ _)).
  - apply release_ready0.
  - apply web_deployed0.
  - rewrite E. by injection E as <- <-.
  - by injection E as <- <-.
Defined.

Lemma helm_overrides_annotation_witness :
  ∃ ci', get FComponentInstance (U "u-dep")
    (w_model (exec (helm_reconcile helm_req (GetOk helm_secret))
                (exec (WorkloadReconciler_Reconcile None "apps/deployments" web (GetOk annotated_deploy)) w0))) =
    Some (EComponentInstance ci') ∧ ci_SystemInstance ci' = Some (release_id (L := lib0) "shop/web").
Proof.
  destruct (componentInstanceFromMeta (L := lib0) (ob_Meta annotated_deploy)) as [[ci cid]|] eqn:E; [|discriminate].
  refine (proj2 (helm_overrides_annotation (S := store0) (C := codecs1) helm_req helm_secret "web" 3
    deployed_web "apps/deployments" web annotated_deploy ci (U "u-dep") (U "u-si") w0 _ _ _ _)).
  - apply release_ready0.
  - apply web_deployed0.
  - rewrite E. by injection E as <- <-.
  - by injection E as <- <-.
Defined.

Definition web_cr : SystemInstanceCR :=
  mkSystemInstanceCR (meta "web" "u-cr" ∅) (mkSystemInstanceSpec "" "" "Web").

Lemma helm_cr_collision_leaks_witness :
  let w1 := exec (helm_reconcile helm_req (GetOk helm_secret)) w0 in
  let w2 := exec (SystemInstanceReconciler_Reconcile web (GetOk web_cr)) w1 in
  let w3 := exec (SystemInstanceReconciler_Reconcile web GetNotFound) w2 in
  is_Some (get FSystemInstance (release_id (L := lib0) "shop/web")
    (w_model (exec (helm_reconcile helm_req GetNotFound) w3))).
Proof.
  intros w1 w2 w3. destruct (convertSystemInstance (L := lib0) web_cr) as [[si id]|] eqn:E; [|discriminate].
  eexists. refine (helm_cr_collision_leaks (S := store0) (C := codecs1) helm_req helm_secret "web" 3
    deployed_web web web_cr si (U "u-cr") helm_req 3 w0 _ _ _ _ _ _).
  - apply release_ready0.
  - rewrite E. by injection E as <- <-.
  - discriminate.
  - reflexivity.
  - vm_compute. reflexivity.
  - reflexivity.
Defined.

(** ** CRDs and namespaces *)

Definition missing_crd : CRDEntry := mkCRDEntry "apps.io" "v1" "widgets" "Widgets" "apps".
Definition crd_result : CheckResult := mkCheckResult [] [missing_crd] None.

Lemma Reporter_refines_attachment_witness :
  let w := set_reporter (Some (NewReporter crd_result (U "u-node"))) w0 in
  reporter_rep crd_result (Some (mkResourceRef (U "u-node") NodeResource))
    (mkAttachment (Some (mkResourceRef (U "u-node") NodeResource)) false)
    (exec (for_each [OpContext (U "u-cluster"); OpClear] reporter_step) w).
Proof.
  apply (Reporter_refines_attachment crd_result (U "u-node") [OpContext (U "u-cluster"); OpClear]).
  - intros e1 e2 H1 H2 _. set_solver.
  - reflexivity.
Defined.

Definition cluster_meta (name uid : string) : ObjectMeta := mkMeta name "" uid ∅ [].
Definition kube_system : Object := mkObject (cluster_meta "kube-system" "u-kube") "".
Definition kube_req : NamespacedName := mkNN "" "kube-system".
Definition shop_ns : Object := mkObject (cluster_meta "shop" "u-shop") "".
Definition shop_req : NamespacedName := mkNN "" "shop".

Lemma NamespaceReconciler_found_witness :
  ∃ c, namespace_synced kube_req kube_system c (U "u-kube") w0
    (exec (NamespaceReconciler_Reconcile kube_req (GetOk kube_system)) w0).
Proof.
  eexists. apply NamespaceReconciler_found.
  - by left.
  - reflexivity.
  - intros rule u H. by apply not_elem_of_nil in H.
  - vm_compute. reflexivity.
Defined.

Lemma namespace_bootstrap_witness :
  let child := NamespaceReconciler_Reconcile shop_req (GetOk shop_ns) in
  let w2 := exec (NamespaceReconciler_Reconcile kube_req (GetOk kube_system)) (exec child w0) in
  ∃ c, get FContext (U "u-shop") (w_model (exec child w2)) = Some (EContext c) ∧ ctx_Parent c = Some (U "u-kube").
Proof.
  intros child w2.
  destruct (convertNamespaceToContext (L := lib0) kube_system Nil) as [[kctx kid]|] eqn:E; [|discriminate].
  refine (proj2 (proj2 (namespace_bootstrap shop_req shop_ns kube_req kube_system kctx (U "u-kube") w0
    _ _ _ _ _ _ _))).
  - reflexivity.
  - done.
  - discriminate.
  - discriminate.
  - reflexivity.
  - reflexivity.
  - rewrite E. by injection E as <- <-.
Defined.

Lemma NamespaceReconciler_deleted_witness :
  let w1 := exec (NamespaceReconciler_Reconcile kube_req (GetOk kube_system)) w0 in
  get FContext (U "u-kube") (w_model (exec (NamespaceReconciler_Reconcile kube_req GetNotFound) w1)) = None.
Proof.
  intros w1. refine (proj1 (NamespaceReconciler_deleted kube_req (U "u-kube") w1 _ _ _ _)).
  - vm_compute. reflexivity.
  - discriminate.
  - by apply delete_silent0.
  - vm_compute. reflexivity.
Defined.

Lemma NamespaceReconciler_unindexed_fails_witness :
  let p := NamespaceReconciler_Reconcile shop_req GetNotFound in
  result p (Nat.iter 5 (exec p) w0) = failed (EGet "not found").
Proof. apply NamespaceReconciler_unindexed_fails. reflexivity. Defined.

(** ** Images *)

Definition web_status : ContainerStatus :=
  mkContainerStatus "shop:1" ("docker.io/shop@sha256:" +:+
    "0123456789abcdef0123456789abcdef0123456789abcdef0123456789abcdef") true false None.
Definition web_pod : Pod := mkPod "shop" "web-0" "node-1" ["shop:1"] [] [] [web_status] [] [].

(** The same image on another node, with an id that is no digest. *)
Definition plain_status : ContainerStatus := mkContainerStatus "shop:1" "docker://web" true false None.
Definition plain_pod : Pod := mkPod "shop" "web-1" "node-2" ["shop:1"] [] [] [plain_status] [] [].

Lemma collectImageObservations_wf_witness :
  ∃ o, collectImageObservations [web_pod] !!
         "sha256:0123456789abcdef0123456789abcdef0123456789abcdef0123456789abcdef" = Some o ∧
       io_failingPods o = [].
Proof.
  destruct (collectImageObservations [web_pod] !!
    "sha256:0123456789abcdef0123456789abcdef0123456789abcdef0123456789abcdef") as [o|] eqn:E.
  - exists o. split; [done|]. apply (collectImageObservations_wf _ _ _ E).
    vm_compute in E. by injection E as <-.
  - vm_compute in E. discriminate.
Defined.

Lemma started_image_observed_witness :
  seen_started "shop:1" "node-2" (collectImageObservations [plain_pod]) ∧
  ∃ k', rtc (retagged [plain_pod; web_pod]) "shop:1" k' ∧
    seen_started k' "node-2" (collectImageObservations [plain_pod; web_pod]).
Proof.
  split.
  - apply (started_image_observed [plain_pod] plain_pod plain_status).
    + left.
    + left.
    + reflexivity.
    + vm_compute. discriminate.
    + intros k' (pod & cs & ->%list_elem_of_singleton & ->%list_elem_of_singleton & _ & <-). reflexivity.
  - apply (started_image_observed [plain_pod; web_pod] plain_pod plain_status).
    + left.
    + left.
    + reflexivity.
    + vm_compute. discriminate.
Defined.

(** The image of [web_pod], and one that is gone; every range has a choice of
    its own. *)
Definition images_in_play : gset string :=
  {["sha256:0123456789abcdef0123456789abcdef0123456789abcdef0123456789abcdef"; "till:2"]}.
Definition scan_choices : ScanChoices (L := lib0) := mkScanChoices true (λ _, false : bool) false true.

Lemma scan_env0 : scan_env (S := store0) images_in_play.
Proof.
  split; [done|apply deletes0| |].
  - intros k1 k2 [->%elem_of_singleton| ->%elem_of_singleton]%elem_of_union
      [->%elem_of_singleton| ->%elem_of_singleton]%elem_of_union H; try done; vm_compute in H; discriminate H.
  - intros k [->%elem_of_singleton| ->%elem_of_singleton]%elem_of_union; vm_compute; discriminate.
Qed.

Lemma web_pod_in_play : dom (collectImageObservations [web_pod]) ⊆ images_in_play.
Proof. apply (bool_decide_unpack _). vm_compute. exact I. Qed.

Lemma ImageScanReconciler_mirrors_witness :
  result (ImageScanReconciler_Reconcile (S := store0) scan_choices (inr [web_pod])) w0 = done_ok.
Proof.
  refine (proj1 (ImageScanReconciler_mirrors images_in_play scan_env0 scan_choices [web_pod] w0 _ _)).
  - apply web_pod_in_play.
  - intros k. by left.
Defined.

Lemma ImageScanReconciler_foreign_untouched_witness :
  let w := exec (Model_Add (EArtifact (mkArtifact (U "u-art") "web" "" ""))) w0 in
  get FArtifact (U "u-art") (w_model (exec (ImageScanReconciler_Reconcile scan_choices (inr [web_pod])) w)) =
  get FArtifact (U "u-art") (w_model w).
Proof.
  intros w. apply ImageScanReconciler_foreign_untouched.
  - done.
  - done.
  - intros _ key. discriminate.
Defined.

(** ** The sensor *)

Lemma ReplicationGuard_spec_witness :
  let r := mkRequest "GET" "/api/systems" (Some (mkBody "hello" None)) in forwarded r = r.
Proof.
  intros r. apply (proj2 (proj2 (ReplicationGuard_spec (mkReplicationGuard false) r)) "hello").
  - reflexivity.
  - apply Nat.leb_le. vm_compute. reflexivity.
Defined.

(** [2 ^ n] letters. *)
Fixpoint letters (n : nat) : string :=
  match n with O => "x" | Datatypes.S n => let s := letters n in s +:+ s end.

Lemma ReplicationGuard_truncates_witness :
  ∃ r', ServeHTTP (mkReplicationGuard true) (mkRequest "POST" "/api/events/push" (Some (mkBody (letters 17) None)))
    = Forward r'.
Proof.
  destruct (ReplicationGuard_truncates "POST" "/api/events/push" (letters 17)) as (r' & b & H & _).
  - apply Nat.ltb_lt. vm_compute. reflexivity.
  - exists r'. exact H.
Defined.

(** The race of [binding_role_race] and a Helm release, as events of a started
    sensor, interleaved. *)
Definition sample_events : list Event :=
  [EvBinding KRoleBinding binding_req (GetOk binding_obj); EvRole KRole choice0 role_req (GetOk role_obj);
   EvHelm helm_req (GetOk helm_secret)].

Lemma controllers_invariant_witness :
  let w1 := exec (startup (S := store0) (U "u-node") "" None) (boot (S := store0) ∅) in
  let c := sched [0; 1; 2; 1; 0; 2; 1; 0; 2; 0; 1]
             (handle (S := store0) (C := codecs1) whitelist <$> sample_events, w1) in
  registered (U "u-node") c.2.
Proof.
  intros w1 c.
  refine (proj2 (controllers_invariant (S := store0) (C := codecs1) whitelist ∅ (U "u-node") "" None
    (mkSensorIdentity (U "u-node")) sample_events c _ _)).
  - vm_compute. reflexivity.
  - apply sched_steps.
Defined.

(** ** Finding rules *)

Definition label_rule : FindingRule :=
  mkFindingRule "no-owner" (mkFindingRuleSpec (mkTarget [""] ["services"]) "true"
    (mkFindingSpec "high" "No owner" "The service has no owner" (mkFindingTypeSpec "u-ft" "NoOwner" ""))).

Lemma RuleEvaluation_run_spec_witness :
  let w := set_rules (RuleRepo_Set label_rule NewRuleRepo).2 w0 in
  raised (mkCompiledRule "no-owner" (Some "true") (frs_Finding (FindingRule_Spec label_rule))) (RObject svc)
    (modelsrvResourceType "/services") (exec (RuleEvaluation_run (L := lib0) "/services" (RObject svc)) w).
Proof.
  intros w. apply (RuleEvaluation_run_spec (L := lib0) "/services" (RObject svc) (RObject svc) w).
  - reflexivity.
  - discriminate.
  - apply accepts0.
  - apply accepts0.
  - intros r1 r2 H1 H2 _. vm_compute in H1, H2.
    apply list_elem_of_singleton in H1 as ->. by apply list_elem_of_singleton in H2 as ->.
  - vm_compute. left.
  - by exists "true".
Defined.
