(* ===== verification/Scenarios.v ===== *)
(** * Scenarios: the theorems about several controllers at concrete runs

    The applications of the theorems that need more than one handler: pools of
    handlers under a given schedule, a whole process, and the events of a store
    that refuses some calls. *)

From S2P Require Import Prelude.
From S2P Require Import Prog.
From S2P Require Import Rely.
From S2P Require Import GoStrings.
From S2P Require Import HelmDecode.
From S2P Require Import K8s.
From S2P Require Import Lib.
From S2P Require Import Entities.
From S2P Require Import ModelSrv.
From S2P Require Import Registry.
From S2P Require Import RuleRepo.
From S2P Require Import CrdCheck.
From S2P Require Import State.
From S2P Require Import Convert.
From S2P Require Import RefFindings.
From S2P Require Import CrdControllers.
From S2P Require Import Whitelist.
From S2P Require Import Rbac.
From S2P Require Import HelmRelease.
From S2P Require Import HelmHistory.
From S2P Require Import Races.
From S2P Require Import Instances.
From S2P Require Import CrdReporter.
From S2P Require Import Namespace.
From S2P Require Import Image.
From S2P Require Import Sensor.
From S2P Require Import Options.
From S2P Require Import System.
From S2P Require Import Typing.
From S2P Require Import Footprint.
From S2P Require Import Isolation.
From S2P Require Import Bindings.
From S2P Require Import Owners.
From S2P Require Import NamespaceMirror.
From S2P Require Import ImageScan.
From S2P Require Import Main.
From S2P Require Import Mirror.
From S2P Require Import Requeue.
From S2P Require Import Concrete.
From S2P Require Import Witnesses.

(** ** A store that refuses some calls: [store0], but no delete of a System and
    no add of the Context of kube-system gets through. *)
#[local] Instance store1 : ModelSrv (L := lib0) := {|
  Store := @Store lib0 store0;
  add e m := if bool_decide ((family_of e, id_of e) = (FContext, U "u-kube"))
             then (m, Some (ErrOther "refused")) else @add lib0 store0 e m;
  del f id m := if bool_decide (f = FSystem) then (m, Some (ErrOther "refused")) else @del lib0 store0 f id m;
  get := @get lib0 store0;
  GetArtifacts := @GetArtifacts lib0 store0;
  EffectiveKind := @EffectiveKind lib0 store0
|}.

#[local] Instance store1_laws : ModelSrvLaws store1.
Proof.
  split; try apply store0_laws; cbn [add del get store1].
  - intros e m m'. case_bool_decide; [done|]. apply store0_laws.
  - intros e m m' r f id. case_bool_decide; [by intros [= <- <-]|]. apply store0_laws.
  - intros f id m m' r. case_bool_decide; [intros [= <- <-]; by intros [|]|]. apply store0_laws.
  - intros f id m m' r f' id'. case_bool_decide; [by intros [= <- <-]|]. apply store0_laws.
Qed.

#[local] Instance store1_local : StoreLocal store1.
Proof.
  split; cbn [add del get GetArtifacts store1].
  - intros e m m' Hf Hm. case_bool_decide; [by split|]. by apply (add_local (S := store0)).
  - intros f id m m' Hf Hm. case_bool_decide; [by split|]. by apply (del_local (S := store0)).
  - intros c m m'. apply (GetArtifacts_local (S := store0)).
Qed.

#[local] Instance store1_reliable : FindingsReliable store1.
Proof. split; [done|]. intros id m. cbn [del store1]. apply store0_reliable. Qed.

Definition w1 : World (S := store1) := mkWorld (∅ : Store) NewNameIndex ∅ ∅ ∅ Nil None.

(** ** Errors *)

Lemma failed_delete_is_lost_witness :
  let w := exec (SystemReconciler_Reconcile (S := store1) web (GetOk sys_with_id)) w1 in
  let p := handle (S := store1) (C := codecs1) whitelist (EvSystem web GetNotFound) in
  result p w = failed (EModel (ErrOther "refused")) ∧ result p (exec p w) = done_ok.
Proof.
  intros w. destruct (get FSystem (U "u-spec") (del FSystem (U "u-spec") (w_model w)).1) as [e|] eqn:He;
    [|vm_compute in He; discriminate]. intros p.
  destruct (failed_delete_is_lost (S := store1) (C := codecs1) whitelist MSystem web (U "u-spec") e
    (ErrOther "refused") w) as (H1 & _ & H2 & _).
  - vm_compute. reflexivity.
  - discriminate.
  - vm_compute. reflexivity.
  - discriminate.
  - exact He.
  - split; [exact H1|exact H2].
Defined.

Lemma cluster_announced_too_early_witness :
  let kube := NamespaceReconciler_Reconcile (S := store1) kube_req (GetOk kube_system) in
  let child := NamespaceReconciler_Reconcile shop_req (GetOk shop_ns) in
  let w := exec child (exec kube w1) in
  get FContext (U "u-kube") (w_model w) = None ∧
  ∃ c, get FContext (U "u-shop") (w_model w) = Some (EContext c) ∧ ctx_Parent c = Some (U "u-kube").
Proof.
  intros kube child w. destruct (convertNamespaceToContext (L := lib0) kube_system Nil) as [[kctx kid]|] eqn:E;
    [|discriminate].
  refine (proj2 (cluster_announced_too_early (S := store1) kube_req kube_system kctx (U "u-kube") shop_req shop_ns
    (U "u-shop") w1 (ErrOther "refused") _ _ _ _ _ _ _ _ _ _)).
  - reflexivity.
  - change (convertNamespaceToContext kube_system Nil = Some (kctx, U "u-kube")). rewrite E.
    by injection E as <- <-.
  - injection E as <- _. vm_compute. reflexivity.
  - injection E as <- _. vm_compute. reflexivity.
  - discriminate.
  - reflexivity.
  - discriminate.
  - discriminate.
  - reflexivity.
  - vm_compute. reflexivity.
Defined.

(** ** Helm *)

(** Codecs that read the payload "failed" as a failed release. *)
Definition failed_web : Release :=
  mkRelease "web" "shop" 4 (mkInfo "failed") (mkChart (mkChartMetadata "web" "2")) "manifest".
#[local] Instance codecs2 : HelmCodecs := {|
  b64_DecodeString := inr;
  b64_EncodeToString s := s;
  gzip_Reader := string;
  gzip_NewReader := inr;
  io_ReadAll := inr;
  gzip_Writer := string;
  gzip_Write := inr;
  gzip_Close := inr;
  json_Unmarshal s := inr (if bool_decide (s = "failed") then failed_web else deployed_web);
  json_Marshal _ := inl "unsupported";
  yaml_docs _ := [mkManifestDoc "Deployment" "web" ""]
|}.

Definition failed_req : NamespacedName := mkNN "shop" "sh.helm.release.v1.web.v4".
Definition failed_secret : Secret :=
  mkSecret (meta "sh.helm.release.v1.web.v4" "u-secret4" ∅) helmSecretType {["release" := "failed"]}.

Lemma failed_upgrade_hides_release_witness :
  let helm := HelmReleaseReconciler_Reconcile (S := store0) (C := codecs2) helm_req (GetOk helm_secret) in
  let w := exec (populateLatestRevisions (inr [helm_secret; failed_secret])) w0 in
  run helm w = (done_ok, w).
Proof.
  intros helm w.
  destruct (failed_upgrade_hides_release (S := store0) (C := codecs2) helm_req helm_secret "web" 3 deployed_web
    failed_req failed_secret 4 w0) as (_ & _ & H).
  - split; [split; vm_compute; reflexivity|apply helm_latest0|by split_and!; intros e m|].
    split; vm_compute; discriminate.
  - split; [reflexivity|]. split; [vm_compute; reflexivity|]. exists failed_web. split; [vm_compute; reflexivity|done].
  - reflexivity.
  - lia.
  - apply (H [helm_secret; failed_secret]); [lia|right; left|reflexivity].
Defined.

Lemma stale_listing_hides_release_witness :
  let w := set_latestRevision {["shop/web" := 4%Z]} w0 in
  let w' := exec (populateLatestRevisions (inr [failed_secret]))
              (exec (HelmReleaseReconciler_Reconcile (S := store0) (C := codecs1) failed_req GetNotFound) w) in
  run (helm_reconcile helm_req (GetOk helm_secret)) w' = (done_ok, w').
Proof.
  intros w w'.
  refine (proj2 (stale_listing_hides_release (S := store0) (C := codecs1) helm_req helm_secret "web" 3 deployed_web
    failed_req 4 failed_secret [failed_secret] w _ _ _ _ _ _ _)).
  - apply helm_deployed0.
  - lia.
  - vm_compute. reflexivity.
  - reflexivity.
  - reflexivity.
  - left.
  - split_and!; vm_compute; reflexivity.
Defined.

(** ** Pools of handlers *)

Lemma helm_workload_race_witness :
  ∃ w', rtc pstep ([WorkloadReconciler_Reconcile (S := store0) None "apps/deployments" web (GetOk deploy);
                    helm_reconcile helm_req (GetOk helm_secret)], w0) ([Ret done_ok; Ret done_ok], w').
Proof.
  destruct (componentInstanceFromMeta (L := lib0) (ob_Meta deploy)) as [[ci cid]|] eqn:E; [|discriminate].
  destruct (helm_workload_race (S := store0) (C := codecs1) helm_req helm_secret "web" 3 deployed_web
    "apps/deployments" web deploy ci (U "u-dep") w0) as (w' & H & _).
  - apply release_ready0.
  - apply web_deployed0.
  - rewrite E. by injection E as <- <-.
  - by injection E as <- <-.
  - reflexivity.
  - exists w'. exact H.
Defined.

Lemma controllers_well_typed_witness :
  let c := sched [0; 1; 2; 1; 0; 2; 1; 0; 2; 0; 1]
             (handle (S := store0) (C := codecs1) whitelist <$> sample_events,
              exec (startup (S := store0) (U "u-node") "" None) (boot (S := store0) ∅)) in
  world_wf c.2.
Proof.
  intros c.
  apply (controllers_well_typed (S := store0) (C := codecs1) whitelist ∅ (U "u-node") "" None sample_events c).
  - discriminate.
  - intros f i e _ H. discriminate H.
  - apply sched_steps.
Defined.

Lemma handlers_stay_within_witness :
  let w := exec (startup (S := store0) (U "u-node") "" None) (boot (S := store0) ∅) in
  let c := sched [0; 1; 2; 1; 0; 2; 1; 0; 2; 0; 1] (handle (S := store0) (C := codecs1) whitelist <$> sample_events, w) in
  get FNode (U "u-node") (w_model c.2) = get FNode (U "u-node") (w_model w).
Proof.
  intros w c. destruct (handlers_stay_within (S := store0) (C := codecs1) whitelist sample_events w c) as (H & _).
  - apply sched_steps.
  - apply H; [discriminate|]. intros ev Hev. repeat (apply elem_of_cons in Hev as [->|Hev]; [cbn; clear; set_solver|]).
    by apply not_elem_of_nil in Hev.
Defined.

(** A System that appears, changes and disappears, next to another one. *)
Definition sys_other : SystemCR :=
  mkSystemCR (meta "db" "u-db" ∅) (mkSystemSpec "DB" "" "" (mkVersion "" "" "" "") true None).
Definition db : NamespacedName := mkNN "shop" "db".
Definition system_events : list (NamespacedName * GetResult SystemCR) :=
  [(web, GetOk sys_with_id); (db, GetOk sys_other); (web, GetNotFound)].

Lemma crd_controllers_refine_mirror_witness :
  thread_ends 0 (λ _, mirrored (S := store0) FSystem KindSystem
      (foldl (mirror_step (mk_convert (L := lib0) MSystem)) ∅ system_events))
    (controller (S := store0) (C := codecs1) whitelist MSystem system_events ::
       (handle (S := store0) (C := codecs1) whitelist <$> sample_events), w0).
Proof.
  apply (crd_controllers_refine_mirror (S := store0) (C := codecs1) whitelist MSystem system_events sample_events w0).
  - apply accepts0.
  - apply deletes0.
  - reflexivity.
  - reflexivity.
  - split; [|split; [|split; [|exact I]]].
    + intros cr e id n x _ _ Hm. by rewrite lookup_empty in Hm.
    + intros cr e id n x [= <-] [= _ <-] Hm. cbn [mirror_step snd mk_convert] in Hm.
      apply lookup_insert_Some in Hm as [[<- <-]|[_ Hm]]; [done|by rewrite lookup_empty in Hm].
    + intros cr e id n x Hx. discriminate Hx.
  - repeat constructor.
Defined.

(** ** The requeue channel *)

(** The binding of [binding_req] waits for its role. *)
Definition waiting : World (S := store0) :=
  set_index (NameIndex_AddPendingBinding "shop/reader" "shop/bind"
    (NameIndex_Put KindBinding "shop/bind" (U "u-bind") (w_index w0))) w0.

Definition client (nn : NamespacedName) : GetResult BindingObject :=
  if bool_decide (nn_String (Lib := lib0) nn = "shop/bind") then GetOk binding_obj else GetNotFound.

(** Other controllers at work meanwhile. *)
Definition other_events : list Event :=
  [EvHelm helm_req (GetOk helm_secret); EvNamespace kube_req (GetOk kube_system)].

Lemma drain_empties_channel_witness :
  let w := set_requeue {["RoleBinding" := [binding_req; mkNN "shop" "gone"]]} waiting in
  thread_ends 0 (λ _ w, queued "RoleBinding" w = [])
    (drain (S := store0) (C := codecs1) whitelist KRoleBinding client 2 ::
       (handle (S := store0) (C := codecs1) whitelist <$> other_events), w).
Proof.
  intros w. apply (drain_empties_channel (S := store0) (C := codecs1) whitelist KRoleBinding client 2 other_events w).
  - apply Nat.leb_le. vm_compute. reflexivity.
  - repeat constructor.
Defined.

Lemma waiting_binding_gets_role_witness :
  ∃ b, thread_ends 0 (λ _ w, get FBinding (U "u-bind") (w_model w) = Some (EBinding b))
    ((_ <- handle (S := store0) (C := codecs1) whitelist (EvRole KRole choice0 role_req (GetOk role_obj)) ;;
      drain whitelist KRoleBinding client requeue_capacity) ::
       (handle (S := store0) (C := codecs1) whitelist <$> other_events), waiting).
Proof.
  destruct (roleFromRBAC (L := lib0) (ob_Meta role_obj)) as [[r rid]|] eqn:E; [|discriminate]. eexists.
  apply (waiting_binding_gets_role (S := store0) (C := codecs1) whitelist KRoleBinding KRole choice0 role_req role_obj r rid
    binding_req binding_obj (U "u-bind") client {["shop/bind"]} other_events waiting).
  - apply accepts0.
  - apply accepts0.
  - exact E.
  - reflexivity.
  - reflexivity.
  - discriminate.
  - discriminate.
  - vm_compute. set_solver.
  - reflexivity.
  - intros nn Hnn. unfold client. by rewrite bool_decide_eq_true_2.
  - intros nn obj'. unfold client. case_bool_decide as H; [by intros _ _|done].
  - reflexivity.
  - set_solver.
  - apply Nat.leb_le. vm_compute. reflexivity.
  - intros n. cbn [waiting w_index set_index].
    change (NameIndex_Get KindBinding n (NameIndex_Put KindBinding "shop/bind" (U "u-bind") NewNameIndex) = U "u-bind" →
            n = "shop/bind").
    rewrite Get_Put. case_decide as H; [by injection H|discriminate].
  - repeat constructor.
Defined.

(** ** The process *)

Lemma parse_settings_witness :
  let settings := [("leader-elect", VBool true); ("api-bind-address", VString ":9090"); ("leader-elect", VBool false)] in
  ∃ given, parse (λ _, None) ["--leader-elect=true"; "--api-bind-address=:9090"; "--leader-elect=false"] ∅ = Given given ∧
    options (λ _, None) given = options (λ _, None) (foldl (λ g s, <[s.1 := s.2]> g) ∅ settings).
Proof.
  intros settings. apply (parse_settings (λ _, None) (λ _, None) settings).
  repeat constructor; vm_compute; set_solver.
Defined.

Definition externals : Externals (L := lib0) (S := store0) := {|
  x_foreign_flag _ := None;
  x_NewManager := None;
  x_NewBackend := None;
  x_events := ([] : list string);
  x_AddSubscriber url urls := (urls ++ [url], None);
  x_ReadFile _ := inl "no such file";
  x_Unmarshal _ := inl "not YAML";
  x_NewUUID := U "u-node";
  x_discovery := None;
  x_Setup _ := None;
  x_AddHealthzCheck := None;
  x_AddReadyzCheck := None;
  x_Listen := inr;
  x_Start _ := None
|}.
Definition command_line : list string := ["--subscriber-urls=http://hub:8080/api"; "--crd-checklist"; "apps.io/v1/widgets"].
Definition command_line_options : Options :=
  options (λ _, None) {["subscriber-urls" := VString "http://hub:8080/api"; "crd-checklist" := VString "apps.io/v1/widgets"]}.

Lemma externals0 : externals_ok externals (λ _, None) command_line command_line_options emptyWhitelist.
Proof.
  split; try reflexivity.
  - eexists. split; vm_compute; reflexivity.
  - eexists. reflexivity.
Qed.

Lemma main_runs_witness :
  (run (main externals (λ _, None) command_line) (boot (S := store0) ∅)).1 = Returned.
Proof.
  pose proof (main_runs externals (λ _, None) command_line command_line_options emptyWhitelist ∅ externals0) as H.
  cbv zeta in H. destruct (result _ _) as [id|] eqn:E; [|vm_compute in E; discriminate].
  cbn [x_Start externals] in H. by rewrite H.
Defined.

Lemma main_node_lifecycle_witness :
  thread_ends 0
    (λ r w, get FNode (U "u-node") (w_model w) =
       match r with inl Returned => None | _ => Some (ENode (sensorNode (U "u-node"))) end)
    (main_thread externals (λ _, None) command_line ::
       (handler_thread (C := codecs1) emptyWhitelist <$> sample_events), boot (S := store0) ∅).
Proof.
  apply (main_node_lifecycle (S := store0) (C := codecs1) externals (λ _, None) command_line command_line_options
    emptyWhitelist ∅ sample_events externals0).
  - by eexists.
  - apply accepts0.
  - apply accepts0.
  - apply accepts0.
  - apply accepts0.
  - apply deletes0.
Defined.

(** ** Isolation *)

(** A worker for each group with something to do. *)
Definition sample_workers (g : Group) : list Event :=
  filter (λ ev, group_of ev = Some g) (EvPods scan_choices (inr [web_pod]) :: EvSystem web (GetOk sys_with_id) :: sample_events).

(** On the store that refuses some of the calls. *)
Lemma workers_serializable_witness :
  let order := reverse groups in
  let threads := pool (S := store1) (C := codecs1) whitelist sample_workers [GetOk deploy] in
  let serialized := serial (S := store1) (C := codecs1) whitelist sample_workers order w1 in
  sn pstep (threads, w1) ∧
  (∀ c, rtc pstep (threads, w1) c → nf pstep c →
    get FSystem (U "u-spec") (w_model c.2) = get FSystem (U "u-spec") (w_model serialized)) ∧
  get FSystem (U "u-spec") (w_model serialized) ≠ None.
Proof.
  intros order threads serialized.
  destruct (workers_serializable (S := store1) (C := codecs1) whitelist sample_workers) with
    (fallbacks := [GetOk deploy]) (order := order) (w0 := w1) as [Hsn H].
  - intros g. apply list.Forall_forall. intros ev Hev. by apply list_elem_of_filter in Hev as [Hev _].
  - apply reverse_Permutation.
  - split_and!; [exact Hsn| |vm_compute; discriminate].
    intros c Hsteps Hnf. destruct (H c Hsteps Hnf) as (_ & Hget & _). by apply Hget.
Defined.

Lemma scan_mirrors_among_others_witness :
  thread_ends 0 (λ out w, out = done_ok ∧ inst_indexed (S := store0) images_in_play w ∧
      ∀ k, k ∈ images_in_play → inst_wanted (collectImageObservations [web_pod] !! k) k (inst w0 k) (inst w k))
    (handle (S := store0) (C := codecs1) whitelist (EvPods scan_choices (inr [web_pod])) ::
       (handle (S := store0) (C := codecs1) whitelist <$> sample_events), w0).
Proof.
  apply (scan_mirrors_among_others (S := store0) (C := codecs1) whitelist scan_choices [web_pod] sample_events
    images_in_play w0).
  - apply scan_env0.
  - apply web_pod_in_play.
  - intros k. by left.
  - repeat constructor; discriminate.
Defined.

(** ** No binding is forgotten *)

(** The binding comes first, then its role, then the request of the channel. *)
Definition rbac_events : list Event :=
  [EvBinding KRoleBinding binding_req (GetOk binding_obj); EvRole KRole choice0 role_req (GetOk role_obj);
   EvRequeued KRoleBinding (λ _, GetOk binding_obj)].

Lemma rbac_orderly : orderly (S := store0) (C := codecs1) whitelist (λ _, U "u-role") rbac_events ∅ w0.
Proof.
  split; [|split; [|split; [|split; [|split; [|split; [|exact I]]]]]].
  - split; [vm_compute; set_solver|]. intros n obj' _ Hn. discriminate Hn.
  - intros []; vm_compute; lia.
  - intros role id. vm_compute. by intros [= _ <-].
  - intros []; vm_compute; lia.
  - assert (∃ w, exec (handle (S := store0) (C := codecs1) whitelist (EvRole KRole choice0 role_req (GetOk role_obj)))
      (exec (handle (C := codecs1) whitelist (EvBinding KRoleBinding binding_req (GetOk binding_obj))) w0) = w ∧
      queued "RoleBinding" w = [binding_req]) as (w & -> & Hq) by (eexists; split; [reflexivity|vm_compute; reflexivity]).
    cbn [admissible binding_kind]. rewrite Hq. split; [|done]. split; [vm_compute; set_solver|].
    intros n obj' Hne Hn. cbn [observe note] in Hn. rewrite bool_decide_eq_false_2 in Hn by done.
    by rewrite lookup_insert_ne in Hn by done.
  - intros []; vm_compute; lia.
Qed.

Lemma no_binding_forgotten_witness :
  let events := [EvSystem web (GetOk sys_with_id); EvPods scan_choices (inr [web_pod]); EvHelm helm_req (GetOk helm_secret)] in
  last_seen (S := store0) (C := codecs1) whitelist rbac_events ∅ w0 !! "shop/bind" = Some binding_obj ∧
  thread_ends 0
    (λ _ w, ∀ n obj, last_seen (S := store0) (C := codecs1) whitelist rbac_events ∅ w0 !! n = Some obj →
       remembered (S := store0) (λ _, U "u-role") n obj w)
    (worker (S := store0) (C := codecs1) whitelist rbac_events ::
       ((λ ev, worker (S := store0) (C := codecs1) whitelist [ev]) <$> events), w0).
Proof.
  intros events. split; [vm_compute; reflexivity|].
  apply (no_binding_forgotten (S := store0) (C := codecs1)).
  - by repeat constructor.
  - repeat constructor; discriminate.
  - split_and!; [done|done|]. intros rk b (s & Hs & _). discriminate Hs.
  - apply rbac_orderly.
Defined.

(** ** Namespaces *)

(** A namespace that comes too early, kube-system, and the namespace again. *)
Definition namespace_events : list (NamespacedName * GetResult Object) :=
  [(shop_req, GetOk shop_ns); (kube_req, GetOk kube_system); (shop_req, GetOk shop_ns)].

Lemma namespaces_refine_cluster_witness :
  cl_id (foldl cluster_step (no_cluster (L := lib0)) namespace_events) = U "u-kube" ∧
  thread_ends 0 (λ _, clustered (S := store0) (foldl cluster_step no_cluster namespace_events))
    (worker (S := store0) (C := codecs1) whitelist (namespace_event <$> namespace_events) ::
       ((λ ev, worker (S := store0) (C := codecs1) whitelist [ev]) <$> sample_events), w0).
Proof.
  split; [vm_compute; reflexivity|]. apply (namespaces_refine_cluster (S := store0) (C := codecs1)).
  - reflexivity.
  - reflexivity.
  - reflexivity.
  - split; [|split; [|split; [|exact I]]].
    + intros ns _ n x Hx. discriminate Hx.
    + intros ns _ n x Hx. discriminate Hx.
    + assert (∃ e, cl_contexts (cluster_step (cluster_step (no_cluster (L := lib0)) (shop_req, GetOk shop_ns))
        (kube_req, GetOk kube_system)) = <["kube-system" := (U "u-kube", e)]> ∅) as [e E] by (eexists; reflexivity).
      intros ns [= <-] n x Hx. rewrite E in Hx. apply lookup_insert_Some in Hx as [[<- <-]|[_ Hx]]; [by split|discriminate Hx].
  - repeat constructor; discriminate.
Defined.

(** ** Owners *)

(** The release first, then its Deployment. *)
Definition owner_events : list Event :=
  [EvHelm helm_req (GetOk helm_secret); EvWorkload Deployment web (GetOk deploy)].

Lemma owned_instances_linked_witness :
  NameIndex_GetHelmOwner KindComponentInstance "shop/web"
    (w_index (exec (worker (S := store0) (C := codecs1) whitelist owner_events) w0)) ≠ Nil ∧
  thread_ends 0 (λ _, owned_linked (S := store0))
    (worker (S := store0) (C := codecs1) whitelist owner_events ::
       ((λ ev, worker (S := store0) (C := codecs1) whitelist [ev]) <$> [EvPods scan_choices (inr [web_pod])]), w0).
Proof.
  split; [vm_compute; discriminate|]. apply (owned_instances_linked (S := store0) (C := codecs1)).
  - apply _.
  - by repeat constructor.
  - repeat constructor; discriminate.
  - intros k n e _ Ho. destruct Ho. unfold NameIndex_GetHelmOwner. by rewrite get2_at2.
  - split; [done|]. split; [|exact I]. intros obj n [= <-] _.
    rewrite Get_names_at.
    assert (names_at KindComponentInstance (w_index (exec (handle (S := store0) (C := codecs1) whitelist
      (EvHelm helm_req (GetOk helm_secret))) w0)) = ∅) as Hn by (vm_compute; reflexivity).
    change (ik_kind WorkloadOps) with KindComponentInstance. rewrite Hn, lookup_empty. vm_compute. discriminate.
Defined.
