(* ===== verification/CopyScenarios.v ===== *)
(** * CopyScenarios: deep copies at work

    Metadata with a pointer of its own as the instance of [MetaV1], the theorem
    of [DeepCopy] at a ComponentList in memory, and what a copy of a value onto
    itself does. *)

From S2P Require Import Prelude.
From S2P Require Import GoHeap.
From S2P Require Import Deep.
From S2P Require Import K8s.
From S2P Require Import CrdTypes.
From S2P Require Import DeepCopy.

(** Object metadata: a name and a map of annotations, which is a block. *)
Record Meta1 := mkMeta1 { m1_Name : string; m1_Annotations : Pointer (gmap string string) }.

#[local] Instance MetaV1_1 : MetaV1 := {|
  GoObjectMeta := Meta1;
  GoListMeta := string;
  GoOther := gmap string string;
  zero_ObjectMeta := mkMeta1 "" None;
  zero_ListMeta := "";
  zero_Other := ∅
|}.

Definition annotations1 : Lens Meta1 (Pointer (gmap string string)) :=
  mkLens m1_Annotations (λ a m, mkMeta1 (m1_Name m) a).
#[local] Instance annotations1_ok : LensOk annotations1.
Proof. split; [done|done|by intros []]. Qed.
#[local] Instance type_annotations : GoType Cell (gmap string string) := type_GoOther.
#[local] Instance type_annotations_ok : GoTypeOk Cell (gmap string string) := type_GoOther_ok.

Definition Meta1_DeepCopyInto (src dst : Ptr Cell Meta1) : Mem Cell unit :=
  assign src dst ;; copy_pointer (src ⇢ annotations1) (dst ⇢ annotations1).

#[local] Instance MetaCopies_1 : MetaCopies := {|
  ObjectMeta_DeepCopyInto := Meta1_DeepCopyInto;
  ListMeta_DeepCopyInto := assign;
  ObjectMetaValue := string * option (gmap string string);
  ListMetaValue := string;
  Deep_ObjectMeta := Deep_part m1_Annotations (λ m a, (m1_Name m, a));
  Deep_ListMeta := λ _ v, Some (v, ∅)
|}.

Lemma Meta1_copies : copies Meta1_DeepCopyInto.
Proof.
  intros src dst h v u x d Hs Hd Hne Hv Hu (y & Hy & ->)%Deep_part_iff Hnd. unfold Meta1_DeepCopyInto. start_copy.
  copy_field annotations1 copy_pointer_recopies Hy as d1.
  end_copy d1. apply Deep_part_iff. by eexists.
Qed.

#[local] Instance MetaCopiesLaws_1 : MetaCopiesLaws.
Proof.
  split; [exact (Deep_part_ok _ _)|exact (Plain_ok (P := λ _ _, eq_refl))|exact Meta1_copies|].
  exact (assign_copies (P := λ _ _, eq_refl)).
Qed.

(** A list of two components: the first has annotations and consumes one API
    of an array of two, the second provides an empty list. *)
Definition api1 : APIRef := mkAPIRef (mkAPIVersionRef "orders" "1.0") "".
Definition api2 : APIRef := mkAPIRef (mkAPIVersionRef "stock" "2.0") "".
Definition component1 : GoComponent :=
  mkObjectOf (mkTypeMeta "Component" "v1alpha1") (mkMeta1 "shop" (Some 1%positive))
    (mkComponentSpecOf "Shop" "" "" zero_Version zero_VersionRef "" (Some (mkWindow 2%positive 1 1 1)) None) mkComponentStatus.
Definition component2 : GoComponent :=
  mkObjectOf (mkTypeMeta "Component" "v1alpha1") (mkMeta1 "till" None)
    (mkComponentSpecOf "Till" "" "" zero_Version zero_VersionRef "" None (Some (mkWindow 3%positive 0 0 0))) mkComponentStatus.
Definition heap1 : gmap positive Cell := list_to_map [
  (1%positive, box (T := gmap string string) {["team" := "sales"]});
  (2%positive, box (T := list APIRef) [api1; api2]);
  (3%positive, box (T := list APIRef) []);
  (4%positive, box (T := list GoComponent) [component1; component2]);
  (5%positive, box (T := GoComponentList)
    (mkListOf (mkTypeMeta "ComponentList" "v1alpha1") "7" (Some (mkWindow 4%positive 0 2 2))))].
Definition list1 : RuntimeObject := OComponentList (Some (block 5%positive)).

(** What the list denotes. *)
Definition list1_value : ObjectValue :=
  VComponentList (mkListOf (mkTypeMeta "ComponentList" "v1alpha1") "7" (Some [
    mkObjectOf (mkTypeMeta "Component" "v1alpha1") ("shop", Some {["team" := "sales"]})
      (mkComponentSpecOf "Shop" "" "" zero_Version zero_VersionRef "" (Some [api2]) None) mkComponentStatus;
    mkObjectOf (mkTypeMeta "Component" "v1alpha1") ("till", None)
      (mkComponentSpecOf "Till" "" "" zero_Version zero_VersionRef "" None (Some [])) mkComponentStatus])).

Lemma list1_reach : object_reach heap1 list1 = Some (list1_value, {[1; 2; 3; 4; 5]}%positive).
Proof. reflexivity. Qed.

Lemma DeepCopyObject_independent_witness :
  ∃ o' h' d', DeepCopyObject list1 heap1 = Some (Some o', h') ∧ object_reach h' o' = Some (list1_value, d') ∧
    d' ## dom heap1.
Proof.
  destruct (DeepCopyObject_independent list1 heap1 list1_value {[1; 2; 3; 4; 5]}%positive)
    as (o' & h' & d' & E & Hr & _ & Hd & _ & _).
  - exact (block_ok 5%positive).
  - exact list1_reach.
  - exists o', h', d'. split; [exact E|]. split; [exact Hr|exact Hd].
Defined.

(** The new list is block 6, with its five blocks behind it. *)
Example list1_copied :
  (r ← DeepCopyObject list1 heap1; o ← r.1; object_reach r.2 o) =
    Some (list1_value, {[6; 7; 8; 9; 10]}%positive).
Proof. reflexivity. Qed.

(** The contract needs two places: copied onto itself, a spec loses its
    references, because the new array is empty when it is copied from. *)
Example ComponentSpec_onto_itself :
  let p : Ptr Cell GoComponentSpec := block 1%positive in
  let h : gmap positive Cell := list_to_map [
    (1%positive, box (T := GoComponentSpec)
      (mkComponentSpecOf "Shop" "" "" zero_Version zero_VersionRef "" (Some (mkWindow 2%positive 0 2 2)) None));
    (2%positive, box (T := list APIRef) [api1; api2])] in
  (r ← ComponentSpec_DeepCopyInto p p h; v ← load p r.2; s ← reach r.2 (v.1 : GoComponentSpec);
   Some (ComponentSpecOf_Consumes s.1)) = Some (Some [zero_APIRef; zero_APIRef]).
Proof. reflexivity. Qed.
